(* ===== verification/_CoqProject ===== *)
-Q . S2P
Prelude.v
Cpu.v
Flags.v
Bcd.v
Shift.v
Flat.v
Logic.v
Ea.v
Step.v
Decode.v
JitHelpers.v
Rtc.v
Iwm.v
Scsi.v
MacState.v
Kbd.v
Via.v
Sony.v
MacMem.v
MacSafe.v
MacBus.v
MacTick.v
SonyDisk.v
Gui.v
Asm.v
DemoRom.v
XtEmit.v
XtSim.v
XtExec.v
CodeCache.v
CacheSafe.v
Block.v
Dispatcher.v
DispSafe.v
HostSim.v
Codegen.v
Compile.v
JitRun.v
JitSize.v
JitSem.v
JitOps.v
JitFlags.v
JitArms.v
JitTail.v
JitBranch.v
JitFrame.v
JitSpec.v
JitStep.v
JitBlock.v
JitEnter.v
