(* ===== verification/Prelude.v ===== *)
(** * A verification library for the mac68k-jit-xtensa emulator (root file)

    The program under [src/] emulates a Macintosh Plus: a 68000 interpreter
    and the machine around it, and a compiler of basic blocks to Xtensa code
    with the run loop that dispatches them.  On a PC the generated code runs in
    a simulator of the Xtensa; on the ESP32-S3 it runs natively.

    ** How the parts interact

    [m68k_step] (core/m68k_interp.c) executes one instruction against a bus
    (core/mac_mem.h).  The bus (core/mac_mem.c) decodes an address into RAM,
    ROM or a peripheral: VIA and RTC, IWM, SCC, SCSI, keyboard, and the trap
    window of the replacement disk driver (core/sony.c).  [mac_mem_tick]
    advances timers and interrupts between instructions or blocks.  The run
    loop (jit/dispatcher.c) looks the program counter up in a table of blocks;
    a miss compiles one (jit/codegen.c through jit/emit_xtensa.c) into the
    arena of the code cache (jit/codecache.c), whose evictions call back into
    the table.  A block's execution enters the simulator (jit/xtensa_sim.c),
    whose loads, stores and helper calls reach the machine again; guest writes
    to pages with compiled code queue the page for invalidation.

    ** Files

    The interpreter:
    - Cpu.v: the register file and SR helpers (core/m68k_cpu.h); the typeclass
      [Bus] the interpreter is written against and its contract [BusOk].
    - Flags.v, Bcd.v, Shift.v: condition codes, decimal arithmetic, shifts
      and rotates.  Ea.v: fetch, effective addresses, exceptions, MOVEM.
    - Flat.v: a byte array as the simplest [Bus], for examples.
    - Logic.v: a program logic for the monad; Step.v: [m68k_step], one
      definition per case of the C switch.
    - Decode.v: [m68k_decode_at], against what [m68k_step] consumes.
    - JitHelpers.v: the [m68k_jit_*] functions compiled code calls.

    The machine:
    - MacState.v: the structures of core/mac_mem.h, core/mac_input.c and
      core/sony.c.  Rtc.v, Iwm.v, Scsi.v, Kbd.v, Via.v, Sony.v: a file each
      for the peripherals (core/mac_iwm.c holds the first two).
    - MacMem.v: memory map, tick and loaders (core/mac_mem.c, the extraction
      part of core/mac_snd.c); MacSafe.v: the machine's invariant; MacBus.v:
      the memory map is a [BusOk] instance; MacTick.v: the tick's theorems;
      SonyDisk.v: disk transfers through the memory map.

    The JIT:
    - XtEmit.v: encoder (jit/emit_xtensa.c); XtSim.v: simulator
      (jit/xtensa_sim.c); XtExec.v: the one against the other, through the
      documented meaning of each instruction.
    - CodeCache.v, CacheSafe.v: the arena and its allocators.
    - Block.v: block descriptors, extent and static successors
      (jit/codegen.h, jit/codegen.c).  Dispatcher.v, DispSafe.v: block table,
      invalidation, prefetching, run loop (jit/dispatcher.c); compiler and
      execution of a block are an interface there, with laws.
    - HostSim.v: the host's execution of a block, that is, the simulator's
      callbacks over the machine and [enter_block] (jit/dispatcher.c).
    - Codegen.v: the emission functions; Compile.v: [m68k_compile_block] with
      the arms of the register operations, LEA and the branches.
    - JitRun.v: compiled blocks next to the interpreter on concrete programs.
    - JitSize.v: the bytes each arm emits and what the span must hold.
    - JitSem.v, JitOps.v, JitFlags.v: emitted instructions as transitions of
      the simulator; the guest registers of [struct jit_state] as memory; the
      condition codes of compiled code against those of the interpreter.
    - JitArms.v, JitTail.v, JitBranch.v, JitFrame.v: each arm, the exit tail,
      the branches and the prologue, in those terms.
    - JitSpec.v, JitStep.v, JitBlock.v, JitEnter.v: the refinement: what one
      operation, the operations of a block, and a block entered through
      [enter_block] do, against [m68k_step].

    The host's front end and the guest programs:
    - Gui.v: the screen, sound and input link between the emulator
      (port/host/main.c) and the window program (gui/mac_gui.c, gui/protocol.h).
    - Asm.v: the assembler of core/m68k_asm.h; DemoRom.v: the demo ROM of
      core/demo_rom.c and the interpreter's run loop [m68k_run_until] on it.

    ** Correspondence

    Structs are records with the C names, a setter per field; a C function
    keeps its name, and a large one is cut along its branches.  State is
    passed by the monad [M] of this file: [None] is undefined behaviour of C
    (and, for assertions, a stop), never an ordinary failure.  Integers are
    [Z] with [u8] .. [u64], [i8] .. [i32] written where C converts.  Pointers
    into the arena are offsets; a block reference is a heap key, so that a use
    after free is visible; the host's address space of the simulator is the
    one [sim_translate] defines.

    ** What the theorems show

    Decoder and interpreter agree on instruction lengths and on what ends a
    block; a step keeps the machine well formed; flags, shifts and decimal
    arithmetic equal their arithmetic meaning; helpers do what the
    interpreter does.  The RTC's and SCSI's protocols, the GCR encoding and
    the disk driver's transfers have functional theorems over whole
    transactions; timers count exactly however ticks are grouped.  Memory
    accesses are safe on every state and the cases that are undefined are
    characterised.  The encoder, bytes and bounds, and the simulator agree
    instruction by instruction, and emitted code returns.  The code cache
    partitions its arena; the run loop never follows a dangling block and
    drops overwritten code; compiled code's inline memory access agrees with
    the memory map.  A block of register operations and its branch, entered
    through the simulator, leaves the machine where the interpreter's steps
    leave it, and the compiler never writes past the span it was given.

    The window shows the emulator's screen whatever frames were sent before,
    and how the bytes were run-length coded.  The assembler's output, label
    fix-ups included, is that of a two-pass reference; the demo ROM it builds
    runs to its end on the interpreter and passes.

    ** Bounds and fuel

    Recursion that C bounds by data uses fuel that the theorems show to be
    enough: [vbl_fuel] for the blanking loop, the list walks of the code
    cache by the number of spans, evictions by the number of blocks,
    [mark_fuel] for page marking by the pages of a block.  Writes to the trap
    window from inside the driver nest up to [extn_depth] 64 levels, deeper
    nesting has no result in the model; no theorem needs more than one.  [max_steps] is the
    simulator's own limit of 2^22.  The run loop is stated per iteration and
    for any number of iterations.  The demo ROM's run is evaluated with 1000
    iterations of the run loop, more than it uses, and its padding loop with
    128 bytes, the alignment it pads to.

    ** Not modelled, and why

    - The arms of [m68k_compile_block] for operations on memory, calls,
      returns, DBcc, shifts and bit operations, and the helper fallback, and
      the chaining of blocks that only the ESP32 build emits.  [compile_code]
      has no result on a block with such an operation.
    - The floating-point filter of core/mac_snd.c, the floating-point layout
      and the drawing of the window's on-screen keyboard (gui/mac_gui.c).
    - port/host/main.c beyond the link to the window: command line, files,
      sockets and signals; port/ for the ESP32: board start-up and drivers.
    - tests/, tools/: test drivers and guest programs.

    A claim about a peripheral's behaviour is about the code, not about the
    hardware; where they differ the manifest records a finding. *)

From Stdlib Require Import ZArith Lia Btauto.
From stdpp Require Import base tactics list numbers gmap.

Open Scope Z_scope.

(** ** C integer types (include/m68k_types.h)

    A value of an unsigned type is the [Z] in its range; converting to the
    type reduces modulo the type's size.  A value of a signed type is the [Z]
    in its range; the conversion wraps in two's complement, as the compilers
    this code is built with define it. *)

Definition u8 (x : Z) : Z := x mod 0x100.
Definition u16 (x : Z) : Z := x mod 0x10000.
Definition u32 (x : Z) : Z := x mod 0x100000000.
Definition u64 (x : Z) : Z := x mod 0x10000000000000000.

Definition i8 (x : Z) : Z := let y := u8 x in if y <? 0x80 then y else y - 0x100.
Definition i16 (x : Z) : Z := let y := u16 x in if y <? 0x8000 then y else y - 0x10000.
Definition i32 (x : Z) : Z :=
  let y := u32 x in if y <? 0x80000000 then y else y - 0x100000000.

Declare Scope c_scope.
Infix ".&" := Z.land (at level 36, left associativity) : c_scope.
Infix ".^" := Z.lxor (at level 37, left associativity) : c_scope.
Infix ".|" := Z.lor (at level 38, left associativity) : c_scope.
(** [~x] at [u32]. *)
Definition not32 (x : Z) : Z := u32 (Z.lnot x).
(** The truth value of a C integer, and the integer of a C comparison. *)
Definition nz (x : Z) : bool := negb (x =? 0).
Definition b2z (b : bool) : Z := if b then 1 else 0.
Open Scope c_scope.

(** ** The state monad of the C code

    [None] is undefined behaviour of C reached on this path (a signed
    overflow, an access outside an object); it is never a normal result. *)

Definition M (S A : Type) : Type := S → option (A * S).

#[export] Instance M_ret S : MRet (M S) := λ A a s, Some (a, s).
#[export] Instance M_bind S : MBind (M S) := λ A B k m s,
  match m s with Some (a, s') => k a s' | None => None end.

Definition undefined_behaviour {S A} : M S A := λ _, None.
Definition gets {S A} (f : S → A) : M S A := λ s, Some (f s, s).
Definition modify {S} (f : S → S) : M S unit := λ s, Some (tt, f s).
Definition when {S} (b : bool) (m : M S unit) : M S unit := if b then m else mret tt.

(** [for (i = 0; i < n; i++) body(i)]. *)
Fixpoint for_each {S} (l : list Z) (body : Z → M S unit) : M S unit :=
  match l with
  | [] => mret tt
  | i :: l' => body i ;; for_each l' body
  end.

(** The same with a value threaded through the iterations. *)
Fixpoint fold_each {S A} (l : list Z) (body : Z → A → M S A) (acc : A) : M S A :=
  match l with
  | [] => mret acc
  | i :: l' => x ← body i acc; fold_each l' body x
  end.

Definition upto (n : nat) : list Z := Z.of_nat <$> seq 0 n.

Lemma bind_ret_l {S A B} (a : A) (k : A → M S B) : (x ← mret a; k x) = k a.
Proof. reflexivity. Qed.

Lemma bind_Some {S A B} (m : M S A) (k : A → M S B) s a s' :
  m s = Some (a, s') → (x ← m; k x) s = k a s'.
Proof. unfold mbind, M_bind. by intros ->. Qed.
Lemma bind_assoc {S A B C} (m : M S A) (f : A → M S B) (g : B → M S C) s :
  ((m ≫= f) ≫= g) s = (m ≫= λ x, f x ≫= g) s.
Proof. unfold mbind, M_bind. by destruct (m s) as [[]|]. Qed.

(** ** Arrays of C integers *)

Definition znth (l : list Z) (i : Z) : Z := nth (Z.to_nat i) l 0.
Definition zset (l : list Z) (i v : Z) : list Z := <[Z.to_nat i := v]> l.

Lemma zset_length l i v : length (zset l i v) = length l.
Proof. apply length_insert. Qed.

Lemma znth_zset_eq l i v :
  0 ≤ i < Z.of_nat (length l) → znth (zset l i v) i = v.
Proof.
  intros Hi. unfold znth, zset. rewrite nth_lookup, list_lookup_insert_eq; [done|lia].
Qed.

Lemma znth_zset_ne l i j v :
  0 ≤ i → 0 ≤ j → i ≠ j → znth (zset l i v) j = znth l j.
Proof.
  intros. unfold znth, zset. rewrite !nth_lookup, list_lookup_insert_ne; [done|lia].
Qed.

Lemma zset_zset_eq l i v w : zset (zset l i v) i w = zset l i w.
Proof. apply list_insert_insert_eq. Qed.

Lemma zset_comm l i j v w :
  0 ≤ i → 0 ≤ j → i ≠ j → zset (zset l i v) j w = zset (zset l j w) i v.
Proof. intros. apply list_insert_insert_ne. lia. Qed.

Lemma znth_Forall (P : Z → Prop) l i : P 0 → Forall P l → P (znth l i).
Proof.
  intros H0 Hl. unfold znth. rewrite nth_lookup.
  destruct (l !! Z.to_nat i) eqn:E; [|done]. by eapply Forall_lookup_1 in E.
Qed.

Lemma zset_Forall (P : Z → Prop) l i v : P v → Forall P l → Forall P (zset l i v).
Proof. intros. by apply Forall_insert. Qed.

(** ** Ranges *)

Definition in_u (w x : Z) : Prop := 0 ≤ x < 2 ^ w.

Lemma u8_range x : 0 ≤ u8 x < 0x100.
Proof. apply Z.mod_pos_bound. lia. Qed.
Lemma u16_range x : 0 ≤ u16 x < 0x10000.
Proof. apply Z.mod_pos_bound. lia. Qed.
Lemma u32_range x : 0 ≤ u32 x < 0x100000000.
Proof. apply Z.mod_pos_bound. lia. Qed.
Lemma u64_range x : 0 ≤ u64 x < 0x10000000000000000.
Proof. apply Z.mod_pos_bound. lia. Qed.

Lemma u8_small x : 0 ≤ x < 0x100 → u8 x = x.
Proof. apply Z.mod_small. Qed.
Lemma u16_small x : 0 ≤ x < 0x10000 → u16 x = x.
Proof. apply Z.mod_small. Qed.
Lemma u32_small x : 0 ≤ x < 0x100000000 → u32 x = x.
Proof. apply Z.mod_small. Qed.
Lemma u64_small x : 0 ≤ x < 0x10000000000000000 → u64 x = x.
Proof. apply Z.mod_small. Qed.

Lemma u32_idemp x : u32 (u32 x) = u32 x.
Proof. apply u32_small, u32_range. Qed.
Lemma u32_add_l x y : u32 (u32 x + y) = u32 (x + y).
Proof. apply Zplus_mod_idemp_l. Qed.
Lemma u32_add_r x y : u32 (x + u32 y) = u32 (x + y).
Proof. apply Zplus_mod_idemp_r. Qed.
Lemma u32_sub_l x y : u32 (u32 x - y) = u32 (x - y).
Proof. apply Zminus_mod_idemp_l. Qed.
Lemma u32_sub_r x y : u32 (x - u32 y) = u32 (x - y).
Proof. apply Zminus_mod_idemp_r. Qed.

Lemma div_bound x k m : 0 < k → 0 ≤ x < k * m → 0 ≤ x / k < m.
Proof.
  intros Hk Hx. split; [apply Z.div_pos; lia|]. apply Z.div_lt_upper_bound; lia.
Qed.

Create HintDb c_int.
Create Rewrite HintDb c_int.
#[export] Hint Resolve u8_range u16_range u32_range u64_range : c_int.
#[export] Hint Rewrite u32_idemp u32_add_l u32_add_r u32_sub_l u32_sub_r : c_int.

(** ** Bit-by-bit equality of integers *)

Lemma testbit_if (b : bool) x y i :
  Z.testbit (if b then x else y) i = if b then Z.testbit x i else Z.testbit y i.
Proof. by destruct b. Qed.

Create Rewrite HintDb zbits.
#[export] Hint Rewrite Z.land_spec Z.lor_spec Z.lxor_spec Z.ldiff_spec Z.testbit_0_l
  testbit_if : zbits.
#[export] Hint Rewrite Z.shiftr_spec Z.shiftl_spec Z.lnot_spec using lia : zbits.

(** [zbits i] reduces an equation of integers to one on bit [i ≥ 0]. *)
Ltac zbits i :=
  apply Z.bits_inj'; intros i ?; autorewrite with zbits.

(** Bit operations bounded by their operands. *)
Lemma land_range_r x m w : 0 ≤ m < w → 0 ≤ x .& m < w.
Proof.
  intros [Hm Hw]. enough (0 ≤ x .& m ≤ m) by lia.
  apply Z.ldiff_le; [done|]. zbits i.
  by destruct (Z.testbit x i), (Z.testbit m i).
Qed.

Lemma lor_range w x y : 0 ≤ w → 0 ≤ x < 2 ^ w → 0 ≤ y < 2 ^ w → 0 ≤ x .| y < 2 ^ w.
Proof.
  intros Hw Hx Hy. split; [apply Z.lor_nonneg; lia|].
  destruct (Z.eq_dec (x .| y) 0) as [->|Hne]; [lia|].
  assert (0 ≤ x .| y) by (apply Z.lor_nonneg; lia).
  apply Z.log2_lt_pow2; [lia|]. rewrite Z.log2_lor by lia.
  destruct (Z.eq_dec x 0) as [->|]; destruct (Z.eq_dec y 0) as [->|].
  - by rewrite Z.lor_0_l in Hne.
  - rewrite Z.max_r by (apply Z.log2_nonneg). apply Z.log2_lt_pow2; lia.
  - rewrite Z.max_l by (apply Z.log2_nonneg). apply Z.log2_lt_pow2; lia.
  - apply Z.max_lub_lt; apply Z.log2_lt_pow2; lia.
Qed.

Lemma testbit_high w x i : 0 ≤ x < 2 ^ w → w ≤ i → Z.testbit x i = false.
Proof.
  intros Hx Hi. destruct (Z.le_gt_cases 0 w).
  - rewrite <- (Z.mod_small x (2 ^ w)) by done. by apply Z.mod_pow2_bits_high.
  - rewrite Z.pow_neg_r in Hx by lia. lia.
Qed.

Lemma land_ones_low x m w : 0 ≤ w → m = 2 ^ w - 1 → x .& m = x mod 2 ^ w.
Proof. intros Hw ->. rewrite <- Z.land_ones by done. f_equal. rewrite Z.ones_equiv. lia. Qed.

(** Rounding down to a multiple of [2^k] by a mask. *)
Lemma land_not_low k x : 0 ≤ k < 32 → 0 ≤ x < 0x100000000 → x .& not32 (2 ^ k - 1) = x - x mod 2 ^ k.
Proof.
  intros Hk Hx. assert (not32 (2 ^ k - 1) = Z.ldiff (Z.ones 32) (Z.ones k)) as ->.
  { unfold not32, u32. change 0x100000000 with (2 ^ 32). rewrite <- Z.land_ones by lia.
    replace (2 ^ k - 1) with (Z.ones k) by (rewrite Z.ones_equiv; lia). zbits i. btauto. }
  assert (x .& Z.ldiff (Z.ones 32) (Z.ones k) = Z.ldiff x (Z.ones k)) as ->.
  { zbits i. destruct (Z.lt_ge_cases i 32).
    - rewrite Z.ones_spec_low by lia. done.
    - by rewrite (testbit_high 32 x i). }
  rewrite Z.ldiff_ones_r, Z.shiftr_div_pow2, Z.shiftl_mul_pow2 by lia.
  pose proof (Z.div_mod x (2 ^ k)). lia.
Qed.

(** ** Single-bit tests *)

Lemma nz_land_pow2 x k : 0 ≤ k → nz (x .& 2 ^ k) = Z.testbit x k.
Proof.
  intros Hk. unfold nz. destruct (Z.testbit x k) eqn:E.
  - destruct (Z.eqb_spec (x .& 2 ^ k) 0) as [H|]; [|done].
    apply (f_equal (λ z, Z.testbit z k)) in H.
    rewrite Z.land_spec, E, Z.pow2_bits_true, Z.testbit_0_l in H; done.
  - enough (x .& 2 ^ k = 0) as -> by done. zbits i.
    destruct (decide (i = k)) as [->|]; [by rewrite E|].
    rewrite Z.pow2_bits_false by done. apply andb_false_r.
Qed.

Lemma testbit_top w x : 0 < w → 0 ≤ x < 2 ^ w → Z.testbit x (w - 1) = (2 ^ (w - 1) <=? x).
Proof.
  intros Hw Hx. rewrite Z.testbit_odd, Z.shiftr_div_pow2 by lia.
  assert (2 ^ w = 2 * 2 ^ (w - 1)) as E.
  { rewrite <- Z.pow_succ_r by lia. f_equal. lia. }
  assert (0 < 2 ^ (w - 1)) by lia.
  destruct (Z.leb_spec (2 ^ (w - 1)) x).
  - replace (x / 2 ^ (w - 1)) with 1; [done|]. apply Z.div_unique with (x - 2 ^ (w - 1)); lia.
  - rewrite Z.div_small by lia. done.
Qed.

(** Boolean equalities by case analysis on the linear tests they contain. *)
Lemma eqb_iff (b c : bool) : (b = true ↔ c = true) → b = c.
Proof. destruct b, c; intuition congruence. Qed.

(** ** Exhaustive checks of [n]-bit values *)

(** [f] on every [n]-bit continuation of [acc]. *)
Fixpoint all_bits (n : nat) (f : Z → bool) (acc : Z) : bool :=
  match n with
  | O => f acc
  | S n => all_bits n f (2 * acc) && all_bits n f (2 * acc + 1)
  end.

Lemma all_bits_spec n f acc : all_bits n f acc = true →
  ∀ i, 0 ≤ i < 2 ^ Z.of_nat n → f (acc * 2 ^ Z.of_nat n + i) = true.
Proof.
  revert acc. induction n as [|n IH]; intros acc H i Hi.
  - change (2 ^ Z.of_nat 0) with 1 in *. replace (acc * 1 + i) with acc by lia. exact H.
  - simpl in H. apply andb_true_iff in H as [H0 H1].
    rewrite Nat2Z.inj_succ, Z.pow_succ_r in * by lia.
    destruct (Z_lt_dec i (2 ^ Z.of_nat n)).
    + specialize (IH _ H0 i ltac:(lia)). rewrite <- IH. f_equal. lia.
    + specialize (IH _ H1 (i - 2 ^ Z.of_nat n) ltac:(lia)). rewrite <- IH. f_equal. lia.
Qed.

(** The instance for a whole value, its first digit as [acc = 0]. *)
Lemma all_bits_0 n f : all_bits n f 0 = true → ∀ i, 0 ≤ i < 2 ^ Z.of_nat n → f i = true.
Proof. intros H i Hi. by apply (all_bits_spec n f 0 H). Qed.

(** ** Bytes, and words joined from them *)

Definition byte (x : Z) : Prop := 0 ≤ x < 0x100.
Definition byteb (x : Z) : bool := (0 <=? x) && (x <? 0x100).

Lemma forallb_byte l : forallb byteb l = true → Forall byte l.
Proof.
  induction l as [|v l IH]; simpl; [done|]. rewrite andb_true_iff. unfold byteb. intros [? ?].
  apply Forall_cons_2; [unfold byte; lia|auto].
Qed.

Lemma lor_shiftl_add k x y : 0 ≤ k → 0 ≤ y < 2 ^ k → (x ≪ k) .| y = x * 2 ^ k + y.
Proof.
  intros Hk Hy. assert ((x ≪ k) .& y = 0) as Hd.
  { zbits i. destruct (Z.lt_ge_cases i k).
    - by rewrite Z.testbit_neg_r by lia.
    - by rewrite (testbit_high k y i), andb_false_r. }
  rewrite <- Z.shiftl_mul_pow2 by done.
  by rewrite Z.add_nocarry_lxor, Z.lxor_lor by done.
Qed.

Lemma join16 b1 b0 : byte b0 → (b1 ≪ 8) .| b0 = b1 * 0x100 + b0.
Proof. intros. by apply (lor_shiftl_add 8). Qed.

Lemma join32 b3 b2 b1 b0 : byte b2 → byte b1 → byte b0 →
  (b3 ≪ 24) .| (b2 ≪ 16) .| (b1 ≪ 8) .| b0
  = b3 * 0x1000000 + b2 * 0x10000 + b1 * 0x100 + b0.
Proof.
  unfold byte. intros H2 H1 H0. rewrite <- !Z.lor_assoc.
  rewrite (lor_shiftl_add 8 b1) by lia.
  rewrite (lor_shiftl_add 16 b2) by lia. rewrite (lor_shiftl_add 24 b3) by lia. lia.
Qed.

(** The bytes of a word, most significant first, and their value. *)
Lemma shiftr_byte x k : 0 ≤ k → (x ≫ k) .& 0xFF = (x / 2 ^ k) mod 0x100.
Proof. intros. rewrite <- Z.shiftr_div_pow2 by done. by apply (land_ones_low _ 0xFF 8). Qed.

Lemma bytes_of_word x : 0 ≤ x < 0x100000000 →
  x / 0x1000000 * 0x1000000 + (x / 0x10000) mod 0x100 * 0x10000
  + (x / 0x100) mod 0x100 * 0x100 + x mod 0x100 = x.
Proof.
  intros. change 0x1000000 with (0x100 * 0x100 * 0x100). change 0x10000 with (0x100 * 0x100).
  rewrite <- !Zdiv_Zdiv by lia.
  pose proof (Z.div_mod x 0x100). pose proof (Z.div_mod (x / 0x100) 0x100).
  pose proof (Z.div_mod (x / 0x100 / 0x100) 0x100). lia.
Qed.
