(* ===== verification/Cpu.v ===== *)
(** * The 68000 register file and the bus interface

    [core/m68k_cpu.h]: the register file, the SR helpers, [m68k_sync_sp] and
    [m68k_reset]; the typeclass [Bus] is what [core/mac_mem.h] offers to the
    interpreter, and [BusOk] is what the interpreter's theorems rely on. *)

From Stdlib Require Import ZArith Lia.
From stdpp Require Import base tactics list numbers.
From S2P Require Import Prelude.

(** Condition code and status register bits. *)
Definition CCR_C : Z := 0x01.
Definition CCR_V : Z := 0x02.
Definition CCR_Z : Z := 0x04.
Definition CCR_N : Z := 0x08.
Definition CCR_X : Z := 0x10.
Definition SR_S : Z := 0x2000.
Definition SR_T : Z := 0x8000.
Definition SR_IMASK : Z := 0x0700.

(** Reasons the run loop stops. *)
Definition M68K_RUN : Z := 0.
Definition M68K_HALT_RESET : Z := 1.
Definition M68K_HALT_DOUBLE_FAULT : Z := 2.
Definition M68K_HALT_ILLEGAL : Z := 3.
Definition M68K_HALT_GUEST_EXIT : Z := 4.

(** The register file.  Assigning to a field converts to the field's C type,
    so each setter does; the [mem] pointer is the [bus] of the state below. *)
Record m68k_cpu := mk_cpu {
  cpu_d : list Z;  (** d[8] *)
  cpu_a : list Z;  (** a[8]; a[7] is the active SP *)
  cpu_pc : Z;
  cpu_sr : Z;
  cpu_usp : Z;
  cpu_ssp : Z;
  cpu_cycles : Z;
  cpu_instrs : Z;
  cpu_stopped : Z;
  cpu_halted : Z;
  cpu_exit_code : Z;
  cpu_pending_irq : Z;
  cpu_jit_ret_pc : Z;
  cpu_jit_arg1 : Z;
  cpu_jit_arg2 : Z;
  cpu_current_block : option Z;  (** index of the active block, NULL is None *)
  cpu_chain_budget : Z
}.

Definition set_cpu_d (v : list Z) (x : m68k_cpu) : m68k_cpu :=
  mk_cpu v (cpu_a x) (cpu_pc x) (cpu_sr x) (cpu_usp x) (cpu_ssp x) (cpu_cycles x)
    (cpu_instrs x) (cpu_stopped x) (cpu_halted x) (cpu_exit_code x) (cpu_pending_irq x)
    (cpu_jit_ret_pc x) (cpu_jit_arg1 x) (cpu_jit_arg2 x) (cpu_current_block x)
    (cpu_chain_budget x).
Definition set_cpu_a (v : list Z) (x : m68k_cpu) : m68k_cpu :=
  mk_cpu (cpu_d x) v (cpu_pc x) (cpu_sr x) (cpu_usp x) (cpu_ssp x) (cpu_cycles x)
    (cpu_instrs x) (cpu_stopped x) (cpu_halted x) (cpu_exit_code x) (cpu_pending_irq x)
    (cpu_jit_ret_pc x) (cpu_jit_arg1 x) (cpu_jit_arg2 x) (cpu_current_block x)
    (cpu_chain_budget x).
Definition set_cpu_pc (v : Z) (x : m68k_cpu) : m68k_cpu :=
  mk_cpu (cpu_d x) (cpu_a x) (u32 v) (cpu_sr x) (cpu_usp x) (cpu_ssp x) (cpu_cycles x)
    (cpu_instrs x) (cpu_stopped x) (cpu_halted x) (cpu_exit_code x) (cpu_pending_irq x)
    (cpu_jit_ret_pc x) (cpu_jit_arg1 x) (cpu_jit_arg2 x) (cpu_current_block x)
    (cpu_chain_budget x).
Definition set_cpu_sr (v : Z) (x : m68k_cpu) : m68k_cpu :=
  mk_cpu (cpu_d x) (cpu_a x) (cpu_pc x) (u16 v) (cpu_usp x) (cpu_ssp x) (cpu_cycles x)
    (cpu_instrs x) (cpu_stopped x) (cpu_halted x) (cpu_exit_code x) (cpu_pending_irq x)
    (cpu_jit_ret_pc x) (cpu_jit_arg1 x) (cpu_jit_arg2 x) (cpu_current_block x)
    (cpu_chain_budget x).
Definition set_cpu_usp (v : Z) (x : m68k_cpu) : m68k_cpu :=
  mk_cpu (cpu_d x) (cpu_a x) (cpu_pc x) (cpu_sr x) (u32 v) (cpu_ssp x) (cpu_cycles x)
    (cpu_instrs x) (cpu_stopped x) (cpu_halted x) (cpu_exit_code x) (cpu_pending_irq x)
    (cpu_jit_ret_pc x) (cpu_jit_arg1 x) (cpu_jit_arg2 x) (cpu_current_block x)
    (cpu_chain_budget x).
Definition set_cpu_ssp (v : Z) (x : m68k_cpu) : m68k_cpu :=
  mk_cpu (cpu_d x) (cpu_a x) (cpu_pc x) (cpu_sr x) (cpu_usp x) (u32 v) (cpu_cycles x)
    (cpu_instrs x) (cpu_stopped x) (cpu_halted x) (cpu_exit_code x) (cpu_pending_irq x)
    (cpu_jit_ret_pc x) (cpu_jit_arg1 x) (cpu_jit_arg2 x) (cpu_current_block x)
    (cpu_chain_budget x).
Definition set_cpu_cycles (v : Z) (x : m68k_cpu) : m68k_cpu :=
  mk_cpu (cpu_d x) (cpu_a x) (cpu_pc x) (cpu_sr x) (cpu_usp x) (cpu_ssp x) (u64 v)
    (cpu_instrs x) (cpu_stopped x) (cpu_halted x) (cpu_exit_code x) (cpu_pending_irq x)
    (cpu_jit_ret_pc x) (cpu_jit_arg1 x) (cpu_jit_arg2 x) (cpu_current_block x)
    (cpu_chain_budget x).
Definition set_cpu_instrs (v : Z) (x : m68k_cpu) : m68k_cpu :=
  mk_cpu (cpu_d x) (cpu_a x) (cpu_pc x) (cpu_sr x) (cpu_usp x) (cpu_ssp x) (cpu_cycles x)
    (u64 v) (cpu_stopped x) (cpu_halted x) (cpu_exit_code x) (cpu_pending_irq x)
    (cpu_jit_ret_pc x) (cpu_jit_arg1 x) (cpu_jit_arg2 x) (cpu_current_block x)
    (cpu_chain_budget x).
Definition set_cpu_stopped (v : Z) (x : m68k_cpu) : m68k_cpu :=
  mk_cpu (cpu_d x) (cpu_a x) (cpu_pc x) (cpu_sr x) (cpu_usp x) (cpu_ssp x) (cpu_cycles x)
    (cpu_instrs x) (u8 v) (cpu_halted x) (cpu_exit_code x) (cpu_pending_irq x)
    (cpu_jit_ret_pc x) (cpu_jit_arg1 x) (cpu_jit_arg2 x) (cpu_current_block x)
    (cpu_chain_budget x).
Definition set_cpu_halted (v : Z) (x : m68k_cpu) : m68k_cpu :=
  mk_cpu (cpu_d x) (cpu_a x) (cpu_pc x) (cpu_sr x) (cpu_usp x) (cpu_ssp x) (cpu_cycles x)
    (cpu_instrs x) (cpu_stopped x) (u8 v) (cpu_exit_code x) (cpu_pending_irq x)
    (cpu_jit_ret_pc x) (cpu_jit_arg1 x) (cpu_jit_arg2 x) (cpu_current_block x)
    (cpu_chain_budget x).
Definition set_cpu_exit_code (v : Z) (x : m68k_cpu) : m68k_cpu :=
  mk_cpu (cpu_d x) (cpu_a x) (cpu_pc x) (cpu_sr x) (cpu_usp x) (cpu_ssp x) (cpu_cycles x)
    (cpu_instrs x) (cpu_stopped x) (cpu_halted x) (u8 v) (cpu_pending_irq x)
    (cpu_jit_ret_pc x) (cpu_jit_arg1 x) (cpu_jit_arg2 x) (cpu_current_block x)
    (cpu_chain_budget x).
Definition set_cpu_pending_irq (v : Z) (x : m68k_cpu) : m68k_cpu :=
  mk_cpu (cpu_d x) (cpu_a x) (cpu_pc x) (cpu_sr x) (cpu_usp x) (cpu_ssp x) (cpu_cycles x)
    (cpu_instrs x) (cpu_stopped x) (cpu_halted x) (cpu_exit_code x) (u8 v) (cpu_jit_ret_pc
    x) (cpu_jit_arg1 x) (cpu_jit_arg2 x) (cpu_current_block x) (cpu_chain_budget x).
Definition set_cpu_jit_ret_pc (v : Z) (x : m68k_cpu) : m68k_cpu :=
  mk_cpu (cpu_d x) (cpu_a x) (cpu_pc x) (cpu_sr x) (cpu_usp x) (cpu_ssp x) (cpu_cycles x)
    (cpu_instrs x) (cpu_stopped x) (cpu_halted x) (cpu_exit_code x) (cpu_pending_irq x)
    (u32 v) (cpu_jit_arg1 x) (cpu_jit_arg2 x) (cpu_current_block x) (cpu_chain_budget x).
Definition set_cpu_jit_arg1 (v : Z) (x : m68k_cpu) : m68k_cpu :=
  mk_cpu (cpu_d x) (cpu_a x) (cpu_pc x) (cpu_sr x) (cpu_usp x) (cpu_ssp x) (cpu_cycles x)
    (cpu_instrs x) (cpu_stopped x) (cpu_halted x) (cpu_exit_code x) (cpu_pending_irq x)
    (cpu_jit_ret_pc x) (u32 v) (cpu_jit_arg2 x) (cpu_current_block x) (cpu_chain_budget
    x).
Definition set_cpu_jit_arg2 (v : Z) (x : m68k_cpu) : m68k_cpu :=
  mk_cpu (cpu_d x) (cpu_a x) (cpu_pc x) (cpu_sr x) (cpu_usp x) (cpu_ssp x) (cpu_cycles x)
    (cpu_instrs x) (cpu_stopped x) (cpu_halted x) (cpu_exit_code x) (cpu_pending_irq x)
    (cpu_jit_ret_pc x) (cpu_jit_arg1 x) (u32 v) (cpu_current_block x) (cpu_chain_budget
    x).
Definition set_cpu_current_block (v : option Z) (x : m68k_cpu) : m68k_cpu :=
  mk_cpu (cpu_d x) (cpu_a x) (cpu_pc x) (cpu_sr x) (cpu_usp x) (cpu_ssp x) (cpu_cycles x)
    (cpu_instrs x) (cpu_stopped x) (cpu_halted x) (cpu_exit_code x) (cpu_pending_irq x)
    (cpu_jit_ret_pc x) (cpu_jit_arg1 x) (cpu_jit_arg2 x) v (cpu_chain_budget x).
Definition set_cpu_chain_budget (v : Z) (x : m68k_cpu) : m68k_cpu :=
  mk_cpu (cpu_d x) (cpu_a x) (cpu_pc x) (cpu_sr x) (cpu_usp x) (cpu_ssp x) (cpu_cycles x)
    (cpu_instrs x) (cpu_stopped x) (cpu_halted x) (cpu_exit_code x) (cpu_pending_irq x)
    (cpu_jit_ret_pc x) (cpu_jit_arg1 x) (cpu_jit_arg2 x) (cpu_current_block x) (u32 v).

Definition cpu_zero : m68k_cpu :=
  mk_cpu (replicate 8 0) (replicate 8 0) 0 0 0 0 0 0 0 0 0 0 0 0 0 None 0.

Definition dreg (c : m68k_cpu) (i : Z) : Z := znth (cpu_d c) i.
Definition areg (c : m68k_cpu) (i : Z) : Z := znth (cpu_a c) i.
Definition set_dreg (i v : Z) (c : m68k_cpu) : m68k_cpu :=
  set_cpu_d (zset (cpu_d c) i (u32 v)) c.
Definition set_areg (i v : Z) (c : m68k_cpu) : m68k_cpu :=
  set_cpu_a (zset (cpu_a c) i (u32 v)) c.

Definition m68k_get_ccr (c : m68k_cpu) : Z := u8 (cpu_sr c .& 0x1F).
Definition m68k_set_ccr (v : Z) (c : m68k_cpu) : m68k_cpu :=
  set_cpu_sr (u16 ((cpu_sr c .& 0xFF00) .| (v .& 0x1F))) c.
Definition m68k_is_super (c : m68k_cpu) : bool := nz (cpu_sr c .& SR_S).

Definition m68k_sync_sp (was_super : bool) (c : m68k_cpu) : m68k_cpu :=
  let now_super := m68k_is_super c in
  if Bool.eqb was_super now_super then c
  else if was_super then
    let c := set_cpu_ssp (areg c 7) c in
    set_areg 7 (cpu_usp c) c
  else
    let c := set_cpu_usp (areg c 7) c in
    set_areg 7 (cpu_ssp c) c.

(** ** The machine state of the interpreter

    The register file, the bus behind [cpu->mem], and the two file-scope
    variables of the exception log. *)

Record st (B : Type) := mk_st {
  cpu : m68k_cpu;
  bus : B;
  exc_log : list (Z * Z * Z);   (** m68k_exc_log[64][3] *)
  exc_n : Z                     (** m68k_exc_n *)
}.
Arguments mk_st {B}.
Arguments cpu {B}.
Arguments bus {B}.
Arguments exc_log {B}.
Arguments exc_n {B}.

Definition with_cpu {B} (f : m68k_cpu → m68k_cpu) (s : st B) : st B :=
  mk_st (f (cpu s)) (bus s) (exc_log s) (exc_n s).
Definition with_bus {B} (f : B → B) (s : st B) : st B :=
  mk_st (cpu s) (f (bus s)) (exc_log s) (exc_n s).

(** Reading and assigning a register of [cpu]. *)
Definition upd {B} (f : m68k_cpu → m68k_cpu) : M (st B) unit := modify (with_cpu f).
Definition getc {B A} (f : m68k_cpu → A) : M (st B) A := gets (λ s, f (cpu s)).
Definition add_cycles {B} (n : Z) : M (st B) unit :=
  upd (λ c, set_cpu_cycles (cpu_cycles c + n) c).

(** ** The bus interface

    The accessors of [core/mac_mem.h] the interpreter calls, and the
    [m68k_trap_hook] function pointer the host may install. *)

Class Bus (B : Type) := {
  rd8 : Z → M (st B) Z;
  rd16 : Z → M (st B) Z;
  rd32 : Z → M (st B) Z;
  wr8 : Z → Z → M (st B) unit;
  wr16 : Z → Z → M (st B) unit;
  wr32 : Z → Z → M (st B) unit;
  trap_hook : option (Z → M (st B) unit)
}.

(** [m68k_reset]: SP and PC come from the first two long words. *)
Definition m68k_reset {B} `{Bus B} : M (st B) unit :=
  upd (λ _, cpu_zero) ;;
  upd (set_cpu_sr 0x2700) ;;
  (v ← rd32 0; upd (set_cpu_ssp v)) ;;
  upd (λ c, set_areg 7 (cpu_ssp c) c) ;;
  (v ← rd32 4; upd (set_cpu_pc v)) ;;
  upd (set_cpu_halted M68K_RUN).

(** ** Well-formed states *)

Definition word32 (x : Z) : Prop := 0 ≤ x < 0x100000000.

Record cpu_ok (c : m68k_cpu) : Prop := {
  ok_d_len : length (cpu_d c) = 8%nat;
  ok_a_len : length (cpu_a c) = 8%nat;
  ok_d : Forall word32 (cpu_d c);
  ok_a : Forall word32 (cpu_a c);
  ok_pc : word32 (cpu_pc c);
  ok_sr : 0 ≤ cpu_sr c < 0x10000;
  ok_usp : word32 (cpu_usp c);
  ok_ssp : word32 (cpu_ssp c);
  ok_cycles : 0 ≤ cpu_cycles c < 0x10000000000000000;
  ok_instrs : 0 ≤ cpu_instrs c < 0x10000000000000000;
  ok_stopped : 0 ≤ cpu_stopped c < 0x100;
  ok_halted : 0 ≤ cpu_halted c < 0x100;
  ok_exit_code : 0 ≤ cpu_exit_code c < 0x100;
  ok_pending_irq : 0 ≤ cpu_pending_irq c < 0x100;
  ok_jit_ret_pc : word32 (cpu_jit_ret_pc c);
  ok_jit_arg1 : word32 (cpu_jit_arg1 c);
  ok_jit_arg2 : word32 (cpu_jit_arg2 c);
  ok_chain_budget : word32 (cpu_chain_budget c)
}.

(** What a bus access leaves alone: every register but the four the
    peripherals drive ([halted], [exit_code], [pending_irq],
    [chain_budget]), and the exception log. *)
Definition cpu_core (c : m68k_cpu) : m68k_cpu :=
  set_cpu_halted 0 (set_cpu_exit_code 0 (set_cpu_pending_irq 0 (set_cpu_chain_budget 0 c))).

Definition same_core {B} (s s' : st B) : Prop :=
  cpu_core (cpu s) = cpu_core (cpu s') ∧ exc_log s = exc_log s' ∧ exc_n s = exc_n s'.

(** The contract of a bus: an invariant of its own (which may speak of the
    interrupt level it drives), kept by every access; values in range; only
    [same_core] changes to the CPU.  [bus_ub] says when an access may be
    undefined behaviour. *)
Section contract.
Context {B : Type} (inv : B → Z → Prop).

Record st_ok_with (s : st B) : Prop := {
  st_cpu_ok : cpu_ok (cpu s);
  st_bus_ok : inv (bus s) (cpu_pending_irq (cpu s));
  st_log_ok : length (exc_log s) = 64%nat;
  st_exc_n_ok : word32 (exc_n s)
}.

Definition access_ok {A} (ub : Prop) (m : M (st B) A) (P : A → Prop) : Prop :=
  ∀ s, st_ok_with s →
    match m s with
    | Some (v, s') => st_ok_with s' ∧ same_core s s' ∧ P v
    | None => ub
    end.
End contract.

Class BusOk (B : Type) `{Bus B} := {
  bus_inv : B → Z → Prop;
  bus_ub : Prop;
  rd8_ok addr : access_ok bus_inv bus_ub (rd8 addr) (λ v, 0 ≤ v < 0x100);
  rd16_ok addr : access_ok bus_inv bus_ub (rd16 addr) (λ v, 0 ≤ v < 0x10000);
  rd32_ok addr : access_ok bus_inv bus_ub (rd32 addr) word32;
  wr8_ok addr v : access_ok bus_inv bus_ub (wr8 addr v) (λ _, True);
  wr16_ok addr v : access_ok bus_inv bus_ub (wr16 addr v) (λ _, True);
  wr32_ok addr v : access_ok bus_inv bus_ub (wr32 addr v) (λ _, True);
  trap_hook_ok op : match trap_hook with
                    | Some hook => access_ok bus_inv bus_ub (hook op) (λ _, True)
                    | None => True
                    end
}.

Definition st_ok {B} `{BusOk B} (s : st B) : Prop := st_ok_with bus_inv s.

(** ** The setters keep registers in range *)

Lemma set_dreg_ok i v c : cpu_ok c → cpu_ok (set_dreg i v c).
Proof.
  intros []. split; simpl; try done.
  - by rewrite zset_length.
  - apply zset_Forall; [apply u32_range|done].
Qed.

Lemma set_areg_ok i v c : cpu_ok c → cpu_ok (set_areg i v c).
Proof.
  intros []. split; simpl; try done.
  - by rewrite zset_length.
  - apply zset_Forall; [apply u32_range|done].
Qed.

Lemma dreg_range c i : cpu_ok c → word32 (dreg c i).
Proof. intros []. apply (znth_Forall word32); [unfold word32; lia|done]. Qed.
Lemma areg_range c i : cpu_ok c → word32 (areg c i).
Proof. intros []. apply (znth_Forall word32); [unfold word32; lia|done]. Qed.

Create HintDb cpu.
#[export] Hint Resolve set_dreg_ok set_areg_ok dreg_range areg_range : cpu.

Ltac setter_ok := intros []; split; simpl; auto with c_int; apply u32_range.

Lemma set_pc_ok v c : cpu_ok c → cpu_ok (set_cpu_pc v c).
Proof. setter_ok. Qed.
Lemma set_sr_ok v c : cpu_ok c → cpu_ok (set_cpu_sr v c).
Proof. setter_ok. Qed.
Lemma set_usp_ok v c : cpu_ok c → cpu_ok (set_cpu_usp v c).
Proof. setter_ok. Qed.
Lemma set_ssp_ok v c : cpu_ok c → cpu_ok (set_cpu_ssp v c).
Proof. setter_ok. Qed.
Lemma set_cycles_ok v c : cpu_ok c → cpu_ok (set_cpu_cycles v c).
Proof. setter_ok. Qed.
Lemma set_instrs_ok v c : cpu_ok c → cpu_ok (set_cpu_instrs v c).
Proof. setter_ok. Qed.
Lemma set_stopped_ok v c : cpu_ok c → cpu_ok (set_cpu_stopped v c).
Proof. setter_ok. Qed.
Lemma set_halted_ok v c : cpu_ok c → cpu_ok (set_cpu_halted v c).
Proof. setter_ok. Qed.
Lemma set_exit_code_ok v c : cpu_ok c → cpu_ok (set_cpu_exit_code v c).
Proof. setter_ok. Qed.
Lemma set_pending_irq_ok v c : cpu_ok c → cpu_ok (set_cpu_pending_irq v c).
Proof. setter_ok. Qed.
Lemma set_chain_budget_ok v c : cpu_ok c → cpu_ok (set_cpu_chain_budget v c).
Proof. setter_ok. Qed.
Lemma set_ccr_ok v c : cpu_ok c → cpu_ok (m68k_set_ccr v c).
Proof. apply set_sr_ok. Qed.

#[export] Hint Resolve set_pc_ok set_sr_ok set_usp_ok set_ssp_ok set_cycles_ok
  set_instrs_ok set_stopped_ok set_halted_ok set_exit_code_ok set_pending_irq_ok
  set_chain_budget_ok set_ccr_ok : cpu.

Lemma sync_sp_ok b c : cpu_ok c → cpu_ok (m68k_sync_sp b c).
Proof.
  intros. unfold m68k_sync_sp. destruct (Bool.eqb _ _), b; auto with cpu.
Qed.
Lemma sync_sp_pc b c : cpu_pc (m68k_sync_sp b c) = cpu_pc c.
Proof. unfold m68k_sync_sp. by destruct (Bool.eqb _ _), b. Qed.
Lemma sync_sp_irq b c : cpu_pending_irq (m68k_sync_sp b c) = cpu_pending_irq c.
Proof. unfold m68k_sync_sp. by destruct (Bool.eqb _ _), b. Qed.
#[export] Hint Resolve sync_sp_ok sync_sp_pc sync_sp_irq : cpu.

Lemma get_ccr_range c : 0 ≤ m68k_get_ccr c < 0x20.
Proof.
  unfold m68k_get_ccr. pose proof (land_range_r (cpu_sr c) 0x1F 0x20 ltac:(lia)).
  rewrite u8_small; lia.
Qed.
