(* ===== verification/Flags.v ===== *)
(** * Condition codes of the interpreter

    The flag helpers of [core/m68k_interp.c]: operand sizes, [set_nz], the
    [set_flags_*] family and [cond_true].  Each C helper mutates only the CCR
    of its [cpu] argument, so it is a function on the register file. *)

From Stdlib Require Import ZArith Lia.
From stdpp Require Import base tactics list numbers.
From S2P Require Import Prelude Cpu.

(** ** Operand sizes: [sz] is 1, 2 or 4 bytes *)

Definition size_mask (sz : Z) : Z :=
  if sz =? 1 then 0xFF else if sz =? 2 then 0xFFFF else 0xFFFFFFFF.
Definition size_msb (sz : Z) : Z :=
  if sz =? 1 then 0x80 else if sz =? 2 then 0x8000 else 0x80000000.
Definition sext (v sz : Z) : Z :=
  if sz =? 1 then u32 (i8 (v .& 0xFF))
  else if sz =? 2 then u32 (i16 (v .& 0xFFFF))
  else v.

(** [if (b) c |= bit;] *)
Definition or_if (b : bool) (bit c : Z) : Z := if b then c .| bit else c.

(** ** Flags *)

Definition set_nz (sz res : Z) (cpu : m68k_cpu) : m68k_cpu :=
  let c := m68k_get_ccr cpu .& not32 (CCR_N .| CCR_Z) in
  let c := if nz (res .& size_mask sz)
           then or_if (nz (res .& size_msb sz)) CCR_N c
           else c .| CCR_Z in
  m68k_set_ccr c cpu.

Definition set_flags_logic (sz res : Z) (cpu : m68k_cpu) : m68k_cpu :=
  let c := m68k_get_ccr cpu .& CCR_X in
  let c := or_if (res .& size_mask sz =? 0) CCR_Z c in
  let c := or_if (nz (res .& size_msb sz)) CCR_N c in
  m68k_set_ccr c cpu.

Definition set_flags_add (sz s d r : Z) (cpu : m68k_cpu) : m68k_cpu :=
  let mask := size_mask sz in let msb := size_msb sz in
  let s := s .& mask in let d := d .& mask in let r := r .& mask in
  let c := 0 in
  let c := or_if (r =? 0) CCR_Z c in
  let c := or_if (nz (r .& msb)) CCR_N c in
  let carry := mask <? u64 (s + d) in
  let c := or_if carry (CCR_C .| CCR_X) c in
  let c := or_if (nz ((s .^ r) .& (d .^ r) .& msb)) CCR_V c in
  m68k_set_ccr c cpu.

Definition set_flags_sub (sz s d r : Z) (cpu : m68k_cpu) : m68k_cpu :=
  let mask := size_mask sz in let msb := size_msb sz in
  let s := s .& mask in let d := d .& mask in let r := r .& mask in
  let c := 0 in
  let c := or_if (r =? 0) CCR_Z c in
  let c := or_if (nz (r .& msb)) CCR_N c in
  let c := or_if (d <? s) (CCR_C .| CCR_X) c in
  let c := or_if (nz ((s .^ d) .& (d .^ r) .& msb)) CCR_V c in
  m68k_set_ccr c cpu.

Definition set_flags_cmp (sz s d r : Z) (cpu : m68k_cpu) : m68k_cpu :=
  let mask := size_mask sz in let msb := size_msb sz in
  let s := s .& mask in let d := d .& mask in let r := r .& mask in
  let c := m68k_get_ccr cpu .& CCR_X in
  let c := or_if (r =? 0) CCR_Z c in
  let c := or_if (nz (r .& msb)) CCR_N c in
  let c := or_if (d <? s) CCR_C c in
  let c := or_if (nz ((s .^ d) .& (d .^ r) .& msb)) CCR_V c in
  m68k_set_ccr c cpu.

(** ** Condition codes *)

Definition cond_true (cpu : m68k_cpu) (cc : Z) : bool :=
  let f := m68k_get_ccr cpu in
  let C := nz (f .& CCR_C) in let V := nz (f .& CCR_V) in
  let Zf := nz (f .& CCR_Z) in let N := nz (f .& CCR_N) in
  match cc with
  | 0 => true
  | 1 => false
  | 2 => negb C && negb Zf
  | 3 => C || Zf
  | 4 => negb C
  | 5 => C
  | 6 => negb Zf
  | 7 => Zf
  | 8 => negb V
  | 9 => V
  | 10 => negb N
  | 11 => N
  | 12 => Bool.eqb N V
  | 13 => negb (Bool.eqb N V)
  | 14 => negb Zf && Bool.eqb N V
  | 15 => Zf || negb (Bool.eqb N V)
  | _ => false
  end.

(** ** Lemmas on the CCR *)

(** The value of flag bit [f] in the CCR. *)
Definition flag (f : Z) (c : m68k_cpu) : bool := nz (m68k_get_ccr c .& f).

Lemma get_set_ccr v c : m68k_get_ccr (m68k_set_ccr v c) = v .& 0x1F.
Proof.
  unfold m68k_get_ccr, m68k_set_ccr, set_cpu_sr; simpl.
  rewrite u8_small.
  - unfold u16. change 0x10000 with (2 ^ 16). zbits i. destruct (Z_lt_dec i 8).
    + rewrite !Z.mod_pow2_bits_low by lia. change 0xFF00 with (Z.shiftl 0xFF 8).
      autorewrite with zbits. rewrite (Z.testbit_neg_r _ (i - 8)) by lia.
      by destruct (Z.testbit (cpu_sr c) i), (Z.testbit v i), (Z.testbit 0x1F i).
    + rewrite (testbit_high 5 0x1F) by lia. by rewrite !andb_false_r.
  - apply (land_range_r _ 0x1F 0x100). lia.
Qed.

Lemma flag_set_ccr f v c : f .& 0x1F = f → flag f (m68k_set_ccr v c) = nz (v .& f).
Proof.
  intros Hf. unfold flag. rewrite get_set_ccr, <- Z.land_assoc.
  by rewrite (Z.land_comm 0x1F), Hf.
Qed.

(** [m68k_set_ccr] touches nothing but the low byte of [sr]. *)
Lemma is_super_set_ccr v c : m68k_is_super (m68k_set_ccr v c) = m68k_is_super c.
Proof.
  unfold m68k_is_super, m68k_set_ccr, SR_S; simpl. change 0x2000 with (2 ^ 13).
  rewrite !nz_land_pow2 by lia. unfold u16. change 0x10000 with (2 ^ 16).
  rewrite !Z.mod_pow2_bits_low by lia.
  rewrite Z.lor_spec, !Z.land_spec.
  rewrite (testbit_high 5 0x1F) by lia. change (Z.testbit 0xFF00 13) with true.
  by rewrite andb_false_r, orb_false_r, andb_true_r.
Qed.

(** ** Operand sizes *)

Definition size_ok (sz : Z) : Prop := sz = 1 ∨ sz = 2 ∨ sz = 4.

(** The two's complement value of a [sz]-byte operand. *)
Definition signed (sz x : Z) : Z := if x <? size_msb sz then x else x - 2 ^ (8 * sz).

Ltac by_size H := destruct H as [-> | [-> | ->]].

Lemma land_size_mask sz x : size_ok sz → x .& size_mask sz = x mod 2 ^ (8 * sz).
Proof. intros H; by_size H; apply land_ones_low; done. Qed.

Lemma msb_test sz x :
  size_ok sz → 0 ≤ x < 2 ^ (8 * sz) → nz (x .& size_msb sz) = (size_msb sz <=? x).
Proof.
  intros H Hx.
  assert (size_msb sz = 2 ^ (8 * sz - 1)) as -> by (by_size H; done).
  assert (0 < sz) by (by_size H; lia).
  rewrite nz_land_pow2 by lia. apply testbit_top; lia.
Qed.

Lemma msb_test_land sz x y : size_ok sz →
  nz (x .& y .& size_msb sz) = nz (x .& size_msb sz) && nz (y .& size_msb sz).
Proof.
  intros H.
  assert (size_msb sz = 2 ^ (8 * sz - 1) ∧ 0 ≤ 8 * sz - 1) as [-> Hk]
    by (by_size H; done).
  rewrite !nz_land_pow2 by done. apply Z.land_spec.
Qed.

Lemma msb_test_lxor sz x y : size_ok sz →
  nz ((x .^ y) .& size_msb sz) = xorb (nz (x .& size_msb sz)) (nz (y .& size_msb sz)).
Proof.
  intros H.
  assert (size_msb sz = 2 ^ (8 * sz - 1) ∧ 0 ≤ 8 * sz - 1) as [-> Hk]
    by (by_size H; done).
  rewrite !nz_land_pow2 by done. apply Z.lxor_spec.
Qed.

(** Turn the tests of a flag computation into comparisons of operands. *)
Ltac flag_tests H :=
  rewrite ?land_size_mask by exact H;
  rewrite ?msb_test_land, ?msb_test_lxor by exact H.

(** Split on the remaining comparisons and finish by arithmetic. *)
Ltac flag_cases :=
  repeat match goal with
  | |- context [?x <? ?y] => destruct (Z.ltb_spec x y)
  | |- context [?x <=? ?y] => destruct (Z.leb_spec x y)
  | |- context [?x =? ?y] => destruct (Z.eqb_spec x y)
  end.

(** A conditional set of a flag bit, seen through another flag's test. *)
Lemma nz_or_if b bit c f :
  nz (or_if b bit c .& f) = (b && nz (bit .& f)) || nz (c .& f).
Proof.
  destruct b; simpl; [|done]. unfold nz.
  rewrite Z.land_lor_distr_l.
  destruct (Z.eqb_spec (bit .& f) 0) as [->|E1]; [by rewrite Z.lor_0_r, orb_false_l|].
  destruct (Z.eqb_spec ((c .& f) .| (bit .& f)) 0) as [E|]; [|done].
  apply Z.lor_eq_0_iff in E. tauto.
Qed.

Lemma nz_land_same v f g : f .& g = f → nz ((v .& f) .& g) = nz (v .& f).
Proof. intros H. by rewrite <- Z.land_assoc, H. Qed.

Lemma nz_land_disjoint v f g : f .& g = 0 → nz ((v .& f) .& g) = false.
Proof. intros H. by rewrite <- Z.land_assoc, H, Z.land_0_r. Qed.

Lemma nz_0_land f : nz (0 .& f) = false.
Proof. by rewrite Z.land_0_l. Qed.

Ltac is_flag x :=
  lazymatch x with
  | CCR_C => idtac | CCR_V => idtac | CCR_Z => idtac | CCR_N => idtac | CCR_X => idtac
  | ?y .| ?z => is_flag y; is_flag z
  end.

(** Evaluate a flag of a CCR assembled with [or_if]. *)
Ltac flag_eval :=
  rewrite ?flag_set_ccr by reflexivity; rewrite ?nz_or_if, ?nz_0_land;
  repeat match goal with
  | |- context [nz ((?v .& ?f) .& ?g)] =>
      is_flag f; is_flag g;
      first [rewrite (nz_land_same v f g) by reflexivity
            |rewrite (nz_land_disjoint v f g) by reflexivity]
  end;
  repeat match goal with
  | |- context [nz (?x .& ?y)] =>
      is_flag x; is_flag y;
      let v := eval vm_compute in (nz (x .& y)) in change (nz (x .& y)) with v
  end;
  rewrite ?andb_true_r, ?andb_false_r, ?orb_false_r, ?orb_false_l.

Lemma u32_mod_size sz x : size_ok sz → u32 x mod 2 ^ (8 * sz) = x mod 2 ^ (8 * sz).
Proof.
  intros H. unfold u32. by_size H; [| |].
  1,2: apply Z.mod_mod_divide.
  - by exists (2 ^ 24).
  - by exists (2 ^ 16).
  - apply Z.mod_mod. lia.
Qed.

Lemma mod_add_cases d s m : 0 ≤ d < m → 0 ≤ s < m →
  (d + s) mod m = d + s ∨ (d + s) mod m = d + s - m.
Proof.
  intros Hd Hs. destruct (Z_lt_dec (d + s) m).
  - left. apply Z.mod_small. lia.
  - right. symmetry. apply Z.mod_unique with 1; lia.
Qed.

Lemma mod_sub_cases d s m : 0 ≤ d < m → 0 ≤ s < m →
  (s ≤ d ∧ (d - s) mod m = d - s) ∨ (d < s ∧ (d - s) mod m = d - s + m).
Proof.
  intros Hd Hs. destruct (Z_le_dec s d).
  - left. split; [done|]. apply Z.mod_small. lia.
  - right. split; [lia|]. symmetry. apply Z.mod_unique with (-1); lia.
Qed.

Lemma pow_size sz : size_ok sz → 2 ^ (8 * sz) = 2 * size_msb sz.
Proof. intros H; by_size H; done. Qed.
Lemma mask_size sz : size_ok sz → size_mask sz = 2 * size_msb sz - 1.
Proof. intros H; by_size H; done. Qed.
Lemma size_msb_pos sz : 0 < size_msb sz.
Proof. unfold size_msb. repeat case_match; lia. Qed.

(** A sized operand is its signed value, up to the wrap decided by its top bit. *)
Lemma signed_cases sz x :
  size_ok sz → 0 ≤ x < 2 * size_msb sz →
  ((size_msb sz <=? x) = false ∧ x = signed sz x ∧ 0 ≤ signed sz x < size_msb sz) ∨
  ((size_msb sz <=? x) = true ∧ x = signed sz x + 2 * size_msb sz ∧
   - size_msb sz ≤ signed sz x < 0).
Proof.
  intros Hsz Hx. unfold signed. rewrite Z.leb_antisym, pow_size by done.
  destruct (Z.ltb_spec x (size_msb sz)); [left|right]; repeat split; lia.
Qed.

(** Replace [x] by its signed value and decide its sign. *)
Ltac by_sign Hsz x Hx :=
  let S := fresh "S" in let E := fresh "E" in
  destruct (signed_cases _ x Hsz Hx) as [(E & ? & ?)|(E & ? & ?)];
  rewrite ?E; clear E; set (S := signed _ x) in *; clearbody S; subst x.

(** [set_flags_add] is exact: carry, zero, sign and signed overflow of the
    [sz]-byte sum. *)
Lemma set_flags_add_flags sz s d c :
  size_ok sz → 0 ≤ s < 2 ^ (8 * sz) → 0 ≤ d < 2 ^ (8 * sz) →
  let r := (d + s) mod 2 ^ (8 * sz) in
  let c' := set_flags_add sz s d (u32 (d + s)) c in
  flag CCR_C c' = (2 ^ (8 * sz) <=? s + d) ∧ flag CCR_X c' = (2 ^ (8 * sz) <=? s + d) ∧
  flag CCR_Z c' = (r =? 0) ∧ flag CCR_N c' = (signed sz r <? 0) ∧
  flag CCR_V c' = negb ((- size_msb sz <=? signed sz s + signed sz d)
                        && (signed sz s + signed sz d <? size_msb sz)).
Proof.
  intros Hsz Hs Hd r c'. subst c'. unfold set_flags_add.
  flag_tests Hsz. rewrite !u32_mod_size, !(Z.mod_small s), !(Z.mod_small d) by done.
  fold r. assert (Hr : 0 ≤ r < 2 ^ (8 * sz)) by (apply Z.mod_pos_bound; lia).
  rewrite !msb_test by done.
  assert (u64 (s + d) = s + d) as -> by (apply u64_small; by_size Hsz; lia).
  flag_eval.
  assert (r = d + s ∨ r = d + s - 2 ^ (8 * sz)) as Hcase by (by apply mod_add_cases).
  clearbody r. rewrite mask_size by done. rewrite pow_size in * by done.
  split_and!; [apply eqb_iff; lia..| |].
  - by_sign Hsz r Hr; apply eqb_iff; lia.
  - by_sign Hsz s Hs; by_sign Hsz d Hd; by_sign Hsz r Hr;
      simpl; apply eqb_iff; rewrite ?negb_true_iff, ?andb_false_iff; lia.
Qed.

(** [set_flags_sub] is exact: borrow, zero, sign and signed overflow. *)
Lemma set_flags_sub_flags sz s d c :
  size_ok sz → 0 ≤ s < 2 ^ (8 * sz) → 0 ≤ d < 2 ^ (8 * sz) →
  let r := (d - s) mod 2 ^ (8 * sz) in
  let c' := set_flags_sub sz s d (u32 (d - s)) c in
  flag CCR_C c' = (d <? s) ∧ flag CCR_X c' = (d <? s) ∧
  flag CCR_Z c' = (r =? 0) ∧ flag CCR_N c' = (signed sz r <? 0) ∧
  flag CCR_V c' = negb ((- size_msb sz <=? signed sz d - signed sz s)
                        && (signed sz d - signed sz s <? size_msb sz)).
Proof.
  intros Hsz Hs Hd r c'. subst c'. unfold set_flags_sub.
  flag_tests Hsz. rewrite !u32_mod_size, !(Z.mod_small s), !(Z.mod_small d) by done.
  fold r. assert (Hr : 0 ≤ r < 2 ^ (8 * sz)) by (apply Z.mod_pos_bound; lia).
  rewrite !msb_test by done. flag_eval.
  pose proof (mod_sub_cases d s (2 ^ (8 * sz)) Hd Hs) as Hcase. fold r in Hcase.
  clearbody r. rewrite pow_size in * by done.
  split_and!; [done..| |].
  - by_sign Hsz r Hr; apply eqb_iff; lia.
  - by_sign Hsz s Hs; by_sign Hsz d Hd; by_sign Hsz r Hr;
      simpl; apply eqb_iff; rewrite ?negb_true_iff, ?andb_false_iff; lia.
Qed.

(** [CMP] computes the flags of [SUB] and keeps X. *)
Lemma set_flags_cmp_flags sz s d r c :
  let c' := set_flags_cmp sz s d r c in
  let c'' := set_flags_sub sz s d r c in
  flag CCR_X c' = flag CCR_X c ∧
  flag CCR_C c' = flag CCR_C c'' ∧ flag CCR_Z c' = flag CCR_Z c'' ∧
  flag CCR_N c' = flag CCR_N c'' ∧ flag CCR_V c' = flag CCR_V c''.
Proof.
  intros c' c''. subst c' c''. unfold set_flags_cmp, set_flags_sub.
  flag_eval. split_and!; try done.
Qed.

(** Logic operations: N and Z of the result, V and C clear, X kept. *)
Lemma set_flags_logic_flags sz r c :
  size_ok sz →
  let c' := set_flags_logic sz r c in
  let v := r mod 2 ^ (8 * sz) in
  flag CCR_X c' = flag CCR_X c ∧ flag CCR_C c' = false ∧ flag CCR_V c' = false ∧
  flag CCR_Z c' = (v =? 0) ∧ flag CCR_N c' = (signed sz v <? 0).
Proof.
  intros Hsz c' v. subst c'. unfold set_flags_logic.
  assert (Hv : 0 ≤ v < 2 ^ (8 * sz)).
  { apply Z.mod_pos_bound. rewrite pow_size by done. pose proof (size_msb_pos sz). lia. }
  assert (nz (r .& size_msb sz) = (size_msb sz <=? v)) as ->.
  { rewrite <- msb_test by done. subst v. rewrite <- land_size_mask by done.
    rewrite msb_test_land by done. by_size Hsz; by rewrite andb_true_r. }
  rewrite land_size_mask by done. fold v. flag_eval.
  clearbody v. rewrite pow_size in * by done.
  split_and!; try done. by_sign Hsz v Hv; apply eqb_iff; lia.
Qed.

(** C4.  After [CMP s,d] every conditional test decides the comparison its
    mnemonic names: HI/LS/CC/CS compare the operands as unsigned, NE/EQ for
    equality, GE/LT/GT/LE as two's complement numbers of the operand's size. *)
Theorem cmp_conditions sz s d c :
  size_ok sz → 0 ≤ s < 2 ^ (8 * sz) → 0 ≤ d < 2 ^ (8 * sz) →
  let c' := set_flags_cmp sz s d (u32 (d - s)) c in
  cond_true c' 2 = (s <? d) ∧ cond_true c' 3 = (d <=? s) ∧
  cond_true c' 4 = (s <=? d) ∧ cond_true c' 5 = (d <? s) ∧
  cond_true c' 6 = negb (d =? s) ∧ cond_true c' 7 = (d =? s) ∧
  cond_true c' 12 = (signed sz s <=? signed sz d) ∧
  cond_true c' 13 = (signed sz d <? signed sz s) ∧
  cond_true c' 14 = (signed sz s <? signed sz d) ∧
  cond_true c' 15 = (signed sz d <=? signed sz s).
Proof.
  intros Hsz Hs Hd c'.
  destruct (set_flags_cmp_flags sz s d (u32 (d - s)) c) as (_ & HC & HZ & HN & HV).
  destruct (set_flags_sub_flags sz s d c Hsz Hs Hd) as (SC & _ & SZ & SN & SV).
  rewrite SC in HC. rewrite SZ in HZ. rewrite SN in HN. rewrite SV in HV. fold c' in HC, HZ, HN, HV.
  clear SC SZ SN SV.
  unfold cond_true. fold (flag CCR_C c') (flag CCR_V c') (flag CCR_Z c') (flag CCR_N c').
  rewrite HC, HZ, HN, HV. clear HC HZ HN HV. clearbody c'.
  pose proof (mod_sub_cases d s (2 ^ (8 * sz)) Hd Hs) as Hcase.
  assert (Hr : 0 ≤ (d - s) mod 2 ^ (8 * sz) < 2 ^ (8 * sz)) by (apply Z.mod_pos_bound; lia).
  set (r := (d - s) mod 2 ^ (8 * sz)) in *. clearbody r.
  rewrite pow_size in * by done.
  split_and!.
  1-6: apply eqb_iff; lia.
  all: by_sign Hsz s Hs; by_sign Hsz d Hd; by_sign Hsz r Hr; apply eqb_iff; lia.
Qed.

Lemma cmp_conditions_witness :
  cond_true (set_flags_cmp 1 0x80 0x7F (u32 (0x7F - 0x80)) cpu_zero) 14 = true ∧
  cond_true (set_flags_cmp 1 0x80 0x7F (u32 (0x7F - 0x80)) cpu_zero) 2 = false.
Proof.
  destruct (cmp_conditions 1 0x80 0x7F cpu_zero (or_introl eq_refl) ltac:(lia) ltac:(lia))
    as (HI & _ & _ & _ & _ & _ & _ & _ & GT & _).
  rewrite HI, GT. split; reflexivity.
Defined.
