(* ===== verification/Bcd.v ===== *)
(** * Packed binary-coded-decimal bytes

    [bcd_abcd], [bcd_sbcd] and [bcd_nbcd] of [core/m68k_interp.c], and their
    exactness on valid decimal operands. *)

From Stdlib Require Import ZArith Lia.
From stdpp Require Import base tactics list numbers.
From S2P Require Import Prelude Cpu Flags.

Definition bcd_abcd (src dst : Z) (cpu : m68k_cpu) : Z * m68k_cpu :=
  let ccr := m68k_get_ccr cpu in
  let x := b2z (nz (ccr .& CCR_X)) in
  let flgs := nz (src .& 0x80) in let flgo := nz (dst .& 0x80) in
  let lo := u16 ((src .& 0x0F) + (dst .& 0x0F) + x) in
  let hi := u16 ((src .& 0xF0) + (dst .& 0xF0)) in
  let lo := if 9 <? lo then u16 (lo + 6) else lo in
  let v := u16 (hi + lo) in
  let carry := 0x90 <? v .& 0x1F0 in
  let v := if carry then u16 (v + 0x60) else v in
  let res := u8 v in
  let c := u8 (ccr .& CCR_Z) in
  let c := or_if carry (CCR_C .| CCR_X) c in
  let c := if nz res then c .& u8 (Z.lnot CCR_Z) else c in
  let N := nz (res .& 0x80) in
  let c := or_if N CCR_N c in
  let c := or_if (negb (Bool.eqb flgs flgo) && negb (Bool.eqb N flgo)) CCR_V c in
  (res, m68k_set_ccr c cpu).

Definition bcd_sbcd (src dst : Z) (cpu : m68k_cpu) : Z * m68k_cpu :=
  let ccr := m68k_get_ccr cpu in
  let x := b2z (nz (ccr .& CCR_X)) in
  let flgs := nz (src .& 0x80) in let flgo := nz (dst .& 0x80) in
  let lo := u16 ((dst .& 0x0F) - (src .& 0x0F) - x) in
  let hi := u16 ((dst .& 0xF0) - (src .& 0xF0)) in
  let '(lo, hi) := if 9 <? lo then (u16 (lo - 6), u16 (hi - 0x10)) else (lo, hi) in
  let v := u16 (hi + (lo .& 0x0F)) in
  let carry := 0x90 <? hi .& 0x1F0 in
  let v := if carry then u16 (v - 0x60) else v in
  let res := u8 v in
  let c := u8 (ccr .& CCR_Z) in
  let c := or_if carry (CCR_C .| CCR_X) c in
  let c := if nz res then c .& u8 (Z.lnot CCR_Z) else c in
  let N := nz (res .& 0x80) in
  let c := or_if N CCR_N c in
  let c := or_if (negb (Bool.eqb flgs flgo) && negb (Bool.eqb N flgo)) CCR_V c in
  (res, m68k_set_ccr c cpu).

Definition bcd_nbcd (dst : Z) (cpu : m68k_cpu) : Z * m68k_cpu :=
  let ccr := m68k_get_ccr cpu in
  let x := b2z (nz (ccr .& CCR_X)) in
  let lo := u16 (0 - (dst .& 0x0F) - x) in
  let hi := u16 (0 - (dst .& 0xF0)) in
  let '(lo, hi) := if 9 <? lo then (u16 (lo - 6), u16 (hi - 0x10)) else (lo, hi) in
  let v := u16 (hi + (lo .& 0x0F)) in
  let carry := 0x90 <? hi .& 0x1F0 in
  let v := if carry then u16 (v - 0x60) else v in
  let res := u8 v in
  let c := u8 (ccr .& CCR_Z) in
  let c := or_if carry (CCR_C .| CCR_X) c in
  let c := if nz res then c .& u8 (Z.lnot CCR_Z) else c in
  let c := or_if (nz (res .& 0x80)) CCR_N c in
  (res, m68k_set_ccr c cpu).


(** The packed form of a two-digit decimal number. *)
Definition to_bcd (n : Z) : Z := 16 * (n / 10) + n mod 10.

Lemma land_0F x : x .& 0x0F = x mod 16.
Proof. by apply (land_ones_low _ _ 4). Qed.

Lemma land_high x k w : 0 ≤ k → 0 ≤ w →
  x .& ((2 ^ w - 1) ≪ k) = ((x / 2 ^ k) mod 2 ^ w) * 2 ^ k.
Proof.
  intros Hk Hw. rewrite <- (land_ones_low (x / 2 ^ k) (2 ^ w - 1)) by done.
  rewrite <- Z.shiftl_mul_pow2, <- Z.shiftr_div_pow2 by done.
  rewrite Z.shiftl_land. zbits i.
  destruct (Z.le_gt_cases k i).
  - rewrite Z.shiftr_spec by lia. by replace (i - k + k) with i by lia.
  - rewrite !(Z.testbit_neg_r _ (i - k)) by lia. by rewrite !andb_false_r.
Qed.

Lemma land_F0 x : x .& 0xF0 = ((x / 16) mod 16) * 16.
Proof. exact (land_high x 4 4 ltac:(lia) ltac:(lia)). Qed.
Lemma land_1F0 x : x .& 0x1F0 = ((x / 16) mod 32) * 16.
Proof. exact (land_high x 4 5 ltac:(lia) ltac:(lia)). Qed.

(** Write a packed operand with its digits. *)
Lemma digits n : 0 ≤ n < 100 →
  ∃ h l, 0 ≤ h ≤ 9 ∧ 0 ≤ l ≤ 9 ∧ n = 10 * h + l ∧ to_bcd n = 16 * h + l.
Proof.
  intros Hn. exists (n / 10), (n mod 10). unfold to_bcd.
  Z.div_mod_to_equations. lia.
Qed.

Lemma to_bcd_digits h l : 0 ≤ h ≤ 9 → 0 ≤ l ≤ 9 → to_bcd (10 * h + l) = 16 * h + l.
Proof. intros. unfold to_bcd. Z.div_mod_to_equations. lia. Qed.

Lemma land_ldiff_Z v : 0 ≤ v < 0x100 → nz (v .& u8 (Z.lnot CCR_Z) .& CCR_Z) = false.
Proof. intros. by rewrite <- Z.land_assoc, Z.land_0_r. Qed.

(** The nibbles of [16 h + l]. *)
Lemma nibbles h l : 0 ≤ l < 16 →
  (16 * h + l) mod 16 = l ∧ (0 ≤ h < 16 → ((16 * h + l) / 16) mod 16 = h) ∧
  (0 ≤ h < 32 → ((16 * h + l) / 16) mod 32 = h).
Proof. intros. split_and!; intros; Z.div_mod_to_equations; lia. Qed.

(** The CCR assembled by the BCD operations. *)
Lemma bcd_flags (carry N V : bool) res c :
  let cc := or_if carry (CCR_C .| CCR_X) (u8 (m68k_get_ccr c .& CCR_Z)) in
  let cc := if nz res then cc .& u8 (Z.lnot CCR_Z) else cc in
  let c' := m68k_set_ccr (or_if V CCR_V (or_if N CCR_N cc)) c in
  flag CCR_C c' = carry ∧ flag CCR_X c' = carry ∧
  flag CCR_Z c' = flag CCR_Z c && (res =? 0).
Proof.
  intros cc0 cc c'. subst c' cc cc0.
  rewrite u8_small
    by (pose proof (land_range_r (m68k_get_ccr c) CCR_Z 0x100 ltac:(unfold CCR_Z; lia)); lia).
  change (u8 (Z.lnot CCR_Z)) with 0xFB. unfold flag at 4.
  destruct (nz res) eqn:E.
  - apply negb_true_iff in E. rewrite E. rewrite !flag_set_ccr, !nz_or_if by reflexivity.
    rewrite <- !(Z.land_assoc _ 0xFB). change (0xFB .& CCR_C) with CCR_C.
    change (0xFB .& CCR_X) with CCR_X. change (0xFB .& CCR_Z) with 0.
    flag_eval. rewrite Z.land_0_r. by split_and!.
  - apply negb_false_iff in E. rewrite E. flag_eval. by split_and!.
Qed.

(** The byte whose nibbles are [h] (mod 16) and [l]. *)
Lemma pack_byte h l m : 0 ≤ l < 16 → 0 ≤ h - 16 * m < 16 →
  u8 (16 * h + l) = 16 * (h - 16 * m) + l.
Proof. intros. unfold u8. symmetry. apply Z.mod_unique with m; lia. Qed.

Ltac by_digits n Hn h l :=
  let E := fresh "E" in
  destruct (digits n Hn) as (h & l & ? & ? & E & ->);
  destruct (nibbles h l) as (?N & ?N & _); [lia|].

(** C7.  [ABCD] adds packed decimals: on two-digit operands the result is the
    packed sum modulo 100 (with X as carry in), C and X are the decimal carry, and Z is
    cleared by a non-zero result and kept otherwise. *)
Theorem abcd_exact a b c :
  0 ≤ a < 100 → 0 ≤ b < 100 →
  let t := a + b + b2z (flag CCR_X c) in
  let '(res, c') := bcd_abcd (to_bcd b) (to_bcd a) c in
  res = to_bcd (t mod 100) ∧
  flag CCR_C c' = (100 <=? t) ∧ flag CCR_X c' = (100 <=? t) ∧
  flag CCR_Z c' = flag CCR_Z c && (t mod 100 =? 0).
Proof.
  intros Ha Hb t.
  by_digits a Ha ah al. by_digits b Hb bh bl.
  unfold bcd_abcd. fold (flag CCR_X c).
  assert (Hx : 0 ≤ b2z (flag CCR_X c) ≤ 1) by (destruct (flag CCR_X c); simpl; lia).
  set (x := b2z (flag CCR_X c)) in *. clearbody x.
  rewrite !land_0F, !land_F0, land_1F0, N, N0, N1, N2 by lia. clear N N0 N1 N2.
  rewrite (u16_small (bl + al + x)), (u16_small (bh * 16 + ah * 16)) by lia.
  set (k := if 9 <? bl + al + x then 1 else 0).
  assert (Hk : 0 ≤ k ≤ 1 ∧ 0 ≤ bl + al + x - 10 * k ≤ 9).
  { subst k. destruct (Z.ltb_spec 9 (bl + al + x)); lia. }
  assert ((if 9 <? bl + al + x then u16 (bl + al + x + 6) else bl + al + x)
          = bl + al + x + 6 * k) as ->.
  { subst k. destruct (Z.ltb_spec 9 (bl + al + x)); [rewrite u16_small; lia|lia]. }
  clearbody k. set (lo := bl + al + x - 10 * k). set (hi := bh + ah + k).
  replace (bh * 16 + ah * 16 + (bl + al + x + 6 * k)) with (16 * hi + lo) by lia.
  rewrite (u16_small (16 * hi + lo)) by lia.
  destruct (nibbles hi lo) as (_ & _ & EH); [lia|]. rewrite EH by lia. clear EH.
  assert (Ht : t = 10 * hi + lo) by lia. clearbody t. subst t.
  assert (HH : 0 ≤ hi ≤ 19) by lia. assert (HL : 0 ≤ lo ≤ 9) by lia. clearbody hi lo.
  destruct (Z.ltb_spec 0x90 (hi * 16)).
  - replace (16 * hi + lo + 0x60) with (16 * (hi + 6) + lo) by lia.
    rewrite u16_small, (pack_byte _ _ 1) by lia.
    replace ((10 * hi + lo) mod 100) with (10 * (hi - 10) + lo)
      by (apply Z.mod_unique with 1; lia).
    rewrite to_bcd_digits by lia. replace (hi + 6 - 16 * 1) with (hi - 10) by lia.
    split; [done|].
    edestruct bcd_flags as (-> & -> & ->). split_and!; try (symmetry; apply Z.leb_le; lia).
    f_equal. apply eqb_iff. lia.
  - rewrite (pack_byte _ _ 0) by lia.
    replace ((10 * hi + lo) mod 100) with (10 * hi + lo) by (symmetry; apply Z.mod_small; lia).
    rewrite to_bcd_digits by lia. replace (hi - 16 * 0) with hi by lia.
    split; [done|].
    edestruct bcd_flags as (-> & -> & ->). split_and!; try (symmetry; apply Z.leb_gt; lia).
    f_equal. apply eqb_iff. lia.
Qed.

Lemma land_0F_u16 x : u16 x .& 0x0F = x mod 16.
Proof. rewrite land_0F. unfold u16. apply Z.mod_mod_divide. by exists 4096. Qed.

Lemma land_1F0_u16 m : u16 (16 * m) .& 0x1F0 = (m mod 32) * 16.
Proof.
  rewrite land_1F0. unfold u16. f_equal. Z.div_mod_to_equations. lia.
Qed.

Lemma u16_sub_l x y : u16 (u16 x - y) = u16 (x - y).
Proof. apply Zminus_mod_idemp_l. Qed.
Lemma u16_add_l x y : u16 (u16 x + y) = u16 (x + y).
Proof. apply Zplus_mod_idemp_l. Qed.
Lemma u8_u16 x : u8 (u16 x) = u8 x.
Proof. apply Z.mod_mod_divide. by exists 256. Qed.

(** The decimal borrow shared by [bcd_sbcd] and [bcd_nbcd]: [h] and [l] are the
    differences of the digits before any borrow. *)
Definition bcd_borrow (lo hi : Z) : Z * bool :=
  let '(lo, hi) := if 9 <? lo then (u16 (lo - 6), u16 (hi - 0x10)) else (lo, hi) in
  let v := u16 (hi + (lo .& 0x0F)) in
  let carry := 0x90 <? hi .& 0x1F0 in
  let v := if carry then u16 (v - 0x60) else v in
  (u8 v, carry).

Lemma borrow_exact h l :
  -9 ≤ h ≤ 9 → -10 ≤ l ≤ 9 →
  bcd_borrow (u16 l) (u16 (16 * h)) = (to_bcd ((10 * h + l) mod 100), 10 * h + l <? 0).
Proof.
  intros Hh Hl. unfold bcd_borrow.
  set (k := if l <? 0 then 1 else 0).
  assert (Hk : 0 ≤ l + 10 * k ≤ 9 ∧ 0 ≤ k ≤ 1)
    by (subst k; destruct (Z.ltb_spec l 0); lia).
  assert ((if 9 <? u16 l then (u16 (u16 l - 6), u16 (u16 (16 * h) - 0x10))
           else (u16 l, u16 (16 * h))) = (u16 (l - 6 * k), u16 (16 * (h - k)))) as ->.
  { subst k. destruct (Z.ltb_spec l 0) as [Hl0|].
    - assert (u16 l = l + 0x10000) as -> by (symmetry; apply Z.mod_unique with (-1); lia).
      destruct (Z.ltb_spec 9 (l + 0x10000)); [|lia]. rewrite u16_sub_l. f_equal.
      + unfold u16. Z.div_mod_to_equations; lia.
      + f_equal; lia.
    - rewrite (u16_small l) by lia. destruct (Z.ltb_spec 9 l); [lia|].
      rewrite (u16_small (l - 6 * 0)) by lia. f_equal; [lia|f_equal; lia]. }
  assert ((l - 6 * k) mod 16 = l + 10 * k) as E
    by (symmetry; apply Z.mod_unique with (- k); lia).
  rewrite land_0F_u16, land_1F0_u16, E, u16_add_l. clear E. clearbody k.
  set (m := h - k). set (lo := l + 10 * k). assert (-10 ≤ m ≤ 9) by lia.
  replace (10 * h + l) with (10 * m + lo) by lia. assert (0 ≤ lo ≤ 9) by lia.
  clearbody m lo. destruct (Z.ltb_spec (10 * m + lo) 0) as [Hneg|Hpos].
  - assert (m mod 32 = m + 32) as -> by (symmetry; apply Z.mod_unique with (-1); lia).
    destruct (Z.ltb_spec 0x90 ((m + 32) * 16)); [|lia].
    rewrite u16_sub_l, u8_u16.
    replace (16 * m + lo - 0x60) with (16 * (m - 6) + lo) by lia.
    rewrite (pack_byte _ _ (-1)) by lia.
    replace ((10 * m + lo) mod 100) with (10 * (m + 10) + lo)
      by (apply Z.mod_unique with (-1); lia).
    rewrite to_bcd_digits by lia. repeat f_equal; lia.
  - rewrite (Z.mod_small m 32) by lia. destruct (Z.ltb_spec 0x90 (m * 16)); [lia|].
    rewrite u8_u16, (pack_byte _ _ 0), (Z.mod_small _ 100), to_bcd_digits by lia.
    repeat f_equal; lia.
Qed.

Lemma to_bcd_zero n : 0 ≤ n < 100 → (to_bcd n =? 0) = (n =? 0).
Proof. intros Hn. destruct (digits n Hn) as (h & l & ? & ? & -> & ->). apply eqb_iff. lia. Qed.

(** C8.  [SBCD] subtracts packed decimals: the result is the packed difference
    modulo 100 (with X as borrow in), C and X are the decimal borrow, and Z is
    cleared by a non-zero result and kept otherwise. *)
Theorem sbcd_exact a b c :
  0 ≤ a < 100 → 0 ≤ b < 100 →
  let t := a - b - b2z (flag CCR_X c) in
  let '(res, c') := bcd_sbcd (to_bcd b) (to_bcd a) c in
  res = to_bcd (t mod 100) ∧ flag CCR_C c' = (t <? 0) ∧ flag CCR_X c' = (t <? 0) ∧
  flag CCR_Z c' = flag CCR_Z c && (t mod 100 =? 0).
Proof.
  intros Ha Hb t.
  by_digits a Ha ah al. by_digits b Hb bh bl.
  unfold bcd_sbcd. fold (flag CCR_X c).
  assert (Hx : 0 ≤ b2z (flag CCR_X c) ≤ 1) by (destruct (flag CCR_X c); simpl; lia).
  set (x := b2z (flag CCR_X c)) in *. clearbody x.
  rewrite !land_0F, !land_F0, N, N0, N1, N2 by lia. clear N N0 N1 N2.
  pose proof (borrow_exact (ah - bh) (al - bl - x)) as HB. unfold bcd_borrow in HB.
  replace (ah * 16 - bh * 16) with (16 * (ah - bh)) by lia.
  replace (10 * (ah - bh) + (al - bl - x)) with t in HB by lia.
  destruct (if 9 <? _ then _ else _) as [lo hi].
  injection (HB ltac:(lia) ltac:(lia)) as -> ->. split; [done|].
  edestruct bcd_flags as (-> & -> & ->). split_and!; try done.
  rewrite to_bcd_zero; [done|]. apply Z.mod_pos_bound. lia.
Qed.

(** [NBCD] is [SBCD] from zero. *)
Lemma nbcd_exact a c :
  0 ≤ a < 100 →
  let t := 0 - a - b2z (flag CCR_X c) in
  let '(res, c') := bcd_nbcd (to_bcd a) c in
  res = to_bcd (t mod 100) ∧ flag CCR_C c' = (t <? 0) ∧ flag CCR_X c' = (t <? 0) ∧
  flag CCR_Z c' = flag CCR_Z c && (t mod 100 =? 0).
Proof.
  intros Ha t. by_digits a Ha ah al.
  unfold bcd_nbcd. fold (flag CCR_X c).
  assert (Hx : 0 ≤ b2z (flag CCR_X c) ≤ 1) by (destruct (flag CCR_X c); simpl; lia).
  set (x := b2z (flag CCR_X c)) in *. clearbody x.
  rewrite !land_0F, !land_F0, N, N0 by lia. clear N N0.
  pose proof (borrow_exact (- ah) (0 - al - x)) as HB. unfold bcd_borrow in HB.
  replace (0 - ah * 16) with (16 * - ah) by lia.
  replace (10 * - ah + (0 - al - x)) with t in HB by lia.
  destruct (if 9 <? _ then _ else _) as [lo hi].
  injection (HB ltac:(lia) ltac:(lia)) as -> ->. split; [done|].
  set (N := nz (_ .& 0x80)).
  destruct (bcd_flags (t <? 0) N false (to_bcd (t mod 100)) c) as (HC & HX & HZ).
  split_and!; [exact HC|exact HX|etransitivity; [exact HZ|]].
  rewrite to_bcd_zero; [done|]. apply Z.mod_pos_bound. lia.
Qed.

Lemma abcd_exact_witness : bcd_abcd 0x58 0x46 cpu_zero = (0x04, m68k_set_ccr 0x11 cpu_zero).
Proof.
  pose proof (abcd_exact 46 58 cpu_zero ltac:(lia) ltac:(lia)) as H.
  vm_compute in H. destruct H as (_ & H1 & H2 & H3). vm_compute. reflexivity.
Defined.

Lemma sbcd_exact_witness : bcd_sbcd 0x58 0x46 cpu_zero = (0x88, m68k_set_ccr 0x19 cpu_zero).
Proof.
  pose proof (sbcd_exact 46 58 cpu_zero ltac:(lia) ltac:(lia)) as H.
  vm_compute in H. destruct H as (_ & H1 & H2 & H3). vm_compute. reflexivity.
Defined.
