(* ===== verification/Shift.v ===== *)
(** * Shifts and rotates

    [do_shift] of [core/m68k_interp.c]: the loop that shifts one bit at a
    time, and its closed forms. *)

From Stdlib Require Import ZArith Lia.
From stdpp Require Import base tactics list numbers.
From S2P Require Import Prelude Cpu Flags.

(** The locals of the loop of [do_shift]. *)
Record shift_locals := mk_shift {
  sh_val : Z; sh_X : bool; sh_last_out : bool; sh_overflow : bool
}.

(** One iteration: [op] 0=ASR 1=LSR 2=ROXR 3=ROR 4=ASL 5=LSL 6=ROXL 7=ROL. *)
Definition shift_once (sz op : Z) (l : shift_locals) : shift_locals :=
  let mask := size_mask sz in let msb := size_msb sz in
  let val := sh_val l in
  let out_r := nz (val .& 1) in
  let out_l := nz (val .& msb) in
  let left := u32 (val ≪ 1) .& mask in
  match op with
  | 0 => mk_shift ((val ≫ 1) .| (val .& msb)) (sh_X l) out_r (sh_overflow l)
  | 1 => mk_shift (val ≫ 1) (sh_X l) out_r (sh_overflow l)
  | 2 => mk_shift ((val ≫ 1) .| (if sh_X l then msb else 0)) out_r out_r (sh_overflow l)
  | 3 => mk_shift ((val ≫ 1) .| (if out_r then msb else 0)) (sh_X l) out_r (sh_overflow l)
  | 4 => mk_shift left (sh_X l) out_l
           (if negb (Bool.eqb (nz (left .& msb)) out_l) then true else sh_overflow l)
  | 5 => mk_shift left (sh_X l) out_l (sh_overflow l)
  | 6 => mk_shift (left .| (if sh_X l then 1 else 0)) out_l out_l (sh_overflow l)
  | 7 => mk_shift (left .| (if out_l then 1 else 0)) (sh_X l) out_l (sh_overflow l)
  | _ => l
  end.

Definition do_shift (sz op val cnt : Z) (cpu : m68k_cpu) : Z * m68k_cpu :=
  let mask := size_mask sz in let msb := size_msb sz in
  let val := val .& mask in
  let f := m68k_get_ccr cpu in
  let X := nz (f .& CCR_X) in
  if cnt =? 0 then
    let c := f .& not32 (CCR_C .| CCR_V) in
    let c := if (op =? 2) || (op =? 6)
             then (if X then c .| CCR_C else c .& not32 CCR_C) else c in
    (val, set_nz sz val (m68k_set_ccr c cpu))
  else
    let l := Nat.iter (Z.to_nat cnt) (shift_once sz op) (mk_shift val X false false) in
    let val := sh_val l .& mask in
    let c := 0 in
    let c := or_if (val =? 0) CCR_Z c in
    let c := or_if (nz (val .& msb)) CCR_N c in
    let is_rotate_plain := (op =? 3) || (op =? 7) in
    let is_rotate_x := (op =? 2) || (op =? 6) in
    let c := or_if (sh_last_out l) CCR_C c in
    let c := if is_rotate_x then
               (if sh_X l then c .| CCR_X else c .& not32 CCR_X)
             else if negb is_rotate_plain then or_if (sh_last_out l) CCR_X c
             else or_if (nz (f .& CCR_X)) CCR_X c in
    let c := or_if (sh_overflow l) CCR_V c in
    (val, m68k_set_ccr c cpu).


(** ** The loop, one operation at a time *)

Definition width (sz : Z) : Z := 8 * sz.
Definition in_size (sz x : Z) : Prop := 0 ≤ x < 2 ^ width sz.

Lemma width_pos sz : size_ok sz → 0 < width sz.
Proof. intros H; by_size H; done. Qed.
Lemma msb_pow sz : size_ok sz → size_msb sz = 2 ^ (width sz - 1).
Proof. intros H; by_size H; done. Qed.
Lemma pow_width sz : size_ok sz → 2 ^ width sz = 2 * size_msb sz.
Proof. apply pow_size. Qed.
Lemma land_mask sz x : size_ok sz → x .& size_mask sz = x mod 2 ^ width sz.
Proof. apply land_size_mask. Qed.

Lemma out_r_bit v : nz (v .& 1) = Z.testbit v 0.
Proof. exact (nz_land_pow2 v 0 ltac:(lia)). Qed.
Lemma out_l_bit sz v : size_ok sz → nz (v .& size_msb sz) = Z.testbit v (width sz - 1).
Proof.
  intros H. rewrite (msb_pow sz H). apply nz_land_pow2. pose proof (width_pos sz H). lia.
Qed.

(** The bits of the building blocks, inside the operand. *)
Section bits.
Context (sz : Z) (Hsz : size_ok sz).
Let w := width sz.

Lemma testbit_mod_size v i : 0 ≤ i → Z.testbit (v mod 2 ^ w) i = (i <? w) && Z.testbit v i.
Proof.
  intros Hi. destruct (Z.ltb_spec i w).
  - by rewrite Z.mod_pow2_bits_low by lia.
  - pose proof (width_pos sz Hsz). by rewrite Z.mod_pow2_bits_high by (subst w; lia).
Qed.

Lemma shl1_mask v : in_size sz v → u32 (v ≪ 1) .& size_mask sz = (2 * v) mod 2 ^ w.
Proof.
  intros Hv. rewrite land_mask, (u32_mod_size sz), Z.shiftl_mul_pow2 by done.
  f_equal. lia.
Qed.

Lemma shr1 v : v ≫ 1 = v / 2.
Proof. by rewrite Z.shiftr_div_pow2. Qed.

Lemma testbit_left v i : in_size sz v → 0 ≤ i →
  Z.testbit (u32 (v ≪ 1) .& size_mask sz) i = (i <? w) && (0 <? i) && Z.testbit v (i - 1).
Proof.
  intros Hv Hi. rewrite shl1_mask, testbit_mod_size by done. rewrite <- andb_assoc. f_equal.
  destruct (Z.ltb_spec 0 i); simpl.
  - replace i with (Z.succ (i - 1)) at 1 by lia. by rewrite Z.testbit_even_succ by lia.
  - replace i with 0 by lia. apply Z.testbit_even_0.
Qed.

Lemma testbit_bit0 (b : bool) i : 0 ≤ i → Z.testbit (if b then 1 else 0) i = b && (i =? 0).
Proof.
  intros Hi. destruct b; [|by rewrite Z.testbit_0_l]. simpl.
  destruct (Z.eqb_spec i 0) as [->|]; [done|]. by rewrite (Z.pow2_bits_false 0).
Qed.

Lemma testbit_msb (b : bool) i :
  Z.testbit (if b then size_msb sz else 0) i = b && (i =? w - 1).
Proof.
  destruct b; [|by rewrite Z.testbit_0_l]. simpl. rewrite (msb_pow sz) by done.
  destruct (Z.eqb_spec i (w - 1)) as [->|].
  - apply Z.pow2_bits_true. pose proof (width_pos sz Hsz). subst w. lia.
  - by apply Z.pow2_bits_false.
Qed.
End bits.

(** One step of a loop state that fits the operand size leaves it fitting. *)
Lemma in_size_bits sz v : size_ok sz → 0 ≤ v →
  (∀ i, width sz ≤ i → Z.testbit v i = false) → in_size sz v.
Proof.
  intros Hsz Hv Hb. pose proof (width_pos sz Hsz).
  assert (v = v mod 2 ^ width sz) as ->; [|apply Z.mod_pos_bound; lia].
  zbits i. rewrite testbit_mod_size by done.
  destruct (Z.ltb_spec i (width sz)); [done|]. by apply Hb.
Qed.

Lemma size_msb_range sz : size_ok sz → 0 ≤ size_msb sz < 2 ^ width sz.
Proof. intros H. rewrite pow_width by done. pose proof (size_msb_pos sz). lia. Qed.

Lemma shift_once_in_size sz op l :
  size_ok sz → in_size sz (sh_val l) → in_size sz (sh_val (shift_once sz op l)).
Proof.
  intros Hsz Hv. pose proof (width_pos sz Hsz). pose proof (size_msb_range sz Hsz).
  assert (Hr : in_size sz (sh_val l ≫ 1)).
  { red in Hv |- *. rewrite shr1. split; [apply Z.div_pos; lia|].
    apply Z.div_lt_upper_bound; lia. }
  assert (Hm : ∀ b : bool, in_size sz (if b then size_msb sz else 0))
    by (intros []; red; lia).
  assert (Hb : ∀ b : bool, in_size sz (if b then 1 else 0)).
  { assert (1 < 2 ^ width sz) by (apply Z.pow_gt_1; lia). intros []; red; lia. }
  assert (Hl : in_size sz (u32 (sh_val l ≪ 1) .& size_mask sz))
    by (rewrite land_mask by done; apply Z.mod_pos_bound; lia).
  assert (Hn : in_size sz (sh_val l .& size_msb sz))
    by (apply land_range_r; lia).
  pose proof (Hm true). pose proof (Hm false). pose proof (Hb true).
  unfold shift_once, in_size in *.
  repeat case_match; simpl in *; try done; apply lor_range; (lia || done).
Qed.

Lemma shift_loop_in_size sz op n l :
  size_ok sz → in_size sz (sh_val l) → in_size sz (sh_val (Nat.iter n (shift_once sz op) l)).
Proof. intros. induction n; [done|]. by apply shift_once_in_size. Qed.

(** ** Closed forms of the loop *)

Section loops.
Context (sz : Z) (Hsz : size_ok sz) (v : Z) (X : bool) (Hv : in_size sz v).
Let w := width sz.
Let loop op n := Nat.iter n (shift_once sz op) (mk_shift v X false false).

Lemma loop_in_size op n : in_size sz (sh_val (loop op n)).
Proof. by apply shift_loop_in_size. Qed.

Lemma loop_S op n : loop op (S n) = shift_once sz op (loop op n).
Proof. reflexivity. Qed.

(** Reaching the [n]-th iteration: the invariant holds with the carry of the
    last iteration. *)
Lemma loop_ind op (P : Z → shift_locals → Prop) :
  (∀ b, P 0 (mk_shift v X b false)) →
  (∀ k l, 0 ≤ k → in_size sz (sh_val l) → P k l → P (k + 1) (shift_once sz op l)) →
  ∀ n, P (Z.of_nat n) (loop op n).
Proof.
  intros H0 HS. induction n; [apply H0|].
  rewrite loop_S, Nat2Z.inj_succ. apply HS; [lia|apply loop_in_size|done].
Qed.

Lemma w_pos : 0 < w.
Proof. by apply width_pos. Qed.

Lemma lsr_loop n : let l := loop 1 n in
  sh_val l = v / 2 ^ Z.of_nat n ∧ sh_X l = X ∧ sh_overflow l = false ∧
  ((0 < n)%nat → sh_last_out l = Z.testbit v (Z.of_nat n - 1)).
Proof.
  pose (P k l := sh_val l = v / 2 ^ k ∧ sh_X l = X ∧ sh_overflow l = false ∧
    (0 < k → sh_last_out l = Z.testbit v (k - 1))).
  assert (P (Z.of_nat n) (loop 1 n)) as (? & ? & ? & H).
  { apply loop_ind.
    - intros. split_and!; simpl; try done. by rewrite Z.div_1_r.
    - intros k l Hk Hl (E & EX & EO & _). simpl. split_and!; simpl; try done.
      + rewrite shr1, E, Z.div_div by lia. by rewrite Z.pow_add_r by lia.
      + intros _. rewrite out_r_bit, E, Z.div_pow2_bits by lia. f_equal. lia. }
  split_and!; try done. intros. apply H. lia.
Qed.

Lemma lsl_loop n : let l := loop 5 n in
  sh_val l = (v * 2 ^ Z.of_nat n) mod 2 ^ w ∧ sh_X l = X ∧ sh_overflow l = false ∧
  ((0 < n)%nat → sh_last_out l = Z.testbit v (w - Z.of_nat n)).
Proof.
  pose proof w_pos as Hw.
  pose (P k l := sh_val l = (v * 2 ^ k) mod 2 ^ w ∧ sh_X l = X ∧ sh_overflow l = false ∧
    (0 < k → sh_last_out l = Z.testbit v (w - k))).
  assert (P (Z.of_nat n) (loop 5 n)) as (? & ? & ? & H).
  { apply loop_ind.
    - intros. split_and!; simpl; try done.
      rewrite Z.mul_1_r, Z.mod_small by done. done.
    - intros k l Hk Hl (E & EX & EO & _). simpl. split_and!; simpl; try done.
      + rewrite (shl1_mask sz), E by done. fold w.
        rewrite Zmult_mod_idemp_r, Z.pow_add_r by lia. f_equal. lia.
      + intros _. rewrite (out_l_bit sz), E by done. fold w.
        rewrite Z.mod_pow2_bits_low by lia. rewrite <- Z.shiftl_mul_pow2 by lia.
        rewrite Z.shiftl_spec by lia. f_equal. lia. }
  split_and!; try done. intros. apply H. lia.
Qed.

Let sv := signed sz v.

Lemma sv_range : - size_msb sz ≤ sv < size_msb sz.
Proof.
  pose proof Hv as Hv'. unfold in_size in Hv'. rewrite pow_width in Hv' by done.
  destruct (signed_cases sz v Hsz Hv') as [(_ & _ & ?)|(_ & _ & ?)]; subst sv; lia.
Qed.

Lemma v_sv : v mod 2 ^ w = sv mod 2 ^ w.
Proof.
  pose proof Hv as Hv'. unfold in_size in Hv'. rewrite pow_width in Hv' by done.
  destruct (signed_cases sz v Hsz Hv') as [(_ & E & _)|(_ & E & _)]; rewrite E at 1; [done|].
  fold sv w. subst w. rewrite <- pow_width by done. rewrite <- (Z.mul_1_l (2 ^ width sz)) at 1.
  apply Z_mod_plus_full.
Qed.

(** Above its width a two's complement number has only copies of its sign. *)
Lemma sign_bits s i : - size_msb sz ≤ s < size_msb sz → w - 1 ≤ i → Z.testbit s i = (s <? 0).
Proof.
  pose proof w_pos. rewrite msb_pow by done. fold w. intros Hs Hi.
  destruct (Z.ltb_spec s 0).
  - rewrite <- (Z.lnot_involutive s), Z.lnot_spec by lia.
    rewrite (testbit_high (w - 1)) by (unfold Z.lnot; lia). done.
  - apply (testbit_high (w - 1)); lia.
Qed.

Lemma asr_loop n : let l := loop 0 n in
  sh_val l = (sv / 2 ^ Z.of_nat n) mod 2 ^ w ∧ sh_X l = X ∧ sh_overflow l = false ∧
  ((0 < n)%nat → sh_last_out l = Z.testbit sv (Z.of_nat n - 1)).
Proof.
  pose proof w_pos as Hw.
  pose (P k l := sh_val l = (sv / 2 ^ k) mod 2 ^ w ∧ sh_X l = X ∧ sh_overflow l = false ∧
    (0 < k → sh_last_out l = Z.testbit sv (k - 1))).
  assert (P (Z.of_nat n) (loop 0 n)) as (? & ? & ? & H).
  { apply loop_ind.
    - intros. split_and!; simpl; try done.
      rewrite Z.div_1_r, <- v_sv. symmetry. by apply Z.mod_small.
    - intros k l Hk Hl (E & EX & EO & _). simpl.
      assert (Hs : - size_msb sz ≤ sv / 2 ^ k < size_msb sz).
      { pose proof sv_range. split; [apply Z.div_le_lower_bound|apply Z.div_lt_upper_bound]; nia. }
      split_and!; simpl; try done.
      + replace (sv / 2 ^ (k + 1)) with (sv / 2 ^ k / 2)
          by (rewrite Z.pow_add_r, Z.div_div by lia; done).
        set (s := sv / 2 ^ k) in *. clearbody s. rewrite E, shr1.
        rewrite (msb_pow sz) by done. fold w. zbits i.
        rewrite !(Z.div_pow2_bits _ 1) by lia. rewrite !(testbit_mod_size sz) by lia || done.
        fold w. rewrite (Z.div_pow2_bits _ 1) by lia.
        destruct (Z.eq_dec i (w - 1)) as [->|Hi].
        * rewrite Z.pow2_bits_true, !sign_bits by lia.
          destruct (Z.ltb_spec (w - 1) w), (Z.ltb_spec (w - 1 + 1) w); try lia; by destruct (s <? 0).
        * rewrite Z.pow2_bits_false, andb_false_r, orb_false_r by lia. f_equal.
          destruct (Z.ltb_spec i w), (Z.ltb_spec (i + 1) w); try lia; done.
      + intros _. rewrite out_r_bit, E, Z.mod_pow2_bits_low, Z.div_pow2_bits by lia. f_equal. lia. }
  split_and!; try done. intros. apply H. lia.
Qed.

(** [ASL] is [LSL] that also records whether the sign ever changed. *)
Lemma asl_loop n : let l := loop 4 n in let l' := loop 5 n in
  sh_val l = sh_val l' ∧ sh_X l = X ∧ sh_last_out l = sh_last_out l' ∧
  sh_overflow l = negb ((- size_msb sz <=? sv * 2 ^ Z.of_nat n)
                        && (sv * 2 ^ Z.of_nat n <? size_msb sz)).
Proof.
  cbv zeta. induction n as [|n IH].
  - split_and!; try done. simpl. rewrite Z.mul_1_r. pose proof sv_range.
    apply eqb_iff. rewrite negb_true_iff, andb_false_iff. split; [done|lia].
  - destruct IH as (E & EX & EO & EV). rewrite !loop_S.
    destruct (lsl_loop n) as (EL & _). rewrite <- E in EL.
    assert (sh_val (loop 4 n) = (sv * 2 ^ Z.of_nat n) mod 2 ^ w) as E4.
    { rewrite EL, <- Zmult_mod_idemp_l, v_sv, Zmult_mod_idemp_l. done. }
    simpl. rewrite E. split_and!; try done. rewrite EV. clear EV.
    rewrite (shl1_mask sz) by (done || apply loop_in_size). rewrite <- E, E4.
    rewrite Zmult_mod_idemp_r. clear E4 E EO EX EL.
    rewrite Nat2Z.inj_succ, Z.pow_succ_r by lia.
    replace (sv * (2 * 2 ^ Z.of_nat n)) with (2 * (sv * 2 ^ Z.of_nat n)) by lia.
    set (T := sv * 2 ^ Z.of_nat n). clearbody T. fold w.
    pose proof w_pos. pose proof (size_msb_pos sz). assert (E2 := pow_width sz Hsz). fold w in E2.
    assert (Hb : ∀ x, 0 ≤ x mod 2 ^ w < 2 ^ w) by (intros; apply Z.mod_pos_bound; lia).
    rewrite !msb_test by (done || apply Hb). clear Hb.
    destruct (Z.leb_spec (- size_msb sz) T), (Z.ltb_spec T (size_msb sz)); simpl;
      try (case_match; apply eqb_iff; rewrite negb_true_iff, andb_false_iff; idtac; lia).
    assert (T mod 2 ^ w = T ∧ 0 ≤ T ∨ T mod 2 ^ w = T + 2 ^ w ∧ T < 0) as HT.
    { destruct (Z_le_gt_dec 0 T); [left|right]; (split; [|lia]);
      [apply Z.mod_small; lia|symmetry; apply Z.mod_unique with (-1); lia]. }
    assert ((2 * T) mod 2 ^ w = 2 * T ∧ 0 ≤ T ∨ (2 * T) mod 2 ^ w = 2 * T + 2 ^ w ∧ T < 0) as HT2.
    { destruct (Z_le_gt_dec 0 T); [left|right]; (split; [|lia]);
      [apply Z.mod_small; lia|symmetry; apply Z.mod_unique with (-1); lia]. }
    destruct (Bool.eqb _ _) eqn:B; simpl;
      [apply Bool.eqb_prop in B|apply Bool.eqb_false_iff in B];
    apply eqb_iff; rewrite negb_true_iff, andb_false_iff;
    destruct (Z.leb_spec (size_msb sz) (T mod 2 ^ w)), (Z.leb_spec (size_msb sz) ((2 * T) mod 2 ^ w)); 
     try congruence; lia.
Qed.

(** *** Rotates, as permutations of bit positions *)

Lemma mod_wrap k m : (m + k) mod m = k mod m.
Proof. replace (m + k) with (k + 1 * m) by lia. apply Z_mod_plus_full. Qed.
Lemma mod_wrap_sub k m : (m - k) mod m = (- k) mod m.
Proof. replace (m - k) with (- k + 1 * m) by lia. apply Z_mod_plus_full. Qed.

Lemma ror_loop n : let l := loop 3 n in
  (∀ i, 0 ≤ i < w → Z.testbit (sh_val l) i = Z.testbit v ((i + Z.of_nat n) mod w)) ∧
  sh_X l = X ∧ sh_overflow l = false ∧
  ((0 < n)%nat → sh_last_out l = Z.testbit v ((Z.of_nat n - 1) mod w)).
Proof.
  pose proof w_pos as Hw.
  pose (P k l := (∀ i, 0 ≤ i < w → Z.testbit (sh_val l) i = Z.testbit v ((i + k) mod w)) ∧
    sh_X l = X ∧ sh_overflow l = false ∧
    (0 < k → sh_last_out l = Z.testbit v ((k - 1) mod w))).
  assert (P (Z.of_nat n) (loop 3 n)) as (? & ? & ? & H).
  { apply loop_ind.
    - intros. split_and!; simpl; try done. intros. by rewrite Z.add_0_r, Z.mod_small.
    - intros k l Hk Hl (E & EX & EO & _). simpl. split_and!; simpl; try done.
      + intros i Hi. rewrite Z.lor_spec, (testbit_msb sz), out_r_bit by done. fold w.
        rewrite Z.shiftr_spec by lia. destruct (Z.eqb_spec i (w - 1)) as [->|].
        * rewrite (testbit_high w (sh_val l)) by (done || lia). rewrite E by lia.
          rewrite andb_true_r, orb_false_l. replace (w - 1 + (k + 1)) with (w + k) by lia.
          by rewrite mod_wrap.
        * rewrite andb_false_r, orb_false_r, E by lia. do 2 f_equal. lia.
      + intros _. rewrite out_r_bit, E by lia. do 2 f_equal. lia. }
  split_and!; try done. intros. apply H. lia.
Qed.

Lemma rol_loop n : let l := loop 7 n in
  (∀ i, 0 ≤ i < w → Z.testbit (sh_val l) i = Z.testbit v ((i - Z.of_nat n) mod w)) ∧
  sh_X l = X ∧ sh_overflow l = false ∧
  ((0 < n)%nat → sh_last_out l = Z.testbit v ((- Z.of_nat n) mod w)).
Proof.
  pose proof w_pos as Hw.
  pose (P k l := (∀ i, 0 ≤ i < w → Z.testbit (sh_val l) i = Z.testbit v ((i - k) mod w)) ∧
    sh_X l = X ∧ sh_overflow l = false ∧
    (0 < k → sh_last_out l = Z.testbit v ((- k) mod w))).
  assert (P (Z.of_nat n) (loop 7 n)) as (? & ? & ? & H).
  { apply loop_ind.
    - intros. split_and!; simpl; try done. intros. by rewrite Z.sub_0_r, Z.mod_small.
    - intros k l Hk Hl (E & EX & EO & _).
      assert (Z.testbit (sh_val l) (w - 1) = Z.testbit v ((- (k + 1)) mod w)) as Et.
      { rewrite E by lia. replace (w - 1 - k) with (w - (k + 1)) by lia.
        by rewrite mod_wrap_sub. }
      simpl. split_and!; simpl; try done.
      + intros i Hi. rewrite Z.lor_spec, testbit_bit0, (testbit_left sz), (out_l_bit sz)
          by (done || lia).
        fold w. rewrite Et. destruct (Z.ltb_spec i w); [|lia].
        destruct (Z.eqb_spec i 0) as [->|].
        * by rewrite andb_true_r.
        * destruct (Z.ltb_spec 0 i); [|lia]. rewrite andb_false_r, orb_false_r.
          rewrite !andb_true_l, E by lia. do 2 f_equal. lia.
      + intros _. by rewrite (out_l_bit sz). }
  split_and!; try done. intros. apply H. lia.
Qed.

(** Bit [i] of the operand extended with X as bit [w]. *)
Definition xbit (x : bool) (val i : Z) : bool := if i =? width sz then x else Z.testbit val i.

Lemma roxr_loop n : let l := loop 2 n in
  (∀ i, 0 ≤ i ≤ w → xbit (sh_X l) (sh_val l) i = xbit X v ((i + Z.of_nat n) mod (w + 1))) ∧
  sh_overflow l = false ∧ ((0 < n)%nat → sh_last_out l = sh_X l).
Proof.
  pose proof w_pos as Hw.
  pose (P k l := (∀ i, 0 ≤ i ≤ w →
      xbit (sh_X l) (sh_val l) i = xbit X v ((i + k) mod (w + 1))) ∧
    sh_overflow l = false ∧ (0 < k → sh_last_out l = sh_X l)).
  assert (P (Z.of_nat n) (loop 2 n)) as (? & ? & H).
  { apply loop_ind.
    - intros. split_and!; simpl; try done. intros. by rewrite Z.add_0_r, Z.mod_small by lia.
    - intros k l Hk Hl (E & EO & _). simpl. split_and!; simpl; try done.
      intros i Hi. replace (i + (k + 1)) with (i + 1 + k) by lia.
      destruct (Z.eq_dec i w) as [->|].
      + replace (w + 1 + k) with ((w + 1) + (0 + k)) by lia.
        rewrite mod_wrap, <- E by lia. unfold xbit. fold w.
        rewrite Z.eqb_refl, out_r_bit. by destruct (Z.eqb_spec 0 w); [lia|].
      + rewrite <- E by lia. unfold xbit. fold w.
        rewrite Z.lor_spec, (testbit_msb sz), Z.shiftr_spec by (done || lia). fold w.
        destruct (Z.eqb_spec i w); [lia|].
        destruct (Z.eqb_spec (i + 1) w), (Z.eqb_spec i (w - 1)); try lia.
        * rewrite (testbit_high w (sh_val l)) by (done || lia). by rewrite andb_true_r.
        * by rewrite andb_false_r, orb_false_r. }
  split_and!; try done. intros. apply H. lia.
Qed.

Lemma roxl_loop n : let l := loop 6 n in
  (∀ i, 0 ≤ i ≤ w → xbit (sh_X l) (sh_val l) i = xbit X v ((i - Z.of_nat n) mod (w + 1))) ∧
  sh_overflow l = false ∧ ((0 < n)%nat → sh_last_out l = sh_X l).
Proof.
  pose proof w_pos as Hw.
  pose (P k l := (∀ i, 0 ≤ i ≤ w →
      xbit (sh_X l) (sh_val l) i = xbit X v ((i - k) mod (w + 1))) ∧
    sh_overflow l = false ∧ (0 < k → sh_last_out l = sh_X l)).
  assert (P (Z.of_nat n) (loop 6 n)) as (? & ? & H).
  { apply loop_ind.
    - intros. split_and!; simpl; try done. intros. by rewrite Z.sub_0_r, Z.mod_small by lia.
    - intros k l Hk Hl (E & EO & _). simpl. split_and!; simpl; try done.
      intros i Hi. replace (i - (k + 1)) with (i - 1 - k) by lia.
      destruct (Z.eq_dec i 0) as [->|].
      + rewrite <- (mod_wrap (0 - 1 - k)). replace (w + 1 + (0 - 1 - k)) with (w - k) by lia.
        rewrite <- E by lia. unfold xbit. fold w. rewrite Z.eqb_refl.
        destruct (Z.eqb_spec 0 w); [lia|].
        rewrite Z.lor_spec, testbit_bit0, (testbit_left sz) by (done || lia).
        simpl. by rewrite andb_false_r, andb_true_r.
      + rewrite <- E by lia. unfold xbit. fold w.
        destruct (Z.eqb_spec (i - 1) w); [lia|].
        destruct (Z.eqb_spec i w) as [->|]; [by rewrite (out_l_bit sz)|].
        rewrite Z.lor_spec, testbit_bit0, (testbit_left sz) by (done || lia). fold w.
        destruct (Z.ltb_spec i w), (Z.ltb_spec 0 i), (Z.eqb_spec i 0); try lia.
        by rewrite andb_false_r, orb_false_r. }
  split_and!; try done. intros. apply H. lia.
Qed.
End loops.

(** ** [do_shift] as a whole *)

(** [res] is the pair [do_shift] returns: the result [r], and a CCR with the
    given carry, extend and overflow and the sign and zero tests of [r]. *)
Definition shift_gives (sz : Z) (res : Z * m68k_cpu) (r : Z) (C X V : bool) : Prop :=
  res.1 = r ∧ flag CCR_C res.2 = C ∧ flag CCR_X res.2 = X ∧ flag CCR_V res.2 = V ∧
  flag CCR_Z res.2 = (r =? 0) ∧ flag CCR_N res.2 = (signed sz r <? 0).

(** A CCR masked by a constant, seen through a flag's test. *)
Lemma flag_keep k v f : k .& f = f → nz ((v .& k) .& f) = nz (v .& f).
Proof. intros H. by rewrite <- Z.land_assoc, H. Qed.

Lemma flag_clear k v f : k .& f = 0 → nz ((v .& k) .& f) = false.
Proof. intros H. by rewrite <- Z.land_assoc, H, Z.land_0_r. Qed.

Lemma lor_or_if bit v : v .| bit = or_if true bit v.
Proof. reflexivity. Qed.

Lemma signed_msb sz r : size_ok sz → in_size sz r →
  nz (r .& size_msb sz) = (signed sz r <? 0).
Proof.
  intros Hsz Hr. rewrite msb_test by done. unfold in_size in Hr. rewrite pow_width in Hr by done.
  destruct (signed_cases sz r Hsz Hr) as [(-> & ? & ?)|(-> & ? & ?)];
    destruct (Z.ltb_spec (signed sz r) 0); lia.
Qed.

Lemma do_shift_gives sz op val cnt c :
  size_ok sz → 0 < cnt →
  let l := Nat.iter (Z.to_nat cnt) (shift_once sz op)
             (mk_shift (val mod 2 ^ width sz) (flag CCR_X c) false false) in
  shift_gives sz (do_shift sz op val cnt c) (sh_val l) (sh_last_out l)
    (if (op =? 2) || (op =? 6) then sh_X l
     else if (op =? 3) || (op =? 7) then flag CCR_X c else sh_last_out l)
    (sh_overflow l).
Proof.
  intros Hsz Hc l. unfold do_shift. destruct (Z.eqb_spec cnt 0); [lia|].
  fold (flag CCR_X c). rewrite (land_mask sz val) by done. fold l.
  assert (Hl : in_size sz (sh_val l)).
  { apply shift_loop_in_size; [done|]. apply Z.mod_pos_bound.
    rewrite pow_width by done. pose proof (size_msb_pos sz). lia. }
  rewrite land_mask by done. rewrite (Z.mod_small (sh_val l)) by done.
  rewrite signed_msb by done. clearbody l. unfold shift_gives. simpl.
  destruct ((op =? 2) || (op =? 6)), ((op =? 3) || (op =? 7)), (sh_X l); simpl;
    rewrite ?(lor_or_if CCR_X); rewrite !flag_set_ccr by reflexivity;
    rewrite !nz_or_if, ?(flag_clear (not32 CCR_X) _ CCR_X), ?(flag_keep (not32 CCR_X) _ CCR_C),
      ?(flag_keep (not32 CCR_X) _ CCR_V), ?(flag_keep (not32 CCR_X) _ CCR_Z),
      ?(flag_keep (not32 CCR_X) _ CCR_N) by reflexivity;
    flag_eval; by split_and!.
Qed.

Lemma iter_pos cnt : 0 < cnt → Z.of_nat (Z.to_nat cnt) = cnt ∧ (0 < Z.to_nat cnt)%nat.
Proof. lia. Qed.

Lemma mod_in_size sz val : size_ok sz → in_size sz (val mod 2 ^ width sz).
Proof.
  intros Hsz. apply Z.mod_pos_bound. rewrite pow_width by done.
  pose proof (size_msb_pos sz). lia.
Qed.

(** C5.  The bit-at-a-time loop computes the shifts of the architecture for
    every operand size and every non-zero count: [LSR]/[LSL] divide and
    multiply the unsigned operand by [2^cnt], [ASR]/[ASL] the signed one; C and
    X are the last bit shifted out, and [ASL] sets V exactly when the exact
    product does not fit the size. *)
Theorem shift_exact sz val cnt c :
  size_ok sz → 0 < cnt →
  let v := val mod 2 ^ width sz in let s := signed sz v in
  let m := 2 ^ width sz in
  let carry_r := Z.testbit s (cnt - 1) in let carry_l := Z.testbit v (width sz - cnt) in
  let fits := (- size_msb sz <=? s * 2 ^ cnt) && (s * 2 ^ cnt <? size_msb sz) in
  shift_gives sz (do_shift sz 0 val cnt c) ((s / 2 ^ cnt) mod m) carry_r carry_r false ∧
  shift_gives sz (do_shift sz 1 val cnt c) (v / 2 ^ cnt)
    (Z.testbit v (cnt - 1)) (Z.testbit v (cnt - 1)) false ∧
  shift_gives sz (do_shift sz 4 val cnt c) ((v * 2 ^ cnt) mod m) carry_l carry_l (negb fits) ∧
  shift_gives sz (do_shift sz 5 val cnt c) ((v * 2 ^ cnt) mod m) carry_l carry_l false.
Proof.
  intros Hsz Hc v s m carry_r carry_l fits.
  destruct (iter_pos cnt Hc) as [En Hn]. set (n := Z.to_nat cnt) in *.
  pose proof (mod_in_size sz val Hsz) as Hv. fold v in Hv.
  destruct (asr_loop sz Hsz v (flag CCR_X c) Hv n) as (E0 & _ & O0 & C0).
  destruct (lsr_loop sz Hsz v (flag CCR_X c) Hv n) as (E1 & _ & O1 & C1).
  destruct (lsl_loop sz Hsz v (flag CCR_X c) Hv n) as (E5 & _ & O5 & C5).
  destruct (asl_loop sz Hsz v (flag CCR_X c) Hv n) as (E4 & _ & C4 & O4).
  rewrite E5 in E4. rewrite (C5 Hn) in C4.
  specialize (C0 Hn). specialize (C1 Hn). specialize (C5 Hn).
  rewrite En in *.
  pose proof (do_shift_gives sz 0 val cnt c Hsz Hc) as D0.
  pose proof (do_shift_gives sz 1 val cnt c Hsz Hc) as D1.
  pose proof (do_shift_gives sz 4 val cnt c Hsz Hc) as D4.
  pose proof (do_shift_gives sz 5 val cnt c Hsz Hc) as D5.
  cbv zeta in D0, D1, D4, D5. fold n v in D0, D1, D4, D5.
  cbn [Z.eqb Pos.eqb orb] in D0, D1, D4, D5.
  rewrite E0, C0, O0 in D0. rewrite E1, C1, O1 in D1.
  rewrite E4, C4, O4 in D4. rewrite E5, C5, O5 in D5. done.
Qed.

(** C6.  The rotates permute bit positions: [ROR]/[ROL] by [cnt] modulo the
    operand's width, with C the bit that ends at the other end and X kept;
    [ROXR]/[ROXL] by [cnt] modulo the width plus one on the operand extended with X,
    and C is the new X. *)
Theorem rotate_exact sz val cnt c :
  size_ok sz → 0 < cnt →
  let v := val mod 2 ^ width sz in let w := width sz in let X := flag CCR_X c in
  ∃ ror rol roxr roxl xr xl,
    shift_gives sz (do_shift sz 3 val cnt c) ror (Z.testbit v ((cnt - 1) mod w)) X false ∧
    shift_gives sz (do_shift sz 7 val cnt c) rol (Z.testbit v ((- cnt) mod w)) X false ∧
    shift_gives sz (do_shift sz 2 val cnt c) roxr xr xr false ∧
    shift_gives sz (do_shift sz 6 val cnt c) roxl xl xl false ∧
    (∀ i, 0 ≤ i < w → Z.testbit ror i = Z.testbit v ((i + cnt) mod w) ∧
                      Z.testbit rol i = Z.testbit v ((i - cnt) mod w)) ∧
    (∀ i, 0 ≤ i ≤ w → xbit sz xr roxr i = xbit sz X v ((i + cnt) mod (w + 1)) ∧
                      xbit sz xl roxl i = xbit sz X v ((i - cnt) mod (w + 1))).
Proof.
  intros Hsz Hc v w X.
  destruct (iter_pos cnt Hc) as [En Hn]. set (n := Z.to_nat cnt) in *.
  pose proof (mod_in_size sz val Hsz) as Hv. fold v in Hv.
  destruct (ror_loop sz Hsz v X Hv n) as (E3 & X3 & O3 & C3).
  destruct (rol_loop sz Hsz v X Hv n) as (E7 & X7 & O7 & C7).
  destruct (roxr_loop sz Hsz v X Hv n) as (E2 & O2 & C2).
  destruct (roxl_loop sz Hsz v X Hv n) as (E6 & O6 & C6).
  specialize (C3 Hn). specialize (C7 Hn). specialize (C2 Hn). specialize (C6 Hn).
  rewrite En in *.
  pose proof (do_shift_gives sz 3 val cnt c Hsz Hc) as D3.
  pose proof (do_shift_gives sz 7 val cnt c Hsz Hc) as D7.
  pose proof (do_shift_gives sz 2 val cnt c Hsz Hc) as D2.
  pose proof (do_shift_gives sz 6 val cnt c Hsz Hc) as D6.
  cbv zeta in D3, D7, D2, D6. fold n v X in D3, D7, D2, D6.
  cbn [Z.eqb Pos.eqb orb] in D3, D7, D2, D6.
  rewrite C3, O3 in D3. rewrite C7, O7 in D7. rewrite C2, O2 in D2. rewrite C6, O6 in D6.
  do 6 eexists. repeat (split; [eassumption|]). split; auto.
Qed.

Lemma shift_exact_witness : fst (do_shift 2 4 0x6001 3 cpu_zero) = 0x0008 ∧
  flag CCR_V (snd (do_shift 2 4 0x6001 3 cpu_zero)) = true.
Proof.
  destruct (shift_exact 2 0x6001 3 cpu_zero (or_intror (or_introl eq_refl)) eq_refl)
    as (_ & _ & (H & _ & _ & V & _) & _).
  split; [exact H|exact V].
Defined.

Lemma rotate_exact_witness : fst (do_shift 1 3 0x81 9 cpu_zero) = 0xC0.
Proof.
  destruct (rotate_exact 1 0x81 9 cpu_zero (or_introl eq_refl) eq_refl)
    as (ror & _ & _ & _ & _ & _ & (H & _) & _).
  vm_compute. reflexivity.
Defined.
