(* ===== verification/Flat.v ===== *)
(** * A flat memory

    The simplest bus that meets the contract of Cpu.v: a byte array that wraps
    around, big-endian, without peripherals.  The examples and witnesses of
    the interpreter run on it; the emulator's own bus is in MacMem.v. *)

From Stdlib Require Import ZArith Lia.
From stdpp Require Import base tactics list numbers.
From S2P Require Import Prelude Cpu.

Definition flat := list Z.

Definition flat_index (m : flat) (a : Z) : Z := a mod Z.of_nat (length m).
Definition flat_byte (m : flat) (a : Z) : Z := znth m (flat_index m a).
Definition flat_put (a v : Z) (m : flat) : flat := zset m (flat_index m a) (u8 v).

Definition flat_rd8 (a : Z) : M (st flat) Z := gets (λ s, flat_byte (bus s) a).
Definition flat_rd16 (a : Z) : M (st flat) Z :=
  gets (λ s, flat_byte (bus s) a * 0x100 + flat_byte (bus s) (a + 1)).
Definition flat_rd32 (a : Z) : M (st flat) Z :=
  gets (λ s, flat_byte (bus s) a * 0x1000000 + flat_byte (bus s) (a + 1) * 0x10000
             + flat_byte (bus s) (a + 2) * 0x100 + flat_byte (bus s) (a + 3)).
Definition flat_wr8 (a v : Z) : M (st flat) unit := modify (with_bus (flat_put a v)).
Definition flat_wr16 (a v : Z) : M (st flat) unit :=
  modify (with_bus (λ m, flat_put (a + 1) v (flat_put a (v / 0x100) m))).
Definition flat_wr32 (a v : Z) : M (st flat) unit :=
  modify (with_bus (λ m, flat_put (a + 3) v (flat_put (a + 2) (v / 0x100)
    (flat_put (a + 1) (v / 0x10000) (flat_put a (v / 0x1000000) m))))).

#[export] Instance flat_bus : Bus flat := {|
  rd8 := flat_rd8; rd16 := flat_rd16; rd32 := flat_rd32;
  wr8 := flat_wr8; wr16 := flat_wr16; wr32 := flat_wr32;
  trap_hook := None
|}.

Definition flat_inv (m : flat) (_ : Z) : Prop := Forall byte m.

Lemma flat_byte_range m a : Forall byte m → byte (flat_byte m a).
Proof. apply znth_Forall. unfold byte. lia. Qed.
Lemma flat_put_inv m a v : Forall byte m → Forall byte (flat_put a v m).
Proof. apply zset_Forall, u8_range. Qed.

Lemma flat_read_ok {A} (f : flat → A) P :
  (∀ m, Forall byte m → P (f m)) → access_ok flat_inv False (gets (λ s, f (bus s))) P.
Proof. intros Hf s Hs. simpl. split; [done|]. split; [by split_and!|]. apply Hf, Hs. Qed.

Lemma flat_write_ok f :
  (∀ m, Forall byte m → Forall byte (f m)) →
  access_ok flat_inv False (modify (with_bus f)) (λ _, True).
Proof.
  intros Hf s []. simpl. split; [|by split_and!]. split; simpl; try done. by apply Hf.
Qed.

#[export] Instance flat_bus_ok : BusOk flat.
Proof.
  refine {| bus_inv := flat_inv; bus_ub := False |}; intros.
  - apply (flat_read_ok (λ m, flat_byte m addr)). intros. by apply flat_byte_range.
  - apply (flat_read_ok (λ m, flat_byte m addr * 0x100 + flat_byte m (addr + 1))).
    intros m Hm. pose proof (flat_byte_range m addr Hm). pose proof (flat_byte_range m (addr + 1) Hm).
    unfold byte in *. lia.
  - apply (flat_read_ok (λ m, flat_byte m addr * 0x1000000 + flat_byte m (addr + 1) * 0x10000
             + flat_byte m (addr + 2) * 0x100 + flat_byte m (addr + 3))).
    intros m Hm. pose proof (flat_byte_range m addr Hm). pose proof (flat_byte_range m (addr + 1) Hm).
    pose proof (flat_byte_range m (addr + 2) Hm). pose proof (flat_byte_range m (addr + 3) Hm).
    unfold byte, word32 in *. lia.
  - apply flat_write_ok. intros. by apply flat_put_inv.
  - apply flat_write_ok. intros. by do 2 apply flat_put_inv.
  - apply flat_write_ok. intros. by do 4 apply flat_put_inv.
  - exact I.
Defined.

(** A machine with the 16-bit words [code] at address 0 and 256 bytes in all. *)
Definition flat_machine (code : list Z) (c : m68k_cpu) : st flat :=
  mk_st c (take 256 ((w ← code; [w / 0x100; w mod 0x100]) ++ replicate 256 0))
    (replicate 64 (0, 0, 0)) 0.

(** Well-formedness of a concrete state, decided by evaluation. *)
Definition in_rangeb (lo hi x : Z) : bool := (lo <=? x) && (x <? hi).

Definition cpu_okb (c : m68k_cpu) : bool :=
  let w32 := in_rangeb 0 0x100000000 in let b := in_rangeb 0 0x100 in
  Nat.eqb (length (cpu_d c)) 8 && Nat.eqb (length (cpu_a c)) 8
  && forallb w32 (cpu_d c) && forallb w32 (cpu_a c) && w32 (cpu_pc c)
  && in_rangeb 0 0x10000 (cpu_sr c) && w32 (cpu_usp c) && w32 (cpu_ssp c)
  && in_rangeb 0 0x10000000000000000 (cpu_cycles c)
  && in_rangeb 0 0x10000000000000000 (cpu_instrs c)
  && b (cpu_stopped c) && b (cpu_halted c) && b (cpu_exit_code c) && b (cpu_pending_irq c)
  && w32 (cpu_jit_ret_pc c) && w32 (cpu_jit_arg1 c) && w32 (cpu_jit_arg2 c)
  && w32 (cpu_chain_budget c).

Lemma in_rangeb_spec lo hi x : in_rangeb lo hi x = true → lo ≤ x < hi.
Proof. unfold in_rangeb. lia. Qed.
Lemma forallb_range lo hi l : forallb (in_rangeb lo hi) l = true → Forall (λ x, lo ≤ x < hi) l.
Proof.
  induction l as [|x l IH]; simpl; [done|]. rewrite andb_true_iff. intros [Hx Hl].
  constructor; [by apply in_rangeb_spec|auto].
Qed.

Lemma cpu_okb_spec c : cpu_okb c = true → cpu_ok c.
Proof.
  unfold cpu_okb. rewrite !andb_true_iff. intros H. decompose [and] H.
  split; first [by apply in_rangeb_spec | by apply Nat.eqb_eq | by apply (forallb_range 0 0x100000000)].
Qed.

Definition flat_okb (s : st flat) : bool :=
  cpu_okb (cpu s) && forallb (in_rangeb 0 0x100) (bus s)
  && Nat.eqb (length (exc_log s)) 64 && in_rangeb 0 0x100000000 (exc_n s).

Lemma flat_okb_spec s : flat_okb s = true → st_ok s.
Proof.
  unfold flat_okb. rewrite !andb_true_iff. intros [[[H1 H2] H3] H4]. split.
  - by apply cpu_okb_spec.
  - by apply forallb_range in H2.
  - by apply Nat.eqb_eq.
  - by apply in_rangeb_spec.
Qed.
