(* ===== verification/Logic.v ===== *)
(** * A small program logic for the interpreter

    [does ub e m]: from every well-formed state, [m] either returns in a
    well-formed state, having moved [pc] and the exception counter as [e]
    says, or is undefined behaviour, and then [ub] holds.  One rule per
    construct of the monad; the interpreter's definitions are checked by
    applying the rules along their syntax ([does_auto]). *)

From Stdlib Require Import ZArith Lia.
From stdpp Require Import base tactics list numbers.
From S2P Require Import Prelude Cpu.

(** The control-flow effect of a piece of an instruction. *)
Inductive eff :=
| Adv (n : Z)   (** falls through, [n] bytes further *)
| May (n : Z)   (** the same, unless it takes an exception *)
| Go            (** transfers control, without an exception *)
| Jump.         (** anything *)

Definition eff_seq (e1 e2 : eff) : eff :=
  match e1, e2 with
  | Adv a, Adv b => Adv (a + b)
  | Adv a, May b => May (a + b)
  | Adv _, Go | Go, Adv _ | Go, Go => Go
  | _, _ => Jump
  end.

Section logic.
Context {B : Type} `{BB : Bus B} `{BO : !BusOk B}.

Definition eff_holds (e : eff) (s s' : st B) : Prop :=
  match e with
  | Adv n => cpu_pc (cpu s') = u32 (cpu_pc (cpu s) + n) ∧ exc_n s' = exc_n s
  | May n => exc_n s' = exc_n s → cpu_pc (cpu s') = u32 (cpu_pc (cpu s) + n)
  | Go => exc_n s' = exc_n s
  | Jump => True
  end.

Definition does {A} (ub : Prop) (e : eff) (m : M (st B) A) : Prop :=
  ∀ s, st_ok s →
    match m s with
    | Some (_, s') => st_ok s' ∧ eff_holds e s s'
    | None => ub
    end.

Lemma st_ok_pc s : st_ok s → u32 (cpu_pc (cpu s) + 0) = cpu_pc (cpu s).
Proof. intros H. rewrite Z.add_0_r. apply u32_small, H. Qed.

Lemma eff_refl s : st_ok s → eff_holds (Adv 0) s s.
Proof. intros. split; [|done]. by rewrite st_ok_pc. Qed.

Lemma eff_trans e1 e2 s s1 s2 :
  eff_holds e1 s s1 → eff_holds e2 s1 s2 → eff_holds (eff_seq e1 e2) s s2.
Proof.
  destruct e1, e2; simpl; try done.
  - intros [-> ->] [-> ->]. rewrite u32_add_l. by rewrite Z.add_assoc.
  - intros [E ->] H2 Hn. rewrite (H2 Hn), E, u32_add_l. by rewrite Z.add_assoc.
  - intros [_ <-] ->. done.
  - intros <- [_ ->]. done.
  - intros <- ->. done.
Qed.

(** ** Rules *)

Lemma does_ret {A} ub (a : A) : does ub (Adv 0) (mret a).
Proof. intros s Hs. simpl. split; [done|]. by apply eff_refl. Qed.

Lemma does_bind {A A'} ub e1 e2 (m : M (st B) A) (k : A → M (st B) A') :
  does ub e1 m → (∀ a, does ub e2 (k a)) → does ub (eff_seq e1 e2) (m ≫= k).
Proof.
  intros Hm Hk s Hs. specialize (Hm s Hs). unfold mbind, M_bind.
  destruct (m s) as [[a s1]|]; [|done]. destruct Hm as [Hs1 H1].
  specialize (Hk a s1 Hs1). destruct (k a s1) as [[a' s2]|]; [|done].
  destruct Hk as [Hs2 H2]. split; [done|]. by eapply eff_trans.
Qed.

Lemma does_gets {A} ub (f : st B → A) : does ub (Adv 0) (gets f).
Proof. intros s Hs. simpl. split; [done|]. by apply eff_refl. Qed.

(** Weakening of the effect. *)
Definition eff_le (e e' : eff) : Prop :=
  match e, e' with
  | Adv a, Adv b => a = b
  | Adv a, May b => a = b
  | May a, May b => a = b
  | Adv _, Go | Go, Go => True
  | _, Jump => True
  | _, _ => False
  end.

Lemma does_weaken {A} ub e e' (m : M (st B) A) : eff_le e e' → does ub e m → does ub e' m.
Proof.
  intros He Hm s Hs. specialize (Hm s Hs). destruct (m s) as [[a s']|]; [|done].
  destruct Hm as [? H]. split; [done|].
  destruct e, e'; simpl in *; subst; try done; intuition congruence.
Qed.

Lemma does_ub {A} e (m : M (st B) A) (ub ub' : Prop) :
  (ub → ub') → does ub e m → does ub' e m.
Proof.
  intros Hu Hm s Hs. specialize (Hm s Hs). destruct (m s) as [[a s']|]; auto.
Qed.

Lemma does_if {A} ub e (b : bool) (m1 m2 : M (st B) A) :
  (b = true → does ub e m1) → (b = false → does ub e m2) →
  does ub e (if b then m1 else m2).
Proof. destruct b; auto. Qed.

(** A register update that leaves [pc] alone. *)
Lemma does_upd ub f :
  (∀ c, cpu_ok c → cpu_ok (f c)) →
  (∀ c, cpu_pc (f c) = cpu_pc c) → (∀ c, cpu_pending_irq (f c) = cpu_pending_irq c) →
  does ub (Adv 0) (upd f).
Proof.
  intros Hok Hpc Hirq s Hs. unfold upd, modify, with_cpu. destruct Hs.
  split; [split; simpl; auto; by rewrite Hirq|].
  split; simpl; [|done]. rewrite Hpc. symmetry. apply st_ok_pc. by split.
Qed.

Lemma does_upd_go ub f :
  (∀ c, cpu_ok c → cpu_ok (f c)) →
  (∀ c, cpu_pending_irq (f c) = cpu_pending_irq c) →
  does ub Go (upd f).
Proof.
  intros Hok Hirq s Hs. unfold upd, modify, with_cpu. destruct Hs.
  split; [split; simpl; auto; by rewrite Hirq|done].
Qed.

Lemma does_upd_pc ub n : does ub (Adv n) (upd (λ c, set_cpu_pc (cpu_pc c + n) c)).
Proof.
  intros s Hs. unfold upd, modify, with_cpu. destruct Hs.
  split; [split; simpl; auto with cpu|done].
Qed.

(** Bus accesses. *)

Lemma does_access {A} (ub : Prop) (m : M (st B) A) P :
  (bus_ub → ub) → access_ok bus_inv bus_ub m P → does ub (Adv 0) m.
Proof.
  intros Hub Hm s Hs. specialize (Hm s Hs). destruct (m s) as [[v s']|]; [|auto].
  destruct Hm as (Hs' & (Hc & _ & Hn) & _). split; [done|]. split; [|done].
  rewrite st_ok_pc by done. apply (f_equal cpu_pc) in Hc. done.
Qed.

Lemma does_for_each ub (l : list Z) (body : Z → M (st B) unit) :
  (∀ i, does ub (Adv 0) (body i)) → does ub (Adv 0) (for_each l body).
Proof.
  intros Hb. induction l as [|i l IH]; simpl; [apply does_ret|].
  change (Adv 0) with (eff_seq (Adv 0) (Adv 0)). by apply does_bind.
Qed.

Lemma does_fold_each {A} ub (l : list Z) (body : Z → A → M (st B) A) a :
  (∀ i a, does ub (Adv 0) (body i a)) → does ub (Adv 0) (fold_each l body a).
Proof.
  intros Hb. revert a. induction l as [|i l IH]; intros a; simpl; [apply does_ret|].
  change (Adv 0) with (eff_seq (Adv 0) (Adv 0)). by apply does_bind.
Qed.
End logic.

Section bus_rules.
Context {B : Type} `{BB : Bus B} `{BO : !BusOk B} (ub : Prop) (Hub : bus_ub → ub).

Lemma does_rd8 a : does ub (Adv 0) (rd8 a).
Proof. eapply does_access, rd8_ok; done. Qed.
Lemma does_rd16 a : does ub (Adv 0) (rd16 a).
Proof. eapply does_access, rd16_ok; done. Qed.
Lemma does_rd32 a : does ub (Adv 0) (rd32 a).
Proof. eapply does_access, rd32_ok; done. Qed.
Lemma does_wr8 a v : does ub (Adv 0) (wr8 a v).
Proof. eapply does_access, wr8_ok; done. Qed.
Lemma does_wr16 a v : does ub (Adv 0) (wr16 a v).
Proof. eapply does_access, wr16_ok; done. Qed.
Lemma does_wr32 a v : does ub (Adv 0) (wr32 a v).
Proof. eapply does_access, wr32_ok; done. Qed.
End bus_rules.

(** ** Automation *)

Section derived.
Context {B : Type} `{BB : Bus B} `{BO : !BusOk B} (ub : Prop).

Lemma does_bind_adv {A A'} a n (m : M (st B) A) (k : A → M (st B) A') :
  does ub (Adv a) m → (∀ x, does ub (Adv (n - a)) (k x)) → does ub (Adv n) (m ≫= k).
Proof.
  intros Hm Hk. replace n with (a + (n - a)) by lia.
  by apply (does_bind ub (Adv a) (Adv (n - a))).
Qed.
Lemma does_bind_infer {A A'} a b (m : M (st B) A) (k : A → M (st B) A') :
  does ub (Adv a) m → (∀ x, does ub (Adv b) (k x)) → does ub (Adv (a + b)) (m ≫= k).
Proof. apply (does_bind ub (Adv a) (Adv b)). Qed.
Lemma does_bind_may {A A'} a n (m : M (st B) A) (k : A → M (st B) A') :
  does ub (Adv a) m → (∀ x, does ub (May (n - a)) (k x)) → does ub (May n) (m ≫= k).
Proof.
  intros Hm Hk. replace n with (a + (n - a)) by lia.
  by apply (does_bind ub (Adv a) (May (n - a))).
Qed.
Lemma does_bind_jump {A A'} e (m : M (st B) A) (k : A → M (st B) A') :
  does ub e m → (∀ x, does ub Jump (k x)) → does ub Jump (m ≫= k).
Proof.
  intros Hm Hk. apply (does_bind ub Jump Jump); [|done].
  eapply does_weaken; [|done]. by destruct e.
Qed.
Lemma does_bind_go {A A'} e (m : M (st B) A) (k : A → M (st B) A') :
  eff_le e Go → does ub e m → (∀ x, does ub Go (k x)) → does ub Go (m ≫= k).
Proof.
  intros He Hm Hk. apply (does_bind ub Go Go); [|done]. by eapply does_weaken.
Qed.
Lemma does_any_go {A} n (m : M (st B) A) : does ub (Adv n) m → does ub Go m.
Proof. by apply does_weaken. Qed.
Lemma does_eq {A} a n (m : M (st B) A) : does ub (Adv a) m → a = n → does ub (Adv n) m.
Proof. by intros ? ->. Qed.
Lemma does_eq_may {A} a n (m : M (st B) A) : does ub (Adv a) m → a = n → does ub (May n) m.
Proof. intros H ->. by eapply does_weaken; [|exact H]. Qed.
Lemma does_any {A} e (m : M (st B) A) : does ub e m → does ub Jump m.
Proof. apply does_weaken. by destruct e. Qed.
Lemma does_when e (b : bool) (m : M (st B) unit) :
  does ub e m → does ub e (mret tt) → does ub e (when b m).
Proof. by destruct b. Qed.
Lemma does_add_cycles n : does ub (Adv 0) (add_cycles n).
Proof. apply does_upd; intros; auto with cpu. Qed.
End derived.

Create HintDb does.
#[export] Hint Resolve does_ret does_gets does_upd_pc does_add_cycles : does.
#[export] Hint Resolve does_rd8 does_rd16 does_rd32 does_wr8 does_wr16 does_wr32 : does.

(** A register update: it keeps registers in range, [pc] and the interrupt
    level (by the setter lemmas of the [cpu] database, or by computation). *)
Ltac upd_side :=
  intros; first [reflexivity | solve [auto with cpu] | solve [repeat case_match; auto with cpu]].

(** A leaf: a primitive or an operation with a lemma in the database. *)
Ltac does_leaf :=
  lazymatch goal with
  | |- does _ _ (getc _) => apply does_gets
  | |- does _ _ (upd (λ c, set_cpu_pc (cpu_pc c + _) c)) => apply does_upd_pc
  | |- does _ _ (upd _) => first [apply does_upd; [upd_side..] | apply does_upd_go; [upd_side..]]
  | |- does _ _ _ => solve [eauto 4 with does]
  end.

(** Apply the rules along the syntax of the program.  An unknown advance is
    inferred; a known one is checked. *)
Ltac does_auto :=
  cbv zeta;
  lazymatch goal with
  | |- does _ ?e (when _ _) => apply does_when; does_auto
  | |- does _ _ (for_each _ _) =>
      first [apply does_for_each | eapply does_eq; [apply does_for_each|try lia]]; intros; does_auto
  | |- does _ _ (fold_each _ _ _) =>
      first [apply does_fold_each | eapply does_eq; [apply does_fold_each|try lia]]; intros; does_auto
  | |- does _ ?e (if ?b then _ else _) => apply does_if; intros _; does_auto
  | |- does _ (Adv ?n) (_ ≫= _) =>
      tryif is_evar n then (eapply does_bind_infer; [does_auto | intros; does_auto])
      else (eapply does_bind_adv; [does_auto | intros; does_auto])
  | |- does _ (May _) (_ ≫= _) => eapply does_bind_may; [does_auto | intros; does_auto]
  | |- does _ Go (_ ≫= _) =>
      first [eapply (does_bind_go _ (Adv _)); [exact I|solve [does_auto]|intros; does_auto]
            |eapply (does_bind_go _ Go); [exact I|does_auto|intros; does_auto]]
  | |- does _ Jump (_ ≫= _) =>
      first [eapply (does_bind_jump _ (Adv _)); [solve [does_auto]|intros; does_auto]
            |eapply (does_bind_jump _ Jump); [does_auto|intros; does_auto]]
  | |- does _ ?e (_ ≫= _) => is_evar e; eapply does_bind_infer; [does_auto | intros; does_auto]
  | |- does _ ?e _ =>
      tryif is_evar e then does_leaf
      else lazymatch e with
           | Adv ?n => tryif is_evar n then does_leaf else (eapply does_eq; [does_leaf | try lia])
           | May ?n => first [solve [eauto 4 with does] | eapply does_eq_may; [does_leaf | try lia]]
           | Go => first [does_leaf | eapply does_any_go; does_leaf]
           | Jump => first [apply (does_any _ (May 0)); solve [eauto 4 with does]
                          | eapply does_any; does_leaf]
           end
  | |- _ => idtac
  end.
