(* ===== verification/Ea.v ===== *)
(** * Operands, exceptions and register lists

    The building blocks of [m68k_step] in [core/m68k_interp.c]: instruction
    fetch, effective addresses, the exception and interrupt entry, the bit
    operations and MOVEM. *)

From Stdlib Require Import ZArith Lia.
From stdpp Require Import base tactics list numbers.
From S2P Require Import Prelude Cpu Flags Logic.

(** ** Effective addresses *)

Inductive ea_kind := EA_DREG | EA_AREG | EA_MEM | EA_IMM.

Record ea_t := mk_ea {
  ea_k : ea_kind;
  ea_reg : Z;   (** DREG/AREG: register index *)
  ea_addr : Z;  (** MEM: resolved address *)
  ea_imm : Z    (** IMM: immediate value *)
}.

Section operands.
Context {B : Type} `{Bus B}.
#[local] Abbreviation C := (M (st B)).

Definition fetch16 : C Z :=
  pc ← getc cpu_pc;
  w ← rd16 pc;
  upd (λ c, set_cpu_pc (cpu_pc c + 2) c) ;;
  mret w.

Definition fetch32 : C Z :=
  pc ← getc cpu_pc;
  v ← rd32 pc;
  upd (λ c, set_cpu_pc (cpu_pc c + 4) c) ;;
  mret v.

Definition brief_index (base : Z) : C Z :=
  ext ← fetch16;
  let ireg := (ext ≫ 12) .& 7 in
  ival ← getc (λ c, if nz (ext .& 0x8000) then areg c ireg else dreg c ireg);
  let ival := if negb (nz (ext .& 0x0800)) then u32 (i16 (u16 ival)) else ival in
  let disp := i8 (ext .& 0xFF) in
  mret (u32 (base + ival + u32 disp)).

Definition ea_decode (mode reg sz : Z) : C ea_t :=
  let mem addr := mk_ea EA_MEM reg addr 0 in
  let step := if (sz =? 1) && (reg =? 7) then 2 else sz in
  match mode with
  | 0 => mret (mk_ea EA_DREG reg 0 0)
  | 1 => mret (mk_ea EA_AREG reg 0 0)
  | 2 => a ← getc (λ c, areg c reg); mret (mem a)
  | 3 =>
      a ← getc (λ c, areg c reg);
      upd (λ c, set_areg reg (areg c reg + u32 step) c) ;;
      mret (mem a)
  | 4 =>
      upd (λ c, set_areg reg (areg c reg - u32 step) c) ;;
      a ← getc (λ c, areg c reg);
      mret (mem a)
  | 5 =>
      w ← fetch16; let d := i16 w in
      a ← getc (λ c, areg c reg);
      mret (mem (u32 (a + u32 d)))
  | 6 =>
      base ← getc (λ c, areg c reg);
      addr ← brief_index base;
      mret (mem addr)
  | 7 =>
      match reg with
      | 0 => w ← fetch16; mret (mem (u32 (i16 w)))
      | 1 => a ← fetch32; mret (mem a)
      | 2 =>
          base ← getc cpu_pc;
          w ← fetch16; let d := i16 w in
          mret (mem (u32 (base + u32 d)))
      | 3 =>
          base ← getc cpu_pc;
          addr ← brief_index base;
          mret (mem addr)
      | 4 =>
          imm ← (if sz =? 1 then w ← fetch16; mret (w .& 0xFF)
                 else if sz =? 2 then fetch16
                 else fetch32);
          mret (mk_ea EA_IMM reg 0 imm)
      | _ => mret (mem 0)
      end
  | _ => mret (mem 0)
  end.

Definition ea_read (e : ea_t) (sz : Z) : C Z :=
  match ea_k e with
  | EA_DREG => getc (λ c, dreg c (ea_reg e) .& size_mask sz)
  | EA_AREG => getc (λ c, areg c (ea_reg e) .& size_mask sz)
  | EA_IMM => mret (ea_imm e .& size_mask sz)
  | EA_MEM =>
      if sz =? 1 then rd8 (ea_addr e)
      else if sz =? 2 then rd16 (ea_addr e)
      else rd32 (ea_addr e)
  end.

Definition ea_write (e : ea_t) (sz v : Z) : C unit :=
  match ea_k e with
  | EA_DREG =>
      let m := size_mask sz in
      upd (λ c, set_dreg (ea_reg e) ((dreg c (ea_reg e) .& not32 m) .| (v .& m)) c)
  | EA_AREG => upd (set_areg (ea_reg e) v)
  | EA_IMM => mret tt
  | EA_MEM =>
      if sz =? 1 then wr8 (ea_addr e) (u8 v)
      else if sz =? 2 then wr16 (ea_addr e) (u16 v)
      else wr32 (ea_addr e) v
  end.

Definition ea_is_mem (mode reg : Z) : bool :=
  if mode <=? 1 then false
  else if (mode =? 7) && (reg =? 4) then false
  else true.

(** ** Exceptions and interrupts *)

(** One entry of the ring, and [m68k_exc_n++]. *)
Definition log_exception (vector : Z) : C unit := modify (λ s,
  let entry := (vector, cpu_pc (cpu s), u32 (cpu_cycles (cpu s))) in
  mk_st (cpu s) (bus s) (<[Z.to_nat (exc_n s .& 63) := entry]> (exc_log s))
    (u32 (exc_n s + 1))).

(** The pushes of the short exception frame, PC then SR. *)
Definition push_frame (saved_sr : Z) : C unit :=
  upd (λ c, set_areg 7 (areg c 7 - 4) c) ;;
  (a ← getc (λ c, areg c 7); pc ← getc cpu_pc; wr32 a pc) ;;
  upd (λ c, set_areg 7 (areg c 7 - 2) c) ;;
  (a ← getc (λ c, areg c 7); wr16 a saved_sr).

Definition m68k_exception (vector : Z) : C unit :=
  log_exception vector ;;
  was_super ← getc m68k_is_super;
  saved_sr ← getc cpu_sr;
  upd (λ c, set_cpu_sr (cpu_sr c .| SR_S) c) ;;
  upd (λ c, set_cpu_sr (cpu_sr c .& u16 (Z.lnot SR_T)) c) ;;
  upd (m68k_sync_sp was_super) ;;
  push_frame saved_sr ;;
  (pc ← rd32 (u32 (vector * 4)); upd (set_cpu_pc pc)) ;;
  add_cycles 34.

Definition m68k_poll_interrupts : C bool :=
  level ← getc cpu_pending_irq;
  if level =? 0 then mret false else
  mask ← getc (λ c, (cpu_sr c .& SR_IMASK) ≫ 8);
  if negb (level =? 7) && (level <=? mask) then mret false else
  was_super ← getc m68k_is_super;
  saved_sr ← getc cpu_sr;
  upd (λ c, set_cpu_sr (cpu_sr c .| SR_S) c) ;;
  upd (λ c, set_cpu_sr (cpu_sr c .& u16 (Z.lnot SR_T)) c) ;;
  upd (λ c, set_cpu_sr (u16 ((cpu_sr c .& Z.lnot SR_IMASK) .| u32 (level ≪ 8))) c) ;;
  upd (m68k_sync_sp was_super) ;;
  push_frame saved_sr ;;
  (pc ← rd32 (u32 ((24 + level) * 4)); upd (set_cpu_pc pc)) ;;
  upd (set_cpu_stopped 0) ;;
  add_cycles 44 ;;
  mret true.

Definition m68k_unimpl (op_pc vector : Z) : C unit :=
  upd (set_cpu_pc op_pc) ;;
  m68k_exception vector.
Definition illegal (op_pc : Z) : C unit := m68k_unimpl op_pc 4.

(** ** BTST/BCHG/BCLR/BSET *)

Definition do_bitop (which bit : Z) (e : ea_t) (mode : Z) : C unit :=
  let sz := if mode =? 0 then 4 else 1 in
  let bit := bit .& (if sz =? 4 then 31 else 7) in
  v ← ea_read e sz;
  let set := nz ((v ≫ bit) .& 1) in
  upd (λ c,
    let cc := u8 (m68k_get_ccr c .& Z.lnot CCR_Z) in
    m68k_set_ccr (if negb set then cc .| CCR_Z else cc) c) ;;
  match which with
  | 1 => ea_write e sz (v .^ u32 (1 ≪ bit))
  | 2 => ea_write e sz (v .& not32 (u32 (1 ≪ bit)))
  | 3 => ea_write e sz (v .| u32 (1 ≪ bit))
  | _ => mret tt
  end.

(** ** MOVEM *)

Definition movem_store (sz addr val : Z) : C unit :=
  if sz =? 2 then wr16 addr (u16 val) else wr32 addr val.
Definition movem_load (sz addr : Z) : C Z :=
  if sz =? 2 then w ← rd16 addr; mret (u32 (i16 w)) else rd32 addr.
Definition get_reg (i : Z) (c : m68k_cpu) : Z :=
  if i <? 8 then dreg c i else areg c (i - 8).
Definition set_reg (i v : Z) (c : m68k_cpu) : m68k_cpu :=
  if i <? 8 then set_dreg i v c else set_areg (i - 8) v c.

(** The bodies of the three loops over the register list. *)
Definition movem_push (list sz i addr : Z) : C Z :=
  if nz (list .& (1 ≪ i)) then
    let idx := 15 - i in
    val ← getc (get_reg idx);
    let addr := u32 (addr - u32 sz) in
    movem_store sz addr val ;;
    mret addr
  else mret addr.

Definition movem_out (list sz i addr : Z) : C Z :=
  if nz (list .& (1 ≪ i)) then
    val ← getc (get_reg i);
    movem_store sz addr val ;;
    mret (u32 (addr + u32 sz))
  else mret addr.

Definition movem_in (list sz i addr : Z) : C Z :=
  if nz (list .& (1 ≪ i)) then
    val ← movem_load sz addr;
    upd (set_reg i val) ;;
    mret (u32 (addr + u32 sz))
  else mret addr.

Definition do_movem (op : Z) : C unit :=
  let dir := (op ≫ 10) .& 1 in
  let sz := if nz (op .& 0x40) then 4 else 2 in
  let mode := (op ≫ 3) .& 7 in
  let reg := op .& 7 in
  list ← fetch16;
  if mode =? 4 then
    addr ← getc (λ c, areg c reg);
    addr ← fold_each (upto 16) (movem_push list sz) addr;
    upd (set_areg reg addr)
  else
    e ← ea_decode mode reg sz;
    let addr := ea_addr e in
    if dir =? 0 then
      fold_each (upto 16) (movem_out list sz) addr ;; mret tt
    else
      addr ← fold_each (upto 16) (movem_in list sz) addr;
      when (mode =? 3) (upd (set_areg reg addr)).
End operands.

(** ** Control-flow effects *)

(** The bytes of extension words an operand of mode [mode]/[reg] and size [sz]
    takes from the instruction stream, as [ea_decode] consumes them. *)
Definition ea_words (mode reg sz : Z) : Z :=
  match mode with
  | 5 | 6 => 2
  | 7 => match reg with
         | 0 | 2 | 3 => 2
         | 1 => 4
         | 4 => if (sz =? 1) || (sz =? 2) then 2 else 4
         | _ => 0
         end
  | _ => 0
  end.

Section effects.
Context {B : Type} `{BB : Bus B} `{BO : !BusOk B} (ub : Prop) (Hub : bus_ub → ub).
#[local] Hint Resolve Hub : does.

Lemma does_fetch16 : does ub (Adv 2) fetch16.
Proof. unfold fetch16. does_auto. Qed.
Lemma does_fetch32 : does ub (Adv 4) fetch32.
Proof. unfold fetch32. does_auto. Qed.
Hint Resolve does_fetch16 does_fetch32 : does.

Lemma does_brief_index base : does ub (Adv 2) (brief_index base).
Proof. unfold brief_index. does_auto. Qed.
Hint Resolve does_brief_index : does.

Lemma does_ea_decode mode reg sz : does ub (Adv (ea_words mode reg sz)) (ea_decode mode reg sz).
Proof.
  unfold ea_decode, ea_words.
  destruct (sz =? 1), (sz =? 2); simpl orb;
  repeat match goal with
  | |- context [match ?x with Z0 => _ | Zpos _ => _ | Zneg _ => _ end] => destruct x
  | |- context [match ?x with xI _ => _ | xO _ => _ | xH => _ end] => destruct x
  end; does_auto.
Qed.

Lemma does_ea_read e sz : does ub (Adv 0) (ea_read e sz).
Proof. unfold ea_read. destruct (ea_k e); does_auto. Qed.
Lemma does_ea_write e sz v : does ub (Adv 0) (ea_write e sz v).
Proof. unfold ea_write. destruct (ea_k e); does_auto. Qed.
Lemma does_movem_push list sz i a : does ub (Adv 0) (movem_push list sz i a).
Proof. unfold movem_push, movem_store. does_auto. Qed.
Lemma does_movem_out list sz i a : does ub (Adv 0) (movem_out list sz i a).
Proof. unfold movem_out, movem_store. does_auto. Qed.
Lemma does_movem_in list sz i a : does ub (Adv 0) (movem_in list sz i a).
Proof.
  unfold movem_in, movem_load, set_reg. does_auto; destruct (i <? 8); auto with cpu.
Qed.

Lemma does_push_frame sr : does ub (Adv 0) (push_frame sr).
Proof. unfold push_frame. does_auto. Qed.
Hint Resolve does_push_frame : does.

(** Every entry of the log moves the counter. *)
Lemma log_exception_exc vector (m : M (st B) unit) n :
  does ub Go m → does ub (May n) (log_exception vector ;; m).
Proof.
  intros Hm s Hs. unfold log_exception, modify, mbind, M_bind.
  match goal with |- context [m ?s1] => assert (st_ok s1) as Hs1 end.
  { destruct Hs. split; simpl; [done|done|by rewrite length_insert|apply u32_range]. }
  specialize (Hm _ Hs1). destruct (m _) as [[a s']|]; [|done].
  destruct Hm as [Hs' Hn]. split; [done|]. simpl in *. intros E. rewrite E in Hn. exfalso.
  pose proof (st_exc_n_ok _ _ Hs) as Hr. unfold word32 in Hr. clear - Hn Hr. unfold u32 in Hn.
  destruct (Z.eq_dec (exc_n s) 0xFFFFFFFF) as [Heq|].
  - rewrite Heq in Hn. discriminate Hn.
  - rewrite Z.mod_small in Hn; lia.
Qed.

Lemma does_exception vector n : does ub (May n) (m68k_exception vector).
Proof. unfold m68k_exception. apply log_exception_exc. does_auto. Qed.
Hint Resolve does_exception : does.

Lemma does_unimpl op_pc vector n : does ub (May n) (m68k_unimpl op_pc vector).
Proof.
  unfold m68k_unimpl. intros s Hs.
  assert (Hs1 : st_ok (with_cpu (set_cpu_pc op_pc) s)) by (destruct Hs; split; simpl; auto with cpu).
  pose proof (does_exception vector (cpu_pc (cpu s) - op_pc + n) _ Hs1) as H.
  unfold mbind, M_bind, upd, modify.
  destruct (m68k_exception vector _) as [[a s']|]; [|done]. destruct H as [Hs' H].
  split; [done|]. simpl in *. intros E. rewrite (H E), u32_add_l. f_equal. lia.
Qed.
Lemma does_illegal op_pc n : does ub (May n) (illegal op_pc).
Proof. apply does_unimpl. Qed.

Lemma does_poll : does ub Jump m68k_poll_interrupts.
Proof. unfold m68k_poll_interrupts. does_auto. Qed.

Hint Resolve does_ea_read does_ea_write : does.

Lemma does_bitop which bit e mode : does ub (Adv 0) (do_bitop which bit e mode).
Proof.
  unfold do_bitop. cbv zeta. eapply does_bind_adv; [apply does_ea_read|]. intros.
  eapply does_bind_adv; [does_auto|]. intros.
  destruct which as [|[[]|[]|]|]; does_auto.
Qed.
Hint Resolve does_ea_decode does_movem_push does_movem_out does_movem_in : does.

(** MOVEM takes the register list, then the operand's extension words. *)
Lemma does_movem op :
  does ub (Adv (2 + (if (op ≫ 3) .& 7 =? 4 then 0 else
                     ea_words ((op ≫ 3) .& 7) (op .& 7) (if nz (op .& 0x40) then 4 else 2))))
    (do_movem op).
Proof.
  unfold do_movem. destruct (_ =? 4);
    (eapply does_bind_adv; [eauto with does|intros; cbv zeta]); does_auto.
Qed.
End effects.

#[export] Hint Resolve does_fetch16 does_fetch32 does_ea_decode does_ea_read does_ea_write
  does_exception does_unimpl does_illegal does_bitop does_movem : does.
