(* ===== verification/Step.v ===== *)
(** * One instruction

    [m68k_step] of [core/m68k_interp.c].  The C function is one switch on the
    top four bits of the opcode; here each of its cases is a definition, and
    the instructions of case 0100 and the larger blocks of other cases have a
    definition of their own, composed in the order of the C conditions. *)

From Stdlib Require Import ZArith Lia.
From stdpp Require Import base tactics list numbers.
From S2P Require Import Prelude Cpu Flags Bcd Shift Logic Ea.

(** The size field of most opcodes. *)
Definition size_of_field (szf : Z) : Z := if szf =? 0 then 1 else if szf =? 1 then 2 else 4.

(** [cpu->d[dn] = (cpu->d[dn] & ~size_mask(sz)) | (r & size_mask(sz))] *)
Definition merge_dreg (dn sz r : Z) (c : m68k_cpu) : m68k_cpu :=
  set_dreg dn ((dreg c dn .& not32 (size_mask sz)) .| (r .& size_mask sz)) c.

(** [u8 c = 0; ...] of ADDX, SUBX and NEGX, where Z is sticky. *)
Definition sticky_ccr (N zero_kept carry ovfl : bool) : Z :=
  let cc := or_if N CCR_N 0 in
  let cc := or_if zero_kept CCR_Z cc in
  let cc := or_if carry (CCR_C .| CCR_X) cc in
  or_if ovfl CCR_V cc.

(** The result and the new CCR of ADDX (the carry includes X) and SUBX, from
    the old CCR [f]. *)
Definition addx_subx (is_add : bool) (sz s d f : Z) : Z * Z :=
  let X := nz (f .& CCR_X) in let zold := nz (f .& CCR_Z) in
  let x := b2z X in
  let mask := size_mask sz in let msb := size_msb sz in
  let r := if is_add then u32 (d + s + x) else u32 (d - s - x) in
  let sm := s .& mask in let dm := d .& mask in let rm := r .& mask in
  let '(carry, ovfl) :=
    if is_add then (mask <? u64 (sm + dm + x), nz ((sm .^ rm) .& (dm .^ rm) .& msb))
    else (dm <? u64 (sm + x), nz ((sm .^ dm) .& (dm .^ rm) .& msb)) in
  (r, sticky_ccr (nz (rm .& msb)) (zold && (rm =? 0)) carry ovfl).

(** The result and the new CCR of NEGX. *)
Definition negx (sz d f : Z) : Z * Z :=
  let X := nz (f .& CCR_X) in let zold := nz (f .& CCR_Z) in
  let r := u32 (0 - d - b2z X) in
  let mask := size_mask sz in let msb := size_msb sz in
  let dm := d .& mask in let rm := r .& mask in
  (r, sticky_ccr (nz (rm .& msb)) (zold && (rm =? 0)) (nz dm || X) (nz (dm .& rm .& msb))).

(** DIVU by a non-zero divisor: the new [d[dn]] and CCR. *)
Definition divu (dn div : Z) (c : m68k_cpu) : m68k_cpu :=
  let dv := dreg c dn in
  let q := dv / div in let r := dv mod div in
  if 0xFFFF <? q then m68k_set_ccr (u8 ((m68k_get_ccr c .& CCR_X) .| CCR_V)) c
  else set_flags_logic 2 q
         (set_dreg dn (u32 ((r .& 0xFFFF) ≪ 16) .| (q .& 0xFFFF)) c).

(** DIVS by a non-zero divisor; [None] is the overflow of C's [/]. *)
Definition divs (dn div : Z) (c : m68k_cpu) : option m68k_cpu :=
  let dv := i32 (dreg c dn) in
  let dvs := i32 (i16 (u16 div)) in
  if (dv =? -0x80000000) && (dvs =? -1) then None else
  let q := Z.quot dv dvs in let r := Z.rem dv dvs in
  Some (if (32767 <? q) || (q <? -32768)
        then m68k_set_ccr (u8 ((m68k_get_ccr c .& CCR_X) .| CCR_V)) c
        else set_flags_logic 2 (u32 q)
               (set_dreg dn (u32 ((u32 r .& 0xFFFF) ≪ 16) .| (u32 q .& 0xFFFF)) c)).

(** The shift selected by the direction bit and the two type bits. *)
Definition realop (left : bool) (which : Z) : Z :=
  if left then (if which =? 0 then 4 else if which =? 1 then 5 else if which =? 2 then 6 else 7)
  else (if which =? 0 then 0 else if which =? 1 then 1 else if which =? 2 then 2 else 3).

Section step.
Context {B : Type} `{Bus B}.
#[local] Abbreviation C := (M (st B)).

(** Run a function that returns a value and updates the registers. *)
Definition run_cpu {A} (f : m68k_cpu → A * m68k_cpu) : C A :=
  a ← getc (λ c, fst (f c));
  upd (λ c, snd (f c)) ;;
  mret a.

(** [cpu->sr = v] followed by the stack pointer switch. *)
Definition set_sr_sync (v : Z) : C unit :=
  was ← getc m68k_is_super;
  upd (set_cpu_sr v) ;;
  upd (m68k_sync_sp was).

Definition push32 (v : Z) : C unit :=
  upd (λ c, set_areg 7 (areg c 7 - 4) c) ;;
  (a ← getc (λ c, areg c 7); wr32 a v).
Definition pop16 : C Z :=
  a ← getc (λ c, areg c 7);
  v ← rd16 a;
  upd (λ c, set_areg 7 (areg c 7 + 2) c) ;;
  mret v.
Definition pop32 : C Z :=
  a ← getc (λ c, areg c 7);
  v ← rd32 a;
  upd (λ c, set_areg 7 (areg c 7 + 4) c) ;;
  mret v.

(** [sz == 1 ? mac_read8 : sz == 2 ? mac_read16 : mac_read32] *)
Definition read_sized (sz a : Z) : C Z :=
  if sz =? 1 then rd8 a else if sz =? 2 then rd16 a else rd32 a.

(** ** 0000: immediate ALU and bit operations *)

Definition op_movep (op : Z) : C unit :=
  let dn := (op ≫ 9) .& 7 in let an := op .& 7 in
  let opmode := (op ≫ 6) .& 7 in
  w ← fetch16; let d := i16 w in
  a ← getc (λ c, areg c an);
  let addr := u32 (a + u32 d) in
  let is_long := nz (opmode .& 1) in
  let to_mem := nz (opmode .& 2) in
  let nbytes := if is_long then 4 else 2 in
  (if to_mem then
     for_each (upto (Z.to_nat nbytes)) (λ i,
       v ← getc (λ c, dreg c dn);
       wr8 (u32 (addr + i * 2)) (u8 (v ≫ ((nbytes - 1 - i) * 8))))
   else
     v ← fold_each (upto (Z.to_nat nbytes)) (λ i v,
       b ← rd8 (u32 (addr + i * 2));
       mret (u32 (v ≪ 8) .| b)) 0;
     if is_long then upd (set_dreg dn v)
     else upd (λ c, set_dreg dn ((dreg c dn .& 0xFFFF0000) .| (v .& 0xFFFF)) c)) ;;
  add_cycles (if is_long then 24 else 16).

Definition op_bit (op : Z) : C unit :=
  let mode := (op ≫ 3) .& 7 in let reg := op .& 7 in
  let which := (op ≫ 6) .& 3 in
  bit ← (if nz ((op ≫ 8) .& 1) then getc (λ c, i32 (dreg c ((op ≫ 9) .& 7)))
         else w ← fetch16; mret (w .& 0xFF));
  e ← ea_decode mode reg (if mode =? 0 then 4 else 1);
  do_bitop which bit e mode ;;
  add_cycles 4.

Definition op_imm_to_sr (op9 sz imm : Z) : C unit :=
  let to_sr := sz =? 2 in
  cur ← getc (λ c, if to_sr then cpu_sr c else m68k_get_ccr c);
  let v := u16 imm in
  let res := if op9 =? 0 then cur .| v else if op9 =? 1 then cur .& v else cur .^ v in
  if to_sr then set_sr_sync res else upd (m68k_set_ccr (u8 res)).

Definition op_imm (op_pc op : Z) : C unit :=
  let op9 := (op ≫ 9) .& 7 in let szf := (op ≫ 6) .& 3 in
  let mode := (op ≫ 3) .& 7 in let reg := op .& 7 in
  let sz := size_of_field szf in
  imm ← (if sz =? 4 then fetch32 else w ← fetch16; mret (w .& size_mask sz));
  if (mode =? 7) && (reg =? 4) && ((op9 =? 0) || (op9 =? 1) || (op9 =? 5))
  then op_imm_to_sr op9 sz imm else
  e ← ea_decode mode reg sz;
  d ← ea_read e sz;
  match op9 with
  | 0 => let r := d .| imm in ea_write e sz r ;; upd (set_flags_logic sz r) ;; add_cycles 4
  | 1 => let r := d .& imm in ea_write e sz r ;; upd (set_flags_logic sz r) ;; add_cycles 4
  | 2 => let r := u32 (d - imm) in ea_write e sz r ;; upd (set_flags_sub sz imm d r) ;;
         add_cycles 4
  | 3 => let r := u32 (d + imm) in ea_write e sz r ;; upd (set_flags_add sz imm d r) ;;
         add_cycles 4
  | 5 => let r := d .^ imm in ea_write e sz r ;; upd (set_flags_logic sz r) ;; add_cycles 4
  | 6 => let r := u32 (d - imm) in upd (set_flags_cmp sz imm d r) ;; add_cycles 4
  | _ => illegal op_pc
  end.

Definition step_0 (op_pc op : Z) : C unit :=
  let mode := (op ≫ 3) .& 7 in
  if nz ((op ≫ 8) .& 1) && (mode =? 1) then op_movep op
  else if nz ((op ≫ 8) .& 1) || ((op ≫ 9) .& 7 =? 4) then op_bit op
  else op_imm op_pc op.

(** ** 0001, 0010, 0011: MOVE and MOVEA *)

Definition step_move (top op : Z) : C unit :=
  let sz := if top =? 1 then 1 else if top =? 3 then 2 else 4 in
  let src_mode := (op ≫ 3) .& 7 in let src_reg := op .& 7 in
  let dst_reg := (op ≫ 9) .& 7 in let dst_mode := (op ≫ 6) .& 7 in
  s ← ea_decode src_mode src_reg sz;
  v ← ea_read s sz;
  if dst_mode =? 1 then
    upd (set_areg dst_reg (sext v sz)) ;;
    add_cycles 4
  else
    d ← ea_decode dst_mode dst_reg sz;
    ea_write d sz v ;;
    upd (set_flags_logic sz v) ;;
    add_cycles 4.

(** ** 0100: miscellaneous *)

Definition op_reset : C unit :=
  upd (set_cpu_halted M68K_HALT_RESET) ;;
  upd (set_cpu_chain_budget 0).

Definition op_rte : C unit :=
  was ← getc m68k_is_super;
  sr ← pop16;
  pc ← pop32;
  upd (set_cpu_sr sr) ;;
  upd (set_cpu_pc pc) ;;
  upd (m68k_sync_sp was).

Definition op_rtr : C unit :=
  ccr ← pop16;
  pc ← pop32;
  upd (m68k_set_ccr (u8 ccr)) ;;
  upd (set_cpu_pc pc).

Definition op_rts : C unit :=
  a ← getc (λ c, areg c 7);
  pc ← rd32 a;
  upd (set_cpu_pc pc) ;;
  upd (λ c, set_areg 7 (areg c 7 + 4) c) ;;
  add_cycles 12.

Definition op_trapv : C unit :=
  v ← getc (λ c, nz (m68k_get_ccr c .& CCR_V));
  when v (m68k_exception 7).

Definition op_link (op : Z) : C unit :=
  let an := op .& 7 in
  w ← fetch16; let d := i16 w in
  upd (λ c, set_areg 7 (areg c 7 - 4) c) ;;
  (a ← getc (λ c, areg c 7); v ← getc (λ c, areg c an); wr32 a v) ;;
  upd (λ c, set_areg an (areg c 7) c) ;;
  upd (λ c, set_areg 7 (areg c 7 + u32 d) c) ;;
  add_cycles 12.

Definition op_unlk (op : Z) : C unit :=
  let an := op .& 7 in
  upd (λ c, set_areg 7 (areg c an) c) ;;
  (a ← getc (λ c, areg c 7); v ← rd32 a; upd (set_areg an v)) ;;
  upd (λ c, set_areg 7 (areg c 7 + 4) c) ;;
  add_cycles 12.

Definition op_stop : C unit :=
  sr ← fetch16;
  set_sr_sync sr ;;
  upd (set_cpu_stopped 1) ;;
  upd (set_cpu_chain_budget 0).

Definition op_swap (op : Z) : C unit :=
  let dn := op .& 7 in
  v ← getc (λ c, dreg c dn);
  let v := (v ≫ 16) .| u32 (v ≪ 16) in
  upd (set_dreg dn v) ;;
  upd (set_flags_logic 4 v).

Definition op_ext (op : Z) : C unit :=
  let dn := op .& 7 in
  if nz (op .& 0x40) then
    upd (λ c, set_dreg dn (u32 (i16 (u16 (dreg c dn)))) c) ;;
    upd (λ c, set_flags_logic 4 (dreg c dn) c)
  else
    v ← getc (λ c, u32 (i8 (u8 (dreg c dn))));
    upd (λ c, set_dreg dn ((dreg c dn .& 0xFFFF0000) .| (v .& 0xFFFF)) c) ;;
    upd (set_flags_logic 2 v).

Definition op_nbcd (op : Z) : C unit :=
  e ← ea_decode ((op ≫ 3) .& 7) (op .& 7) 1;
  d ← ea_read e 1;
  r ← run_cpu (bcd_nbcd (u8 d));
  ea_write e 1 r ;;
  add_cycles 6.

Definition op_jmp (op : Z) : C unit :=
  e ← ea_decode ((op ≫ 3) .& 7) (op .& 7) 4;
  upd (set_cpu_pc (ea_addr e)) ;;
  add_cycles 8.

Definition op_jsr (op : Z) : C unit :=
  e ← ea_decode ((op ≫ 3) .& 7) (op .& 7) 4;
  upd (λ c, set_areg 7 (areg c 7 - 4) c) ;;
  (a ← getc (λ c, areg c 7); pc ← getc cpu_pc; wr32 a pc) ;;
  upd (set_cpu_pc (ea_addr e)) ;;
  add_cycles 16.

Definition op_pea (op : Z) : C unit :=
  e ← ea_decode ((op ≫ 3) .& 7) (op .& 7) 4;
  push32 (ea_addr e) ;;
  add_cycles 12.

Definition op_lea (op : Z) : C unit :=
  let an := (op ≫ 9) .& 7 in
  e ← ea_decode ((op ≫ 3) .& 7) (op .& 7) 4;
  upd (set_areg an (ea_addr e)) ;;
  add_cycles 4.

Definition op_chk (op : Z) : C unit :=
  let dn := (op ≫ 9) .& 7 in
  let sz := if (op ≫ 6) .& 7 =? 6 then 2 else 4 in
  e ← ea_decode ((op ≫ 3) .& 7) (op .& 7) sz;
  b ← ea_read e sz;
  let bound := i32 (sext b sz) in
  v ← getc (λ c, i32 (sext (dreg c dn) sz));
  when ((v <? 0) || (bound <? v)) (m68k_exception 6).

Definition op_move_from_sr (op : Z) : C unit :=
  e ← ea_decode ((op ≫ 3) .& 7) (op .& 7) 2;
  sr ← getc cpu_sr;
  ea_write e 2 sr.

Definition op_move_to_ccr (op : Z) : C unit :=
  e ← ea_decode ((op ≫ 3) .& 7) (op .& 7) 2;
  v ← ea_read e 2;
  upd (m68k_set_ccr (u8 v)).

Definition op_move_to_sr (op : Z) : C unit :=
  e ← ea_decode ((op ≫ 3) .& 7) (op .& 7) 2;
  was ← getc m68k_is_super;
  v ← ea_read e 2;
  upd (set_cpu_sr v) ;;
  upd (m68k_sync_sp was).

(** NEGX, CLR, NEG, NOT and TST: the selector is in bits 11..8. *)
Definition op_unary (op : Z) : C unit :=
  let sel := (op ≫ 8) .& 0xF in
  let sz := size_of_field ((op ≫ 6) .& 3) in
  e ← ea_decode ((op ≫ 3) .& 7) (op .& 7) sz;
  if sel =? 0xA then
    v ← ea_read e sz;
    upd (set_flags_logic sz v)
  else
    d ← ea_read e sz;
    (if sel =? 0x4 then
       let r := u32 (0 - d) in
       ea_write e sz r ;;
       upd (set_flags_sub sz d 0 r)
     else if sel =? 0x0 then
       f ← getc m68k_get_ccr;
       let '(r, cc) := negx sz d f in
       ea_write e sz r ;;
       upd (m68k_set_ccr cc)
     else if sel =? 0x6 then
       let r := not32 d in
       ea_write e sz r ;;
       upd (set_flags_logic sz r)
     else if sel =? 0x2 then
       ea_write e sz 0 ;;
       upd (λ c, m68k_set_ccr (u8 ((m68k_get_ccr c .& CCR_X) .| CCR_Z)) c)
     else mret tt) ;;
    add_cycles 4.

Definition op_tas (op : Z) : C unit :=
  e ← ea_decode ((op ≫ 3) .& 7) (op .& 7) 1;
  v ← ea_read e 1;
  upd (set_flags_logic 1 v) ;;
  ea_write e 1 (v .| 0x80).

Definition step_4 (op_pc op : Z) : C unit :=
  let mode := (op ≫ 3) .& 7 in let reg := op .& 7 in
  let sel := (op ≫ 8) .& 0xF in let szf := (op ≫ 6) .& 3 in
  let sel3 := (op ≫ 6) .& 7 in
  if op =? 0x4E71 then mret tt
  else if op =? 0x4E70 then op_reset
  else if op =? 0x4E73 then op_rte
  else if op =? 0x4E77 then op_rtr
  else if op =? 0x4E75 then op_rts
  else if op =? 0x4E76 then op_trapv
  else if op .& 0xFFF8 =? 0x4E50 then op_link op
  else if op .& 0xFFF8 =? 0x4E58 then op_unlk op
  else if op .& 0xFFF0 =? 0x4E40 then m68k_exception (32 + (op .& 0xF))
  else if op .& 0xFFF8 =? 0x4E60 then upd (λ c, set_cpu_usp (areg c (op .& 7)) c)
  else if op .& 0xFFF8 =? 0x4E68 then upd (λ c, set_areg (op .& 7) (cpu_usp c) c)
  else if op =? 0x4E72 then op_stop
  else if op .& 0xFFF8 =? 0x4840 then op_swap op
  else if op .& 0xFFB8 =? 0x4880 then op_ext op
  else if op .& 0xFFC0 =? 0x4800 then op_nbcd op
  else if op .& 0xFFC0 =? 0x4EC0 then op_jmp op
  else if op .& 0xFFC0 =? 0x4E80 then op_jsr op
  else if op .& 0xFFC0 =? 0x4840 then op_pea op
  else if sel3 =? 7 then op_lea op
  else if (sel3 =? 6) || (sel3 =? 5) then op_chk op
  else if op .& 0xFB80 =? 0x4880 then do_movem op ;; add_cycles 16
  else if op .& 0xFFC0 =? 0x40C0 then op_move_from_sr op
  else if op .& 0xFFC0 =? 0x44C0 then op_move_to_ccr op
  else if op .& 0xFFC0 =? 0x46C0 then op_move_to_sr op
  else if negb (szf =? 3) && ((sel =? 0x0) || (sel =? 0x2) || (sel =? 0x4)
                              || (sel =? 0x6) || (sel =? 0xA)) then op_unary op
  else if (sel =? 0xA) && (szf =? 3) then op_tas op
  else illegal op_pc.

(** ** 0101: ADDQ, SUBQ, Scc and DBcc *)

Definition op_dbcc (op_pc op : Z) : C unit :=
  let cc := (op ≫ 8) .& 0xF in let dn := op .& 7 in
  w ← fetch16; let disp := i16 w in
  t ← getc (λ c, cond_true c cc);
  when (negb t) (
    x ← getc (λ c, u16 (dreg c dn .& 0xFFFF));
    let x := u16 (x - 1) in
    upd (λ c, set_dreg dn ((dreg c dn .& 0xFFFF0000) .| x) c) ;;
    when (negb (x =? 0xFFFF)) (upd (set_cpu_pc (op_pc + 2 + u32 disp)))) ;;
  add_cycles 10.

Definition op_scc (op : Z) : C unit :=
  let cc := (op ≫ 8) .& 0xF in
  e ← ea_decode ((op ≫ 3) .& 7) (op .& 7) 1;
  t ← getc (λ c, cond_true c cc);
  ea_write e 1 (if t : bool then 0xFF else 0x00) ;;
  add_cycles 4.

Definition op_addq (op : Z) : C unit :=
  let szf := (op ≫ 6) .& 3 in
  let mode := (op ≫ 3) .& 7 in let reg := op .& 7 in
  let sz := size_of_field szf in
  let data := (op ≫ 9) .& 7 in let data := if data =? 0 then 8 else data in
  let sub := nz ((op ≫ 8) .& 1) in
  e ← ea_decode mode reg sz;
  match ea_k e with
  | EA_AREG =>
      upd (λ c, set_areg reg (areg c reg + (if sub then u32 (- data) else data)) c) ;;
      add_cycles 4
  | _ =>
      d ← ea_read e sz;
      let r := if sub then u32 (d - data) else u32 (d + data) in
      ea_write e sz r ;;
      upd (if sub then set_flags_sub sz data d r else set_flags_add sz data d r) ;;
      add_cycles 4
  end.

Definition step_5 (op_pc op : Z) : C unit :=
  if (op ≫ 6) .& 3 =? 3 then
    (if (op ≫ 3) .& 7 =? 1 then op_dbcc op_pc op else op_scc op)
  else op_addq op.

(** ** 0110: Bcc, BRA, BSR; 0111: MOVEQ *)

Definition step_6 (op : Z) : C unit :=
  let cc := (op ≫ 8) .& 0xF in
  base ← getc cpu_pc;
  disp ← (if op .& 0xFF =? 0x00 then w ← fetch16; mret (i16 w)
          else if op .& 0xFF =? 0xFF then l ← fetch32; mret (i32 l)
          else mret (i8 (op .& 0xFF)));
  let target := u32 (base + u32 disp) in
  if cc =? 1 then
    upd (λ c, set_areg 7 (areg c 7 - 4) c) ;;
    (a ← getc (λ c, areg c 7); pc ← getc cpu_pc; wr32 a pc) ;;
    upd (set_cpu_pc target) ;;
    add_cycles 18
  else
    t ← getc (λ c, (cc =? 0) || cond_true c cc);
    if t : bool then upd (set_cpu_pc target) ;; add_cycles 10
    else add_cycles 8.

Definition step_7 (op : Z) : C unit :=
  let dn := (op ≫ 9) .& 7 in
  let v := u32 (i8 (op .& 0xFF)) in
  upd (set_dreg dn v) ;;
  upd (set_flags_logic 4 v).

(** ** 1000: OR, DIVU, DIVS and SBCD; 1100: AND, MULU, MULS, ABCD and EXG *)

Definition op_div (op : Z) : C unit :=
  let dn := (op ≫ 9) .& 7 in
  let sgn := nz ((op ≫ 8) .& 1) in
  e ← ea_decode ((op ≫ 3) .& 7) (op .& 7) 2;
  div ← ea_read e 2;
  if div =? 0 then m68k_exception 5 else
  (if negb sgn then upd (divu dn div)
   else
     c ← getc (divs dn div);
     match c with
     | Some c => upd (λ _, c)
     | None => undefined_behaviour
     end) ;;
  add_cycles 140.

(** SBCD and ABCD: [-(Ay),-(Ax)] or [Dy,Dx]. *)
Definition op_bcd (f : Z → Z → m68k_cpu → Z * m68k_cpu) (op : Z) : C unit :=
  let sx := op .& 7 in let dx := (op ≫ 9) .& 7 in
  (if nz ((op ≫ 3) .& 1) then
     se ← ea_decode 4 sx 1;
     s ← ea_read se 1; let s := u8 s in
     de ← ea_decode 4 dx 1;
     d ← ea_read de 1; let d := u8 d in
     r ← run_cpu (f s d);
     ea_write de 1 r
   else
     r ← run_cpu (λ c, f (u8 (dreg c sx)) (u8 (dreg c dx)) c);
     upd (λ c, set_dreg dx ((dreg c dx .& not32 0xFF) .| r) c)) ;;
  add_cycles 6.

(** [OR]/[AND] between a data register and an operand. *)
Definition op_logic (f : Z → Z → Z) (op : Z) : C unit :=
  let dn := (op ≫ 9) .& 7 in
  let sz := size_of_field ((op ≫ 6) .& 3) in
  let to_ea := nz ((op ≫ 8) .& 1) in
  e ← ea_decode ((op ≫ 3) .& 7) (op .& 7) sz;
  (if to_ea then
     d ← ea_read e sz;
     r ← getc (λ c, f d (dreg c dn .& size_mask sz));
     ea_write e sz r ;;
     upd (set_flags_logic sz r)
   else
     v ← ea_read e sz;
     r ← getc (λ c, f (dreg c dn .& size_mask sz) v);
     upd (merge_dreg dn sz r) ;;
     upd (set_flags_logic sz r)) ;;
  add_cycles 4.

Definition step_8 (op : Z) : C unit :=
  if (op ≫ 6) .& 3 =? 3 then op_div op
  else if op .& 0x01F0 =? 0x0100 then op_bcd bcd_sbcd op
  else op_logic Z.lor op.

Definition op_mul (op : Z) : C unit :=
  let dn := (op ≫ 9) .& 7 in
  let sgn := nz ((op ≫ 8) .& 1) in
  e ← ea_decode ((op ≫ 3) .& 7) (op .& 7) 2;
  m ← ea_read e 2;
  r ← getc (λ c,
    if negb sgn then u32 ((dreg c dn .& 0xFFFF) * (m .& 0xFFFF))
    else u32 (i16 (u16 (dreg c dn)) * i16 (u16 m)));
  upd (set_dreg dn r) ;;
  upd (set_flags_logic 4 r) ;;
  add_cycles 70.

Definition exg_dd (rx ry : Z) (c : m68k_cpu) : m68k_cpu :=
  let t := dreg c rx in
  let c := set_dreg rx (dreg c ry) c in set_dreg ry t c.
Definition exg_aa (rx ry : Z) (c : m68k_cpu) : m68k_cpu :=
  let t := areg c rx in
  let c := set_areg rx (areg c ry) c in set_areg ry t c.
Definition exg_da (rx ry : Z) (c : m68k_cpu) : m68k_cpu :=
  let t := dreg c rx in
  let c := set_dreg rx (areg c ry) c in set_areg ry t c.

Definition step_C (op : Z) : C unit :=
  let rx := (op ≫ 9) .& 7 in let ry := op .& 7 in
  let em := (op ≫ 3) .& 0x1F in
  let is_exg := op .& 0x0130 =? 0x0100 in
  if (op ≫ 6) .& 3 =? 3 then op_mul op
  else if op .& 0x01F0 =? 0x0100 then op_bcd bcd_abcd op
  else if is_exg && (em =? 0x08) then upd (exg_dd rx ry)
  else if is_exg && (em =? 0x09) then upd (exg_aa rx ry)
  else if is_exg && (em =? 0x11) then upd (exg_da rx ry)
  else op_logic Z.land op.

(** ** 1001 and 1101: SUB and ADD with their A and X forms *)

Definition op_adda (is_add : bool) (op : Z) : C unit :=
  let dn := (op ≫ 9) .& 7 in
  let sz := if nz (op .& 0x0100) then 4 else 2 in
  e ← ea_decode ((op ≫ 3) .& 7) (op .& 7) sz;
  x ← ea_read e sz; let v := sext x sz in
  upd (λ c, set_areg dn (areg c dn + (if is_add then v else u32 (- v))) c) ;;
  add_cycles 8.

Definition op_addx (is_add : bool) (op : Z) : C unit :=
  let dn := (op ≫ 9) .& 7 in
  let sz := size_of_field ((op ≫ 6) .& 3) in
  let mode := (op ≫ 3) .& 7 in let reg := op .& 7 in
  f ← getc m68k_get_ccr;
  (if mode =? 0 then
     s ← getc (λ c, dreg c reg .& size_mask sz);
     d ← getc (λ c, dreg c dn .& size_mask sz);
     let '(r, cc) := addx_subx is_add sz s d f in
     upd (m68k_set_ccr cc) ;;
     upd (merge_dreg dn sz r)
   else
     let step := if (sz =? 1) && (reg =? 7) then 2 else sz in
     let dstep := if (sz =? 1) && (dn =? 7) then 2 else sz in
     upd (λ c, set_areg reg (areg c reg - u32 step) c) ;;
     upd (λ c, set_areg dn (areg c dn - u32 dstep) c) ;;
     sa ← getc (λ c, areg c reg);
     s ← read_sized sz sa;
     da ← getc (λ c, areg c dn);
     d ← read_sized sz da;
     let '(r, cc) := addx_subx is_add sz s d f in
     upd (m68k_set_ccr cc) ;;
     a ← getc (λ c, areg c dn);
     ea_write (mk_ea EA_MEM 0 a 0) sz r) ;;
  add_cycles 8.

Definition op_add (is_add : bool) (op : Z) : C unit :=
  let dn := (op ≫ 9) .& 7 in
  let sz := size_of_field ((op ≫ 6) .& 3) in
  let to_ea := nz ((op ≫ 8) .& 1) in
  let set_flags := if is_add then set_flags_add else set_flags_sub in
  e ← ea_decode ((op ≫ 3) .& 7) (op .& 7) sz;
  (if to_ea then
     d ← ea_read e sz;
     s ← getc (λ c, dreg c dn .& size_mask sz);
     let r := if is_add then u32 (d + s) else u32 (d - s) in
     ea_write e sz r ;;
     upd (set_flags sz s d r)
   else
     s ← ea_read e sz;
     d ← getc (λ c, dreg c dn .& size_mask sz);
     let r := if is_add then u32 (d + s) else u32 (d - s) in
     upd (merge_dreg dn sz r) ;;
     upd (set_flags sz s d r)) ;;
  add_cycles 4.

Definition step_9D (top op : Z) : C unit :=
  let is_add := top =? 0xD in
  let mode := (op ≫ 3) .& 7 in
  if (op ≫ 6) .& 3 =? 3 then op_adda is_add op
  else if nz ((op ≫ 8) .& 1) && ((mode =? 0) || (mode =? 1)) then op_addx is_add op
  else op_add is_add op.

(** ** 1011: CMP, CMPA, CMPM and EOR *)

Definition op_cmpa (op : Z) : C unit :=
  let dn := (op ≫ 9) .& 7 in
  let sz := if nz (op .& 0x0100) then 4 else 2 in
  e ← ea_decode ((op ≫ 3) .& 7) (op .& 7) sz;
  x ← ea_read e sz; let s := sext x sz in
  d ← getc (λ c, areg c dn);
  upd (set_flags_cmp 4 s d (u32 (d - s))) ;;
  add_cycles 6.

Definition op_cmpm (op : Z) : C unit :=
  let dn := (op ≫ 9) .& 7 in let reg := op .& 7 in
  let sz := size_of_field ((op ≫ 6) .& 3) in
  let step := if (sz =? 1) && (reg =? 7) then 2 else sz in
  let dstep := if (sz =? 1) && (dn =? 7) then 2 else sz in
  sa ← getc (λ c, areg c reg);
  upd (λ c, set_areg reg (areg c reg + u32 step) c) ;;
  da ← getc (λ c, areg c dn);
  upd (λ c, set_areg dn (areg c dn + u32 dstep) c) ;;
  s ← read_sized sz sa;
  d ← read_sized sz da;
  upd (set_flags_cmp sz s d (u32 (d - s))) ;;
  add_cycles 12.

Definition op_eor (op : Z) : C unit :=
  let dn := (op ≫ 9) .& 7 in
  let sz := size_of_field ((op ≫ 6) .& 3) in
  e ← ea_decode ((op ≫ 3) .& 7) (op .& 7) sz;
  d ← ea_read e sz;
  r ← getc (λ c, d .^ (dreg c dn .& size_mask sz));
  ea_write e sz r ;;
  upd (set_flags_logic sz r) ;;
  add_cycles 4.

Definition op_cmp (op : Z) : C unit :=
  let dn := (op ≫ 9) .& 7 in
  let sz := size_of_field ((op ≫ 6) .& 3) in
  e ← ea_decode ((op ≫ 3) .& 7) (op .& 7) sz;
  s ← ea_read e sz;
  d ← getc (λ c, dreg c dn .& size_mask sz);
  upd (set_flags_cmp sz s d (u32 (d - s))) ;;
  add_cycles 4.

Definition step_B (op : Z) : C unit :=
  if (op ≫ 6) .& 3 =? 3 then op_cmpa op
  else if nz ((op ≫ 8) .& 1) then
    (if (op ≫ 3) .& 7 =? 1 then op_cmpm op else op_eor op)
  else op_cmp op.

(** ** 1110: shifts and rotates *)

Definition op_shift_mem (op_pc op : Z) : C unit :=
  let mode := (op ≫ 3) .& 7 in let reg := op .& 7 in
  let which := (op ≫ 9) .& 3 in
  let left := nz ((op ≫ 8) .& 1) in
  if negb (ea_is_mem mode reg) then illegal op_pc else
  e ← ea_decode mode reg 2;
  v ← ea_read e 2;
  r ← run_cpu (do_shift 2 (realop left which) v 1);
  ea_write e 2 r ;;
  add_cycles 8.

Definition op_shift_reg (op : Z) : C unit :=
  let sz := size_of_field ((op ≫ 6) .& 3) in
  let dn := op .& 7 in
  let left := nz ((op ≫ 8) .& 1) in
  let which := (op ≫ 3) .& 3 in
  let imm := (op ≫ 9) .& 7 in
  cnt ← getc (λ c, if nz ((op ≫ 5) .& 1) then dreg c imm .& 63
                   else if imm =? 0 then 8 else imm);
  v ← getc (λ c, dreg c dn .& size_mask sz);
  r ← run_cpu (do_shift sz (realop left which) v cnt);
  upd (merge_dreg dn sz r) ;;
  add_cycles (6 + 2 * cnt).

Definition step_E (op_pc op : Z) : C unit :=
  if (op ≫ 6) .& 3 =? 3 then op_shift_mem op_pc op else op_shift_reg op.

(** ** 1010 and 1111: line-A and line-F *)

Definition step_A (op_pc op : Z) : C unit :=
  match trap_hook with Some hook => hook op | None => mret tt end ;;
  m68k_unimpl op_pc 10.

(** ** The switch *)

Definition execute (op_pc op : Z) : C unit :=
  match (op ≫ 12) .& 0xF with
  | 0x0 => step_0 op_pc op
  | 0x1 => step_move 1 op
  | 0x2 => step_move 2 op
  | 0x3 => step_move 3 op
  | 0x4 => step_4 op_pc op
  | 0x5 => step_5 op_pc op
  | 0x6 => step_6 op
  | 0x7 => step_7 op
  | 0x8 => step_8 op
  | 0x9 => step_9D 9 op
  | 0xA => step_A op_pc op
  | 0xB => step_B op
  | 0xC => step_C op
  | 0xD => step_9D 0xD op
  | 0xE => step_E op_pc op
  | 0xF => m68k_unimpl op_pc 11
  | _ => m68k_unimpl op_pc 4
  end.

Definition m68k_step : C unit :=
  halted ← getc cpu_halted;
  if nz halted then mret tt else
  upd (λ c, set_cpu_instrs (cpu_instrs c + 1) c) ;;
  op_pc ← getc cpu_pc;
  op ← fetch16;
  add_cycles 4 ;;
  execute op_pc op.
End step.

(** ** Control-flow effects *)

(** What [execute] does to the instruction stream: fall through after [n]
    extension bytes (or take an exception), transfer control, or always take
    the illegal-instruction exception. *)
Inductive flow := Falls (n : Z) | Transfers | Faults.

Definition step_length_4 (op : Z) : flow :=
  let mode := (op ≫ 3) .& 7 in let reg := op .& 7 in
  let sel := (op ≫ 8) .& 0xF in let szf := (op ≫ 6) .& 3 in
  let sel3 := (op ≫ 6) .& 7 in
  if op =? 0x4E71 then Falls 0
  else if op =? 0x4E70 then Falls 0
  else if op =? 0x4E73 then Transfers
  else if op =? 0x4E77 then Transfers
  else if op =? 0x4E75 then Transfers
  else if op =? 0x4E76 then Falls 0
  else if op .& 0xFFF8 =? 0x4E50 then Falls 2
  else if op .& 0xFFF8 =? 0x4E58 then Falls 0
  else if op .& 0xFFF0 =? 0x4E40 then Falls 0
  else if op .& 0xFFF8 =? 0x4E60 then Falls 0
  else if op .& 0xFFF8 =? 0x4E68 then Falls 0
  else if op =? 0x4E72 then Falls 2
  else if op .& 0xFFF8 =? 0x4840 then Falls 0
  else if op .& 0xFFB8 =? 0x4880 then Falls 0
  else if op .& 0xFFC0 =? 0x4800 then Falls (ea_words mode reg 1)
  else if op .& 0xFFC0 =? 0x4EC0 then Transfers
  else if op .& 0xFFC0 =? 0x4E80 then Transfers
  else if op .& 0xFFC0 =? 0x4840 then Falls (ea_words mode reg 4)
  else if sel3 =? 7 then Falls (ea_words mode reg 4)
  else if (sel3 =? 6) || (sel3 =? 5) then Falls (ea_words mode reg (if sel3 =? 6 then 2 else 4))
  else if op .& 0xFB80 =? 0x4880 then
    Falls (2 + (if mode =? 4 then 0 else ea_words mode reg (if nz (op .& 0x40) then 4 else 2)))
  else if op .& 0xFFC0 =? 0x40C0 then Falls (ea_words mode reg 2)
  else if op .& 0xFFC0 =? 0x44C0 then Falls (ea_words mode reg 2)
  else if op .& 0xFFC0 =? 0x46C0 then Falls (ea_words mode reg 2)
  else if negb (szf =? 3) && ((sel =? 0x0) || (sel =? 0x2) || (sel =? 0x4)
                              || (sel =? 0x6) || (sel =? 0xA))
  then Falls (ea_words mode reg (size_of_field szf))
  else if (sel =? 0xA) && (szf =? 3) then Falls (ea_words mode reg 1)
  else Faults.

Definition step_length_0 (op : Z) : Z :=
  let mode := (op ≫ 3) .& 7 in let reg := op .& 7 in
  let op9 := (op ≫ 9) .& 7 in let sz := size_of_field ((op ≫ 6) .& 3) in
  if nz ((op ≫ 8) .& 1) && (mode =? 1) then 2
  else if nz ((op ≫ 8) .& 1) || (op9 =? 4) then
    (if nz ((op ≫ 8) .& 1) then 0 else 2) + ea_words mode reg (if mode =? 0 then 4 else 1)
  else (if sz =? 4 then 4 else 2) +
       (if (mode =? 7) && (reg =? 4) && ((op9 =? 0) || (op9 =? 1) || (op9 =? 5)) then 0
        else ea_words mode reg sz).

Definition step_length (op : Z) : flow :=
  let mode := (op ≫ 3) .& 7 in let reg := op .& 7 in
  let szf := (op ≫ 6) .& 3 in let sz := size_of_field szf in
  let a_sz := if nz (op .& 0x0100) then 4 else 2 in
  match (op ≫ 12) .& 0xF with
  | 0x0 => Falls (step_length_0 op)
  | 0x1 => Falls (ea_words mode reg 1 + (let dm := (op ≫ 6) .& 7 in
                 if dm =? 1 then 0 else ea_words dm ((op ≫ 9) .& 7) 1))
  | 0x2 => Falls (ea_words mode reg 4 + (let dm := (op ≫ 6) .& 7 in
                 if dm =? 1 then 0 else ea_words dm ((op ≫ 9) .& 7) 4))
  | 0x3 => Falls (ea_words mode reg 2 + (let dm := (op ≫ 6) .& 7 in
                 if dm =? 1 then 0 else ea_words dm ((op ≫ 9) .& 7) 2))
  | 0x4 => step_length_4 op
  | 0x5 => if szf =? 3 then (if mode =? 1 then Transfers else Falls (ea_words mode reg 1))
           else Falls (ea_words mode reg sz)
  | 0x6 => Transfers
  | 0x7 => Falls 0
  | 0x8 => if szf =? 3 then Falls (ea_words mode reg 2)
           else if op .& 0x01F0 =? 0x0100 then Falls 0 else Falls (ea_words mode reg sz)
  | 0x9 | 0xD =>
      if szf =? 3 then Falls (ea_words mode reg a_sz)
      else if nz ((op ≫ 8) .& 1) && ((mode =? 0) || (mode =? 1)) then Falls 0
      else Falls (ea_words mode reg sz)
  | 0xB =>
      if szf =? 3 then Falls (ea_words mode reg a_sz)
      else if nz ((op ≫ 8) .& 1) && (mode =? 1) then Falls 0 else Falls (ea_words mode reg sz)
  | 0xC =>
      let em := (op ≫ 3) .& 0x1F in
      if szf =? 3 then Falls (ea_words mode reg 2)
      else if op .& 0x01F0 =? 0x0100 then Falls 0
      else if (op .& 0x0130 =? 0x0100) && ((em =? 0x08) || (em =? 0x09) || (em =? 0x11))
      then Falls 0 else Falls (ea_words mode reg sz)
  | 0xE => if (szf =? 3) && ea_is_mem mode reg then Falls (ea_words mode reg 2)
           else if szf =? 3 then Faults else Falls 0
  | _ => Transfers
  end.

(** The registers an instruction touches stay well-formed. *)
Section setters.
Implicit Types c : m68k_cpu.

Lemma set_nz_ok sz r c : cpu_ok c → cpu_ok (set_nz sz r c).
Proof. unfold set_nz. auto with cpu. Qed.
Lemma set_flags_logic_ok sz r c : cpu_ok c → cpu_ok (set_flags_logic sz r c).
Proof. unfold set_flags_logic. auto with cpu. Qed.
Lemma set_flags_add_ok sz s d r c : cpu_ok c → cpu_ok (set_flags_add sz s d r c).
Proof. unfold set_flags_add. auto with cpu. Qed.
Lemma set_flags_sub_ok sz s d r c : cpu_ok c → cpu_ok (set_flags_sub sz s d r c).
Proof. unfold set_flags_sub. auto with cpu. Qed.
Lemma set_flags_cmp_ok sz s d r c : cpu_ok c → cpu_ok (set_flags_cmp sz s d r c).
Proof. unfold set_flags_cmp. auto with cpu. Qed.
Lemma merge_dreg_ok dn sz r c : cpu_ok c → cpu_ok (merge_dreg dn sz r c).
Proof. unfold merge_dreg. auto with cpu. Qed.

(** [f] only computes: it keeps [pc], the interrupt level and the ranges. *)
Definition calm (f : m68k_cpu → m68k_cpu) : Prop :=
  ∀ c, (cpu_ok c → cpu_ok (f c)) ∧ cpu_pc (f c) = cpu_pc c ∧
       cpu_pending_irq (f c) = cpu_pending_irq c.

Lemma calm_do_shift sz op v n : calm (λ c, snd (do_shift sz op v n c)).
Proof.
  intros c. unfold do_shift. destruct (n =? 0); simpl; [|auto with cpu].
  split_and!; [|done|done]. intros. apply set_nz_ok. auto with cpu.
Qed.
Lemma calm_abcd s d : calm (λ c, snd (bcd_abcd (s c) (d c) c)).
Proof. intros c. unfold bcd_abcd. simpl. auto with cpu. Qed.
Lemma calm_sbcd s d : calm (λ c, snd (bcd_sbcd (s c) (d c) c)).
Proof.
  intros c. unfold bcd_sbcd. destruct (if 9 <? _ then _ else _). simpl. auto with cpu.
Qed.
Lemma calm_nbcd d : calm (λ c, snd (bcd_nbcd d c)).
Proof.
  intros c. unfold bcd_nbcd. destruct (if 9 <? _ then _ else _). simpl. auto with cpu.
Qed.
Lemma calm_divu dn div : calm (divu dn div).
Proof.
  intros c. unfold divu. destruct (_ <? _); simpl; [auto with cpu|].
  split_and!; [|done|done]. intros. apply set_flags_logic_ok. auto with cpu.
Qed.
Lemma divs_calm dn div c c' : divs dn div c = Some c' →
  (cpu_ok c → cpu_ok c') ∧ cpu_pc c' = cpu_pc c ∧ cpu_pending_irq c' = cpu_pending_irq c.
Proof.
  unfold divs. destruct (_ && _); [done|]. intros [= <-].
  destruct (_ || _); split_and!; try done; intros; [auto with cpu|].
  apply set_flags_logic_ok. auto with cpu.
Qed.
End setters.
#[export] Hint Resolve set_nz_ok set_flags_logic_ok set_flags_add_ok set_flags_sub_ok
  set_flags_cmp_ok merge_dreg_ok : cpu.
#[export] Hint Resolve calm_do_shift calm_abcd calm_sbcd calm_nbcd calm_divu : does.

Section effects.
Context {B : Type} `{BB : Bus B} `{BO : !BusOk B} (ub : Prop) (Hub : bus_ub → ub).
#[local] Hint Resolve Hub : does.
#[local] Abbreviation words op := (ea_words ((op ≫ 3) .& 7) (op .& 7)).

Lemma does_calm f : calm f → does ub (Adv 0) (upd f).
Proof. intros Hf. apply does_upd; intros; by apply Hf. Qed.
Lemma does_run_cpu {A} (f : m68k_cpu → A * m68k_cpu) :
  calm (λ c, snd (f c)) → does ub (Adv 0) (run_cpu f).
Proof.
  intros Hf. unfold run_cpu. eapply does_bind_adv; [apply does_gets|]. intros.
  eapply does_bind_adv; [by apply does_calm|]. intros. does_auto.
Qed.
Lemma does_read_sized sz a : does ub (Adv 0) (read_sized sz a).
Proof. unfold read_sized. does_auto. Qed.
Lemma does_push32 v : does ub (Adv 0) (push32 v).
Proof. unfold push32. does_auto. Qed.
Lemma does_pop16 : does ub (Adv 0) pop16.
Proof. unfold pop16. does_auto. Qed.
Lemma does_pop32 : does ub (Adv 0) pop32.
Proof. unfold pop32. does_auto. Qed.
Lemma does_set_sr_sync v : does ub (Adv 0) (set_sr_sync v).
Proof. unfold set_sr_sync. does_auto. Qed.
Hint Resolve does_run_cpu does_read_sized does_push32 does_pop16 does_pop32
  does_set_sr_sync : does.

(** [m] transfers control the way [f] says. *)
Definition flow_ok {A} (f : flow) (m : M (st B) A) : Prop :=
  match f with
  | Falls n => does ub (May n) m
  | Transfers => does ub Jump m
  | Faults => ∀ n, does ub (May n) m
  end.

Lemma does_movep op : does ub (Adv 2) (op_movep op).
Proof. unfold op_movep. does_auto. Qed.

Lemma does_step_0 op_pc op : does ub (May (step_length_0 op)) (step_0 op_pc op).
Proof.
  unfold step_0, step_length_0. cbv zeta.
  destruct (nz ((op ≫ 8) .& 1) && _); [apply does_eq_may with 2; [apply does_movep|done]|].
  destruct (nz _) eqn:Hd; simpl orb; [|destruct (_ =? 4)].
  - unfold op_bit. rewrite Hd. does_auto.
  - unfold op_bit. rewrite Hd. does_auto.
  - unfold op_imm. cbv zeta. destruct (size_of_field _ =? 4);
      (eapply does_bind_may; [does_auto|intros imm]);
      (destruct (_ && _); [unfold op_imm_to_sr; does_auto|]);
      (eapply does_bind_may; [eauto with does|intros e]);
      (eapply does_bind_may; [eauto with does|intros d]);
      destruct ((op ≫ 9) .& 7) as [|[[[]|[]|]|[[]|[]|]|]|]; does_auto.
Qed.

Lemma does_step_move top op :
  let sz := if top =? 1 then 1 else if top =? 3 then 2 else 4 in
  let dm := (op ≫ 6) .& 7 in
  does ub (Adv (words op sz + (if dm =? 1 then 0 else ea_words dm ((op ≫ 9) .& 7) sz)))
    (step_move top op).
Proof.
  cbv zeta. unfold step_move. cbv zeta.
  set (sz := if top =? 1 then 1 else if top =? 3 then 2 else 4). clearbody sz.
  eapply does_bind_adv; [eauto with does|intros s].
  eapply does_bind_adv; [eauto with does|intros v].
  destruct (_ =? 1); does_auto.
Qed.

Lemma does_unary op : does ub (Adv (words op (size_of_field ((op ≫ 6) .& 3)))) (op_unary op).
Proof.
  unfold op_unary. cbv zeta. eapply does_bind_adv; [eauto with does|intros e].
  destruct (_ =? 0xA); [does_auto|].
  eapply does_bind_adv; [eauto with does|intros d].
  eapply does_bind_adv with 0; [|intros; does_auto].
  destruct (_ =? 4); [does_auto|]. destruct (_ =? 0); [|does_auto].
  eapply does_bind_adv; [apply does_gets|intros f]. unfold negx. does_auto.
Qed.

Lemma does_step_4 op_pc op :
  flow_ok (step_length_4 op) (step_4 op_pc op).
Proof.
  unfold step_4, step_length_4. cbv zeta.
  repeat match goal with
  | |- flow_ok _ (if ?c then _ else _) => destruct c eqn:?
  end; simpl; try (unfold op_reset, op_rte, op_rtr, op_rts, op_trapv, op_link, op_unlk, op_stop,
    op_swap, op_ext, op_nbcd, op_jmp, op_jsr, op_pea, op_lea, op_chk, op_move_from_sr,
    op_move_to_ccr, op_move_to_sr, op_tas; does_auto; lia).
  2: { intros. by apply does_illegal. }
  eapply does_eq_may; [apply does_unary|done].
Qed.

Lemma does_step_5 op_pc op :
  ((op ≫ 6) .& 3 =? 3) = false ∨ ((op ≫ 3) .& 7 =? 1) = false →
  does ub (Adv (words op (if (op ≫ 6) .& 3 =? 3 then 1 else size_of_field ((op ≫ 6) .& 3))))
    (step_5 op_pc op).
Proof.
  intros Hc. unfold step_5. destruct (_ =? 3).
  - destruct Hc as [?| ->]; [done|]. unfold op_scc. does_auto.
  - unfold op_addq. cbv zeta. eapply does_bind_adv; [eauto with does|intros e].
    destruct (ea_k e), (nz ((op ≫ 8) .& 1)); does_auto.
Qed.
Lemma does_dbcc op_pc op : does ub Go (op_dbcc op_pc op).
Proof. unfold op_dbcc. does_auto. Qed.
Lemma does_step_6 op : does ub Go (step_6 op).
Proof. unfold step_6. does_auto. Qed.
Lemma does_step_7 op : does ub (Adv 0) (step_7 op).
Proof. unfold step_7. does_auto. Qed.

Lemma does_logic f op : does ub (Adv (words op (size_of_field ((op ≫ 6) .& 3)))) (op_logic f op).
Proof. unfold op_logic. does_auto. Qed.
Lemma does_bcd f op : (∀ s d, calm (λ c, snd (f (s c) (d c) c))) → does ub (Adv 0) (op_bcd f op).
Proof.
  intros Hf. unfold op_bcd. cbv zeta.
  eapply does_bind_adv with 0; [|intros; does_auto].
  apply does_if; intros _; does_auto; cbn [ea_words]; lia.
Qed.
Lemma does_step_8 op :
  ((op ≫ 6) .& 3 =? 3) = false →
  does ub (Adv (if op .& 0x01F0 =? 0x0100 then 0
                else words op (size_of_field ((op ≫ 6) .& 3)))) (step_8 op).
Proof.
  intros Hc. unfold step_8. rewrite Hc. destruct (_ =? 0x0100).
  - apply does_bcd, calm_sbcd.
  - apply does_logic.
Qed.

(** A division reaches undefined behaviour only through [divs]. *)
Lemma does_div op :
  (nz ((op ≫ 8) .& 1) = true → ub) → does ub (May (words op 2)) (op_div op).
Proof.
  intros Hs. unfold op_div. cbv zeta. eapply does_bind_may; [eauto with does|intros e].
  eapply does_bind_may; [eauto with does|intros div].
  set (dn := (op ≫ 9) .& 7).
  apply does_if; intros _; [does_auto|].
  eapply does_bind_may with 0; [|intros; does_auto].
  destruct (nz _); simpl; [|apply does_calm, calm_divu].
  intros s Hok. unfold mbind, M_bind, getc, gets.
  destruct (divs dn div (cpu s)) as [c'|] eqn:E; [|by apply Hs].
  apply divs_calm in E as (Hc1 & Hc2 & Hc3). destruct Hok.
  unfold upd, modify, with_cpu. simpl. split; [split; simpl; auto; by rewrite Hc3|].
  split; simpl; [|done]. rewrite Hc2, Z.add_0_r. symmetry. apply u32_small. by destruct st_cpu_ok.
Qed.

Lemma does_step_C op :
  does ub (Adv (let em := (op ≫ 3) .& 0x1F in
    if (op ≫ 6) .& 3 =? 3 then words op 2
    else if op .& 0x01F0 =? 0x0100 then 0
    else if (op .& 0x0130 =? 0x0100) && ((em =? 0x08) || (em =? 0x09) || (em =? 0x11))
    then 0 else words op (size_of_field ((op ≫ 6) .& 3)))) (step_C op).
Proof.
  unfold step_C. cbv zeta.
  destruct (_ =? 3); [unfold op_mul; does_auto|].
  destruct (_ =? 0x0100); [apply does_bcd, calm_abcd|].
  destruct (_ =? 0x0100); simpl; [|apply does_logic].
  destruct (_ =? 8); simpl; [unfold exg_dd; does_auto|].
  destruct (_ =? 9); simpl; [unfold exg_aa; does_auto|].
  destruct (_ =? 17); simpl; [unfold exg_da; does_auto|apply does_logic].
Qed.

Lemma does_addx b op : does ub (Adv 0) (op_addx b op).
Proof.
  unfold op_addx. cbv zeta. eapply does_bind_adv; [apply does_gets|intros f].
  eapply does_bind_adv with 0; [|intros; does_auto].
  apply does_if; intros _; unfold addx_subx;
    repeat (eapply does_bind_adv; [solve [does_auto]|intros]); cbv zeta;
    destruct b; does_auto.
Qed.
Lemma does_step_9D top op :
  does ub (Adv (let mode := (op ≫ 3) .& 7 in
    if (op ≫ 6) .& 3 =? 3 then words op (if nz (op .& 0x0100) then 4 else 2)
    else if nz ((op ≫ 8) .& 1) && ((mode =? 0) || (mode =? 1)) then 0
    else words op (size_of_field ((op ≫ 6) .& 3)))) (step_9D top op).
Proof.
  unfold step_9D. cbv zeta. destruct (_ =? 3); [unfold op_adda; does_auto|].
  destruct (_ && _); [apply does_addx|]. unfold op_add. destruct (top =? 0xD); does_auto.
Qed.
Lemma does_step_B op :
  does ub (Adv (if (op ≫ 6) .& 3 =? 3 then words op (if nz (op .& 0x0100) then 4 else 2)
    else if nz ((op ≫ 8) .& 1) && ((op ≫ 3) .& 7 =? 1) then 0
    else words op (size_of_field ((op ≫ 6) .& 3)))) (step_B op).
Proof.
  unfold step_B. destruct (_ =? 3); [unfold op_cmpa; does_auto|].
  destruct (nz _); simpl; [|unfold op_cmp; does_auto].
  destruct (_ =? 1); [unfold op_cmpm|unfold op_eor]; does_auto.
Qed.

Lemma does_step_E op_pc op :
  flow_ok (if ((op ≫ 6) .& 3 =? 3) && ea_is_mem ((op ≫ 3) .& 7) (op .& 7)
           then Falls (words op 2)
           else if (op ≫ 6) .& 3 =? 3 then Faults else Falls 0) (step_E op_pc op).
Proof.
  unfold step_E. destruct (_ =? 3); simpl.
  - unfold op_shift_mem. cbv zeta. destruct (ea_is_mem _ _); simpl;
      [does_auto|intros; by apply does_illegal].
  - unfold op_shift_reg. does_auto.
Qed.

Lemma does_step_A op_pc op : does ub Jump (step_A op_pc op).
Proof.
  unfold step_A. eapply does_bind_jump with (Adv 0); [|intros; does_auto].
  pose proof (trap_hook_ok op) as Ht.
  destruct trap_hook; [by eapply (does_access _ _ (λ _, True)) | apply does_ret].
Qed.

(** The top nibbles, one lemma each. *)
Lemma adv_may {A} (m : M (st B) A) n n' : does ub (Adv n) m → n = n' → does ub (May n') m.
Proof. intros ? <-. by eapply does_weaken; [|eassumption]. Qed.

Ltac by_cases H :=
  generalize H; cbv zeta;
  repeat match goal with
  | |- context [if ?b then _ else _] => match type of b with bool => destruct b eqn:? end
  end; let Hx := fresh in intros Hx; first [exact Hx | eapply adv_may; [exact Hx|congruence]].

Lemma does_execute op_pc op :
  ((op ≫ 12) .& 0xF = 8 → (op ≫ 6) .& 3 = 3 → nz ((op ≫ 8) .& 1) = true → ub) →
  flow_ok (step_length op) (execute op_pc op).
Proof.
  intros Hdivs. unfold execute, step_length. cbv zeta.
  assert (Hun : ∀ v, does ub Jump (m68k_unimpl op_pc v)).
  { intros. by apply does_any with (May 0), does_unimpl. }
  destruct ((op ≫ 12) .& 0xF) as [|p|p] eqn:Etop; [apply does_step_0|..|apply Hun].
  repeat match goal with
    |- context [match p with xI _ => _ | xO _ => _ | xH => _ end] => destruct p as [p|p|]
  end; try apply Hun; try exact (does_step_A _ _).
  - by_cases (does_step_B op).
  - eapply adv_may; [apply does_step_7|done].
  - by_cases (does_step_9D 0xD op).
  - by_cases (does_step_9D 9 op).
  - destruct (Z.eqb_spec ((op ≫ 6) .& 3) 3).
    + destruct (Z.eqb_spec ((op ≫ 3) .& 7) 1).
      * unfold step_5. rewrite e, e0. simpl. eapply does_any, does_dbcc.
      * eapply adv_may; [apply does_step_5; right; by apply Z.eqb_neq|]. by rewrite e.
    + eapply adv_may; [apply does_step_5; left; by apply Z.eqb_neq|].
      by rewrite (proj2 (Z.eqb_neq _ _) n).
  - eapply adv_may; [apply (does_step_move 3)|done].
  - apply does_step_E.
  - simpl. eapply does_any, does_step_6.
  - by_cases (does_step_C op).
  - destruct (Z.eqb_spec ((op ≫ 6) .& 3) 3).
    + unfold step_8. rewrite e. simpl. apply does_div. auto.
    + apply Z.eqb_neq in n. by_cases (does_step_8 op n).
  - apply does_step_4.
  - eapply adv_may; [apply (does_step_move 2)|done].
  - eapply adv_may; [apply (does_step_move 1)|done].
Qed.
End effects.
