(* ===== verification/Decode.v ===== *)
(** * The block-discovery decoder

    [ea_ext_bytes] and [m68k_decode_at] of [core/m68k_interp.c], and their
    agreement with what [m68k_step] consumes. *)

From Stdlib Require Import ZArith Lia.
From stdpp Require Import base tactics list numbers.
From S2P Require Import Prelude Cpu Flags Logic Flat Ea Step.

Definition ea_ext_bytes (mode reg sz : Z) : Z :=
  match mode with
  | 5 => 2
  | 6 => 2
  | 7 =>
      match reg with
      | 0 => 2
      | 1 => 4
      | 2 => 2
      | 3 => 2
      | 4 => if sz =? 4 then 4 else 2
      | _ => 0
      end
  | _ => 0
  end.

Record m68k_decoded := mk_decoded {
  dec_opcode : Z;
  dec_length : Z;
  dec_ends_block : bool
}.

(** Case 0100 of the switch: the extra length, and whether the block ends. *)
Definition decode_4 (op : Z) : Z * bool :=
  let mode := (op ≫ 3) .& 7 in let reg := op .& 7 in
  let sz := size_of_field ((op ≫ 6) .& 3) in
  if (op =? 0x4E75) || (op =? 0x4E73) || (op =? 0x4E77) || (op =? 0x4E70) then (0, true)
  else if op .& 0xFFF0 =? 0x4E40 then (0, true)
  else if op =? 0x4E72 then (2, true)
  else if (op .& 0xFFC0 =? 0x4EC0) || (op .& 0xFFC0 =? 0x4E80)
  then (ea_ext_bytes mode reg 4, true)
  else if op .& 0xFFF8 =? 0x4E50 then (2, false)
  else if (op =? 0x4E71) || (op =? 0x4E76) || (op .& 0xFFF8 =? 0x4840)
          || (op .& 0xFFB8 =? 0x4880) || (op .& 0xFFF8 =? 0x4E58)
          || (op .& 0xFFF0 =? 0x4E60) then (0, false)
  else if op .& 0xFB80 =? 0x4880 then (2 + ea_ext_bytes mode reg 4, false)
  else
    let ea_sz := if sz =? 0 then 2 else sz in
    let ea_sz := if op .& 0xF1C0 =? 0x40C0 then 2 else ea_sz in
    let ea_sz := if op .& 0xF1C0 =? 0x4180 then 2 else ea_sz in
    (ea_ext_bytes mode reg ea_sz, false).

Definition decode_0 (op : Z) : Z :=
  let mode := (op ≫ 3) .& 7 in let reg := op .& 7 in
  let sz := size_of_field ((op ≫ 6) .& 3) in
  let op9 := (op ≫ 9) .& 7 in
  let dyn := nz ((op ≫ 8) .& 1) in
  if dyn && (mode =? 1) then 2
  else if dyn || (op9 =? 4) then
    (if negb dyn then 2 else 0) + ea_ext_bytes mode reg (if mode =? 0 then 4 else 1)
  else
    let to_sr_ccr := (mode =? 7) && (reg =? 4)
                     && ((op9 =? 0) || (op9 =? 1) || (op9 =? 5)) in
    (if sz =? 4 then 4 else 2) + (if negb to_sr_ccr then ea_ext_bytes mode reg sz else 0).

Definition decode_move (top op : Z) : Z :=
  let msz := if top =? 1 then 1 else if top =? 3 then 2 else 4 in
  let sm := (op ≫ 3) .& 7 in let sr := op .& 7 in
  let dr := (op ≫ 9) .& 7 in let dm := (op ≫ 6) .& 7 in
  ea_ext_bytes sm sr msz + ea_ext_bytes dm dr msz.

Definition decode_alu (top op : Z) : Z :=
  let mode := (op ≫ 3) .& 7 in let reg := op .& 7 in
  let szf := (op ≫ 6) .& 3 in let sz := size_of_field szf in
  let adj_sz :=
    if szf =? 3 then
      let a_long := ((top =? 0x9) || (top =? 0xB) || (top =? 0xD)) && nz (op .& 0x0100) in
      if a_long then 4 else 2
    else sz in
  ea_ext_bytes mode reg adj_sz.

Definition decode_op (op : Z) : m68k_decoded :=
  let mode := (op ≫ 3) .& 7 in let reg := op .& 7 in
  let szf := (op ≫ 6) .& 3 in let sz := size_of_field szf in
  let top := (op ≫ 12) .& 0xF in
  let '(extra, ends_block) :=
    match top with
    | 0x0 => (decode_0 op, false)
    | 0x1 | 0x2 | 0x3 => (decode_move top op, false)
    | 0x4 => decode_4 op
    | 0x5 => if (szf =? 3) && (mode =? 1) then (2, true) else (ea_ext_bytes mode reg sz, false)
    | 0x6 => (if op .& 0xFF =? 0x00 then 2 else if op .& 0xFF =? 0xFF then 4 else 0, true)
    | 0x7 => (0, false)
    | 0x8 | 0x9 | 0xB | 0xC | 0xD => (decode_alu top op, false)
    | 0xE => (if szf =? 3 then ea_ext_bytes mode reg 2 else 0, false)
    | 0xA | 0xF => (0, true)
    | _ => (0, false)
    end in
  let length := 2 + extra in
  mk_decoded op (if length <? 2 then 2 else length) ends_block.

Definition m68k_decode_at {B} `{Bus B} (pc : Z) : M (st B) m68k_decoded :=
  op ← rd16 pc;
  mret (decode_op op).

(** ** Agreement with the interpreter *)

(** The opcodes whose [#imm] operand the decoder and the interpreter size
    differently: PEA, Scc, MOVEM.W, and the reserved size of
    CHK.  Immediate is not a legal operand of any of them. *)
Definition imm_quirk (op : Z) : bool :=
  ((op .& 0x3F) =? 0x3C) &&
  ((op .& 0xFFC0 =? 0x4840)
   || (op .& 0xF0C0 =? 0x50C0) || (op .& 0xFBC0 =? 0x4880)
   || (op .& 0xF1C0 =? 0x4140)).

(** The decoder's length is what the interpreter consumes. *)
Definition length_agrees (op : Z) : bool :=
  match step_length op with
  | Falls n => dec_length (decode_op op) =? 2 + n
  | Transfers => false
  | Faults => true
  end.

(** C9.  The decoder and the interpreter agree on the length of every one of
    the 65536 opcode words that neither ends a block nor is one of the 27
    illegal immediate forms, and on none of those. *)
Theorem decoder_length_iff op : 0 ≤ op < 0x10000 → dec_ends_block (decode_op op) = false →
  length_agrees op = negb (imm_quirk op).
Proof.
  intros Hop Hd.
  assert (H : all_bits 16 (λ op, dec_ends_block (decode_op op)
                                 || Bool.eqb (length_agrees op) (negb (imm_quirk op))) 0 = true)
    by (vm_compute; reflexivity).
  apply all_bits_spec with (i := op) in H; [|exact Hop].
  cbv beta in H. rewrite Z.mul_0_l, Z.add_0_l in H. rewrite Hd in H. simpl orb in H. by apply Bool.eqb_prop in H.
Qed.

Section agreement.
Context {B : Type} `{BB : Bus B} `{BO : !BusOk B}.

(** The opcode [m68k_step] fetches from [s]. *)
Definition fetched (s : st B) : option (Z * st B) :=
  rd16 (cpu_pc (cpu s)) (with_cpu (λ c, set_cpu_instrs (cpu_instrs c + 1) c) s).

Lemma step_unfold s : cpu_halted (cpu s) = 0 →
  m68k_step s =
    match fetched s with
    | Some (op, s1) =>
        execute (cpu_pc (cpu s)) op
          (with_cpu (λ c, set_cpu_cycles (cpu_cycles c + 4) (set_cpu_pc (cpu_pc c + 2) c)) s1)
    | None => None
    end.
Proof.
  intros Hh. unfold m68k_step, mbind, M_bind, getc, gets, upd, modify, add_cycles, fetched.
  rewrite Hh. simpl. unfold fetch16, mbind, M_bind, getc, gets, upd, modify. simpl.
  destruct (rd16 _ _) as [[op s1]|]; [|done]. done.
Qed.

(** After the fetch the state is well-formed and [pc] is past the opcode. *)
Lemma fetched_ok s op s1 : st_ok s → fetched s = Some (op, s1) →
  let s2 := with_cpu (λ c, set_cpu_cycles (cpu_cycles c + 4) (set_cpu_pc (cpu_pc c + 2) c)) s1 in
  st_ok s2 ∧ 0 ≤ op < 0x10000 ∧ cpu_pc (cpu s2) = u32 (cpu_pc (cpu s) + 2) ∧
  exc_n s2 = exc_n s.
Proof.
  intros Hs Hf s2. unfold fetched in Hf.
  assert (Hs0 : st_ok (with_cpu (λ c, set_cpu_instrs (cpu_instrs c + 1) c) s))
    by (destruct Hs; split; simpl; auto with cpu).
  pose proof (rd16_ok (cpu_pc (cpu s)) _ Hs0) as H. rewrite Hf in H.
  destruct H as (Hs1 & (Hc & _ & Hn) & Hop). apply (f_equal cpu_pc) in Hc. simpl in Hc, Hn.
  subst s2. destruct Hs1. split; [split; simpl; auto with cpu|].
  split; [exact Hop|]. simpl. by rewrite Hc.
Qed.

(** Whether [op] is DIVS, the one opcode with an undefined case. *)
Definition is_divs (op : Z) : Prop :=
  (op ≫ 12) .& 0xF = 8 ∧ (op ≫ 6) .& 3 = 3 ∧ nz ((op ≫ 8) .& 1) = true.


(** C2.  The decoder is right about fall-through: when it says that an
    instruction does not end the block, then after [m68k_step] either an
    exception was taken or [pc] has advanced by the decoded length (the
    illegal immediate forms of [imm_quirk] apart). *)
Theorem decode_step_agree s op s1 : st_ok s → cpu_halted (cpu s) = 0 →
  fetched s = Some (op, s1) →
  dec_ends_block (decode_op op) = false → imm_quirk op = false →
  match m68k_step s with
  | Some (_, s') => exc_n s' ≠ exc_n s ∨
                    cpu_pc (cpu s') = u32 (cpu_pc (cpu s) + dec_length (decode_op op))
  | None => True
  end.
Proof.
  intros Hs Hh Hf Hd Hq. rewrite step_unfold, Hf by done.
  destruct (fetched_ok s op s1 Hs Hf) as (Hs2 & Hop & Hpc & Hn).
  pose proof (decoder_length_iff op Hop Hd) as Hl. rewrite Hq in Hl.
  set (s2 := with_cpu _ s1) in *. clearbody s2.
  set (n := dec_length (decode_op op) - 2).
  assert (does True (May n) (execute (cpu_pc (cpu s)) op)) as H.
  { pose proof (does_execute True (λ _, I) (cpu_pc (cpu s)) op (λ _ _ _, I)) as H.
    unfold length_agrees in Hl. destruct (step_length op); simpl in H.
    - apply Z.eqb_eq in Hl. subst n. rewrite Hl. by replace (2 + n0 - 2) with n0 by lia.
    - done.
    - apply H. }
  specialize (H _ Hs2). destruct (execute _ _ s2) as [[a s']|]; [|done].
  destruct H as [_ H]. unfold eff_holds in H. rewrite Hpc, Hn, u32_add_l in H.
  destruct (Z.eq_dec (exc_n s') (exc_n s)) as [E|]; [right|by left].
  rewrite (H E). f_equal. lia.
Qed.
End agreement.

(** ** Witnesses *)

(** [ADD.W D1,D0] with D0 = 0x7FFF, D1 = 1, at address 0. *)
Definition add_state : st flat :=
  flat_machine [0xD041] (set_dreg 0 0x7FFF (set_dreg 1 1 (set_cpu_sr 0x2700 cpu_zero))).

Lemma decoder_length_iff_witness : length_agrees 0xD041 = true.
Proof. apply (decoder_length_iff 0xD041); vm_compute; [split; congruence|reflexivity]. Defined.


Lemma decode_step_agree_witness :
  ∃ s', m68k_step add_state = Some (tt, s') ∧ (exc_n s' ≠ exc_n add_state ∨ cpu_pc (cpu s') = 2).
Proof.
  destruct (fetched add_state) as [[op s1]|] eqn:Ef; [|vm_compute in Ef; discriminate Ef].
  assert (op = 0xD041) as -> by (vm_compute in Ef; congruence).
  pose proof (decode_step_agree add_state 0xD041 s1
    ltac:(apply flat_okb_spec; vm_compute; reflexivity) eq_refl Ef
    ltac:(vm_compute; reflexivity) ltac:(vm_compute; reflexivity)) as H.
  destruct (m68k_step add_state) as [[[] s']|] eqn:E; [|vm_compute in E; discriminate E].
  exists s'. split; [reflexivity|exact H].
Defined.
