(* ===== verification/JitHelpers.v ===== *)
(** * The fast helpers of the JIT

    The [m68k_jit_*] functions of [core/m68k_interp.c], which compiled code
    calls instead of [m68k_step] when an operand is not plain memory, and the
    theorems that each does what the interpreter does for its instruction. *)

From Stdlib Require Import ZArith Lia.
From stdpp Require Import base tactics list numbers.
From S2P Require Import Prelude Cpu Flags Logic Flat Ea Step.

(** [u8 ccr = ccr & X; if (zero) ccr |= Z; if (neg) ccr |= N] *)
Definition move_ccr (zero neg : bool) (c : m68k_cpu) : m68k_cpu :=
  let ccr := m68k_get_ccr c .& CCR_X in
  let ccr := or_if zero CCR_Z ccr in
  m68k_set_ccr (or_if neg CCR_N ccr) c.

Section helpers.
Context {B : Type} `{Bus B}.
#[local] Abbreviation C := (M (st B)).

Definition jit_args : C (Z * Z) := getc (λ c, (cpu_jit_arg1 c, cpu_jit_arg2 c)).

Definition m68k_jit_ori_b_mmio : C unit :=
  '(addr, arg2) ← jit_args;
  let imm := u8 arg2 in
  d ← rd8 addr;
  let r := u8 (d .| imm) in
  wr8 addr r ;;
  upd (move_ccr (r =? 0) (nz (r .& 0x80))).

Definition m68k_jit_btst_b_mmio : C unit :=
  '(addr, arg2) ← jit_args;
  let bit := arg2 .& 7 in
  d ← rd8 addr;
  upd (λ c,
    let ccr := m68k_get_ccr c .& u8 (Z.lnot CCR_Z) in
    m68k_set_ccr (or_if ((d ≫ bit) .& 1 =? 0) CCR_Z ccr) c).

Definition m68k_jit_movem_l_postinc_to_regs : C unit :=
  '(arg1, arg2) ← jit_args;
  let list := u16 arg1 in let an := arg2 .& 7 in
  addr ← getc (λ c, areg c an);
  addr ← fold_each (upto 16) (λ i addr,
    if nz (list .& (1 ≪ i)) then
      v ← rd32 addr;
      upd (if i <? 8 then set_dreg i v else set_areg (i - 8) v) ;;
      mret (u32 (addr + 4))
    else mret addr) addr;
  upd (set_areg an addr).

Definition m68k_jit_movem_l_predec_from_regs : C unit :=
  '(arg1, arg2) ← jit_args;
  let list := u16 arg1 in let an := arg2 .& 7 in
  addr ← getc (λ c, areg c an);
  addr ← fold_each (upto 16) (λ i addr,
    if nz (list .& (1 ≪ i)) then
      let idx := 15 - i in
      v ← getc (λ c, if idx <? 8 then dreg c idx else areg c (idx - 8));
      let addr := u32 (addr - 4) in
      wr32 addr v ;;
      mret addr
    else mret addr) addr;
  upd (set_areg an addr).

Definition m68k_jit_movem_w_to_mem : C unit :=
  '(arg1, arg2) ← jit_args;
  let list := u16 arg1 in let an := arg2 .& 7 in
  addr ← getc (λ c, areg c an);
  fold_each (upto 16) (λ i addr,
    if nz (list .& (1 ≪ i)) then
      v ← getc (λ c, if i <? 8 then dreg c i else areg c (i - 8));
      wr16 addr (u16 v) ;;
      mret (u32 (addr + 2))
    else mret addr) addr ;;
  mret tt.

Definition m68k_jit_movem_l_to_mem : C unit :=
  '(arg1, arg2) ← jit_args;
  let list := u16 arg1 in let an := arg2 .& 7 in
  addr ← getc (λ c, areg c an);
  fold_each (upto 16) (λ i addr,
    if nz (list .& (1 ≪ i)) then
      v ← getc (λ c, if i <? 8 then dreg c i else areg c (i - 8));
      wr32 addr v ;;
      mret (u32 (addr + 4))
    else mret addr) addr ;;
  mret tt.

Definition m68k_jit_move_w_postinc_to_dn : C unit :=
  '(_, arg2) ← jit_args;
  let dn := arg2 .& 7 in let an := (arg2 ≫ 4) .& 7 in
  addr ← getc (λ c, areg c an);
  v ← rd16 addr;
  upd (λ c, set_dreg dn ((dreg c dn .& 0xFFFF0000) .| v) c) ;;
  upd (set_areg an (addr + 2)) ;;
  upd (move_ccr (v =? 0) (nz (v .& 0x8000))).

Definition m68k_jit_rts_mmio : C unit :=
  a ← getc (λ c, areg c 7);
  pc ← rd32 a;
  upd (set_cpu_pc pc) ;;
  upd (λ c, set_areg 7 (areg c 7 + 4) c).

Definition m68k_jit_move_l_an_to_dn_mmio : C unit :=
  '(addr, arg2) ← jit_args;
  let dn := arg2 .& 7 in
  v ← rd32 addr;
  upd (set_dreg dn v) ;;
  upd (move_ccr (v =? 0) (nz (v .& 0x80000000))).

Definition m68k_jit_clr_w_anpi_mmio : C unit :=
  '(_, arg2) ← jit_args;
  let an := arg2 .& 7 in
  addr ← getc (λ c, areg c an);
  wr16 addr 0 ;;
  upd (set_areg an (addr + 2)) ;;
  upd (λ c, m68k_set_ccr ((m68k_get_ccr c .& CCR_X) .| CCR_Z) c).

Definition m68k_jit_tst_b_mmio : C unit :=
  '(addr, _) ← jit_args;
  d ← rd8 addr;
  upd (move_ccr (d =? 0) (nz (d .& 0x80))).

Definition m68k_jit_rte : C unit :=
  was ← getc m68k_is_super;
  a7 ← getc (λ c, areg c 7);
  sr ← rd16 a7;
  pc ← rd32 (u32 (a7 + 2));
  upd (set_areg 7 (a7 + 6)) ;;
  upd (set_cpu_sr sr) ;;
  upd (set_cpu_pc pc) ;;
  upd (m68k_sync_sp was).

Definition m68k_jit_bitop_dn_an_mmio : C unit :=
  '(addr, packed) ← jit_args;
  let which := (packed ≫ 4) .& 3 in let dn := packed .& 7 in
  bit ← getc (λ c, dreg c dn .& 7);
  v ← rd8 addr;
  let mask := u8 (1 ≪ bit) in
  upd (λ c,
    let ccr := m68k_get_ccr c .& u8 (Z.lnot CCR_Z) in
    m68k_set_ccr (or_if (negb (nz (v .& mask))) CCR_Z ccr) c) ;;
  match which with
  | 1 => wr8 addr (u8 (v .^ mask))
  | 2 => wr8 addr (u8 (v .& u8 (Z.lnot mask)))
  | 3 => wr8 addr (u8 (v .| mask))
  | _ => mret tt
  end.

Definition m68k_jit_movea_w_addr_to_am_mmio : C unit :=
  '(addr, arg2) ← jit_args;
  let am := arg2 .& 7 in
  v ← rd16 addr;
  upd (set_areg am (u32 (i16 v))).

Definition m68k_jit_move_w_addr_to_postinc_mmio : C unit :=
  '(src, arg2) ← jit_args;
  let am := arg2 .& 7 in
  v ← rd16 src;
  dst ← getc (λ c, areg c am);
  wr16 dst v ;;
  upd (set_areg am (dst + 2)) ;;
  upd (move_ccr (v =? 0) (nz (v .& 0x8000))).

Definition m68k_jit_cmp_w_addr_dn_mmio : C unit :=
  '(addr, arg2) ← jit_args;
  let dn := arg2 .& 7 in
  s ← rd16 addr;
  d ← getc (λ c, dreg c dn .& 0xFFFF);
  let r := u32 (d - s) .& 0xFFFF in
  upd (λ c,
    let cc := m68k_get_ccr c .& CCR_X in
    let cc := or_if (r =? 0) CCR_Z cc in
    let cc := or_if (nz (r .& 0x8000)) CCR_N cc in
    let cc := or_if (d <? s) CCR_C cc in
    let cc := or_if (nz ((s .^ d) .& (d .^ r) .& 0x8000)) CCR_V cc in
    m68k_set_ccr cc c).

Definition m68k_jit_movea_l_addr_to_am_mmio : C unit :=
  '(addr, arg2) ← jit_args;
  let am := arg2 .& 7 in
  v ← rd32 addr;
  upd (set_areg am v).

Definition m68k_jit_move_b_postinc_to_dn_mmio : C unit :=
  '(_, arg2) ← jit_args;
  let dn := arg2 .& 7 in let an := (arg2 ≫ 4) .& 7 in
  addr ← getc (λ c, areg c an);
  v ← rd8 addr;
  let step := if an =? 7 then 2 else 1 in
  upd (set_areg an (addr + u32 step)) ;;
  upd (λ c, set_dreg dn ((dreg c dn .& 0xFFFFFF00) .| v) c) ;;
  upd (move_ccr (v =? 0) (nz (v .& 0x80))).

Definition m68k_jit_move_w_addr_to_dn_mmio : C unit :=
  '(addr, arg2) ← jit_args;
  let dn := arg2 .& 7 in
  v ← rd16 addr;
  upd (λ c, set_dreg dn ((dreg c dn .& 0xFFFF0000) .| v) c) ;;
  upd (move_ccr (v =? 0) (nz (v .& 0x8000))).

Definition m68k_jit_move_l_addr_to_addr_mmio : C unit :=
  '(src, dst) ← jit_args;
  v ← rd32 src;
  wr32 dst v ;;
  upd (move_ccr (v =? 0) (nz (v .& 0x80000000))).

Definition m68k_jit_move_b_addr_to_addr_mmio : C unit :=
  '(src, dst) ← jit_args;
  v ← rd8 src;
  wr8 dst v ;;
  upd (move_ccr (v =? 0) (nz (v .& 0x80))).

Definition m68k_jit_move_l_xxxw_to_an_mmio : C unit :=
  '(src_addr, arg2) ← jit_args;
  let an := arg2 .& 7 in
  v ← rd32 src_addr;
  a ← getc (λ c, areg c an);
  wr32 a v ;;
  upd (move_ccr (v =? 0) (nz (v .& 0x80000000))).

Definition m68k_jit_move_anpi_to_sr : C unit :=
  '(_, arg2) ← jit_args;
  let an := arg2 .& 7 in
  addr ← getc (λ c, areg c an);
  val ← rd16 addr;
  upd (set_areg an (addr + 2)) ;;
  was ← getc m68k_is_super;
  upd (set_cpu_sr val) ;;
  upd (m68k_sync_sp was).

Definition m68k_jit_aline_trap : C unit := m68k_exception 10.
Definition m68k_jit_fline_trap : C unit := m68k_exception 11.

Definition m68k_jit_bsr_s_mmio : C unit :=
  return_pc ← getc (λ c, u32 (cpu_pc c + 2));
  upd (λ c, set_areg 7 (areg c 7 - 4) c) ;;
  (a ← getc (λ c, areg c 7); wr32 a return_pc) ;;
  upd (λ c, set_cpu_pc (cpu_jit_arg1 c) c).

Definition m68k_jit_bsr_w_mmio : C unit :=
  return_pc ← getc (λ c, u32 (cpu_pc c + 4));
  upd (λ c, set_areg 7 (areg c 7 - 4) c) ;;
  (a ← getc (λ c, areg c 7); wr32 a return_pc) ;;
  upd (λ c, set_cpu_pc (cpu_jit_arg1 c) c).

Definition m68k_jit_move_b_dn_to_addr_mmio : C unit :=
  '(addr, arg2) ← jit_args;
  let dn := arg2 .& 7 in
  v ← getc (λ c, u8 (dreg c dn .& 0xFF));
  wr8 addr v ;;
  upd (move_ccr (v =? 0) (nz (v .& 0x80))).

Definition m68k_jit_move_l_dn_to_anpi_mmio : C unit :=
  '(_, arg2) ← jit_args;
  let src := arg2 .& 7 in let an := (arg2 ≫ 4) .& 7 in
  let src_is_an := nz ((arg2 ≫ 8) .& 1) in
  v ← getc (λ c, if src_is_an then areg c src else dreg c src);
  addr ← getc (λ c, areg c an);
  wr32 addr v ;;
  upd (set_areg an (addr + 4)) ;;
  upd (move_ccr (v =? 0) (nz (v .& 0x80000000))).

Definition m68k_jit_move_b_imm_to_addr_mmio : C unit :=
  '(addr, arg2) ← jit_args;
  let v := u8 (arg2 .& 0xFF) in
  wr8 addr v ;;
  upd (move_ccr (v =? 0) (nz (v .& 0x80))).

Definition m68k_jit_move_b_addr_to_an_mmio : C unit :=
  '(src_addr, arg2) ← jit_args;
  let dst_an := arg2 .& 7 in
  dst_addr ← getc (λ c, areg c dst_an);
  v ← rd8 src_addr;
  wr8 dst_addr v ;;
  upd (move_ccr (v =? 0) (nz (v .& 0x80))).

Definition m68k_jit_move_b_addr_to_dn_mmio : C unit :=
  '(addr, arg2) ← jit_args;
  let dn := arg2 .& 7 in
  v ← rd8 addr;
  upd (λ c, set_dreg dn ((dreg c dn .& 0xFFFFFF00) .| v) c) ;;
  upd (move_ccr (v =? 0) (nz (v .& 0x80))).

Definition m68k_jit_move_l_postinc_to_dn_mmio : C unit :=
  '(_, arg2) ← jit_args;
  let dn := arg2 .& 7 in let an := (arg2 ≫ 4) .& 7 in
  addr ← getc (λ c, areg c an);
  v ← rd32 addr;
  upd (set_dreg dn v) ;;
  upd (set_areg an (addr + 4)) ;;
  upd (move_ccr (v =? 0) (nz (v .& 0x80000000))).
End helpers.
