(* ===== verification/Rtc.v ===== *)
(** * The real-time clock chip

    [rtc_via_write] and [rtc_data_out] of [core/mac_iwm.c]: the serial state
    machine behind VIA port B, and the protocol a driver speaks to it. *)

From Stdlib Require Import ZArith Lia.
From stdpp Require Import base tactics list numbers.
From S2P Require Import Prelude.

Record mac_rtc := mk_rtc {
  rtc_state : Z;
  rtc_shift : Z;
  rtc_bit_count : Z;
  rtc_cmd : Z;
  rtc_data : bool;  (** data_out *)
  rtc_last_clk : bool;
  rtc_seconds : Z;
  rtc_pram : list Z;  (** pram[256] *)
  rtc_write_pending : bool
}.

Definition set_rtc_state (v : Z) (x : mac_rtc) : mac_rtc :=
  mk_rtc (u8 v) (rtc_shift x) (rtc_bit_count x) (rtc_cmd x) (rtc_data x) (rtc_last_clk x)
    (rtc_seconds x) (rtc_pram x) (rtc_write_pending x).
Definition set_rtc_shift (v : Z) (x : mac_rtc) : mac_rtc :=
  mk_rtc (rtc_state x) (u8 v) (rtc_bit_count x) (rtc_cmd x) (rtc_data x) (rtc_last_clk x)
    (rtc_seconds x) (rtc_pram x) (rtc_write_pending x).
Definition set_rtc_bit_count (v : Z) (x : mac_rtc) : mac_rtc :=
  mk_rtc (rtc_state x) (rtc_shift x) (u8 v) (rtc_cmd x) (rtc_data x) (rtc_last_clk x)
    (rtc_seconds x) (rtc_pram x) (rtc_write_pending x).
Definition set_rtc_cmd (v : Z) (x : mac_rtc) : mac_rtc :=
  mk_rtc (rtc_state x) (rtc_shift x) (rtc_bit_count x) (u8 v) (rtc_data x) (rtc_last_clk
    x) (rtc_seconds x) (rtc_pram x) (rtc_write_pending x).
Definition set_rtc_data (v : bool) (x : mac_rtc) : mac_rtc :=
  mk_rtc (rtc_state x) (rtc_shift x) (rtc_bit_count x) (rtc_cmd x) v (rtc_last_clk x)
    (rtc_seconds x) (rtc_pram x) (rtc_write_pending x).
Definition set_rtc_last_clk (v : bool) (x : mac_rtc) : mac_rtc :=
  mk_rtc (rtc_state x) (rtc_shift x) (rtc_bit_count x) (rtc_cmd x) (rtc_data x) v
    (rtc_seconds x) (rtc_pram x) (rtc_write_pending x).
Definition set_rtc_seconds (v : Z) (x : mac_rtc) : mac_rtc :=
  mk_rtc (rtc_state x) (rtc_shift x) (rtc_bit_count x) (rtc_cmd x) (rtc_data x)
    (rtc_last_clk x) (u32 v) (rtc_pram x) (rtc_write_pending x).
Definition set_rtc_pram (v : list Z) (x : mac_rtc) : mac_rtc :=
  mk_rtc (rtc_state x) (rtc_shift x) (rtc_bit_count x) (rtc_cmd x) (rtc_data x)
    (rtc_last_clk x) (rtc_seconds x) v (rtc_write_pending x).
Definition set_rtc_write_pending (v : bool) (x : mac_rtc) : mac_rtc :=
  mk_rtc (rtc_state x) (rtc_shift x) (rtc_bit_count x) (rtc_cmd x) (rtc_data x)
    (rtc_last_clk x) (rtc_seconds x) (rtc_pram x) v.

Definition rtc_data_out (r : mac_rtc) : bool := rtc_data r.

(** The byte a read command preloads into the shifter. *)
Definition rtc_preload (r : mac_rtc) : Z :=
  match rtc_cmd r .& 0x7F with
  | 0x01 => u8 (rtc_seconds r)
  | 0x05 => u8 (rtc_seconds r ≫ 8)
  | 0x09 => u8 (rtc_seconds r ≫ 16)
  | 0x0D => u8 (rtc_seconds r ≫ 24)
  | _ => znth (rtc_pram r) (rtc_cmd r .& 0x1F)
  end.

(** The three states on a rising clock edge: command, write data, read data. *)
Definition rtc_edge (data : bool) (r : mac_rtc) : mac_rtc :=
  if rtc_state r =? 0 then
    let r := set_rtc_shift (u8 (rtc_shift r ≪ 1) .| b2z data) r in
    let r := set_rtc_bit_count (rtc_bit_count r + 1) r in
    if rtc_bit_count r =? 8 then
      let r := set_rtc_cmd (rtc_shift r) r in
      let r := set_rtc_bit_count 0 r in
      let r := set_rtc_state (if nz (rtc_cmd r .& 0x80) then 2 else 1) r in
      if rtc_state r =? 2 then set_rtc_shift (rtc_preload r) r else r
    else r
  else if rtc_state r =? 1 then
    let r := set_rtc_shift (u8 (rtc_shift r ≪ 1) .| b2z data) r in
    let r := set_rtc_bit_count (rtc_bit_count r + 1) r in
    if rtc_bit_count r =? 8 then
      let r := set_rtc_pram (zset (rtc_pram r) (rtc_cmd r .& 0x1F) (rtc_shift r)) r in
      let r := set_rtc_bit_count 0 r in
      set_rtc_state 0 r
    else r
  else
    let r := set_rtc_data (nz (rtc_shift r .& 0x80)) r in
    let r := set_rtc_shift (u8 (rtc_shift r ≪ 1)) r in
    let r := set_rtc_bit_count (rtc_bit_count r + 1) r in
    if rtc_bit_count r =? 8 then set_rtc_state 0 (set_rtc_bit_count 0 r) else r.

Definition rtc_via_write (pb : Z) (r : mac_rtc) : mac_rtc :=
  let enb := pb .& 0x04 =? 0 in
  let clk := nz (pb .& 0x02) in
  let data := nz (pb .& 0x01) in
  if negb enb then
    set_rtc_last_clk clk (set_rtc_bit_count 0 (set_rtc_state 0 r))
  else
    let rising := clk && negb (rtc_last_clk r) in
    let r := set_rtc_last_clk clk r in
    if negb rising then r else rtc_edge data r.

(** ** Driving the chip *)

(** One bit on the serial lines: clock low, then high, with the chip selected. *)
Definition clock_bit (b : bool) (r : mac_rtc) : mac_rtc :=
  rtc_via_write (2 + b2z b) (rtc_via_write (b2z b) r).

(** Bit [7 - i] first, as the ROM sends them. *)
Definition send_byte (v : Z) (r : mac_rtc) : mac_rtc :=
  fold_left (λ r i, clock_bit (Z.testbit v i) r) [7; 6; 5; 4; 3; 2; 1; 0] r.

(** Deselect (clock low), then select: the start of a transfer. *)
Definition rtc_start (r : mac_rtc) : mac_rtc := rtc_via_write 0x04 r.

(** Clock eight bits out, collecting PB0 after each. *)
Definition recv_byte (r : mac_rtc) : Z * mac_rtc :=
  fold_left (λ '(v, r) _, let r := clock_bit false r in
                          (2 * v + b2z (rtc_data_out r), r)) (seq 0 8) (0, r).

Definition rtc_write_reg (cmd v : Z) (r : mac_rtc) : mac_rtc :=
  send_byte v (send_byte cmd (rtc_start r)).
Definition rtc_read_reg (cmd : Z) (r : mac_rtc) : Z * mac_rtc :=
  recv_byte (send_byte cmd (rtc_start r)).

Record rtc_ok (r : mac_rtc) : Prop := {
  rtc_state_ok : 0 ≤ rtc_state r ≤ 2;
  rtc_count_ok : 0 ≤ rtc_bit_count r < 8;
  rtc_shift_ok : 0 ≤ rtc_shift r < 0x100;
  rtc_cmd_ok : 0 ≤ rtc_cmd r < 0x100;
  rtc_seconds_ok : 0 ≤ rtc_seconds r < 0x100000000;
  rtc_pram_len : length (rtc_pram r) = 256%nat;
  rtc_pram_ok : Forall (λ x, 0 ≤ x < 0x100) (rtc_pram r)
}.

(** ** The serial protocol *)

Definition shift_in (x : Z) (b : bool) : Z := (2 * x + b2z b) mod 0x100.

Lemma u8_shl1_lor x b : u8 (u8 (x ≪ 1) .| b2z b) = shift_in x b.
Proof.
  unfold shift_in, u8. rewrite Z.shiftl_mul_pow2 by lia.
  replace (x * 2 ^ 1) with (2 * x) by lia.
  assert (((2 * x) mod 0x100) .| b2z b = (2 * x) mod 0x100 + b2z b) as ->.
  { destruct b; simpl; [|by rewrite Z.lor_0_r, Z.add_0_r].
    rewrite <- Z.add_lor_land. replace (((2 * x) mod 256) .& 1) with 0; [lia|].
    symmetry. change 1 with (Z.ones 1). rewrite Z.land_ones by lia. Z.div_mod_to_equations. lia. }
  apply Zplus_mod_idemp_l.
Qed.

Lemma clock_bit_edge b r : clock_bit b r = rtc_edge b (set_rtc_last_clk true r).
Proof. unfold clock_bit, rtc_via_write. by destruct b. Qed.

Lemma byte_of_bits v : 0 ≤ v < 0x100 →
  2 * (2 * (2 * (2 * (2 * (2 * (2 * (2 * 0 + b2z (Z.testbit v 7)) + b2z (Z.testbit v 6))
    + b2z (Z.testbit v 5)) + b2z (Z.testbit v 4)) + b2z (Z.testbit v 3))
    + b2z (Z.testbit v 2)) + b2z (Z.testbit v 1)) + b2z (Z.testbit v 0) = v.
Proof.
  intros Hv. apply Z.eqb_eq. revert v Hv.
  apply (all_bits_0 8 (λ v, _ =? v)). vm_compute. reflexivity.
Qed.

Lemma shift_in_mod y b : shift_in (y mod 0x100) b = (2 * y + b2z b) mod 0x100.
Proof. unfold shift_in. by rewrite <- Zplus_mod_idemp_l, Zmult_mod_idemp_r, Zplus_mod_idemp_l. Qed.

(** Evaluate one clock on an explicit chip state. *)
Ltac edge_eval :=
  lazy -[Z.eqb u8 u32 Z.shiftl Z.lor Z.land nz b2z Z.add znth zset rtc_preload shift_in Z.testbit];
  change (u8 (7 + 1)) with 8; change (u8 0) with 0; change (u8 1) with 1; change (u8 2) with 2;
  cbn [Z.eqb Pos.eqb].

Section edges.
Context (c : Z) (d : bool) (sec : Z) (p : list Z) (wp : bool).

(** Seven of the eight clocks of a byte only shift. *)
Lemma clock_shift b s x k lc : s = 0 ∨ s = 1 → 0 ≤ k < 7 →
  clock_bit b (mk_rtc s x k c d lc sec p wp)
  = mk_rtc s (shift_in x b) (k + 1) c d true sec p wp.
Proof.
  intros Hs Hk. rewrite clock_bit_edge.
  destruct Hs as [-> | ->]; edge_eval; rewrite u8_shl1_lor, (u8_small (k + 1)) by lia;
    (destruct (Z.eqb_spec (k + 1) 8); [lia|done]).
Qed.

(** Eight shifts replace the shifter's contents. *)
Lemma shift_in_byte x v : 0 ≤ v < 0x100 →
  shift_in (shift_in (shift_in (shift_in (shift_in (shift_in (shift_in (shift_in x
    (Z.testbit v 7)) (Z.testbit v 6)) (Z.testbit v 5)) (Z.testbit v 4)) (Z.testbit v 3))
    (Z.testbit v 2)) (Z.testbit v 1)) (Z.testbit v 0) = v.
Proof.
  intros Hv. unfold shift_in at 8. rewrite !shift_in_mod.
  rewrite <- (Z.mod_small v 0x100) at 9 by done. rewrite <- (byte_of_bits v Hv) at 9.
  symmetry. apply (Z_mod_plus_full _ x 0x100 ) || idtac. 
  match goal with |- ?l mod _ = ?r mod _ => replace r with (l + x * 0x100) by lia end.
  symmetry. apply Z_mod_plus_full.
Qed.
End edges.

(** The eighth clock of a command, and of a write's data. *)
Lemma clock_command b x c d lc sec p wp :
  clock_bit b (mk_rtc 0 x 7 c d lc sec p wp) =
    let v := shift_in x b in
    let r := mk_rtc 1 v 0 v d true sec p wp in
    if nz (v .& 0x80) then mk_rtc 2 (u8 (rtc_preload r)) 0 v d true sec p wp else r.
Proof.
  assert (Hv : u8 (shift_in x b) = shift_in x b) by (apply u8_small, Z.mod_pos_bound; lia).
  rewrite clock_bit_edge. edge_eval.
  rewrite u8_shl1_lor, Hv.
  by destruct (nz (shift_in x b .& 0x80)).
Qed.

Lemma clock_data b x c d lc sec p wp :
  clock_bit b (mk_rtc 1 x 7 c d lc sec p wp) =
    mk_rtc 0 (shift_in x b) 0 c d true sec (zset p (c .& 0x1F) (shift_in x b)) wp.
Proof.
  rewrite clock_bit_edge. edge_eval.
  by rewrite u8_shl1_lor.
Qed.

Lemma rtc_start_eq s x k c d lc sec p wp :
  rtc_start (mk_rtc s x k c d lc sec p wp) = mk_rtc 0 x 0 c d false sec p wp.
Proof. reflexivity. Qed.

(** The command byte: latched, and the state is 2 (read) or 1 (write). *)
Lemma send_command v x c d lc sec p wp : 0 ≤ v < 0x100 →
  send_byte v (mk_rtc 0 x 0 c d lc sec p wp) =
    let r := mk_rtc 1 v 0 v d true sec p wp in
    if nz (v .& 0x80) then mk_rtc 2 (u8 (rtc_preload r)) 0 v d true sec p wp else r.
Proof.
  intros Hv. unfold send_byte, fold_left.
  do 7 (rewrite clock_shift by (auto || lia)). change (0 + 1 + 1 + 1 + 1 + 1 + 1 + 1) with 7.
  by rewrite clock_command, shift_in_byte.
Qed.

(** The data byte of a write goes to PRAM. *)
Lemma clock_in_data v x c d lc sec p wp : 0 ≤ v < 0x100 →
  send_byte v (mk_rtc 1 x 0 c d lc sec p wp) =
    mk_rtc 0 v 0 c d true sec (zset p (c .& 0x1F) v) wp.
Proof.
  intros Hv. unfold send_byte, fold_left.
  do 7 (rewrite clock_shift by (auto || lia)). change (0 + 1 + 1 + 1 + 1 + 1 + 1 + 1) with 7.
  by rewrite clock_data, shift_in_byte.
Qed.

Lemma testbit_shl1 x i : 1 ≤ i < 8 → Z.testbit (u8 (x ≪ 1)) i = Z.testbit x (i - 1).
Proof.
  intros Hi. unfold u8. change 0x100 with (2 ^ 8).
  by rewrite Z.mod_pow2_bits_low, Z.shiftl_spec by lia.
Qed.

Lemma clock_read x k c d lc sec p wp : 0 ≤ k < 7 →
  clock_bit false (mk_rtc 2 x k c d lc sec p wp)
  = mk_rtc 2 (u8 (x ≪ 1)) (k + 1) c (Z.testbit x 7) true sec p wp.
Proof.
  intros Hk. rewrite clock_bit_edge. edge_eval.
  rewrite (u8_small (k + 1)) by lia. destruct (Z.eqb_spec (k + 1) 8); [lia|].
  change 0x80 with (2 ^ 7). rewrite nz_land_pow2 by lia. f_equal.
  apply u8_small, u8_range.
Qed.

Lemma clock_read_last x c d lc sec p wp :
  clock_bit false (mk_rtc 2 x 7 c d lc sec p wp)
  = mk_rtc 0 (u8 (x ≪ 1)) 0 c (Z.testbit x 7) true sec p wp.
Proof.
  rewrite clock_bit_edge. edge_eval.
  change 0x80 with (2 ^ 7). rewrite nz_land_pow2 by lia. f_equal.
  apply u8_small, u8_range.
Qed.


(** A read clocks the preloaded byte out, most significant bit first. *)
Lemma recv_data v c d lc sec p wp : 0 ≤ v < 0x100 →
  ∃ x' d', recv_byte (mk_rtc 2 v 0 c d lc sec p wp)
           = (v, mk_rtc 0 x' 0 c d' true sec p wp).
Proof.
  intros Hv. unfold recv_byte. cbn [seq fold_left].
  do 7 (rewrite clock_read by lia). change (0 + 1 + 1 + 1 + 1 + 1 + 1 + 1) with 7. rewrite clock_read_last.
  unfold rtc_data_out. cbn [rtc_data].
  do 2 eexists. apply f_equal2; [|reflexivity].
  rewrite !testbit_shl1 by lia. exact (byte_of_bits v Hv).
Qed.

Lemma rtc_explicit r : r = mk_rtc (rtc_state r) (rtc_shift r) (rtc_bit_count r) (rtc_cmd r)
  (rtc_data r) (rtc_last_clk r) (rtc_seconds r) (rtc_pram r) (rtc_write_pending r).
Proof. by destruct r. Qed.

(** The PRAM address a command selects, and the clock commands. *)
Definition is_clock (cmd : Z) : bool :=
  let c := cmd .& 0x7F in (c =? 0x01) || (c =? 0x05) || (c =? 0x09) || (c =? 0x0D).

Lemma preload_range r : rtc_ok r → 0 ≤ rtc_preload r < 0x100.
Proof.
  intros []. unfold rtc_preload. repeat case_match; try apply u8_range;
    apply (znth_Forall (λ x, 0 ≤ x < 0x100)); done || lia.
Qed.

Lemma preload_pram r : is_clock (rtc_cmd r) = false →
  rtc_preload r = znth (rtc_pram r) (rtc_cmd r .& 0x1F).
Proof.
  unfold is_clock, rtc_preload. intros H. apply orb_false_iff in H as [H H4].
  apply orb_false_iff in H as [H H3]. apply orb_false_iff in H as [H1 H2].
  repeat case_match; done.
Qed.


(** C10.  The parameter RAM holds what was written: after a driver writes [v]
    with command [w], reading with the same address returns [v], every other
    cell is unchanged, and the seconds register is untouched. *)
Theorem rtc_roundtrip r w v :
  rtc_ok r → 0 ≤ w < 0x80 → 0 ≤ v < 0x100 → is_clock w = false →
  let '(v', r') := rtc_read_reg (0x80 + w) (rtc_write_reg w v r) in
  v' = v ∧ rtc_seconds r' = rtc_seconds r ∧
  ∀ i, 0 ≤ i < 256 → i ≠ w .& 0x1F → znth (rtc_pram r') i = znth (rtc_pram r) i.
Proof.
  intros [] Hw Hv Hc. rewrite (rtc_explicit r). unfold rtc_read_reg, rtc_write_reg.
  rewrite rtc_start_eq, send_command by lia.
  assert (w .& 0x80 = 0) as Hw80.
  { zbits i. destruct (Z_lt_dec i 7).
    - change 0x80 with (2 ^ 7). rewrite Z.pow2_bits_false by lia. apply andb_false_r.
    - rewrite (testbit_high 7 w) by lia. done. }
  rewrite Hw80. change (nz 0) with false. cbv iota zeta.
  rewrite clock_in_data, rtc_start_eq, send_command by lia.
  assert (0x80 + w = 0x80 .| w) as Ew.
  { rewrite <- Z.add_lor_land, (Z.land_comm 0x80), Hw80. lia. }
  assert (nz ((0x80 + w) .& 0x80) = true) as ->.
  { rewrite Ew. change 0x80 with (2 ^ 7). rewrite nz_land_pow2 by lia.
    by rewrite Z.lor_spec, Z.pow2_bits_true. }
  assert (Ha : ∀ m, m = 0x7F ∨ m = 0x1F → (0x80 + w) .& m = w .& m).
  { intros m Hm. rewrite Ew, Z.land_lor_distr_l. by destruct Hm as [-> | ->]. }
  assert (0 ≤ w .& 0x1F < 32) as Hi by (apply land_range_r; lia).
  cbv iota zeta. rewrite preload_pram by (unfold is_clock in *; simpl; rewrite Ha by auto; done).
  cbn [rtc_pram rtc_cmd]. rewrite Ha by auto.
  rewrite znth_zset_eq by (rewrite rtc_pram_len0; lia).
  rewrite (u8_small v) by lia.
  match goal with |- context [recv_byte (mk_rtc 2 v 0 ?c ?d ?l ?s ?p ?wp)] =>
    destruct (recv_data v c d l s p wp Hv) as (x' & d' & ->) end.
  split; [done|]. split; [done|]. simpl. intros i Hi' Hne. by rewrite znth_zset_ne by lia.
Qed.

(** Every port write keeps the chip's state in range. *)
Lemma rtc_edge_ok b r : rtc_ok r → rtc_ok (rtc_edge b r).
Proof.
  intros Hr. pose proof (preload_range r Hr) as Hp. destruct Hr, r. simpl in *.
  edge_eval. rewrite !u8_shl1_lor.
  assert (∀ x b, 0 ≤ shift_in x b < 0x100) as Hs by (intros; apply Z.mod_pos_bound; lia).
  assert (∀ z, (u8 z =? 8) = false → 0 ≤ z ≤ 8 → 0 ≤ u8 z < 8) as Hc.
  { intros z Hz Hr. rewrite u8_small in * by lia. lia. }
  repeat case_match; split; cbn; try apply u8_range; try done; try apply Hs; try lia;
    try (apply Hc; [done|lia]); try (by rewrite zset_length);
    try (apply (zset_Forall (λ x, 0 ≤ x < 0x100)); [apply Hs|done]).
Qed.

Lemma via_write_rtc_ok pb r : rtc_ok r → rtc_ok (rtc_via_write pb r).
Proof.
  intros Hr. unfold rtc_via_write. destruct (negb _); [destruct Hr; by split; simpl|].
  assert (rtc_ok (set_rtc_last_clk (nz (pb .& 2)) r)) by (destruct Hr; by split).
  destruct (negb _); [done|]. by apply rtc_edge_ok.
Qed.

(** C11.  Whatever sequence of port-B writes the guest makes, the serial state
    machine stays in its three states with fewer than eight bits shifted and a
    256-byte PRAM of bytes. *)
Theorem rtc_write_ok pbs r : rtc_ok r → rtc_ok (fold_left (λ r pb, rtc_via_write pb r) pbs r).
Proof.
  revert r. induction pbs as [|pb pbs IH]; intros r Hr; simpl; [done|].
  apply IH. by apply via_write_rtc_ok.
Qed.

(** C12.  The four clock registers read as the bytes of the seconds counter. *)
Theorem rtc_clock_read r k : 0 ≤ k < 4 →
  let '(v, r') := rtc_read_reg (0x81 + 4 * k) r in
  v = (rtc_seconds r / 2 ^ (8 * k)) mod 0x100 ∧ rtc_seconds r' = rtc_seconds r ∧
  rtc_pram r' = rtc_pram r.
Proof.
  intros Hk. destruct r as [s x n c d lc sec p wp]. unfold rtc_read_reg. rewrite rtc_start_eq.
  rewrite send_command by lia.
  assert (k = 0 ∨ k = 1 ∨ k = 2 ∨ k = 3) as [-> | [-> | [-> | ->]]] by lia;
  (match goal with |- context [nz (?a .& 0x80)] => change (nz (a .& 0x80)) with true end);
  cbv iota zeta;
  (match goal with |- context [recv_byte (mk_rtc 2 ?v 0 ?c ?d ?l ?s ?p ?wp)] =>
    destruct (recv_data v c d l s p wp (u8_range _)) as (x' & d' & ->) end);
  (split; [|by split]);
  unfold rtc_preload; cbn [rtc_cmd rtc_seconds]; unfold u8;
  (rewrite <- Z.shiftr_div_pow2 by lia).
  - exact (Z.mod_mod sec 0x100 ltac:(lia)).
  - exact (Z.mod_mod (sec ≫ 8) 0x100 ltac:(lia)).
  - exact (Z.mod_mod (sec ≫ 16) 0x100 ltac:(lia)).
  - exact (Z.mod_mod (sec ≫ 24) 0x100 ltac:(lia)).
Qed.

(** ** Witnesses *)

Definition rtc_example : mac_rtc :=
  mk_rtc 0 0 0 0 false false 0xB0000000 (replicate 256 0) false.

Lemma rtc_example_ok : rtc_ok rtc_example.
Proof. split; vm_compute; try (split; congruence); try done. repeat constructor; done. Qed.

Lemma rtc_roundtrip_witness :
  (rtc_read_reg 0x93 (rtc_write_reg 0x13 0xA5 rtc_example)).1 = 0xA5.
Proof.
  pose proof (rtc_roundtrip rtc_example 0x13 0xA5 rtc_example_ok) as H.
  specialize (H ltac:(lia) ltac:(lia) eq_refl). change (0x80 + 0x13) with 0x93 in H.
  destruct (rtc_read_reg 0x93 (rtc_write_reg 0x13 0xA5 rtc_example)) as [v r]. exact (proj1 H).
Defined.

Lemma rtc_write_ok_witness : rtc_ok (fold_left (λ r pb, rtc_via_write pb r) [4; 0; 3; 1; 7] rtc_example).
Proof. exact (rtc_write_ok [4; 0; 3; 1; 7] rtc_example rtc_example_ok). Defined.

Lemma rtc_clock_read_witness : (rtc_read_reg 0x8D rtc_example).1 = 0xB0.
Proof.
  pose proof (rtc_clock_read rtc_example 3 ltac:(lia)) as H.
  change (0x81 + 4 * 3) with 0x8D in H.
  destruct (rtc_read_reg 0x8D rtc_example) as [v r]. rewrite (proj1 H). reflexivity.
Defined.
