(* ===== verification/Iwm.v ===== *)
(** * The IWM floppy controller

    [core/mac_iwm.c] without the clock chip: the drive's control lines and
    sense bits, the four registers, and the synthesis of the GCR nibble stream
    of a track from a logical-sector image. *)

From Stdlib Require Import ZArith Lia.
From stdpp Require Import base tactics list numbers.
From S2P Require Import Prelude.

Record mac_iwm := mk_iwm {
  iwm_lines : Z;  (** ca0/ca1/ca2/lstrb/motor/drive bits *)
  iwm_q6 : Z;
  iwm_q7 : Z;
  iwm_mode : Z;
  iwm_motor_on : bool;
  iwm_drive : Z;
  iwm_sel : Z;
  iwm_step_dir : Z;
  iwm_cur_track : Z;  (** 0..79 *)
  iwm_tach : Z;
  iwm_disk : option (list Z);  (** NULL is None *)
  iwm_disk_size : Z;
  iwm_disk_present : bool;
  iwm_disk_wprot : bool;
  iwm_trackbuf : list Z;  (** trackbuf[16384] *)
  iwm_track_len : Z;
  iwm_track : Z;
  iwm_side : Z;
  iwm_nib_pos : Z;
  iwm_dbg_data_reads : Z
}.

Definition set_iwm_lines (v : Z) (x : mac_iwm) : mac_iwm :=
  mk_iwm (u8 v) (iwm_q6 x) (iwm_q7 x) (iwm_mode x) (iwm_motor_on x) (iwm_drive x) (iwm_sel
    x) (iwm_step_dir x) (iwm_cur_track x) (iwm_tach x) (iwm_disk x) (iwm_disk_size x)
    (iwm_disk_present x) (iwm_disk_wprot x) (iwm_trackbuf x) (iwm_track_len x) (iwm_track
    x) (iwm_side x) (iwm_nib_pos x) (iwm_dbg_data_reads x).
Definition set_iwm_q6 (v : Z) (x : mac_iwm) : mac_iwm :=
  mk_iwm (iwm_lines x) (u8 v) (iwm_q7 x) (iwm_mode x) (iwm_motor_on x) (iwm_drive x)
    (iwm_sel x) (iwm_step_dir x) (iwm_cur_track x) (iwm_tach x) (iwm_disk x)
    (iwm_disk_size x) (iwm_disk_present x) (iwm_disk_wprot x) (iwm_trackbuf x)
    (iwm_track_len x) (iwm_track x) (iwm_side x) (iwm_nib_pos x) (iwm_dbg_data_reads x).
Definition set_iwm_q7 (v : Z) (x : mac_iwm) : mac_iwm :=
  mk_iwm (iwm_lines x) (iwm_q6 x) (u8 v) (iwm_mode x) (iwm_motor_on x) (iwm_drive x)
    (iwm_sel x) (iwm_step_dir x) (iwm_cur_track x) (iwm_tach x) (iwm_disk x)
    (iwm_disk_size x) (iwm_disk_present x) (iwm_disk_wprot x) (iwm_trackbuf x)
    (iwm_track_len x) (iwm_track x) (iwm_side x) (iwm_nib_pos x) (iwm_dbg_data_reads x).
Definition set_iwm_mode (v : Z) (x : mac_iwm) : mac_iwm :=
  mk_iwm (iwm_lines x) (iwm_q6 x) (iwm_q7 x) (u8 v) (iwm_motor_on x) (iwm_drive x)
    (iwm_sel x) (iwm_step_dir x) (iwm_cur_track x) (iwm_tach x) (iwm_disk x)
    (iwm_disk_size x) (iwm_disk_present x) (iwm_disk_wprot x) (iwm_trackbuf x)
    (iwm_track_len x) (iwm_track x) (iwm_side x) (iwm_nib_pos x) (iwm_dbg_data_reads x).
Definition set_iwm_motor_on (v : bool) (x : mac_iwm) : mac_iwm :=
  mk_iwm (iwm_lines x) (iwm_q6 x) (iwm_q7 x) (iwm_mode x) v (iwm_drive x) (iwm_sel x)
    (iwm_step_dir x) (iwm_cur_track x) (iwm_tach x) (iwm_disk x) (iwm_disk_size x)
    (iwm_disk_present x) (iwm_disk_wprot x) (iwm_trackbuf x) (iwm_track_len x) (iwm_track
    x) (iwm_side x) (iwm_nib_pos x) (iwm_dbg_data_reads x).
Definition set_iwm_drive (v : Z) (x : mac_iwm) : mac_iwm :=
  mk_iwm (iwm_lines x) (iwm_q6 x) (iwm_q7 x) (iwm_mode x) (iwm_motor_on x) v (iwm_sel x)
    (iwm_step_dir x) (iwm_cur_track x) (iwm_tach x) (iwm_disk x) (iwm_disk_size x)
    (iwm_disk_present x) (iwm_disk_wprot x) (iwm_trackbuf x) (iwm_track_len x) (iwm_track
    x) (iwm_side x) (iwm_nib_pos x) (iwm_dbg_data_reads x).
Definition set_iwm_sel (v : Z) (x : mac_iwm) : mac_iwm :=
  mk_iwm (iwm_lines x) (iwm_q6 x) (iwm_q7 x) (iwm_mode x) (iwm_motor_on x) (iwm_drive x)
    (u8 v) (iwm_step_dir x) (iwm_cur_track x) (iwm_tach x) (iwm_disk x) (iwm_disk_size x)
    (iwm_disk_present x) (iwm_disk_wprot x) (iwm_trackbuf x) (iwm_track_len x) (iwm_track
    x) (iwm_side x) (iwm_nib_pos x) (iwm_dbg_data_reads x).
Definition set_iwm_step_dir (v : Z) (x : mac_iwm) : mac_iwm :=
  mk_iwm (iwm_lines x) (iwm_q6 x) (iwm_q7 x) (iwm_mode x) (iwm_motor_on x) (iwm_drive x)
    (iwm_sel x) v (iwm_cur_track x) (iwm_tach x) (iwm_disk x) (iwm_disk_size x)
    (iwm_disk_present x) (iwm_disk_wprot x) (iwm_trackbuf x) (iwm_track_len x) (iwm_track
    x) (iwm_side x) (iwm_nib_pos x) (iwm_dbg_data_reads x).
Definition set_iwm_cur_track (v : Z) (x : mac_iwm) : mac_iwm :=
  mk_iwm (iwm_lines x) (iwm_q6 x) (iwm_q7 x) (iwm_mode x) (iwm_motor_on x) (iwm_drive x)
    (iwm_sel x) (iwm_step_dir x) v (iwm_tach x) (iwm_disk x) (iwm_disk_size x)
    (iwm_disk_present x) (iwm_disk_wprot x) (iwm_trackbuf x) (iwm_track_len x) (iwm_track
    x) (iwm_side x) (iwm_nib_pos x) (iwm_dbg_data_reads x).
Definition set_iwm_tach (v : Z) (x : mac_iwm) : mac_iwm :=
  mk_iwm (iwm_lines x) (iwm_q6 x) (iwm_q7 x) (iwm_mode x) (iwm_motor_on x) (iwm_drive x)
    (iwm_sel x) (iwm_step_dir x) (iwm_cur_track x) (u8 v) (iwm_disk x) (iwm_disk_size x)
    (iwm_disk_present x) (iwm_disk_wprot x) (iwm_trackbuf x) (iwm_track_len x) (iwm_track
    x) (iwm_side x) (iwm_nib_pos x) (iwm_dbg_data_reads x).
Definition set_iwm_disk (v : option (list Z)) (x : mac_iwm) : mac_iwm :=
  mk_iwm (iwm_lines x) (iwm_q6 x) (iwm_q7 x) (iwm_mode x) (iwm_motor_on x) (iwm_drive x)
    (iwm_sel x) (iwm_step_dir x) (iwm_cur_track x) (iwm_tach x) v (iwm_disk_size x)
    (iwm_disk_present x) (iwm_disk_wprot x) (iwm_trackbuf x) (iwm_track_len x) (iwm_track
    x) (iwm_side x) (iwm_nib_pos x) (iwm_dbg_data_reads x).
Definition set_iwm_disk_size (v : Z) (x : mac_iwm) : mac_iwm :=
  mk_iwm (iwm_lines x) (iwm_q6 x) (iwm_q7 x) (iwm_mode x) (iwm_motor_on x) (iwm_drive x)
    (iwm_sel x) (iwm_step_dir x) (iwm_cur_track x) (iwm_tach x) (iwm_disk x) (u32 v)
    (iwm_disk_present x) (iwm_disk_wprot x) (iwm_trackbuf x) (iwm_track_len x) (iwm_track
    x) (iwm_side x) (iwm_nib_pos x) (iwm_dbg_data_reads x).
Definition set_iwm_disk_present (v : bool) (x : mac_iwm) : mac_iwm :=
  mk_iwm (iwm_lines x) (iwm_q6 x) (iwm_q7 x) (iwm_mode x) (iwm_motor_on x) (iwm_drive x)
    (iwm_sel x) (iwm_step_dir x) (iwm_cur_track x) (iwm_tach x) (iwm_disk x)
    (iwm_disk_size x) v (iwm_disk_wprot x) (iwm_trackbuf x) (iwm_track_len x) (iwm_track
    x) (iwm_side x) (iwm_nib_pos x) (iwm_dbg_data_reads x).
Definition set_iwm_disk_wprot (v : bool) (x : mac_iwm) : mac_iwm :=
  mk_iwm (iwm_lines x) (iwm_q6 x) (iwm_q7 x) (iwm_mode x) (iwm_motor_on x) (iwm_drive x)
    (iwm_sel x) (iwm_step_dir x) (iwm_cur_track x) (iwm_tach x) (iwm_disk x)
    (iwm_disk_size x) (iwm_disk_present x) v (iwm_trackbuf x) (iwm_track_len x) (iwm_track
    x) (iwm_side x) (iwm_nib_pos x) (iwm_dbg_data_reads x).
Definition set_iwm_trackbuf (v : list Z) (x : mac_iwm) : mac_iwm :=
  mk_iwm (iwm_lines x) (iwm_q6 x) (iwm_q7 x) (iwm_mode x) (iwm_motor_on x) (iwm_drive x)
    (iwm_sel x) (iwm_step_dir x) (iwm_cur_track x) (iwm_tach x) (iwm_disk x)
    (iwm_disk_size x) (iwm_disk_present x) (iwm_disk_wprot x) v (iwm_track_len x)
    (iwm_track x) (iwm_side x) (iwm_nib_pos x) (iwm_dbg_data_reads x).
Definition set_iwm_track_len (v : Z) (x : mac_iwm) : mac_iwm :=
  mk_iwm (iwm_lines x) (iwm_q6 x) (iwm_q7 x) (iwm_mode x) (iwm_motor_on x) (iwm_drive x)
    (iwm_sel x) (iwm_step_dir x) (iwm_cur_track x) (iwm_tach x) (iwm_disk x)
    (iwm_disk_size x) (iwm_disk_present x) (iwm_disk_wprot x) (iwm_trackbuf x) (u32 v)
    (iwm_track x) (iwm_side x) (iwm_nib_pos x) (iwm_dbg_data_reads x).
Definition set_iwm_track (v : Z) (x : mac_iwm) : mac_iwm :=
  mk_iwm (iwm_lines x) (iwm_q6 x) (iwm_q7 x) (iwm_mode x) (iwm_motor_on x) (iwm_drive x)
    (iwm_sel x) (iwm_step_dir x) (iwm_cur_track x) (iwm_tach x) (iwm_disk x)
    (iwm_disk_size x) (iwm_disk_present x) (iwm_disk_wprot x) (iwm_trackbuf x)
    (iwm_track_len x) v (iwm_side x) (iwm_nib_pos x) (iwm_dbg_data_reads x).
Definition set_iwm_side (v : Z) (x : mac_iwm) : mac_iwm :=
  mk_iwm (iwm_lines x) (iwm_q6 x) (iwm_q7 x) (iwm_mode x) (iwm_motor_on x) (iwm_drive x)
    (iwm_sel x) (iwm_step_dir x) (iwm_cur_track x) (iwm_tach x) (iwm_disk x)
    (iwm_disk_size x) (iwm_disk_present x) (iwm_disk_wprot x) (iwm_trackbuf x)
    (iwm_track_len x) (iwm_track x) v (iwm_nib_pos x) (iwm_dbg_data_reads x).
Definition set_iwm_nib_pos (v : Z) (x : mac_iwm) : mac_iwm :=
  mk_iwm (iwm_lines x) (iwm_q6 x) (iwm_q7 x) (iwm_mode x) (iwm_motor_on x) (iwm_drive x)
    (iwm_sel x) (iwm_step_dir x) (iwm_cur_track x) (iwm_tach x) (iwm_disk x)
    (iwm_disk_size x) (iwm_disk_present x) (iwm_disk_wprot x) (iwm_trackbuf x)
    (iwm_track_len x) (iwm_track x) (iwm_side x) (u32 v) (iwm_dbg_data_reads x).
Definition set_iwm_dbg_data_reads (v : Z) (x : mac_iwm) : mac_iwm :=
  mk_iwm (iwm_lines x) (iwm_q6 x) (iwm_q7 x) (iwm_mode x) (iwm_motor_on x) (iwm_drive x)
    (iwm_sel x) (iwm_step_dir x) (iwm_cur_track x) (iwm_tach x) (iwm_disk x)
    (iwm_disk_size x) (iwm_disk_present x) (iwm_disk_wprot x) (iwm_trackbuf x)
    (iwm_track_len x) (iwm_track x) (iwm_side x) (iwm_nib_pos x) (u64 v).

(** ** GCR 6-and-2 encoding *)

Definition gcr6 : list Z := [
  0x96;0x97;0x9A;0x9B;0x9D;0x9E;0x9F;0xA6;0xA7;0xAB;0xAC;0xAD;0xAE;0xAF;0xB2;0xB3;
  0xB4;0xB5;0xB6;0xB7;0xB9;0xBA;0xBB;0xBC;0xBD;0xBE;0xBF;0xCB;0xCD;0xCE;0xCF;0xD3;
  0xD6;0xD7;0xD9;0xDA;0xDB;0xDC;0xDD;0xDE;0xDF;0xE5;0xE6;0xE7;0xE9;0xEA;0xEB;0xEC;
  0xED;0xEE;0xEF;0xF2;0xF3;0xF4;0xF5;0xF6;0xF7;0xF9;0xFA;0xFB;0xFC;0xFD;0xFE;0xFF].

(** [gcr6[v & 0x3F]] *)
Definition nibble (v : Z) : Z := znth gcr6 (v .& 0x3F).

Definition sectors_in_track (track : Z) : Z :=
  if track <? 16 then 12
  else if track <? 32 then 11
  else if track <? 48 then 10
  else if track <? 64 then 9
  else 8.

Definition logical_block (track side sector : Z) : Z :=
  let blk := fold_left (λ blk t, blk + sectors_in_track t * 2) (upto (Z.to_nat track)) 0 in
  let blk := blk + side * sectors_in_track track in
  blk + sector.

(** The running checksums of [gcr_encode_data]. *)
Record gcr_sums := mk_sums { gcr_a : Z; gcr_b : Z; gcr_c : Z }.

(** Start of a group: rotate C left, its top bit is the carry. *)
Definition gcr_rotate (s : gcr_sums) : Z * Z :=
  let carry := (gcr_c s ≫ 7) .& 1 in
  (carry, u32 (u32 (gcr_c s ≪ 1) .| carry) .& 0xFF).

(** [acc += v + carry; carry = (acc > 0xFF); acc &= 0xFF] *)
Definition gcr_add (acc v carry : Z) : Z * Z :=
  let acc := u32 (acc + u32 (v + carry)) in
  (acc .& 0xFF, b2z (0xFF <? acc)).

(** The symbol carrying the spilled high bit-pairs of a group. *)
Definition gcr_twos (w1 w2 w3 : Z) : Z :=
  u8 ((((w1 ≫ 6) .& 3) ≪ 4) .| (((w2 ≫ 6) .& 3) ≪ 2) .| ((w3 ≫ 6) .& 3)).

(** The first two bytes of a group: the whitened bytes, the sums and the carry. *)
Definition gcr_pair (v1 v2 : Z) (s : gcr_sums) : Z * Z * gcr_sums * Z :=
  let '(carry, c) := gcr_rotate s in
  let '(a, carry) := gcr_add (gcr_a s) v1 carry in
  let w1 := u8 (v1 .^ c) in
  let '(b, carry) := gcr_add (gcr_b s) v2 carry in
  let w2 := u8 (v2 .^ a) in
  (w1, w2, mk_sums a b c, carry).

(** The loop: groups of three bytes, the last one of two. *)
Fixpoint gcr_groups (src : list Z) (s : gcr_sums) : list Z * gcr_sums :=
  match src with
  | v1 :: v2 :: v3 :: rest =>
      let '(w1, w2, s, carry) := gcr_pair v1 v2 s in
      let c := u32 (gcr_c s + u32 (v3 + carry)) .& 0xFF in
      let w3 := u8 (v3 .^ gcr_b s) in
      let '(out, s) := gcr_groups rest (mk_sums (gcr_a s) (gcr_b s) c) in
      (nibble (gcr_twos w1 w2 w3) :: nibble w1 :: nibble w2 :: nibble w3 :: out, s)
  | v1 :: v2 :: [] =>
      let '(w1, w2, s, _) := gcr_pair v1 v2 s in
      ([nibble (gcr_twos w1 w2 0); nibble w1; nibble w2], s)
  | _ => ([], s)
  end.

Definition gcr_encode_data (src : list Z) : list Z :=
  let '(out, s) := gcr_groups src (mk_sums 0 0 0) in
  let '(_, c) := gcr_rotate s in
  let a := gcr_a s in let b := gcr_b s in
  let w4 := u8 (((a .& 0xC0) ≫ 2) .| ((b .& 0xC0) ≫ 4) .| ((c .& 0xC0) ≫ 6)) in
  out ++ [nibble w4; nibble a; nibble b; nibble c].

(** ** Track synthesis *)

(** The 512 data bytes of a block: from the image if it is all inside it. *)
Definition block_data (iwm : mac_iwm) (blk : Z) : list Z :=
  match iwm_disk iwm with
  | Some disk =>
      if u32 ((blk + 1) * 512) <=? iwm_disk_size iwm
      then take 512 (drop (Z.to_nat (blk * 512)) disk)
      else replicate 512 0
  | None => replicate 512 0
  end.

Definition sector_stream (iwm : mac_iwm) (track side s : Z) : list Z :=
  let fmt := 0x22 in
  let tk := u8 (track .& 0x3F) in
  let sd := u8 ((if nz side then 0x20 else 0) .| ((track ≫ 6) .& 1)) in
  let ck := u8 (tk .^ s .^ sd .^ fmt) in
  replicate 36 0xFF ++ [0xD5; 0xAA; 0x96]
  ++ [nibble tk; nibble s; nibble sd; nibble fmt; nibble ck]
  ++ [0xDE; 0xAA; 0xFF] ++ replicate 6 0xFF ++ [0xD5; 0xAA; 0xAD] ++ [nibble s]
  ++ gcr_encode_data (replicate 12 0 ++ block_data iwm (logical_block track side s))
  ++ [0xDE; 0xAA; 0xFF].

Definition track_stream (iwm : mac_iwm) (track side : Z) : list Z :=
  s ← upto (Z.to_nat (sectors_in_track track));
  sector_stream iwm track side s.

Definition build_track (track side : Z) (iwm : mac_iwm) : mac_iwm :=
  let t := track_stream iwm track side in
  let o := Z.of_nat (length t) in
  let iwm := set_iwm_trackbuf (t ++ drop (length t) (iwm_trackbuf iwm)) iwm in
  let iwm := set_iwm_track_len o iwm in
  let iwm := set_iwm_track track iwm in
  let iwm := set_iwm_side side iwm in
  set_iwm_nib_pos 0 iwm.

(** ** Control *)

Definition iwm_init : mac_iwm :=
  mk_iwm 0 0 0 0 false 0 0 0 0 0 None 0 false false (replicate (Z.to_nat 16384) 0) 0 0 0 0 0.

Definition iwm_insert (img : list Z) (len : Z) (wprot : bool) (iwm : mac_iwm) : mac_iwm :=
  let iwm := set_iwm_disk (Some (take (Z.to_nat len) img)) iwm in
  let iwm := set_iwm_disk_size len iwm in
  let iwm := set_iwm_disk_present true iwm in
  let iwm := set_iwm_disk_wprot wprot iwm in
  set_iwm_track (-1) iwm.

Definition iwm_sense (iwm : mac_iwm) : Z * mac_iwm :=
  let l := iwm_lines iwm in
  let reg := (l .& 1) .| (((l ≫ 1) .& 1) ≪ 1) .| (((l ≫ 2) .& 1) ≪ 2)
             .| (if nz (iwm_sel iwm) then 8 else 0) in
  let absent := if iwm_disk_present iwm then 0 else 1 in
  match reg with
  | 0x0 => (iwm_step_dir iwm, iwm)
  | 0x1 => (absent, iwm)
  | 0x2 => (1, iwm)
  | 0x3 => (if iwm_disk_wprot iwm then 0 else 1, iwm)
  | 0x4 => (if iwm_motor_on iwm then 0 else 1, iwm)
  | 0x5 => (if iwm_cur_track iwm =? 0 then 0 else 1, iwm)
  | 0x6 => (0, iwm)
  | 0x7 => let iwm := set_iwm_tach (iwm_tach iwm .^ 1) iwm in (iwm_tach iwm, iwm)
  | 0x8 => (0, iwm)
  | 0x9 => (0, iwm)
  | 0xB => (1, iwm)
  | 0xC => (0, iwm)
  | 0xD => (absent, iwm)
  | 0xF => (1, iwm)
  | _ => (0, iwm)
  end.

Definition iwm_set_line (line val : Z) (iwm : mac_iwm) : mac_iwm :=
  let bit := u8 (1 ≪ line) in
  let old := iwm_lines iwm in
  let iwm := set_iwm_lines (if nz val then iwm_lines iwm .| bit
                            else iwm_lines iwm .& u8 (Z.lnot bit)) iwm in
  match line with
  | 4 => set_iwm_motor_on (nz val) iwm
  | 5 => set_iwm_drive val iwm
  | 3 =>
      if nz val && negb (nz (old .& 8)) then
        let l := iwm_lines iwm in
        let cmd := (l .& 1) .| (((l ≫ 1) .& 1) ≪ 1) .| (((l ≫ 2) .& 1) ≪ 2) in
        if cmd =? 1 then
          let t := iwm_cur_track iwm in
          let iwm := if nz (iwm_step_dir iwm)
                     then (if 0 <? t then set_iwm_cur_track (t - 1) iwm else iwm)
                     else (if t <? 79 then set_iwm_cur_track (t + 1) iwm else iwm) in
          set_iwm_track (-1) iwm
        else if cmd =? 0 then
          set_iwm_step_dir (if nz (iwm_lines iwm .& 2) then 1 else 0) iwm
        else iwm
      else iwm
  | _ => iwm
  end.

(** The line selected by the address, applied before either access. *)
Definition iwm_access (addr : Z) (iwm : mac_iwm) : mac_iwm :=
  let n := (addr ≫ 9) .& 0xF in
  let line := n ≫ 1 in let val := n .& 1 in
  if line =? 6 then set_iwm_q6 val iwm
  else if line =? 7 then set_iwm_q7 val iwm
  else iwm_set_line line val iwm.

(** The data register: the next nibble under the head. *)
Definition iwm_read_data (iwm : mac_iwm) : Z * mac_iwm :=
  if negb (iwm_motor_on iwm) || negb (iwm_disk_present iwm) then (0, iwm) else
  let iwm := if negb (iwm_track iwm =? iwm_cur_track iwm) || negb (iwm_side iwm =? iwm_drive iwm)
             then build_track (iwm_cur_track iwm) (iwm_drive iwm) iwm else iwm in
  if iwm_track_len iwm =? 0 then (0, iwm) else
  let b := znth (iwm_trackbuf iwm) (iwm_nib_pos iwm) in
  let iwm := set_iwm_nib_pos (u32 (iwm_nib_pos iwm + 1) mod iwm_track_len iwm) iwm in
  let iwm := set_iwm_dbg_data_reads (iwm_dbg_data_reads iwm + 1) iwm in
  (b, iwm).

Definition iwm_read (addr : Z) (iwm : mac_iwm) : Z * mac_iwm :=
  let iwm := iwm_access addr iwm in
  let q6 := iwm_q6 iwm in let q7 := iwm_q7 iwm in
  if (q7 =? 0) && (q6 =? 0) then iwm_read_data iwm
  else if (q7 =? 0) && (q6 =? 1) then
    let st := iwm_mode iwm .& 0x1F in
    let st := if iwm_motor_on iwm then st .| 0x20 else st in
    let '(sense, iwm) := iwm_sense iwm in
    (if nz sense then st .| 0x80 else st, iwm)
  else if (q7 =? 1) && (q6 =? 0) then (0x80, iwm)
  else (0, iwm).

Definition iwm_write (addr val : Z) (iwm : mac_iwm) : mac_iwm :=
  let iwm := iwm_access addr iwm in
  if nz (iwm_q6 iwm) && nz (iwm_q7 iwm) && negb (iwm_motor_on iwm)
  then set_iwm_mode val iwm else iwm.

(** ** The nibble stream can be read back *)

(** The 6-bit value of a disk nibble: its position in the table. *)
Definition unnibble (n : Z) : Z :=
  match list_find (λ x, x = n) gcr6 with Some (i, _) => Z.of_nat i | None => 0 end.

(** The whitened byte rebuilt from its data symbol and its spilled pair. *)
Definition rejoin (twos shift n : Z) : Z := (((twos ≫ shift) .& 3) ≪ 6) .| unnibble n.

(** A disk controller's view: undo the whitening with the same checksums. *)
Definition gcr_unpair (twos n1 n2 : Z) (s : gcr_sums) : Z * Z * gcr_sums * Z :=
  let '(carry, c) := gcr_rotate s in
  let v1 := rejoin twos 4 n1 .^ c in
  let '(a, carry) := gcr_add (gcr_a s) v1 carry in
  let v2 := rejoin twos 2 n2 .^ a in
  let '(b, carry) := gcr_add (gcr_b s) v2 carry in
  (v1, v2, mk_sums a b c, carry).

Fixpoint gcr_ungroup (nibs : list Z) (s : gcr_sums) : list Z * gcr_sums :=
  match nibs with
  | t :: n1 :: n2 :: rest =>
      let twos := unnibble t in
      let '(v1, v2, s, carry) := gcr_unpair twos n1 n2 s in
      match rest with
      | n3 :: rest =>
          let v3 := rejoin twos 0 n3 .^ gcr_b s in
          let c := u32 (gcr_c s + u32 (v3 + carry)) .& 0xFF in
          let '(out, s) := gcr_ungroup rest (mk_sums (gcr_a s) (gcr_b s) c) in
          (v1 :: v2 :: v3 :: out, s)
      | [] => ([v1; v2], s)
      end
  | _ => ([], s)
  end.

Definition gcr_trailer (s : gcr_sums) : list Z :=
  let '(_, c) := gcr_rotate s in
  let a := gcr_a s in let b := gcr_b s in
  [nibble (u8 (((a .& 0xC0) ≫ 2) .| ((b .& 0xC0) ≫ 4) .| ((c .& 0xC0) ≫ 6)));
   nibble a; nibble b; nibble c].

(** A data field: its payload, or [None] when the checksum does not match. *)
Definition gcr_decode_data (nibs : list Z) : option (list Z) :=
  let n := (length nibs - 4)%nat in
  let '(out, s) := gcr_ungroup (take n nibs) (mk_sums 0 0 0) in
  if bool_decide (drop n nibs = gcr_trailer s) then Some out else None.

Definition sums_ok (s : gcr_sums) : Prop :=
  byte (gcr_a s) ∧ byte (gcr_b s) ∧ byte (gcr_c s).

Lemma unnibble_nibble v : unnibble (nibble v) = v .& 0x3F.
Proof.
  unfold nibble. assert (0 ≤ v .& 0x3F < 64) as Hr by (apply land_range_r; lia).
  set (x := v .& 0x3F) in *. clearbody x.
  apply Z.eqb_eq. revert x Hr. apply (all_bits_0 6 (λ x, unnibble (znth gcr6 x) =? x)).
  vm_compute. reflexivity.
Qed.

Lemma pair_range w : 0 ≤ (w ≫ 6) .& 3 < 4.
Proof. apply land_range_r. lia. Qed.

(** The three pairs come back out of the twos symbol. *)
Lemma twos_fields w1 w2 w3 : let t := gcr_twos w1 w2 w3 .& 0x3F in
  (t ≫ 4) .& 3 = (w1 ≫ 6) .& 3 ∧ (t ≫ 2) .& 3 = (w2 ≫ 6) .& 3 ∧
  (t ≫ 0) .& 3 = (w3 ≫ 6) .& 3.
Proof.
  unfold gcr_twos. pose proof (pair_range w1) as H1. pose proof (pair_range w2) as H2.
  pose proof (pair_range w3) as H3.
  set (x1 := (w1 ≫ 6) .& 3) in *. set (x2 := (w2 ≫ 6) .& 3) in *. set (x3 := (w3 ≫ 6) .& 3) in *.
  clearbody x1 x2 x3. cbv zeta.
  assert (x1 = 0 ∨ x1 = 1 ∨ x1 = 2 ∨ x1 = 3) as D1 by lia.
  assert (x2 = 0 ∨ x2 = 1 ∨ x2 = 2 ∨ x2 = 3) as D2 by lia.
  assert (x3 = 0 ∨ x3 = 1 ∨ x3 = 2 ∨ x3 = 3) as D3 by lia.
  destruct D1 as [-> | [-> | [-> | ->]]], D2 as [-> | [-> | [-> | ->]]],
    D3 as [-> | [-> | [-> | ->]]]; vm_compute; done.
Qed.

Lemma rejoin_byte w : byte w → (((w ≫ 6) .& 3) ≪ 6) .| (w .& 0x3F) = w.
Proof.
  intros Hw. apply Z.eqb_eq. revert w Hw.
  apply (all_bits_0 8 (λ w, ((((w ≫ 6) .& 3) ≪ 6) .| (w .& 0x3F)) =? w)).
  vm_compute. reflexivity.
Qed.

Lemma lxor_byte x y : byte x → byte y → byte (x .^ y).
Proof.
  intros Hx Hy. assert (x .^ y = (x .^ y) mod 2 ^ 8) as ->.
  { zbits i. destruct (Z_lt_dec i 8).
    - by rewrite Z.mod_pow2_bits_low, Z.lxor_spec by lia.
    - by rewrite Z.mod_pow2_bits_high, (testbit_high 8 x), (testbit_high 8 y) by (done || lia). }
  apply Z.mod_pos_bound. lia.
Qed.

Lemma whiten x y : byte x → byte y → u8 (x .^ y) = x .^ y ∧ (x .^ y) .^ y = x.
Proof.
  intros Hx Hy. split; [apply u8_small; by apply lxor_byte|].
  by rewrite Z.lxor_assoc, Z.lxor_nilpotent, Z.lxor_0_r.
Qed.

Lemma mask_byte x : byte (x .& 0xFF).
Proof. apply land_range_r. lia. Qed.

Lemma rotate_byte s : byte (snd (gcr_rotate s)).
Proof. apply mask_byte. Qed.
Lemma add_byte acc v carry : byte (fst (gcr_add acc v carry)).
Proof. apply mask_byte. Qed.

(** One whitened byte, through the disk and back. *)
Lemma rejoin_nibble t sh v k :
  byte v → byte k → (t ≫ sh) .& 3 = (u8 (v .^ k) ≫ 6) .& 3 →
  rejoin t sh (nibble (u8 (v .^ k))) .^ k = v.
Proof.
  intros Hv Hk Ht. unfold rejoin. rewrite Ht, unnibble_nibble.
  destruct (whiten v k Hv Hk) as [-> E]. by rewrite rejoin_byte by (by apply lxor_byte).
Qed.

(** Payloads that the encoder's loop consumes exactly: triples, then a pair. *)
Inductive grouped : list Z → Prop :=
| grouped_pair v1 v2 : byte v1 → byte v2 → grouped [v1; v2]
| grouped_triple v1 v2 v3 rest : byte v1 → byte v2 → byte v3 →
    grouped rest → grouped (v1 :: v2 :: v3 :: rest).

Lemma grouped_length n src :
  length src = (3 * n + 2)%nat → Forall byte src → grouped src.
Proof.
  revert src. induction n as [|n IH]; intros src Hl Hb.
  - destruct src as [|v1 [|v2 [|]]]; simpl in Hl; try lia. decompose_Forall. by constructor.
  - destruct src as [|v1 [|v2 [|v3 rest]]]; simpl in Hl; try lia. decompose_Forall.
    constructor; try done. apply IH; [lia|done].
Qed.

(** A pair of bytes through the disk and back. *)
Lemma unpair_pair v1 v2 w1 w2 w3 s s' carry :
  byte v1 → byte v2 → gcr_pair v1 v2 s = (w1, w2, s', carry) →
  gcr_unpair (gcr_twos w1 w2 w3 .& 0x3F) (nibble w1) (nibble w2) s = (v1, v2, s', carry) ∧
  sums_ok s'.
Proof.
  intros H1 H2. unfold gcr_pair, gcr_unpair. pose proof (rotate_byte s) as Hc.
  destruct (gcr_rotate s) as [k c].
  pose proof (add_byte (gcr_a s) v1 k) as Ha.
  destruct (gcr_add (gcr_a s) v1 k) as [a k1] eqn:Ea.
  pose proof (add_byte (gcr_b s) v2 k1) as Hb.
  destruct (gcr_add (gcr_b s) v2 k1) as [b k2] eqn:Eb. intros [= <- <- <- <-].
  destruct (twos_fields (u8 (v1 .^ c)) (u8 (v2 .^ a)) w3) as (T1 & T2 & _).
  rewrite (rejoin_nibble _ 4 v1 c) by done. rewrite Ea.
  rewrite (rejoin_nibble _ 2 v2 a) by done. rewrite Eb. by split_and!.
Qed.

(** Encoding then decoding a run of groups, from any checksums. *)
Lemma gcr_groups_ungroup src : grouped src → ∀ s, sums_ok s →
  gcr_ungroup (gcr_groups src s).1 s = (src, (gcr_groups src s).2) ∧
  sums_ok (gcr_groups src s).2.
Proof.
  induction 1 as [v1 v2 H1 H2|v1 v2 v3 rest H1 H2 H3 _ IH]; intros s Hs;
    cbn [gcr_groups]; destruct (gcr_pair v1 v2 s) as [[[w1 w2] s1] k] eqn:Ep.
  - destruct (unpair_pair v1 v2 w1 w2 0 s s1 k H1 H2 Ep) as [E Hs1].
    cbn [gcr_ungroup fst snd]. by rewrite unnibble_nibble, E.
  - destruct s1 as [a b c]. cbn [gcr_a gcr_b gcr_c].
    set (c3 := u32 (c + u32 (v3 + k)) .& 0xFF). set (w3 := u8 (v3 .^ b)).
    destruct (unpair_pair v1 v2 w1 w2 w3 s _ k H1 H2 Ep) as [E Hs1].
    destruct (IH (mk_sums a b c3)) as [IH1 IH2].
    { destruct Hs1 as (? & ? & ?). split_and!; try done. apply mask_byte. }
    destruct (gcr_groups rest (mk_sums a b c3)) as [out s'].
    destruct (twos_fields w1 w2 w3) as (_ & _ & T3).
    cbn [gcr_ungroup fst snd] in *. rewrite unnibble_nibble, E. cbn [gcr_a gcr_b gcr_c].
    assert (rejoin (gcr_twos w1 w2 w3 .& 63) 0 (nibble w3) .^ b = v3) as ->
      by (apply rejoin_nibble; done || apply Hs1).
    fold c3. by rewrite IH1.
Qed.

Lemma gcr_encode_split src :
  gcr_encode_data src =
    (gcr_groups src (mk_sums 0 0 0)).1 ++ gcr_trailer (gcr_groups src (mk_sums 0 0 0)).2.
Proof.
  unfold gcr_encode_data, gcr_trailer. destruct (gcr_groups _ _) as [out s]. simpl.
  by destruct (gcr_rotate s).
Qed.

(** C13.  The 6-and-2 encoding loses nothing: from the nibbles of any 524-byte
    sector payload a controller recovers the payload, and the checksum it
    computes on the way is the one recorded. *)
Theorem gcr_roundtrip src : length src = 524%nat → Forall byte src →
  gcr_decode_data (gcr_encode_data src) = Some src.
Proof.
  intros Hl Hb. rewrite gcr_encode_split.
  destruct (gcr_groups_ungroup src (grouped_length 174 src Hl Hb) (mk_sums 0 0 0)) as [E _].
  { by split_and!. }
  destruct (gcr_groups src (mk_sums 0 0 0)) as [out s]. simpl in *.
  unfold gcr_decode_data.
  assert (length (gcr_trailer s) = 4%nat) as Ht.
  { unfold gcr_trailer. by destruct (gcr_rotate s). }
  rewrite length_app, Ht. replace (length out + 4 - 4)%nat with (length out) by lia.
  rewrite take_app_length, drop_app_length, E. by rewrite bool_decide_true.
Qed.

(** ** Sizes *)

Lemma gcr_groups_length n src s : length src = (3 * n + 2)%nat →
  length (gcr_groups src s).1 = (4 * n + 3)%nat.
Proof.
  revert src s. induction n as [|n IH]; intros src s Hl.
  - destruct src as [|v1 [|v2 [|]]]; simpl in Hl; try lia. cbn [gcr_groups]. by destruct (gcr_pair v1 v2 s) as [[[w1 w2] s1] k].
  - destruct src as [|v1 [|v2 [|v3 rest]]]; simpl in Hl; try lia. cbn [gcr_groups].
    destruct (gcr_pair v1 v2 s) as [[[w1 w2] s1] carry].
    match goal with |- context [gcr_groups rest ?s'] => specialize (IH rest s' ltac:(lia)) end.
    destruct (gcr_groups rest _) as [out s']. simpl in *. lia.
Qed.

Lemma gcr_encode_length src : length src = 524%nat → length (gcr_encode_data src) = 703%nat.
Proof.
  intros Hl. rewrite gcr_encode_split, length_app, (gcr_groups_length 174) by done.
  unfold gcr_trailer. by destruct (gcr_rotate _).
Qed.

(** The image holds what its size says. *)
Definition disk_ok (iwm : mac_iwm) : Prop :=
  match iwm_disk iwm with
  | Some d => iwm_disk_size iwm = Z.of_nat (length d) ∧ iwm_disk_size iwm < 0x100000000 ∧
              Forall byte d
  | None => True
  end.

Lemma sectors_range t : 8 ≤ sectors_in_track t ≤ 12.
Proof. unfold sectors_in_track. repeat case_match; lia. Qed.

Lemma fold_blocks_bound n b : b ≤ fold_left (λ blk t, blk + sectors_in_track t * 2) (upto n) b
  ≤ b + 24 * Z.of_nat n.
Proof.
  unfold upto. generalize 0%nat. revert b. induction n as [|n IH]; intros b k;
    cbn [seq fmap list_fmap fold_left]; [lia|].
  pose proof (sectors_range (Z.of_nat k)).
  specialize (IH (b + sectors_in_track (Z.of_nat k) * 2) (S k)). lia.
Qed.

Lemma logical_block_range track side s :
  0 ≤ track < 80 → 0 ≤ side ≤ 1 → 0 ≤ s < 12 → 0 ≤ logical_block track side s < 1948.
Proof.
  intros Ht Hd Hs. unfold logical_block.
  pose proof (fold_blocks_bound (Z.to_nat track) 0) as H. rewrite Z2Nat.id in H by lia.
  pose proof (sectors_range track). nia.
Qed.

Lemma block_data_length iwm blk : disk_ok iwm → 0 ≤ blk < 0x400000 →
  length (block_data iwm blk) = 512%nat.
Proof.
  intros Hd Hb. unfold block_data. unfold disk_ok in Hd.
  destruct (iwm_disk iwm) as [d|]; [|by rewrite length_replicate].
  destruct Hd as (Hs & _ & _). rewrite u32_small by lia.
  destruct (Z.leb_spec ((blk + 1) * 512) (iwm_disk_size iwm)); [|by rewrite length_replicate].
  rewrite length_take, length_drop. lia.
Qed.

Lemma sector_stream_length iwm track side s :
  disk_ok iwm → 0 ≤ track < 80 → 0 ≤ side ≤ 1 → 0 ≤ s < 12 →
  length (sector_stream iwm track side s) = 763%nat.
Proof.
  intros Hd Ht Hs Hc. unfold sector_stream. cbv zeta.
  rewrite !length_app, gcr_encode_length.
  - rewrite !length_replicate. reflexivity.
  - rewrite length_app, length_replicate, block_data_length; [done|done|].
    pose proof (logical_block_range track side s Ht Hs Hc). lia.
Qed.

Lemma upto_lt n i : i ∈ upto n → 0 ≤ i < Z.of_nat n.
Proof. unfold upto. intros (k & -> & Hk)%list_elem_of_fmap. apply elem_of_seq in Hk. lia. Qed.

Lemma bind_length (l : list Z) (f : Z → list Z) n :
  (∀ i, i ∈ l → length (f i) = n) → length (l ≫= f) = (length l * n)%nat.
Proof.
  induction l as [|i l IH]; intros Hf; [done|]. simpl. unfold mbind, list_bind in *.
  rewrite length_app, Hf by constructor. rewrite IH; [done|].
  intros j Hj. apply Hf. by constructor.
Qed.

Lemma track_stream_len iwm track side :
  disk_ok iwm → 0 ≤ track < 80 → 0 ≤ side ≤ 1 →
  Z.of_nat (length (track_stream iwm track side)) = sectors_in_track track * 763.
Proof.
  intros Hd Ht Hs. pose proof (sectors_range track).
  unfold track_stream. rewrite (bind_length _ _ 763).
  - unfold upto. rewrite length_fmap, length_seq. lia.
  - intros i Hi%upto_lt. apply sector_stream_length; try done. lia.
Qed.

(** C14.  A synthesised track is exactly its sectors, 763 nibbles each, and
    always fits the 16384-byte track buffer. *)
Theorem track_stream_length iwm track side :
  disk_ok iwm → 0 ≤ track < 80 → 0 ≤ side ≤ 1 →
  Z.of_nat (length (track_stream iwm track side)) = sectors_in_track track * 763 ∧
  sectors_in_track track * 763 ≤ 16384.
Proof.
  intros. pose proof (sectors_range track). split; [by apply track_stream_len|lia].
Qed.

(** ** The controller's invariant *)

Record iwm_ok (iwm : mac_iwm) : Prop := {
  iwm_disk_ok : disk_ok iwm;
  iwm_cur_ok : 0 ≤ iwm_cur_track iwm < 80;
  iwm_drive_ok : 0 ≤ iwm_drive iwm ≤ 1;
  iwm_step_ok : iwm_step_dir iwm = 0;
  iwm_buf_ok : length (iwm_trackbuf iwm) = Z.to_nat 16384;
  iwm_len_ok : 0 ≤ iwm_track_len iwm ≤ 16384;
  iwm_pos_ok : 0 ≤ iwm_nib_pos iwm;
  iwm_pos_lt : 0 < iwm_track_len iwm → iwm_nib_pos iwm < iwm_track_len iwm
}.

Lemma build_track_ok t d iwm : iwm_ok iwm → 0 ≤ t < 80 → 0 ≤ d ≤ 1 →
  iwm_ok (build_track t d iwm).
Proof.
  intros [] Ht Hd. pose proof (track_stream_len iwm t d iwm_disk_ok0 Ht Hd) as Hl.
  pose proof (sectors_range t).
  unfold build_track. split; cbn; try done.
  - rewrite length_app, length_drop. lia.
  - rewrite u32_small; lia.
Qed.

Lemma line_cases iwm line val : iwm_ok iwm → 0 ≤ val ≤ 1 →
  iwm_ok (iwm_set_line line val iwm).
Proof.
  intros [] Hv. unfold iwm_set_line.
  set (l' := if nz val then _ else _).
  assert (Hz : (u8 l' .& 1) .| (((u8 l' ≫ 1) .& 1) ≪ 1) .| (((u8 l' ≫ 2) .& 1) ≪ 2) = 0 →
               u8 l' .& 2 = 0).
  { intros H0. apply Z.lor_eq_0_iff in H0 as [H0 _]. apply Z.lor_eq_0_iff in H0 as [_ H0].
    zbits i. apply (f_equal (λ z, Z.testbit z i)) in H0. revert H0. autorewrite with zbits.
    change 2 with (2 ^ 1). destruct (Z.eq_dec i 1) as [->|].
    - change (1 - 1) with 0. autorewrite with zbits. change (Z.testbit 1 0) with true. by simpl.
    - rewrite Z.pow2_bits_false by done. by rewrite andb_false_r. }
  clearbody l'.
  repeat case_match; try (by split); split; cbn in *; try done; try lia;
    try (match goal with H : nz (u8 l' .& 2) = true |- _ =>
      rewrite Hz in H by (by apply Z.eqb_eq); done end).
Qed.

Lemma iwm_access_ok addr iwm : iwm_ok iwm → iwm_ok (iwm_access addr iwm).
Proof.
  intros Hi. unfold iwm_access.
  assert (0 ≤ ((addr ≫ 9) .& 0xF) .& 1 < 2) by (apply land_range_r; lia).
  repeat case_match; [destruct Hi; by split..|]. apply line_cases; [done|lia].
Qed.

Lemma iwm_sense_ok iwm : iwm_ok iwm → iwm_ok (iwm_sense iwm).2.
Proof. intros Hi. unfold iwm_sense. repeat case_match; try done; destruct Hi; by split. Qed.

Lemma iwm_read_data_ok iwm : iwm_ok iwm → iwm_ok (iwm_read_data iwm).2.
Proof.
  intros Hi. unfold iwm_read_data. destruct (_ || _); [done|].
  assert (iwm_ok (if negb (iwm_track iwm =? iwm_cur_track iwm) || negb (iwm_side iwm =? iwm_drive iwm)
             then build_track (iwm_cur_track iwm) (iwm_drive iwm) iwm else iwm)) as Hb.
  { destruct (_ || _); [|done]. apply build_track_ok; [done|apply Hi..]. }
  revert Hb. generalize (if negb (iwm_track iwm =? iwm_cur_track iwm) || negb (iwm_side iwm =? iwm_drive iwm)
             then build_track (iwm_cur_track iwm) (iwm_drive iwm) iwm else iwm).
  intros iwm' Hb. destruct (Z.eqb_spec (iwm_track_len iwm') 0); [done|].
  destruct Hb. split; cbn; try done.
  - apply u32_range.
  - intros _. pose proof (Z.mod_pos_bound (u32 (iwm_nib_pos iwm' + 1)) (iwm_track_len iwm')).
    rewrite u32_small; lia.
Qed.

(** What the registers read as is a byte. *)
Record iwm_bytes (iwm : mac_iwm) : Prop := {
  iwm_buf_bytes : Forall byte (iwm_trackbuf iwm);
  iwm_mode_byte : byte (iwm_mode iwm);
  iwm_tach_bit : 0 ≤ iwm_tach iwm ≤ 1
}.

Lemma nibble_is_byte v : byte (nibble v).
Proof. apply (znth_Forall byte); [by split|]. by apply forallb_byte. Qed.

Lemma gcr_groups_bytes : ∀ src s, Forall byte (gcr_groups src s).1.
Proof.
  fix IH 1. intros [|v1 [|v2 [|v3 rest]]] s; try apply Forall_nil_2; cbn [gcr_groups];
    destruct (gcr_pair v1 v2 s) as [[[w1 w2] s1] k].
  - repeat apply Forall_cons_2; try apply nibble_is_byte. apply Forall_nil_2.
  - match goal with |- context [gcr_groups rest ?x] => specialize (IH rest x);
      destruct (gcr_groups rest x) as [out s2] end.
    repeat apply Forall_cons_2; try apply nibble_is_byte. exact IH.
Qed.

Lemma sector_stream_bytes iwm track side i : Forall byte (sector_stream iwm track side i).
Proof.
  unfold sector_stream. rewrite gcr_encode_split. unfold gcr_trailer. destruct (gcr_rotate _).
  repeat (apply Forall_app_2 || apply Forall_cons_2);
    try apply nibble_is_byte; try apply gcr_groups_bytes; try (by apply Forall_replicate);
    try apply Forall_nil_2; by split.
Qed.

Lemma track_stream_bytes iwm track side : Forall byte (track_stream iwm track side).
Proof. apply Forall_bind, Forall_true. intros. apply sector_stream_bytes. Qed.

(** Every read returns a byte. *)
Lemma iwm_read_byte addr iwm : iwm_bytes iwm →
  byte (iwm_read addr iwm).1 ∧ iwm_bytes (iwm_read addr iwm).2.
Proof.
  intros Hb. assert (iwm_bytes (iwm_access addr iwm)) as Ha.
  { unfold iwm_access, iwm_set_line. destruct Hb. repeat case_match; by split. }
  unfold iwm_read. set (iwm1 := iwm_access addr iwm) in *. clearbody iwm1.
  destruct (_ && _); [|destruct (_ && _); [|by destruct (_ && _)]].
  - unfold iwm_read_data. destruct (_ || _); [done|].
    set (iwm2 := if _ || _ then _ else iwm1).
    assert (iwm_bytes iwm2) as H2.
    { unfold iwm2. destruct (_ || _); [|done]. destruct Ha. split; cbn; try done.
      apply Forall_app_2; [apply track_stream_bytes|by apply Forall_drop]. }
    clearbody iwm2. destruct (_ =? 0); [done|]. split; [|destruct H2; by split].
    apply (znth_Forall byte); [by split|apply H2].
  - assert (iwm_bytes (iwm_sense iwm1).2) as Hs.
    { unfold iwm_sense. destruct Ha as [? ? Ht]. assert (0 ≤ u8 (iwm_tach iwm1 .^ 1) ≤ 1) as Hx.
      { assert (iwm_tach iwm1 = 0 ∨ iwm_tach iwm1 = 1) as [-> | ->] by lia; by vm_compute. }
      repeat case_match; by split. }
    pose proof (land_range_r (iwm_mode iwm1) 0x1F 0x20 ltac:(lia)) as Hm.
    destruct (iwm_sense iwm1) as [sns iwm3]. split; [|done].
    assert (∀ x y, 0 ≤ x < 2 ^ 8 → 0 ≤ y < 2 ^ 8 → byte (x .| y)) as Hor.
    { intros. apply (lor_range 8); lia. }
    cbn [fst]. repeat case_match; repeat apply Hor; unfold byte; lia.
Qed.

Lemma iwm_write_byte addr v iwm : byte v → iwm_bytes iwm → iwm_bytes (iwm_write addr v iwm).
Proof.
  intros Hv Hb. assert (iwm_bytes (iwm_access addr iwm)) as Ha.
  { unfold iwm_access, iwm_set_line. destruct Hb. repeat case_match; by split. }
  unfold iwm_write. destruct (_ && _); [|done]. destruct Ha. split; cbn; try done. apply u8_range.
Qed.

Lemma iwm_read_ok addr iwm : iwm_ok iwm → iwm_ok (iwm_read addr iwm).2.
Proof.
  intros Hi. pose proof (iwm_access_ok addr iwm Hi) as Ha. unfold iwm_read.
  destruct (_ && _); [by apply iwm_read_data_ok|].
  destruct (_ && _); [|by destruct (_ && _)].
  pose proof (iwm_sense_ok _ Ha) as Hs. by destruct (iwm_sense _).
Qed.

Lemma iwm_write_ok addr v iwm : iwm_ok iwm → iwm_ok (iwm_write addr v iwm).
Proof.
  intros Hi. pose proof (iwm_access_ok addr iwm Hi) as Ha. unfold iwm_write.
  destruct (_ && _); [|done]. destruct Ha; by split.
Qed.

(** An access the guest can make. *)
Inductive iwm_op := IwmRead (addr : Z) | IwmWrite (addr val : Z).
Definition iwm_do (iwm : mac_iwm) (o : iwm_op) : mac_iwm :=
  match o with IwmRead a => (iwm_read a iwm).2 | IwmWrite a v => iwm_write a v iwm end.

(** C15.  No sequence of guest accesses drives the head off the 80 tracks or
    the nibble position out of the track buffer: the controller's invariant
    holds after every read and write.  (It also shows that [step_dir] never
    becomes 1, whatever the guest latches.) *)
Theorem iwm_invariant ops iwm : iwm_ok iwm → iwm_ok (fold_left iwm_do ops iwm).
Proof.
  revert iwm. induction ops as [|o ops IH]; intros iwm Hi; [done|]. apply IH.
  destruct o as [a|a v]; [by apply iwm_read_ok|by apply iwm_write_ok].
Qed.

(** ** Witnesses *)

Lemma iwm_init_ok : iwm_ok iwm_init.
Proof. split; vm_compute; done. Qed.

Lemma gcr_roundtrip_witness :
  gcr_decode_data (gcr_encode_data (replicate 524 0xA5)) = Some (replicate 524 0xA5).
Proof.
  apply (gcr_roundtrip (replicate 524 0xA5)); [reflexivity|]. apply Forall_replicate. by split.
Defined.

Lemma track_stream_length_witness :
  Z.of_nat (length (track_stream iwm_init 79 1)) = 6104.
Proof.
  exact (proj1 (track_stream_length iwm_init 79 1 I ltac:(lia) ltac:(lia))).
Defined.

Lemma iwm_invariant_witness :
  iwm_cur_track (fold_left iwm_do [IwmRead 0x200; IwmRead 0xE00; IwmWrite 0xC00 0] iwm_init) = 1 ∧
  iwm_ok (fold_left iwm_do [IwmRead 0x200; IwmRead 0xE00; IwmWrite 0xC00 0] iwm_init).
Proof.
  split; [reflexivity|]. exact (iwm_invariant _ iwm_init iwm_init_ok).
Defined.

