(* ===== verification/Scsi.v ===== *)
(** * The SCSI controller and its disks

    [core/mac_scsi.c]: the NCR 5380 register file, the bus phases, and the
    command set of the attached targets. *)

From Stdlib Require Import ZArith Lia.
From stdpp Require Import base tactics list numbers.
From S2P Require Import Prelude.

Record mac_scsi_target := mk_target {
  tgt_present : bool;
  tgt_write_protect : bool;
  tgt_image : list Z;
  tgt_bytes : Z;
  tgt_blocks : Z;
  tgt_inquiry : list Z  (** inquiry[36] *)
}.

Definition set_tgt_present (v : bool) (x : mac_scsi_target) : mac_scsi_target :=
  mk_target v (tgt_write_protect x) (tgt_image x) (tgt_bytes x) (tgt_blocks x)
    (tgt_inquiry x).
Definition set_tgt_write_protect (v : bool) (x : mac_scsi_target) : mac_scsi_target :=
  mk_target (tgt_present x) v (tgt_image x) (tgt_bytes x) (tgt_blocks x) (tgt_inquiry x).
Definition set_tgt_image (v : list Z) (x : mac_scsi_target) : mac_scsi_target :=
  mk_target (tgt_present x) (tgt_write_protect x) v (tgt_bytes x) (tgt_blocks x)
    (tgt_inquiry x).
Definition set_tgt_bytes (v : Z) (x : mac_scsi_target) : mac_scsi_target :=
  mk_target (tgt_present x) (tgt_write_protect x) (tgt_image x) (u32 v) (tgt_blocks x)
    (tgt_inquiry x).
Definition set_tgt_blocks (v : Z) (x : mac_scsi_target) : mac_scsi_target :=
  mk_target (tgt_present x) (tgt_write_protect x) (tgt_image x) (tgt_bytes x) (u32 v)
    (tgt_inquiry x).
Definition set_tgt_inquiry (v : list Z) (x : mac_scsi_target) : mac_scsi_target :=
  mk_target (tgt_present x) (tgt_write_protect x) (tgt_image x) (tgt_bytes x) (tgt_blocks
    x) v.

(** What [s->data] points at. *)
Inductive scsi_ptr :=
| PtrNull
| PtrImage (id off : Z)   (** [targets[id].image + off] *)
| PtrInquiry (id : Z)     (** [targets[id].inquiry] *)
| PtrReply.               (** [reply_buf] *)

Record mac_scsi := mk_scsi {
  scsi_odr : Z;
  scsi_icr : Z;
  scsi_mr : Z;
  scsi_tcr : Z;
  scsi_ser : Z;
  scsi_phase : Z;
  scsi_target_id : Z;  (** 0..6 or -1 *)
  scsi_cdb : list Z;  (** cdb[12] *)
  scsi_cdb_len : Z;
  scsi_cdb_pos : Z;
  scsi_data : scsi_ptr;
  scsi_data_len : Z;
  scsi_data_pos : Z;
  scsi_data_to_initiator : bool;
  scsi_status : Z;
  scsi_message : Z;
  scsi_reply_buf : list Z;  (** reply_buf[64] *)
  scsi_targets : list mac_scsi_target
}.

Definition set_scsi_odr (v : Z) (x : mac_scsi) : mac_scsi :=
  mk_scsi (u8 v) (scsi_icr x) (scsi_mr x) (scsi_tcr x) (scsi_ser x) (scsi_phase x)
    (scsi_target_id x) (scsi_cdb x) (scsi_cdb_len x) (scsi_cdb_pos x) (scsi_data x)
    (scsi_data_len x) (scsi_data_pos x) (scsi_data_to_initiator x) (scsi_status x)
    (scsi_message x) (scsi_reply_buf x) (scsi_targets x).
Definition set_scsi_icr (v : Z) (x : mac_scsi) : mac_scsi :=
  mk_scsi (scsi_odr x) (u8 v) (scsi_mr x) (scsi_tcr x) (scsi_ser x) (scsi_phase x)
    (scsi_target_id x) (scsi_cdb x) (scsi_cdb_len x) (scsi_cdb_pos x) (scsi_data x)
    (scsi_data_len x) (scsi_data_pos x) (scsi_data_to_initiator x) (scsi_status x)
    (scsi_message x) (scsi_reply_buf x) (scsi_targets x).
Definition set_scsi_mr (v : Z) (x : mac_scsi) : mac_scsi :=
  mk_scsi (scsi_odr x) (scsi_icr x) (u8 v) (scsi_tcr x) (scsi_ser x) (scsi_phase x)
    (scsi_target_id x) (scsi_cdb x) (scsi_cdb_len x) (scsi_cdb_pos x) (scsi_data x)
    (scsi_data_len x) (scsi_data_pos x) (scsi_data_to_initiator x) (scsi_status x)
    (scsi_message x) (scsi_reply_buf x) (scsi_targets x).
Definition set_scsi_tcr (v : Z) (x : mac_scsi) : mac_scsi :=
  mk_scsi (scsi_odr x) (scsi_icr x) (scsi_mr x) (u8 v) (scsi_ser x) (scsi_phase x)
    (scsi_target_id x) (scsi_cdb x) (scsi_cdb_len x) (scsi_cdb_pos x) (scsi_data x)
    (scsi_data_len x) (scsi_data_pos x) (scsi_data_to_initiator x) (scsi_status x)
    (scsi_message x) (scsi_reply_buf x) (scsi_targets x).
Definition set_scsi_ser (v : Z) (x : mac_scsi) : mac_scsi :=
  mk_scsi (scsi_odr x) (scsi_icr x) (scsi_mr x) (scsi_tcr x) (u8 v) (scsi_phase x)
    (scsi_target_id x) (scsi_cdb x) (scsi_cdb_len x) (scsi_cdb_pos x) (scsi_data x)
    (scsi_data_len x) (scsi_data_pos x) (scsi_data_to_initiator x) (scsi_status x)
    (scsi_message x) (scsi_reply_buf x) (scsi_targets x).
Definition set_scsi_phase (v : Z) (x : mac_scsi) : mac_scsi :=
  mk_scsi (scsi_odr x) (scsi_icr x) (scsi_mr x) (scsi_tcr x) (scsi_ser x) (u8 v)
    (scsi_target_id x) (scsi_cdb x) (scsi_cdb_len x) (scsi_cdb_pos x) (scsi_data x)
    (scsi_data_len x) (scsi_data_pos x) (scsi_data_to_initiator x) (scsi_status x)
    (scsi_message x) (scsi_reply_buf x) (scsi_targets x).
Definition set_scsi_target_id (v : Z) (x : mac_scsi) : mac_scsi :=
  mk_scsi (scsi_odr x) (scsi_icr x) (scsi_mr x) (scsi_tcr x) (scsi_ser x) (scsi_phase x) v
    (scsi_cdb x) (scsi_cdb_len x) (scsi_cdb_pos x) (scsi_data x) (scsi_data_len x)
    (scsi_data_pos x) (scsi_data_to_initiator x) (scsi_status x) (scsi_message x)
    (scsi_reply_buf x) (scsi_targets x).
Definition set_scsi_cdb (v : list Z) (x : mac_scsi) : mac_scsi :=
  mk_scsi (scsi_odr x) (scsi_icr x) (scsi_mr x) (scsi_tcr x) (scsi_ser x) (scsi_phase x)
    (scsi_target_id x) v (scsi_cdb_len x) (scsi_cdb_pos x) (scsi_data x) (scsi_data_len x)
    (scsi_data_pos x) (scsi_data_to_initiator x) (scsi_status x) (scsi_message x)
    (scsi_reply_buf x) (scsi_targets x).
Definition set_scsi_cdb_len (v : Z) (x : mac_scsi) : mac_scsi :=
  mk_scsi (scsi_odr x) (scsi_icr x) (scsi_mr x) (scsi_tcr x) (scsi_ser x) (scsi_phase x)
    (scsi_target_id x) (scsi_cdb x) (u8 v) (scsi_cdb_pos x) (scsi_data x) (scsi_data_len
    x) (scsi_data_pos x) (scsi_data_to_initiator x) (scsi_status x) (scsi_message x)
    (scsi_reply_buf x) (scsi_targets x).
Definition set_scsi_cdb_pos (v : Z) (x : mac_scsi) : mac_scsi :=
  mk_scsi (scsi_odr x) (scsi_icr x) (scsi_mr x) (scsi_tcr x) (scsi_ser x) (scsi_phase x)
    (scsi_target_id x) (scsi_cdb x) (scsi_cdb_len x) (u8 v) (scsi_data x) (scsi_data_len
    x) (scsi_data_pos x) (scsi_data_to_initiator x) (scsi_status x) (scsi_message x)
    (scsi_reply_buf x) (scsi_targets x).
Definition set_scsi_data (v : scsi_ptr) (x : mac_scsi) : mac_scsi :=
  mk_scsi (scsi_odr x) (scsi_icr x) (scsi_mr x) (scsi_tcr x) (scsi_ser x) (scsi_phase x)
    (scsi_target_id x) (scsi_cdb x) (scsi_cdb_len x) (scsi_cdb_pos x) v (scsi_data_len x)
    (scsi_data_pos x) (scsi_data_to_initiator x) (scsi_status x) (scsi_message x)
    (scsi_reply_buf x) (scsi_targets x).
Definition set_scsi_data_len (v : Z) (x : mac_scsi) : mac_scsi :=
  mk_scsi (scsi_odr x) (scsi_icr x) (scsi_mr x) (scsi_tcr x) (scsi_ser x) (scsi_phase x)
    (scsi_target_id x) (scsi_cdb x) (scsi_cdb_len x) (scsi_cdb_pos x) (scsi_data x) (u32
    v) (scsi_data_pos x) (scsi_data_to_initiator x) (scsi_status x) (scsi_message x)
    (scsi_reply_buf x) (scsi_targets x).
Definition set_scsi_data_pos (v : Z) (x : mac_scsi) : mac_scsi :=
  mk_scsi (scsi_odr x) (scsi_icr x) (scsi_mr x) (scsi_tcr x) (scsi_ser x) (scsi_phase x)
    (scsi_target_id x) (scsi_cdb x) (scsi_cdb_len x) (scsi_cdb_pos x) (scsi_data x)
    (scsi_data_len x) (u32 v) (scsi_data_to_initiator x) (scsi_status x) (scsi_message x)
    (scsi_reply_buf x) (scsi_targets x).
Definition set_scsi_data_to_initiator (v : bool) (x : mac_scsi) : mac_scsi :=
  mk_scsi (scsi_odr x) (scsi_icr x) (scsi_mr x) (scsi_tcr x) (scsi_ser x) (scsi_phase x)
    (scsi_target_id x) (scsi_cdb x) (scsi_cdb_len x) (scsi_cdb_pos x) (scsi_data x)
    (scsi_data_len x) (scsi_data_pos x) v (scsi_status x) (scsi_message x) (scsi_reply_buf
    x) (scsi_targets x).
Definition set_scsi_status (v : Z) (x : mac_scsi) : mac_scsi :=
  mk_scsi (scsi_odr x) (scsi_icr x) (scsi_mr x) (scsi_tcr x) (scsi_ser x) (scsi_phase x)
    (scsi_target_id x) (scsi_cdb x) (scsi_cdb_len x) (scsi_cdb_pos x) (scsi_data x)
    (scsi_data_len x) (scsi_data_pos x) (scsi_data_to_initiator x) (u8 v) (scsi_message x)
    (scsi_reply_buf x) (scsi_targets x).
Definition set_scsi_message (v : Z) (x : mac_scsi) : mac_scsi :=
  mk_scsi (scsi_odr x) (scsi_icr x) (scsi_mr x) (scsi_tcr x) (scsi_ser x) (scsi_phase x)
    (scsi_target_id x) (scsi_cdb x) (scsi_cdb_len x) (scsi_cdb_pos x) (scsi_data x)
    (scsi_data_len x) (scsi_data_pos x) (scsi_data_to_initiator x) (scsi_status x) (u8 v)
    (scsi_reply_buf x) (scsi_targets x).
Definition set_scsi_reply_buf (v : list Z) (x : mac_scsi) : mac_scsi :=
  mk_scsi (scsi_odr x) (scsi_icr x) (scsi_mr x) (scsi_tcr x) (scsi_ser x) (scsi_phase x)
    (scsi_target_id x) (scsi_cdb x) (scsi_cdb_len x) (scsi_cdb_pos x) (scsi_data x)
    (scsi_data_len x) (scsi_data_pos x) (scsi_data_to_initiator x) (scsi_status x)
    (scsi_message x) v (scsi_targets x).
Definition set_scsi_targets (v : list mac_scsi_target) (x : mac_scsi) : mac_scsi :=
  mk_scsi (scsi_odr x) (scsi_icr x) (scsi_mr x) (scsi_tcr x) (scsi_ser x) (scsi_phase x)
    (scsi_target_id x) (scsi_cdb x) (scsi_cdb_len x) (scsi_cdb_pos x) (scsi_data x)
    (scsi_data_len x) (scsi_data_pos x) (scsi_data_to_initiator x) (scsi_status x)
    (scsi_message x) (scsi_reply_buf x) v.

(** Register and phase constants of [mac_scsi.c] and [mac_scsi.h]. *)
Definition MAC_SCSI_NUM_TARGETS : Z := 7.
Definition ICR_SEL : Z := 0x04.
Definition ICR_BSY : Z := 0x08.
Definition ICR_RST : Z := 0x80.
Definition SCSI_SR_IO : Z := 0x04.
Definition SCSI_SR_CD : Z := 0x08.
Definition SCSI_SR_MSG : Z := 0x10.
Definition SCSI_SR_REQ : Z := 0x20.
Definition SCSI_SR_BSY : Z := 0x40.
Definition BSR_PHASE_MATCH : Z := 0x08.
Definition SCSI_PHASE_BUS_FREE : Z := 0.
Definition SCSI_PHASE_SELECTION : Z := 2.
Definition SCSI_PHASE_COMMAND : Z := 3.
Definition SCSI_PHASE_DATA_IN : Z := 4.
Definition SCSI_PHASE_DATA_OUT : Z := 5.
Definition SCSI_PHASE_STATUS : Z := 6.
Definition SCSI_PHASE_MSG_IN : Z := 7.

Definition no_target : mac_scsi_target := mk_target false false [] 0 0 (replicate 36 0).
Definition target_of (s : mac_scsi) (id : Z) : mac_scsi_target :=
  nth (Z.to_nat id) (scsi_targets s) no_target.
Definition set_target (id : Z) (t : mac_scsi_target) (s : mac_scsi) : mac_scsi :=
  set_scsi_targets (<[Z.to_nat id := t]> (scsi_targets s)) s.

Definition mac_scsi_init : mac_scsi :=
  mk_scsi 0 0 0 0 0 SCSI_PHASE_BUS_FREE (-1) (replicate 12 0) 0 0 PtrNull 0 0 false 0 0
    (replicate 64 0) (replicate 7 no_target).

Definition inq_template : list Z := [
  0x00; 0x00; 0x02; 0x02; 31; 0x00; 0x00; 0x00;
  77; 65; 67; 54; 56; 75; 32; 32;
  72; 68; 32; 73; 109; 97; 103; 101; 32; 32; 32; 32; 32; 32; 32; 32;
  49; 46; 48; 32].

Definition mac_scsi_attach_disk (id : Z) (img : list Z) (len : Z) (write_protect : bool)
    (s : mac_scsi) : bool * mac_scsi :=
  if (id <? 0) || (MAC_SCSI_NUM_TARGETS <=? id) then (false, s)
  else if tgt_present (target_of s id) then (false, s)
  else if (len =? 0) || nz (len .& 0x1FF) then (false, s)
  else
    let t := target_of s id in
    let t := set_tgt_present true t in
    let t := set_tgt_write_protect write_protect t in
    let t := set_tgt_image img t in
    let t := set_tgt_bytes len t in
    let t := set_tgt_blocks (len / 512) t in
    let t := set_tgt_inquiry inq_template t in
    (true, set_target id t s).

(** ** Command processing *)

Definition scsi_set_data_in (buf : scsi_ptr) (len : Z) (s : mac_scsi) : mac_scsi :=
  let s := set_scsi_phase SCSI_PHASE_DATA_IN s in
  let s := set_scsi_data buf s in
  let s := set_scsi_data_len len s in
  let s := set_scsi_data_pos 0 s in
  let s := set_scsi_data_to_initiator true s in
  set_scsi_tcr SCSI_SR_IO s.

Definition scsi_set_data_out (buf : scsi_ptr) (len : Z) (s : mac_scsi) : mac_scsi :=
  let s := set_scsi_phase SCSI_PHASE_DATA_OUT s in
  let s := set_scsi_data buf s in
  let s := set_scsi_data_len len s in
  let s := set_scsi_data_pos 0 s in
  let s := set_scsi_data_to_initiator false s in
  set_scsi_tcr 0 s.

Definition scsi_finish (status : Z) (s : mac_scsi) : mac_scsi :=
  let s := set_scsi_status status s in
  let s := set_scsi_message 0 s in
  let s := set_scsi_phase SCSI_PHASE_STATUS s in
  set_scsi_tcr (SCSI_SR_CD .| SCSI_SR_IO) s.

(** The logical block address and count of the 6- and 10-byte forms. *)
Definition cdb_at (s : mac_scsi) (i : Z) : Z := znth (scsi_cdb s) i.
Definition lba6 (s : mac_scsi) : Z :=
  u32 ((cdb_at s 1 .& 0x1F) ≪ 16) .| u32 (cdb_at s 2 ≪ 8) .| cdb_at s 3.
Definition count6 (s : mac_scsi) : Z := if nz (cdb_at s 4) then cdb_at s 4 else 256.
Definition lba10 (s : mac_scsi) : Z :=
  u32 (cdb_at s 2 ≪ 24) .| u32 (cdb_at s 3 ≪ 16) .| u32 (cdb_at s 4 ≪ 8) .| cdb_at s 5.
Definition count10 (s : mac_scsi) : Z := u32 (cdb_at s 7 ≪ 8) .| cdb_at s 8.

(** READ and WRITE once the address and count are known. *)
Definition scsi_read_blocks (lba n : Z) (s : mac_scsi) : mac_scsi :=
  let t := target_of s (scsi_target_id s) in
  if tgt_blocks t <? u64 (lba + n) then scsi_finish 0x02 s
  else scsi_set_data_in (PtrImage (scsi_target_id s) (u32 (lba * 512))) (u32 (n * 512)) s.

Definition scsi_write_blocks (lba n : Z) (s : mac_scsi) : mac_scsi :=
  let t := target_of s (scsi_target_id s) in
  if tgt_blocks t <? u64 (lba + n) then scsi_finish 0x02 s
  else if tgt_write_protect t then scsi_finish 0x02 s
  else scsi_set_data_out (PtrImage (scsi_target_id s) (u32 (lba * 512))) (u32 (n * 512)) s.

Definition reply_set (l : list (Z * Z)) (s : mac_scsi) : mac_scsi :=
  set_scsi_reply_buf (fold_left (λ b '(i, v), zset b i (u8 v)) l (scsi_reply_buf s)) s.
(** [memset(s->reply_buf, 0, n)] *)
Definition reply_clear (n : nat) (s : mac_scsi) : mac_scsi :=
  set_scsi_reply_buf (replicate n 0 ++ drop n (scsi_reply_buf s)) s.

Definition scsi_execute (s : mac_scsi) : mac_scsi :=
  let id := scsi_target_id s in
  if negb ((0 <=? id) && (id <? MAC_SCSI_NUM_TARGETS)) || negb (tgt_present (target_of s id))
  then scsi_finish 0x02 s else
  let t := target_of s id in
  match cdb_at s 0 with
  | 0x00 => scsi_finish 0x00 s
  | 0x03 => scsi_set_data_in PtrReply 18 (reply_set [(0, 0x70); (7, 10)] (reply_clear 18 s))
  | 0x08 => scsi_read_blocks (lba6 s) (count6 s) s
  | 0x0A => scsi_write_blocks (lba6 s) (count6 s) s
  | 0x12 => scsi_set_data_in (PtrInquiry id) 36 s
  | 0x15 => scsi_finish 0x00 s
  | 0x1A => scsi_set_data_in PtrReply 4 (reply_set [(0, 3)] (reply_clear 4 s))
  | 0x1B | 0x1E | 0x35 => scsi_finish 0x00 s
  | 0x25 =>
      let last := u32 (tgt_blocks t - 1) in
      scsi_set_data_in PtrReply 8
        (reply_set [(0, last ≫ 24); (1, last ≫ 16); (2, last ≫ 8); (3, last);
                    (4, 0); (5, 0); (6, 2); (7, 0)] s)
  | 0x28 => if count10 s =? 0 then scsi_finish 0x00 s
            else scsi_read_blocks (lba10 s) (count10 s) s
  | 0x2A => if count10 s =? 0 then scsi_finish 0x00 s
            else scsi_write_blocks (lba10 s) (count10 s) s
  | _ => scsi_finish 0x02 s
  end.

(** ** Bus phases *)

Definition scsi_select (s : mac_scsi) : mac_scsi :=
  match list_find (λ id, nz (scsi_odr s .& (1 ≪ id)) && tgt_present (target_of s id) = true)
          (upto 7) with
  | None => set_scsi_target_id (-1) (set_scsi_phase SCSI_PHASE_BUS_FREE s)
  | Some (_, sel) =>
      let s := set_scsi_target_id sel s in
      let s := set_scsi_phase SCSI_PHASE_COMMAND s in
      let s := set_scsi_tcr SCSI_SR_CD s in
      let s := set_scsi_cdb_pos 0 s in
      set_scsi_cdb_len 0 s
  end.

Definition cdb_length_for (op : Z) : Z :=
  let grp := (op ≫ 5) .& 7 in
  if grp =? 0 then 6
  else if (grp =? 1) || (grp =? 2) then 10
  else if grp =? 5 then 12
  else 6.

Definition scsi_recv_cdb_byte (v : Z) (s : mac_scsi) : mac_scsi :=
  let s := if scsi_cdb_pos s <? 12
           then set_scsi_cdb_pos (scsi_cdb_pos s + 1)
                  (set_scsi_cdb (zset (scsi_cdb s) (scsi_cdb_pos s) v) s)
           else s in
  let s := if scsi_cdb_pos s =? 1 then set_scsi_cdb_len (cdb_length_for v) s else s in
  if scsi_cdb_len s <=? scsi_cdb_pos s then scsi_execute s else s.

(** ** Register file *)

Definition scsi_bus_status (s : mac_scsi) : Z :=
  let p := scsi_phase s in
  if p =? SCSI_PHASE_COMMAND then SCSI_SR_BSY .| SCSI_SR_CD .| SCSI_SR_REQ
  else if p =? SCSI_PHASE_DATA_IN then SCSI_SR_BSY .| SCSI_SR_IO .| SCSI_SR_REQ
  else if p =? SCSI_PHASE_DATA_OUT then SCSI_SR_BSY .| SCSI_SR_REQ
  else if p =? SCSI_PHASE_STATUS then SCSI_SR_BSY .| SCSI_SR_CD .| SCSI_SR_IO .| SCSI_SR_REQ
  else if p =? SCSI_PHASE_MSG_IN
  then SCSI_SR_BSY .| SCSI_SR_CD .| SCSI_SR_IO .| SCSI_SR_MSG .| SCSI_SR_REQ
  else 0.

(** The object behind [s->data]; a NULL pointer has none. *)
Definition ptr_object (s : mac_scsi) (p : scsi_ptr) : list Z :=
  match p with
  | PtrNull => []
  | PtrImage id off => drop (Z.to_nat off) (tgt_image (target_of s id))
  | PtrInquiry id => tgt_inquiry (target_of s id)
  | PtrReply => scsi_reply_buf s
  end.
Definition ptr_is_null (p : scsi_ptr) : bool := match p with PtrNull => true | _ => false end.

(** [s->data[i]]: outside the object it is undefined behaviour. *)
Definition data_read (i : Z) : M mac_scsi Z := λ s,
  match ptr_object s (scsi_data s) !! Z.to_nat i with
  | Some v => Some (v, s)
  | None => None
  end.
Definition data_write (i v : Z) : M mac_scsi unit := λ s,
  if Z.of_nat (length (ptr_object s (scsi_data s))) <=? i then None else
  match scsi_data s with
  | PtrNull => None
  | PtrImage id off =>
      let t := target_of s id in
      Some (tt, set_target id (set_tgt_image (zset (tgt_image t) (off + i) v) t) s)
  | PtrInquiry id =>
      let t := target_of s id in
      Some (tt, set_target id (set_tgt_inquiry (zset (tgt_inquiry t) i v) t) s)
  | PtrReply => Some (tt, set_scsi_reply_buf (zset (scsi_reply_buf s) i v) s)
  end.

(** Whether a data transfer of the given phase has bytes left. *)
Definition transferring (p : Z) (s : mac_scsi) : bool :=
  (scsi_phase s =? p) && negb (ptr_is_null (scsi_data s)) && (scsi_data_pos s <? scsi_data_len s).

(** [s->data_pos++], and [scsi_finish] at the end of the buffer. *)
Definition advance (s : mac_scsi) : mac_scsi :=
  let s := set_scsi_data_pos (scsi_data_pos s + 1) s in
  if scsi_data_len s <=? scsi_data_pos s then scsi_finish 0x00 s else s.

Definition scsi_read_data : M mac_scsi Z := λ s,
  if transferring SCSI_PHASE_DATA_IN s then
    (v ← data_read (scsi_data_pos s); modify advance ;; mret v) s
  else if scsi_phase s =? SCSI_PHASE_STATUS then
    Some (scsi_status s, set_scsi_phase SCSI_PHASE_MSG_IN s)
  else if scsi_phase s =? SCSI_PHASE_MSG_IN then
    let ms := scsi_message s in
    let s := set_scsi_phase SCSI_PHASE_BUS_FREE s in
    let s := set_scsi_target_id (-1) s in
    Some (ms, set_scsi_tcr 0 s)
  else Some (0, s).

Definition mac_scsi_reg_read (reg : Z) : M mac_scsi Z :=
  match reg .& 7 with
  | 0 => scsi_read_data
  | 1 => gets scsi_icr
  | 2 => gets scsi_mr
  | 3 => gets scsi_tcr
  | 4 => gets scsi_bus_status
  | 5 => gets (λ s, if negb (scsi_phase s =? SCSI_PHASE_BUS_FREE) then BSR_PHASE_MATCH else 0)
  | 6 => scsi_read_data
  | _ => mret 0
  end.

Definition scsi_write_icr (val : Z) (s : mac_scsi) : mac_scsi :=
  let old := scsi_icr s in
  let s := set_scsi_icr val s in
  let s := if nz (val .& ICR_SEL) && negb (nz (old .& ICR_SEL)) && negb (nz (val .& ICR_BSY))
           then scsi_select (set_scsi_phase SCSI_PHASE_SELECTION s) else s in
  if nz (val .& ICR_RST) then
    let s := set_scsi_phase SCSI_PHASE_BUS_FREE s in
    let s := set_scsi_target_id (-1) s in
    set_scsi_tcr 0 s
  else s.

Definition scsi_write_odr (val : Z) : M mac_scsi unit := λ s,
  let s := set_scsi_odr val s in
  if transferring SCSI_PHASE_DATA_OUT s then
    (data_write (scsi_data_pos s) val ;; modify advance) s
  else if scsi_phase s =? SCSI_PHASE_COMMAND then Some (tt, scsi_recv_cdb_byte val s)
  else Some (tt, s).

Definition mac_scsi_reg_write (reg val : Z) : M mac_scsi unit :=
  match reg .& 7 with
  | 0 => scsi_write_odr val
  | 1 => modify (scsi_write_icr val)
  | 2 => modify (set_scsi_mr val)
  | 3 => modify (set_scsi_tcr val)
  | 4 => modify (set_scsi_ser val)
  | _ => mret tt
  end.

(** ** Well-formed controllers *)


(** A target whose image is the [bytes] bytes that were attached. *)
Record target_ok (t : mac_scsi_target) : Prop := {
  to_image : Forall byte (tgt_image t);
  to_len : Z.of_nat (length (tgt_image t)) = tgt_bytes t;
  to_small : tgt_bytes t < 0x100000000;
  to_blocks : tgt_bytes t = 512 * tgt_blocks t;
  to_inquiry : length (tgt_inquiry t) = 36%nat;
  to_inquiry_bytes : Forall byte (tgt_inquiry t)
}.

(** The buffer of a running data phase lies in its object; a data-out phase
    only ever targets the image of a disk that is not write-protected. *)
Definition buffer_ok (s : mac_scsi) : Prop :=
  scsi_data s ≠ PtrNull ∧ 0 ≤ scsi_data_pos s < scsi_data_len s ∧
  scsi_data_len s < 0x100000000 ∧
  scsi_data_len s ≤ Z.of_nat (length (ptr_object s (scsi_data s))).
Definition writable_ptr (s : mac_scsi) (p : scsi_ptr) : Prop :=
  match p with
  | PtrImage id off => 0 ≤ id < 7 ∧ 0 ≤ off ∧ tgt_write_protect (target_of s id) = false
  | _ => False
  end.

(** The fields that every phase relies on... *)
Record scsi_base (s : mac_scsi) : Prop := {
  so_targets : length (scsi_targets s) = 7%nat;
  so_target : Forall target_ok (scsi_targets s);
  so_reply : length (scsi_reply_buf s) = 64%nat;
  so_reply_bytes : Forall byte (scsi_reply_buf s);
  so_cdb : length (scsi_cdb s) = 12%nat;
  so_cdb_bytes : Forall byte (scsi_cdb s);
  so_id : -1 ≤ scsi_target_id s < 7;
  so_latches : Forall byte [scsi_odr s; scsi_icr s; scsi_mr s; scsi_tcr s; scsi_status s; scsi_message s]
}.
(** ... and those of the phase the bus is in. *)
Record phase_ok (s : mac_scsi) : Prop := {
  so_command : scsi_phase s = SCSI_PHASE_COMMAND →
    scsi_cdb_pos s = 0 ∨ 0 < scsi_cdb_pos s < scsi_cdb_len s ∧ scsi_cdb_len s ≤ 12;
  so_in : scsi_phase s = SCSI_PHASE_DATA_IN → buffer_ok s;
  so_out : scsi_phase s = SCSI_PHASE_DATA_OUT → buffer_ok s ∧ writable_ptr s (scsi_data s)
}.
Definition scsi_ok (s : mac_scsi) : Prop := scsi_base s ∧ phase_ok s.

Lemma no_target_ok : target_ok no_target.
Proof. split; vm_compute; try done; repeat constructor; congruence. Qed.

Lemma target_of_ok s id : scsi_base s → target_ok (target_of s id).
Proof.
  intros Hs. unfold target_of. rewrite nth_lookup.
  destruct (scsi_targets s !! _) eqn:E; simpl; [|apply no_target_ok].
  exact (Forall_lookup_1 _ _ _ _ (so_target s Hs) E).
Qed.

Lemma set_target_of id t s : length (scsi_targets s) = 7%nat → 0 ≤ id < 7 →
  target_of (set_target id t s) id = t.
Proof.
  intros Hl Hid. unfold target_of, set_target. cbn [scsi_targets set_scsi_targets].
  rewrite nth_lookup, list_lookup_insert_eq; [done|lia].
Qed.

Lemma set_target_other id j t s : 0 ≤ id → 0 ≤ j → id ≠ j →
  target_of (set_target id t s) j = target_of s j.
Proof.
  intros. unfold target_of, set_target. cbn [scsi_targets set_scsi_targets].
  rewrite !nth_lookup, list_lookup_insert_ne; [done|lia].
Qed.

Lemma cdb_byte s i : scsi_base s → byte (cdb_at s i).
Proof. intros Hs. unfold cdb_at. apply (znth_Forall byte); [by vm_compute|apply (so_cdb_bytes s Hs)]. Qed.

Ltac bytes :=
  repeat apply Forall_cons_2; try apply Forall_nil_2; try done; try apply u8_range.

(** Leaving the data and command phases is always fine. *)
Lemma finish_ok v s : scsi_base s → scsi_ok (scsi_finish v s).
Proof.
  intros [? ? ? ? ? ? ? Hl]. decompose_Forall. unfold scsi_finish.
  split; split; cbn in *; try done. bytes.
Qed.

Lemma set_data_in_ok p len s : scsi_base s → p ≠ PtrNull → 0 < len < 0x100000000 →
  len ≤ Z.of_nat (length (ptr_object s p)) → scsi_ok (scsi_set_data_in p len s).
Proof.
  intros [? ? ? ? ? ? ? Hl] Hp Hlen Hobj. decompose_Forall. unfold scsi_set_data_in.
  split; split; cbn in *; try done; [bytes|].
  intros _. unfold buffer_ok. cbn. rewrite (u32_small len) by lia.
  change (u32 0) with 0. repeat split; try lia; try done; by destruct p.
Qed.

Lemma set_data_out_ok p len s : scsi_base s → 0 < len < 0x100000000 →
  len ≤ Z.of_nat (length (ptr_object s p)) → writable_ptr s p →
  scsi_ok (scsi_set_data_out p len s).
Proof.
  intros [? ? ? ? ? ? ? Hl] Hlen Hobj Hw. decompose_Forall. unfold scsi_set_data_out.
  split; split; cbn in *; try done; [bytes|].
  intros _. unfold buffer_ok. cbn. rewrite (u32_small len) by lia.
  change (u32 0) with 0. by repeat split; try lia; destruct p.
Qed.

(** The address and count decoded from a command block. *)
Lemma lba6_range s : scsi_base s → 0 ≤ lba6 s < 2 ^ 32.
Proof.
  intros Hs. unfold lba6. pose proof (cdb_byte s 3 Hs). unfold byte in *.
  repeat apply lor_range; try lia; apply u32_range.
Qed.
Lemma lba10_range s : scsi_base s → 0 ≤ lba10 s < 2 ^ 32.
Proof.
  intros Hs. unfold lba10. pose proof (cdb_byte s 5 Hs). unfold byte in *.
  repeat apply lor_range; try lia; apply u32_range.
Qed.
Lemma count6_range s : scsi_base s → 0 < count6 s ≤ 256.
Proof.
  intros Hs. unfold count6. pose proof (cdb_byte s 4 Hs). unfold byte, nz in *.
  destruct (Z.eqb_spec (cdb_at s 4) 0); simpl; lia.
Qed.
Lemma count10_range s : scsi_base s → 0 ≤ count10 s < 2 ^ 16.
Proof.
  intros Hs. unfold count10. pose proof (cdb_byte s 7 Hs). pose proof (cdb_byte s 8 Hs).
  unfold byte in *. apply lor_range; [lia| |lia].
  rewrite Z.shiftl_mul_pow2 by lia. rewrite u32_small by lia. lia.
Qed.

(** What the bounds check on a READ or WRITE gives. *)
Lemma blocks_in_image s id lba n :
  scsi_base s → 0 ≤ lba < 2 ^ 32 → 0 < n < 2 ^ 16 →
  (tgt_blocks (target_of s id) <? u64 (lba + n)) = false →
  0 < n * 512 < 0x100000000 ∧ u32 (lba * 512) = lba * 512 ∧ u32 (n * 512) = n * 512 ∧
  n * 512 ≤ Z.of_nat (length (ptr_object s (PtrImage id (lba * 512)))).
Proof.
  intros Hs Hl Hn Hb. apply Z.ltb_ge in Hb. rewrite u64_small in Hb by lia.
  destruct (target_of_ok s id Hs) as [_ Hlen Hsm Hbl _ _].
  rewrite !u32_small by lia. repeat split; try lia.
  unfold ptr_object. rewrite length_drop. lia.
Qed.

Lemma read_blocks_ok s lba n : scsi_base s → 0 ≤ lba < 2 ^ 32 → 0 < n < 2 ^ 16 →
  scsi_ok (scsi_read_blocks lba n s).
Proof.
  intros Hs Hl Hn. unfold scsi_read_blocks. destruct (_ <? _) eqn:E; [by apply finish_ok|].
  destruct (blocks_in_image _ _ _ _ Hs Hl Hn E) as (? & -> & -> & ?).
  by apply set_data_in_ok.
Qed.

Lemma write_blocks_ok s lba n : scsi_base s → 0 ≤ scsi_target_id s →
  0 ≤ lba < 2 ^ 32 → 0 < n < 2 ^ 16 → scsi_ok (scsi_write_blocks lba n s).
Proof.
  intros Hs Hid Hl Hn. unfold scsi_write_blocks. destruct (_ <? _) eqn:E; [by apply finish_ok|].
  destruct (tgt_write_protect _) eqn:Ewp; [by apply finish_ok|].
  destruct (blocks_in_image _ _ _ _ Hs Hl Hn E) as (? & -> & -> & ?).
  apply set_data_out_ok; try done. pose proof (so_id s Hs). repeat split; try lia; done.
Qed.

Lemma reply_ok s b : scsi_base s → length b = 64%nat → Forall byte b →
  scsi_base (set_scsi_reply_buf b s).
Proof. intros [? ? ? ? ? ? ? ?] Hl Hb. by split. Qed.

Lemma reply_set_ok s l : scsi_base s → scsi_base (reply_set l s).
Proof.
  intros Hs. unfold reply_set.
  assert (∀ b, length b = 64%nat → Forall byte b →
    let b' := fold_left (λ b '(i, v), zset b i (u8 v)) l b in
    length b' = 64%nat ∧ Forall byte b') as H.
  { induction l as [|[i v] l IH]; intros b Hb Hf; [done|]. simpl. apply IH.
    - by rewrite zset_length.
    - apply zset_Forall; [apply u8_range|done]. }
  destruct (H _ (so_reply s Hs) (so_reply_bytes s Hs)). by apply reply_ok.
Qed.

Lemma reply_clear_ok s n : (n ≤ 64)%nat → scsi_base s → scsi_base (reply_clear n s).
Proof.
  intros Hn Hs. apply reply_ok; [done| |].
  - rewrite length_app, length_replicate, length_drop, (so_reply s Hs). lia.
  - apply Forall_app_2; [by apply Forall_replicate|]. apply Forall_drop, (so_reply_bytes s Hs).
Qed.

#[local] Hint Resolve finish_ok set_data_in_ok reply_set_ok reply_clear_ok : core.

Lemma execute_ok s : scsi_base s → scsi_ok (scsi_execute s).
Proof.
  intros Hs. unfold scsi_execute.
  destruct (negb _ || negb _) eqn:Eid; [auto|]. apply orb_false_iff in Eid as [Eid _].
  apply negb_false_iff, andb_true_iff in Eid as [Hid _]. apply Z.leb_le in Hid.
  pose proof (lba6_range s Hs). pose proof (count6_range s Hs).
  pose proof (lba10_range s Hs). pose proof (count10_range s Hs).
  assert (∀ x, scsi_base x → Z.of_nat (length (ptr_object x PtrReply)) = 64) as Hlen.
  { intros x Hx. simpl. by rewrite (so_reply x Hx). }
  assert (Z.of_nat (length (ptr_object s (PtrInquiry (scsi_target_id s)))) = 36) as Hinq.
  { simpl. by rewrite (to_inquiry _ (target_of_ok s (scsi_target_id s) Hs)). }
  assert (∀ l n, (n ≤ 64)%nat → scsi_base (reply_set l (reply_clear n s))) by auto.
  assert (∀ l, scsi_base (reply_set l s)) by auto.
  repeat case_match;
    repeat match goal with E : (count10 s =? 0) = false |- _ => apply Z.eqb_neq in E end; auto;
    first [ apply read_blocks_ok | apply write_blocks_ok
          | apply set_data_in_ok; rewrite ?Hinq, ?Hlen by auto with lia]; first [done | lia | auto with lia].
Qed.

Lemma select_ok s : scsi_base s → scsi_ok (scsi_select s).
Proof.
  intros Hs. unfold scsi_select. destruct (list_find _ _) as [[i sel]|] eqn:E.
  - apply list_find_Some in E as (Hi & _ & _).
    assert (0 ≤ sel < 7) as Hsel.
    { apply list_elem_of_lookup_2, list_elem_of_In in Hi. simpl in Hi. lia. }
    destruct Hs as [? ? ? ? ? ? ? Hl]. decompose_Forall.
    split; split; cbn in *; try done; [lia|bytes|by left].
  - destruct Hs as [? ? ? ? ? ? ? Hl]. decompose_Forall.
    split; split; cbn in *; try done; bytes.
Qed.

Lemma cdb_length_for_cases v : cdb_length_for v = 6 ∨ cdb_length_for v = 10 ∨ cdb_length_for v = 12.
Proof. unfold cdb_length_for. repeat case_match; auto. Qed.

(** Changes of the command block keep the base; so does clocking a latch. *)
Lemma base_cdb s p l b : scsi_base s → length b = 12%nat → Forall byte b →
  scsi_base (set_scsi_cdb_len l (set_scsi_cdb_pos p (set_scsi_cdb b s))).
Proof. intros [? ? ? ? ? ? ? ?] Hl Hb. by split. Qed.

Lemma recv_cdb_byte_ok v s : scsi_ok s → byte v → scsi_phase s = SCSI_PHASE_COMMAND →
  scsi_ok (scsi_recv_cdb_byte v s).
Proof.
  intros [Hs [Hc _ _]] Hv Hp. specialize (Hc Hp).
  assert ((scsi_cdb_pos s <? 12) = true) as Hlt by (apply Z.ltb_lt; lia).
  unfold scsi_recv_cdb_byte. rewrite Hlt.
  set (s2 := if _ =? 1 then _ else _).
  assert (scsi_base s2 ∧ scsi_phase s2 = SCSI_PHASE_COMMAND ∧
    scsi_cdb_pos s2 = scsi_cdb_pos s + 1 ∧ scsi_cdb_len s2 ≤ 12) as (Hb & Hp2 & Hpos & Hlen).
  { assert (Forall byte (zset (scsi_cdb s) (scsi_cdb_pos s) v)) as Hf.
    { apply zset_Forall; [done|apply Hs]. }
    assert (length (zset (scsi_cdb s) (scsi_cdb_pos s) v) = 12%nat) as Hl.
    { rewrite zset_length. apply Hs. }
    unfold s2. cbn [scsi_cdb_pos set_scsi_cdb_pos]. rewrite (u8_small (_ + 1)) by lia.
    destruct (Z.eqb_spec (scsi_cdb_pos s + 1) 1); cbn.
    - split; [by apply base_cdb|]. split; [done|]. rewrite u8_small by lia. split; [done|].
      pose proof (cdb_length_for_cases v). rewrite u8_small; lia.
    - split; [|split; [done|]; rewrite u8_small by lia; split; [done|]; lia].
      destruct Hs. by split. }
  destruct (Z.leb_spec (scsi_cdb_len s2) (scsi_cdb_pos s2)); [by apply execute_ok|].
  split; [done|]. split; intros Hq; rewrite Hp2 in Hq; try done. right. lia.
Qed.

(** ** Data transfers *)

Lemma data_read_ok s : scsi_ok s → scsi_phase s = SCSI_PHASE_DATA_IN →
  ∃ v, data_read (scsi_data_pos s) s = Some (v, s) ∧ byte v.
Proof.
  intros [Hs [_ Hi _]] Hp. destruct (Hi Hp) as (Hn & Hpos & Hlt & Hobj). unfold data_read.
  destruct (ptr_object s (scsi_data s) !! Z.to_nat (scsi_data_pos s)) as [v|] eqn:E.
  - exists v. split; [done|].
    assert (Forall byte (ptr_object s (scsi_data s))) as Hf.
    { destruct (scsi_data s); simpl; [done| | |apply Hs].
      - apply Forall_drop, (target_of_ok s id Hs).
      - apply (target_of_ok s id Hs). }
    exact (Forall_lookup_1 _ _ _ _ Hf E).
  - apply lookup_ge_None in E. lia.
Qed.

Lemma advance_ok s : scsi_base s → buffer_ok s →
  (scsi_phase s = SCSI_PHASE_DATA_IN ∨
   scsi_phase s = SCSI_PHASE_DATA_OUT ∧ writable_ptr s (scsi_data s)) →
  scsi_ok (advance s).
Proof.
  intros Hs (Hn & Hpos & Hlt & Hobj) Hp.
  assert (scsi_base (set_scsi_data_pos (scsi_data_pos s + 1) s)) as Hb.
  { destruct Hs. by split. }
  unfold advance. set (s1 := set_scsi_data_pos _ _) in *.
  destruct (Z.leb_spec (scsi_data_len s1) (scsi_data_pos s1)) as [|Hl]; [by apply finish_ok|].
  unfold s1 in Hl. cbn in Hl. rewrite u32_small in Hl by lia.
  assert (buffer_ok s1) as Hbuf.
  { unfold buffer_ok, s1. cbn. rewrite u32_small by lia. by destruct (scsi_data s); repeat split; try lia. }
  split; [done|]. destruct Hp as [Hp|[Hp Hw]]; split; unfold s1; cbn; by rewrite Hp.
Qed.

Lemma set_image_ok s id img : scsi_base s → 0 ≤ id < 7 →
  length img = length (tgt_image (target_of s id)) → Forall byte img →
  scsi_base (set_target id (set_tgt_image img (target_of s id)) s).
Proof.
  intros Hs Hid Hl Hf. pose proof (target_of_ok s id Hs) as [? ? ? ? ? ?].
  destruct Hs. split; cbn; try done.
  - by rewrite length_insert.
  - apply Forall_insert; [done|]. split; cbn; try done. by rewrite Hl.
Qed.

Lemma ptr_image_length s id img off : 0 ≤ id < 7 → length (scsi_targets s) = 7%nat →
  length img = length (tgt_image (target_of s id)) →
  length (ptr_object (set_target id (set_tgt_image img (target_of s id)) s) (PtrImage id off)) =
  length (ptr_object s (PtrImage id off)).
Proof.
  intros ? ? Hl. unfold ptr_object. rewrite set_target_of by done. rewrite !length_drop.
  unfold set_tgt_image. cbn [tgt_image]. by rewrite Hl.
Qed.

Lemma data_write_ok s v : scsi_ok s → scsi_phase s = SCSI_PHASE_DATA_OUT → byte v →
  ∃ s', data_write (scsi_data_pos s) v s = Some (tt, s') ∧ scsi_ok (advance s').
Proof.
  intros [Hs [_ _ Ho]] Hp Hv. destruct (Ho Hp) as ((Hn & Hpos & Hlt & Hobj) & Hw).
  unfold data_write. destruct (Z.leb_spec (Z.of_nat (length (ptr_object s (scsi_data s))))
    (scsi_data_pos s)); [lia|].
  destruct (scsi_data s) as [|id off|id|] eqn:Ed; try done. destruct Hw as (Hid & Hoff & Hwp).
  eexists. split; [done|]. set (t' := set_tgt_image _ _).
  assert (length (tgt_image t') = length (tgt_image (target_of s id))) as Hlen by apply zset_length.
  pose proof (target_of_ok s id Hs) as Ht. pose proof (so_targets s Hs) as H7.
  apply advance_ok.
  - apply set_image_ok; try done. apply zset_Forall; [done|]. apply Ht.
  - unfold buffer_ok. change (scsi_data (set_target id t' s)) with (scsi_data s). rewrite Ed.
    split; [done|]. split; [done|]. split; [done|].
    unfold t'. by rewrite ptr_image_length by (try done; apply zset_length).
  - right. split; [done|]. change (scsi_data (set_target id t' s)) with (scsi_data s). rewrite Ed.
    unfold writable_ptr. by rewrite set_target_of.
Qed.

(** ** The guest's view: register reads and writes *)

Inductive scsi_op := ScsiRead (reg : Z) | ScsiWrite (reg val : Z).
Definition scsi_access (o : scsi_op) : M mac_scsi Z :=
  match o with
  | ScsiRead reg => mac_scsi_reg_read reg
  | ScsiWrite reg val => mac_scsi_reg_write reg (u8 val) ;; mret 0
  end.

Lemma read_data_ok s : scsi_ok s →
  ∃ v s', scsi_read_data s = Some (v, s') ∧ byte v ∧ scsi_ok s'.
Proof.
  intros Hs. unfold scsi_read_data. destruct (transferring _ _) eqn:Et.
  - apply andb_true_iff in Et as [Et _]. apply andb_true_iff in Et as [Et _].
    apply Z.eqb_eq in Et. destruct (data_read_ok s Hs Et) as (v & Hr & Hv).
    rewrite (bind_Some _ _ _ _ _ Hr). eexists _, _. split; [reflexivity|]. split; [done|].
    destruct Hs as [Hb [_ Hi _]]. apply advance_ok; auto.
  - destruct Hs as [[? ? ? ? ? ? ? Hl] Hp]. decompose_Forall.
    destruct (_ =? SCSI_PHASE_STATUS); [|destruct (_ =? SCSI_PHASE_MSG_IN)];
      eexists _, _; (split; [reflexivity|]); (split; [done|]);
      (split; [split; cbn; try done; [..|bytes]|split; cbn; try done; apply Hp]); lia.
Qed.

Lemma write_odr_ok s v : scsi_ok s → byte v → ∃ s', scsi_write_odr v s = Some (tt, s') ∧ scsi_ok s'.
Proof.
  intros Hs Hv. assert (scsi_ok (set_scsi_odr v s)) as H1.
  { destruct Hs as [[? ? ? ? ? ? ? Hl] [? ? ?]]. decompose_Forall.
    split; split; cbn; try done. bytes. }
  unfold scsi_write_odr. set (s1 := set_scsi_odr v s) in *. destruct (transferring _ _) eqn:Et.
  - apply andb_true_iff in Et as [Et _]. apply andb_true_iff in Et as [Et _].
    apply Z.eqb_eq in Et. destruct (data_write_ok s1 v H1 Et Hv) as (s2 & Hw & H2).
    rewrite (bind_Some _ _ _ _ _ Hw). by eexists.
  - destruct (Z.eqb_spec (scsi_phase s1) SCSI_PHASE_COMMAND); eexists; (split; [reflexivity|]);
      [by apply recv_cdb_byte_ok|done].
Qed.

Lemma write_icr_ok s v : scsi_ok s → scsi_ok (scsi_write_icr v s).
Proof.
  intros Hs. assert (∀ x, scsi_ok x → scsi_ok
    (set_scsi_tcr 0 (set_scsi_target_id (-1) (set_scsi_phase SCSI_PHASE_BUS_FREE x)))) as Hreset.
  { intros x [[? ? ? ? ? ? ? Hl] _]. decompose_Forall. split; split; cbn; try done; bytes. }
  assert (scsi_ok (set_scsi_icr v s)) as H1.
  { destruct Hs as [[? ? ? ? ? ? ? Hl] [? ? ?]]. decompose_Forall.
    split; split; cbn; try done. bytes. }
  unfold scsi_write_icr. set (s1 := set_scsi_icr v s) in *.
  assert (scsi_ok (scsi_select (set_scsi_phase SCSI_PHASE_SELECTION s1))) as H2.
  { apply select_ok. destruct H1 as [[? ? ? ? ? ? ? Hl] _]. by split. }
  repeat case_match; auto.
Qed.

(** From a well-formed controller every access is defined, returns a byte and
    leaves a well-formed controller. *)
Lemma scsi_access_ok o s : scsi_ok s →
  ∃ v s', scsi_access o s = Some (v, s') ∧ byte v ∧ scsi_ok s'.
Proof.
  intros Hs. destruct o as [reg|reg val]; unfold scsi_access.
  - assert (0 ≤ reg .& 7 < 8) as Hr by (apply land_range_r; lia).
    assert (byte (scsi_icr s) ∧ byte (scsi_mr s) ∧ byte (scsi_tcr s)) as (? & ? & ?).
    { destruct Hs as [[? ? ? ? ? ? ? Hl] _]. by decompose_Forall. }
    assert (byte (scsi_bus_status s)) by (unfold scsi_bus_status; by repeat case_match).
    unfold mac_scsi_reg_read.
    assert (reg .& 7 = 0 ∨ reg .& 7 = 1 ∨ reg .& 7 = 2 ∨ reg .& 7 = 3 ∨ reg .& 7 = 4 ∨
      reg .& 7 = 5 ∨ reg .& 7 = 6 ∨ reg .& 7 = 7) as Hcase by lia.
    destruct Hcase as [-> | [-> | [-> | [-> | [-> | [-> | [-> | ->]]]]]]];
      first [by apply read_data_ok | eexists _, _; split; [reflexivity|split; try done]].
    by case_match.
  - assert (∃ s', mac_scsi_reg_write reg (u8 val) s = Some (tt, s') ∧ scsi_ok s') as (s' & E & H').
    { destruct (write_odr_ok s (u8 val) Hs (u8_range val)) as (s0 & E0 & H0).
      pose proof (write_icr_ok s (u8 val) Hs) as Hicr.
      assert (scsi_ok (set_scsi_mr (u8 val) s) ∧ scsi_ok (set_scsi_tcr (u8 val) s) ∧
        scsi_ok (set_scsi_ser (u8 val) s)) as (? & ? & ?).
      { destruct Hs as [[? ? ? ? ? ? ? Hl] [? ? ?]]. decompose_Forall.
        split_and!; split; split; cbn; try done; bytes. }
      unfold mac_scsi_reg_write. repeat case_match; eauto; by eexists. }
    rewrite (bind_Some _ _ _ _ _ E). eexists _, _. split; [reflexivity|]. by split.
Qed.

(** ** Whole commands *)

(** The initiator's loops: one byte per access to register 0. *)
Fixpoint send (l : list Z) : M mac_scsi unit :=
  match l with
  | [] => mret tt
  | v :: l => mac_scsi_reg_write 0 v ;; send l
  end.
Fixpoint receive (n : nat) : M mac_scsi (list Z) :=
  match n with
  | O => mret []
  | S n => v ← mac_scsi_reg_read 0; l ← receive n; mret (v :: l)
  end.

Lemma send_app l k s : send (l ++ k) s = (send l ;; send k) s.
Proof.
  revert s. induction l as [|v l IH]; intros s; [done|]. cbn [app send].
  rewrite bind_assoc. unfold mbind, M_bind. destruct (mac_scsi_reg_write 0 v s) as [[u s']|]; [|done].
  apply IH.
Qed.

Lemma ptr_object_pos v s p : ptr_object (set_scsi_data_pos v s) p = ptr_object s p.
Proof. by destruct p. Qed.

(** A data-in phase hands over its buffer, byte by byte, then turns to status. *)
Lemma receive_data n s : scsi_phase s = SCSI_PHASE_DATA_IN → scsi_data s ≠ PtrNull →
  0 ≤ scsi_data_pos s → scsi_data_len s = scsi_data_pos s + Z.of_nat (S n) →
  scsi_data_len s < 0x100000000 →
  scsi_data_len s ≤ Z.of_nat (length (ptr_object s (scsi_data s))) →
  receive (S n) s = Some (take (S n) (drop (Z.to_nat (scsi_data_pos s)) (ptr_object s (scsi_data s))),
    scsi_finish 0 (set_scsi_data_pos (scsi_data_len s) s)).
Proof.
  revert s. induction n as [|n IH]; intros s Hp Hn Hpos Hlen Hlt Hobj.
  all: destruct (lookup_lt_is_Some_2 (ptr_object s (scsi_data s)) (Z.to_nat (scsi_data_pos s)))
    as [v Hv]; [lia|].
  all: assert (mac_scsi_reg_read 0 s = Some (v, advance s)) as Hread.
  1,3: change (mac_scsi_reg_read 0 s) with (scsi_read_data s);
    unfold scsi_read_data, transferring; rewrite Hp, Z.eqb_refl;
    rewrite (proj2 (Z.ltb_lt (scsi_data_pos s) (scsi_data_len s))) by lia;
    replace (negb (ptr_is_null (scsi_data s))) with true by (by destruct (scsi_data s));
    cbn [andb]; rewrite (bind_Some _ _ s v s); [done|]; unfold data_read; by rewrite Hv.
  all: cbn [receive] in *; rewrite (bind_Some _ _ _ _ _ Hread);
    rewrite (drop_S _ _ _ Hv); cbn [take]; unfold advance;
    cbn [scsi_data_len scsi_data_pos set_scsi_data_pos]; rewrite (u32_small (_ + 1)) by lia.
  - rewrite (proj2 (Z.leb_le _ _)) by lia. rewrite take_0.
    replace (scsi_data_pos s + 1) with (scsi_data_len s) by lia. done.
  - rewrite (proj2 (Z.leb_gt _ _)) by lia.
    rewrite (bind_Some _ _ _ _ _ (IH (set_scsi_data_pos (scsi_data_pos s + 1) s) ltac:(done)
      ltac:(done) ltac:(cbn; rewrite u32_small by lia; lia)
      ltac:(cbn; rewrite u32_small by lia; lia) ltac:(done)
      ltac:(by rewrite ptr_object_pos))).
    rewrite ptr_object_pos.
    cbn [scsi_data_pos scsi_data scsi_data_len set_scsi_data_pos].
    rewrite (u32_small (_ + 1)) by lia.
    replace (Z.to_nat (scsi_data_pos s + 1)) with (S (Z.to_nat (scsi_data_pos s))) by lia.
    done.
Qed.

(** The controller once [l] has been stored at [pos] of the buffer. *)
Definition stored (id off pos : Z) (l : list Z) (s : mac_scsi) : mac_scsi :=
  let t := target_of s id in
  set_target id (set_tgt_image (list_inserts (Z.to_nat (off + pos)) l (tgt_image t)) t) s.

Lemma stored_cons id off pos v l s : length (scsi_targets s) = 7%nat → 0 ≤ id < 7 →
  0 ≤ off → 0 ≤ pos →
  stored id off (pos + 1) l
    (set_target id (set_tgt_image (zset (tgt_image (target_of s id)) (off + pos) v) (target_of s id)) s)
  = stored id off pos (v :: l) s.
Proof.
  intros H7 Hid Hoff Hpos. unfold stored. rewrite set_target_of by done.
  unfold set_target at 1. cbn [scsi_targets set_scsi_targets set_target].
  unfold set_target. cbn [tgt_image set_tgt_image list_inserts].
  rewrite list_insert_insert_eq. unfold set_tgt_image.
  cbn [tgt_present tgt_write_protect tgt_bytes tgt_blocks tgt_inquiry tgt_image].
  unfold zset. replace (Z.to_nat (off + (pos + 1))) with (S (Z.to_nat (off + pos))) by lia.
  rewrite (list_insert_inserts_lt _ (Z.to_nat (off + pos))) by lia. done.
Qed.

(** A data-out phase stores what it is sent at consecutive offsets. *)
Lemma send_data l id off s : length (scsi_targets s) = 7%nat → 0 ≤ id < 7 → 0 ≤ off →
  scsi_phase s = SCSI_PHASE_DATA_OUT → scsi_data s = PtrImage id off → l ≠ [] →
  0 ≤ scsi_data_pos s → scsi_data_len s = scsi_data_pos s + Z.of_nat (length l) →
  scsi_data_len s < 0x100000000 →
  off + scsi_data_len s ≤ Z.of_nat (length (tgt_image (target_of s id))) →
  send l s = Some (tt, scsi_finish 0 (set_scsi_data_pos (scsi_data_len s)
    (set_scsi_odr (List.last l 0) (stored id off (scsi_data_pos s) l s)))).
Proof.
  revert s. induction l as [|v l IH]; intros s H7 Hid Hoff Hp Hd Hl Hpos Hlen Hlt Hobj; [done|].
  set (s1 := set_target id (set_tgt_image
    (zset (tgt_image (target_of s id)) (off + scsi_data_pos s) v) (target_of s id)) (set_scsi_odr v s)).
  assert (mac_scsi_reg_write 0 v s = Some (tt, advance s1)) as Hw.
  { change (mac_scsi_reg_write 0 v s) with (scsi_write_odr v s). unfold scsi_write_odr.
    replace (transferring SCSI_PHASE_DATA_OUT (set_scsi_odr v s)) with true.
    2:{ unfold transferring. cbn [scsi_phase scsi_data scsi_data_pos scsi_data_len set_scsi_odr].
        rewrite Hp, Hd, (proj2 (Z.ltb_lt _ _)) by (simpl in Hlen; lia). done. }
    rewrite (bind_Some _ _ _ tt s1); [done|]. unfold data_write.
    cbn [scsi_data scsi_data_pos set_scsi_odr]. rewrite Hd.
    rewrite (proj2 (Z.leb_gt _ _)); [done|]. cbn [ptr_object]. rewrite length_drop.
    change (target_of (set_scsi_odr v s) id) with (target_of s id). simpl in Hlen. lia. }
  cbn [send]. rewrite (bind_Some _ _ _ _ _ Hw). unfold advance.
  assert (scsi_data_pos (set_scsi_data_pos (scsi_data_pos s1 + 1) s1) = scsi_data_pos s + 1) as Epos.
  { cbn. apply u32_small. simpl in Hlen. lia. }
  rewrite Epos. change (scsi_data_len (set_scsi_data_pos (scsi_data_pos s1 + 1) s1)) with (scsi_data_len s).
  destruct l as [|v2 l].
  - rewrite (proj2 (Z.leb_le _ _)) by (simpl in Hlen; lia). cbn [send List.last].
    unfold mret, M_ret. f_equal. f_equal. unfold stored. cbn [list_inserts]. unfold zset in s1.
    change (scsi_data_pos s1) with (scsi_data_pos s).
    replace (scsi_data_len s) with (scsi_data_pos s + 1) by (simpl in Hlen; lia). done.
  - rewrite (proj2 (Z.leb_gt _ _)) by (simpl in Hlen |- *; lia).
    assert (target_of s1 id = set_tgt_image
      (zset (tgt_image (target_of s id)) (off + scsi_data_pos s) v) (target_of s id)) as Et
      by (apply set_target_of; done).
    rewrite IH; try done.
    + rewrite Epos. cbn [scsi_data_len set_scsi_data_pos].
      change (scsi_data_len s1) with (scsi_data_len s).
      rewrite <- (stored_cons id off (scsi_data_pos s) v) by done. done.
    + change (length (<[Z.to_nat id := set_tgt_image (zset (tgt_image (target_of s id))
        (off + scsi_data_pos s) v) (target_of s id)]> (scsi_targets s)) = 7%nat).
      by rewrite length_insert.
    + rewrite Epos. lia.
    + rewrite Epos. change (scsi_data_len s = scsi_data_pos s + 1 + Z.of_nat (length (v2 :: l))).
      simpl in Hlen |- *. lia.
    + change (off + scsi_data_len s ≤ Z.of_nat (length (tgt_image (target_of s1 id)))).
      rewrite Et. cbn [tgt_image set_tgt_image]. by rewrite zset_length.
Qed.

(** Arbitration and selection of target [id], and the ten-byte READ and WRITE. *)
Definition select_target (id : Z) : M mac_scsi unit :=
  mac_scsi_reg_write 0 (1 ≪ id) ;; mac_scsi_reg_write 1 ICR_SEL ;; mac_scsi_reg_write 1 0.
Definition cdb10 (op lba n : Z) : list Z :=
  [op; 0; lba / 0x1000000; (lba / 0x10000) mod 0x100; (lba / 0x100) mod 0x100; lba mod 0x100; 0;
   n / 0x100; n mod 0x100; 0].

(** WRITE(10) of [data] at [lba]: the status and message bytes that end it. *)
Definition write10 (id lba : Z) (data : list Z) : M mac_scsi (Z * Z) :=
  select_target id ;; send (cdb10 0x2A lba (Z.of_nat (length data) / 512)) ;; send data ;;
  status ← mac_scsi_reg_read 0; message ← mac_scsi_reg_read 0; mret (status, message).
Definition read10 (id lba n : Z) : M mac_scsi (list Z * Z * Z) :=
  select_target id ;; send (cdb10 0x28 lba n) ;; l ← receive (Z.to_nat (n * 512));
  status ← mac_scsi_reg_read 0; message ← mac_scsi_reg_read 0; mret (l, status, message).

Definition idle (s : mac_scsi) : Prop :=
  scsi_ok s ∧ scsi_phase s = SCSI_PHASE_BUS_FREE ∧ nz (scsi_icr s .& ICR_SEL) = false.

Definition selected (id : Z) (s : mac_scsi) : mac_scsi :=
  mk_scsi (1 ≪ id) 0 (scsi_mr s) SCSI_SR_CD (scsi_ser s) SCSI_PHASE_COMMAND id (scsi_cdb s) 0 0
    (scsi_data s) (scsi_data_len s) (scsi_data_pos s) (scsi_data_to_initiator s) (scsi_status s)
    (scsi_message s) (scsi_reply_buf s) (scsi_targets s).

Lemma one_shiftl k : 0 ≤ k → 1 ≪ k = 2 ^ k.
Proof. intros. rewrite Z.shiftl_mul_pow2 by done. lia. Qed.

Lemma select_target_eq id s : idle s → 0 ≤ id < 7 → tgt_present (target_of s id) = true →
  select_target id s = Some (tt, selected id s).
Proof.
  intros (Hs & Hp & Hsel) Hid Ht. unfold select_target.
  set (s1 := set_scsi_odr (1 ≪ id) s).
  assert (mac_scsi_reg_write 0 (1 ≪ id) s = Some (tt, s1)) as E1.
  { change (mac_scsi_reg_write 0 (1 ≪ id) s) with (scsi_write_odr (1 ≪ id) s).
    unfold scsi_write_odr, transferring. cbn [scsi_phase set_scsi_odr]. by rewrite Hp. }
  rewrite (bind_Some _ _ _ _ _ E1).
  assert (mac_scsi_reg_write 1 ICR_SEL s1 = Some (tt, set_scsi_icr ICR_SEL (selected id s))) as E2.
  { change (mac_scsi_reg_write 1 ICR_SEL s1) with (Some (tt, scsi_write_icr ICR_SEL s1)).
    unfold scsi_write_icr. change (scsi_icr s1) with (scsi_icr s). rewrite Hsel.
    cbn [andb negb]. change (nz (ICR_SEL .& ICR_SEL) && true && negb (nz (ICR_SEL .& ICR_BSY)))
      with true. change (nz (ICR_SEL .& ICR_RST)) with false. cbv iota.
    assert (u8 (1 ≪ id) = 2 ^ id) as Hu.
    { rewrite Z.shiftl_mul_pow2, Z.mul_1_l by lia. apply u8_small.
      split; [lia|]. change 0x100 with (2 ^ 8). apply Z.pow_lt_mono_r; lia. }
    assert (list_find (λ id0, nz (u8 (1 ≪ id) .& (1 ≪ id0)) && tgt_present (target_of s id0) = true)
      (upto 7) = Some (Z.to_nat id, id)) as Hf.
    { apply list_find_Some. rewrite Hu. split; [|split].
      - unfold upto. rewrite list_lookup_fmap, lookup_seq_lt by lia. simpl. f_equal. lia.
      - by rewrite one_shiftl, nz_land_pow2, Z.pow2_bits_true, Ht by lia.
      - intros j y Hy Hj. unfold upto in Hy.
        rewrite list_lookup_fmap, lookup_seq_lt in Hy by lia. simplify_eq/=.
        rewrite one_shiftl, nz_land_pow2, Z.pow2_bits_false by lia. done. }
    unfold scsi_select. change (target_of (set_scsi_phase _ _)) with (target_of s).
    change (scsi_odr (set_scsi_phase _ _)) with (u8 (1 ≪ id)). rewrite Hf.
    unfold selected. rewrite one_shiftl, <- Hu by lia. destruct s. reflexivity. }
  rewrite (bind_Some _ _ _ _ _ E2). by destruct s.
Qed.

(** Ten command bytes run the command. *)
Definition commanded (c : list Z) (s : mac_scsi) : mac_scsi :=
  set_scsi_odr (List.last c 0) (set_scsi_cdb (list_inserts 0 c (scsi_cdb s))
    (set_scsi_cdb_len 10 (set_scsi_cdb_pos 10 s))).

Lemma send_cdb_byte v s : scsi_phase s = SCSI_PHASE_COMMAND →
  mac_scsi_reg_write 0 v s = Some (tt, scsi_recv_cdb_byte v (set_scsi_odr v s)).
Proof.
  intros Hp. change (mac_scsi_reg_write 0 v s) with (scsi_write_odr v s).
  unfold scsi_write_odr, transferring. cbn [scsi_phase set_scsi_odr]. by rewrite Hp.
Qed.

(** The bytes after the first, up to the last. *)
Lemma send_cdb_tail l v s : scsi_phase s = SCSI_PHASE_COMMAND → scsi_cdb_len s = 10 →
  0 < scsi_cdb_pos s → scsi_cdb_pos s + Z.of_nat (length (v :: l)) = 10 →
  send (v :: l) s = Some (tt, scsi_execute (set_scsi_odr (List.last (v :: l) 0)
    (set_scsi_cdb (list_inserts (Z.to_nat (scsi_cdb_pos s)) (v :: l) (scsi_cdb s))
      (set_scsi_cdb_pos 10 s)))).
Proof.
  revert v s. induction l as [|v2 l IH]; intros v s Hp Hl Hpos Hsum; cbn [send];
    rewrite (bind_Some _ _ _ _ _ (send_cdb_byte v s Hp)); unfold scsi_recv_cdb_byte;
    change (scsi_cdb_pos (set_scsi_odr v s)) with (scsi_cdb_pos s);
    rewrite (proj2 (Z.ltb_lt _ _)) by (simpl in Hsum; lia);
    change (scsi_cdb_pos (set_scsi_cdb_pos (scsi_cdb_pos s + 1) _)) with (u8 (scsi_cdb_pos s + 1));
    rewrite u8_small by (simpl in Hsum; lia); rewrite (proj2 (Z.eqb_neq _ _)) by lia;
    change (scsi_cdb_pos (set_scsi_cdb_pos (scsi_cdb_pos s + 1) _)) with (u8 (scsi_cdb_pos s + 1));
    change (scsi_cdb_len (set_scsi_cdb_pos (scsi_cdb_pos s + 1) _)) with (scsi_cdb_len s);
    rewrite Hl, u8_small by (simpl in Hsum; lia).
  - simpl in Hsum. rewrite (proj2 (Z.leb_le _ _)) by lia.
    replace (scsi_cdb_pos s + 1) with 10 by lia. by destruct s.
  - rewrite (proj2 (Z.leb_gt _ _)) by (simpl in Hsum; lia).
    set (s1 := set_scsi_cdb_pos _ _).
    assert (scsi_cdb_pos s1 = scsi_cdb_pos s + 1) as Hp1.
    { apply u8_small. simpl in Hsum. lia. }
    change (mbind (λ _, send l) (mac_scsi_reg_write 0 v2)) with (send (v2 :: l)).
    rewrite (IH v2 s1); try done; [|lia|rewrite Hp1; simpl in Hsum |- *; lia].
    rewrite Hp1. replace (Z.to_nat (scsi_cdb_pos s + 1)) with (S (Z.to_nat (scsi_cdb_pos s))) by lia.
    unfold s1. cbn [scsi_cdb set_scsi_cdb_pos set_scsi_cdb].
    change (List.last (v :: v2 :: l) 0) with (List.last (v2 :: l) 0).
    change (list_inserts (Z.to_nat (scsi_cdb_pos s)) (v :: v2 :: l) (scsi_cdb s)) with
      (<[Z.to_nat (scsi_cdb_pos s) := v]> (list_inserts (S (Z.to_nat (scsi_cdb_pos s))) (v2 :: l)
        (scsi_cdb s))).
    rewrite list_insert_inserts_lt by lia.
    by destruct s.
Qed.

Lemma send_cdb10 op lba n id s : scsi_base s → cdb_length_for op = 10 →
  send (cdb10 op lba n) (selected id s)
  = Some (tt, scsi_execute (commanded (cdb10 op lba n) (selected id s))).
Proof.
  intros Hs Hop. unfold cdb10.
  match goal with |- send (op :: ?l) _ = _ => set (tl := l) end. cbn [send].
  rewrite (bind_Some _ _ _ _ _ (send_cdb_byte op (selected id s) eq_refl)).
  set (s1 := scsi_recv_cdb_byte _ _).
  assert (s1 = set_scsi_odr op (set_scsi_cdb (list_inserts 0 [op] (scsi_cdb s))
    (set_scsi_cdb_len 10 (set_scsi_cdb_pos 1 (selected id s))))) as E1.
  { unfold s1, scsi_recv_cdb_byte. cbn -[cdb_length_for u8 list_inserts zset].
    change (u8 (0 + 1)) with 1. cbn -[cdb_length_for u8 list_inserts zset]. rewrite Hop. done. }
  rewrite E1.
  assert (list_inserts 1 tl (list_inserts 0 [op] (scsi_cdb (selected id s)))
    = list_inserts 0 (op :: tl) (scsi_cdb (selected id s))) as Hc.
  { cbn [list_inserts]. by rewrite list_insert_inserts_lt by lia. }
  unfold commanded. rewrite <- Hc. unfold tl. rewrite send_cdb_tail; done.
Qed.

(** The command block as the target decodes it. *)
Lemma commanded_at op lba n id s i : scsi_base s → 0 ≤ i < 10 →
  cdb_at (commanded (cdb10 op lba n) (selected id s)) i = znth (cdb10 op lba n) i.
Proof.
  intros Hs Hi. unfold cdb_at, commanded, znth.
  cbn [scsi_cdb set_scsi_odr set_scsi_cdb]. rewrite !nth_lookup.
  rewrite list_lookup_inserts; [by rewrite Nat.sub_0_r|simpl; lia|].
  cbn [scsi_cdb selected set_scsi_cdb_len set_scsi_cdb_pos]. rewrite (so_cdb s Hs). lia.
Qed.

Lemma commanded_lba op lba n id s : scsi_base s → 0 ≤ lba < 2 ^ 32 →
  lba10 (commanded (cdb10 op lba n) (selected id s)) = lba.
Proof.
  intros Hs Hl. unfold lba10. rewrite !commanded_at by (done || lia).
  change (znth (cdb10 op lba n) 2) with (lba / 0x1000000).
  change (znth (cdb10 op lba n) 3) with ((lba / 0x10000) mod 0x100).
  change (znth (cdb10 op lba n) 4) with ((lba / 0x100) mod 0x100).
  change (znth (cdb10 op lba n) 5) with (lba mod 0x100).
  pose proof (Z.mod_pos_bound (lba / 0x10000) 0x100). pose proof (Z.mod_pos_bound (lba / 0x100) 0x100).
  pose proof (Z.mod_pos_bound lba 0x100).
  assert (0 ≤ lba / 0x1000000 < 0x100).
  { split; [apply Z.div_pos; lia|]. apply Z.div_lt_upper_bound; lia. }
  rewrite !u32_small by (rewrite Z.shiftl_mul_pow2 by lia; lia).
  rewrite join32 by (unfold byte; lia). by apply bytes_of_word.
Qed.

Lemma commanded_count op lba n id s : scsi_base s → 0 ≤ n < 2 ^ 16 →
  count10 (commanded (cdb10 op lba n) (selected id s)) = n.
Proof.
  intros Hs Hn. unfold count10. rewrite !commanded_at by (done || lia).
  change (znth (cdb10 op lba n) 7) with (n / 0x100).
  change (znth (cdb10 op lba n) 8) with (n mod 0x100).
  pose proof (Z.mod_pos_bound n 0x100). pose proof (Z.div_mod n 0x100).
  assert (0 ≤ n / 0x100 < 0x100).
  { split; [apply Z.div_pos; lia|]. apply Z.div_lt_upper_bound; lia. }
  rewrite u32_small by (rewrite Z.shiftl_mul_pow2 by lia; lia).
  rewrite join16 by (unfold byte; lia). lia.
Qed.

Lemma execute_read10 id lba n s : let s1 := commanded (cdb10 0x28 lba n) (selected id s) in
  scsi_base s → 0 ≤ id < 7 → tgt_present (target_of s id) = true →
  0 ≤ lba → 0 < n < 2 ^ 16 → lba + n ≤ tgt_blocks (target_of s id) →
  scsi_execute s1 = scsi_set_data_in (PtrImage id (lba * 512)) (n * 512) s1.
Proof.
  intros s1 Hs Hid Hp Hl Hn Hle.
  pose proof (target_of_ok s id Hs) as [_ _ Hsm Hbl _ _].
  unfold scsi_execute. change (scsi_target_id s1) with id. change (target_of s1 id) with (target_of s id).
  rewrite Hp, (proj2 (Z.leb_le 0 id)), (proj2 (Z.ltb_lt id MAC_SCSI_NUM_TARGETS))
    by (unfold MAC_SCSI_NUM_TARGETS; lia). cbn [andb negb orb].
  unfold s1. rewrite commanded_at, commanded_count, commanded_lba by (done || lia).
  change (znth (cdb10 40 lba n) 0) with 40. cbv iota.
  rewrite (proj2 (Z.eqb_neq _ _)) by lia. unfold scsi_read_blocks.
  change (scsi_target_id (commanded _ _)) with id.
  change (target_of (commanded _ _) id) with (target_of s id).
  rewrite u64_small by lia. rewrite (proj2 (Z.ltb_ge _ _)) by lia.
  by rewrite !u32_small by lia.
Qed.

Lemma execute_write10 id lba n s : let s1 := commanded (cdb10 0x2A lba n) (selected id s) in
  scsi_base s → 0 ≤ id < 7 → tgt_present (target_of s id) = true →
  tgt_write_protect (target_of s id) = false →
  0 ≤ lba → 0 < n < 2 ^ 16 → lba + n ≤ tgt_blocks (target_of s id) →
  scsi_execute s1 = scsi_set_data_out (PtrImage id (lba * 512)) (n * 512) s1.
Proof.
  intros s1 Hs Hid Hp Hwp Hl Hn Hle.
  pose proof (target_of_ok s id Hs) as [_ _ Hsm Hbl _ _].
  unfold scsi_execute. change (scsi_target_id s1) with id. change (target_of s1 id) with (target_of s id).
  rewrite Hp, (proj2 (Z.leb_le 0 id)), (proj2 (Z.ltb_lt id MAC_SCSI_NUM_TARGETS))
    by (unfold MAC_SCSI_NUM_TARGETS; lia). cbn [andb negb orb].
  unfold s1. rewrite commanded_at, commanded_count, commanded_lba by (done || lia).
  change (znth (cdb10 42 lba n) 0) with 42. cbv iota.
  rewrite (proj2 (Z.eqb_neq _ _)) by lia. unfold scsi_write_blocks.
  change (scsi_target_id (commanded _ _)) with id.
  change (target_of (commanded _ _) id) with (target_of s id).
  rewrite u64_small by lia. rewrite (proj2 (Z.ltb_ge _ _)), Hwp by lia.
  by rewrite !u32_small by lia.
Qed.

(** Status and message end every command; the bus is then free again. *)
Definition freed (s : mac_scsi) : mac_scsi :=
  set_scsi_tcr 0 (set_scsi_target_id (-1) (set_scsi_phase SCSI_PHASE_BUS_FREE
    (set_scsi_phase SCSI_PHASE_MSG_IN (scsi_finish 0 s)))).

Lemma finish_reads {A} (k : Z → Z → A) s :
  (status ← mac_scsi_reg_read 0; message ← mac_scsi_reg_read 0; mret (k status message))
    (scsi_finish 0 s) = Some (k 0 0, freed s).
Proof. destruct s. reflexivity. Qed.

Lemma freed_idle s : scsi_base s → scsi_icr s = 0 → idle (freed s).
Proof.
  intros [? ? ? ? ? ? ? Hl] Hicr. decompose_Forall. split; [|split; [done|]].
  - split; split; cbn; try done; bytes.
  - cbn. by rewrite Hicr.
Qed.

Lemma commanded_base c id s : scsi_base s → length c = 10%nat → Forall byte c → 0 ≤ id < 7 →
  scsi_base (commanded c (selected id s)).
Proof.
  intros [? ? ? ? ? ? ? Hl] Hc Hf Hid. decompose_Forall.
  split; cbn -[list_inserts]; try done; try lia.
  - by rewrite length_inserts.
  - by apply Forall_inserts.
  - bytes.
Qed.

Lemma cdb10_bytes op lba n : byte op → 0 ≤ lba < 2 ^ 32 → 0 ≤ n < 2 ^ 16 → Forall byte (cdb10 op lba n).
Proof.
  intros Hop Hl Hn. assert (0 ≤ lba / 0x1000000 < 0x100 ∧ 0 ≤ n / 0x100 < 0x100) as [? ?].
  { split; (split; [apply Z.div_pos; lia|apply Z.div_lt_upper_bound; lia]). }
  unfold cdb10. repeat apply Forall_cons_2; try apply Forall_nil_2; try done;
    apply Z.mod_pos_bound; lia.
Qed.

(** C16.  READ(10) of any in-range extent of a present target transfers exactly
    those blocks of its image, ends with GOOD status and COMMAND COMPLETE and
    leaves the bus free and the disks unchanged. *)
Theorem scsi_read10 s id lba n : idle s → 0 ≤ id < 7 → tgt_present (target_of s id) = true →
  0 ≤ lba → 0 < n < 2 ^ 16 → lba + n ≤ tgt_blocks (target_of s id) →
  ∃ s', read10 id lba n s = Some
      (take (Z.to_nat (n * 512)) (drop (Z.to_nat (lba * 512)) (tgt_image (target_of s id))), 0, 0, s')
    ∧ idle s' ∧ scsi_targets s' = scsi_targets s.
Proof.
  intros Hi Hid Hp Hl Hn Hle. pose proof Hi as ([Hb _] & _ & _).
  pose proof (target_of_ok s id Hb) as [_ Hlen Hsm Hbl _ _]. unfold read10.
  rewrite (bind_Some _ _ _ _ _ (select_target_eq id s Hi Hid Hp)).
  rewrite (bind_Some _ _ _ _ _ (send_cdb10 0x28 lba n id s Hb eq_refl)).
  rewrite execute_read10 by done. set (s1 := commanded _ _).
  set (s2 := scsi_set_data_in _ _ _).
  assert (scsi_data_len s2 = n * 512) as El by (apply u32_small; lia).
  assert (Z.to_nat (n * 512) = S (Z.to_nat (n * 512 - 1))) as En by lia. rewrite En.
  assert (length (drop (Z.to_nat (lba * 512)) (tgt_image (target_of s id)))
    = Z.to_nat (tgt_bytes (target_of s id) - lba * 512)) as Eobj by (rewrite length_drop; lia).
  assert (receive (S (Z.to_nat (n * 512 - 1))) s2 = Some
    (take (S (Z.to_nat (n * 512 - 1))) (drop (Z.to_nat (lba * 512)) (tgt_image (target_of s id))),
     scsi_finish 0 (set_scsi_data_pos (scsi_data_len s2) s2))) as Er.
  { rewrite receive_data; try done; rewrite ?El; try lia.
    - change (scsi_data_pos s2) with 0. lia.
    - change (ptr_object s2 (scsi_data s2)) with
        (drop (Z.to_nat (lba * 512)) (tgt_image (target_of s id))). lia. }
  rewrite (bind_Some _ _ _ _ _ Er).
  rewrite (finish_reads (λ a b, (take (S (Z.to_nat (n * 512 - 1)))
    (drop (Z.to_nat (lba * 512)) (tgt_image (target_of s id))), a, b))).
  eexists. split; [reflexivity|]. split; [|done]. apply freed_idle; [|done].
  assert (scsi_base s1) as Hs1 by (apply commanded_base; try done; apply cdb10_bytes; done || lia).
  destruct Hs1 as [? ? ? ? ? ? ? Hlat]. decompose_Forall. split; try done. cbn. bytes.
Qed.

(** C17.  WRITE(10) to a writable target stores the data at its extent of the
    image, byte for byte, leaves every other byte and every other target alone,
    and ends with GOOD status. *)
Theorem scsi_write10 s id lba n data : idle s → 0 ≤ id < 7 → tgt_present (target_of s id) = true →
  tgt_write_protect (target_of s id) = false → Forall byte data →
  Z.of_nat (length data) = n * 512 →
  0 ≤ lba → 0 < n < 2 ^ 16 → lba + n ≤ tgt_blocks (target_of s id) →
  ∃ s', write10 id lba data s = Some (0, 0, s') ∧ idle s' ∧
    scsi_targets s' = <[Z.to_nat id := set_tgt_image
      (list_inserts (Z.to_nat (lba * 512)) data (tgt_image (target_of s id))) (target_of s id)]>
      (scsi_targets s).
Proof.
  intros Hi Hid Hp Hwp Hdata Hdl Hl Hn Hle. pose proof Hi as ([Hb _] & _ & _).
  pose proof (target_of_ok s id Hb) as [Him Hlen Hsm Hbl _ _]. unfold write10.
  rewrite Hdl, Z.div_mul by lia.
  rewrite (bind_Some _ _ _ _ _ (select_target_eq id s Hi Hid Hp)).
  rewrite (bind_Some _ _ _ _ _ (send_cdb10 0x2A lba n id s Hb eq_refl)).
  rewrite execute_write10 by done. set (s1 := commanded _ _).
  set (s2 := scsi_set_data_out _ _ _).
  assert (scsi_base s1) as Hs1 by (apply commanded_base; try done; apply cdb10_bytes; done || lia).
  assert (scsi_base s2) as Hs2.
  { destruct Hs1 as [? ? ? ? ? ? ? Hlat]. decompose_Forall. split; try done. cbn. bytes. }
  assert (scsi_data_len s2 = n * 512) as El by (apply u32_small; lia).
  assert (data ≠ []) as Hne by (intros ->; simpl in Hdl; lia).
  change (target_of s id) with (target_of s2 id) in *.
  rewrite (bind_Some _ _ _ _ _ (send_data data id (lba * 512) s2 (so_targets s2 Hs2) Hid
    ltac:(lia) eq_refl eq_refl Hne ltac:(done) ltac:(rewrite El, Hdl; done) ltac:(lia) ltac:(lia))).
  rewrite (finish_reads pair). eexists. split; [reflexivity|]. split; [apply freed_idle; [|done]|].
  - change (scsi_data_pos s2) with 0.
    assert (scsi_base (stored id (lba * 512) 0 data s2)) as Hst.
    { unfold stored. rewrite Z.add_0_r. apply set_image_ok; try done.
      - by rewrite length_inserts.
      - by apply Forall_inserts. }
    destruct Hst as [? ? ? ? ? ? ? Hlat]. decompose_Forall. split; try done. cbn. bytes.
  - change (scsi_data_pos s2) with 0. unfold stored. rewrite Z.add_0_r. done.
Qed.

(** ** A write-protected disk *)

Lemma finish_targets v s : scsi_targets (scsi_finish v s) = scsi_targets s.
Proof. done. Qed.
Lemma execute_targets s : scsi_targets (scsi_execute s) = scsi_targets s.
Proof.
  unfold scsi_execute, scsi_read_blocks, scsi_write_blocks. by repeat case_match.
Qed.
Lemma select_targets s : scsi_targets (scsi_select s) = scsi_targets s.
Proof. unfold scsi_select. by repeat case_match. Qed.
Lemma recv_targets v s : scsi_targets (scsi_recv_cdb_byte v s) = scsi_targets s.
Proof. unfold scsi_recv_cdb_byte. repeat case_match; by rewrite ?execute_targets. Qed.
Lemma advance_targets s : scsi_targets (advance s) = scsi_targets s.
Proof. unfold advance. by case_match. Qed.

Lemma advance_target s id : target_of (advance s) id = target_of s id.
Proof. unfold target_of. by rewrite advance_targets. Qed.

(** Only the data-out phase changes a target, and never a protected one. *)
Lemma write_odr_protected v s s' id : scsi_ok s → 0 ≤ id →
  scsi_write_odr v s = Some (tt, s') → tgt_write_protect (target_of s id) = true →
  target_of s' id = target_of s id.
Proof.
  intros [Hs [_ _ Ho]] Hid E Hwp. unfold scsi_write_odr in E. destruct (transferring _ _) eqn:Et.
  - apply andb_true_iff in Et as [Et _]. apply andb_true_iff in Et as [Et _].
    apply Z.eqb_eq in Et. destruct (Ho Et) as [_ Hw]. unfold writable_ptr in Hw.
    unfold mbind, M_bind, data_write in E.
    change (scsi_data (set_scsi_odr v s)) with (scsi_data s) in E.
    destruct (_ <=? _); [done|]. destruct (scsi_data s) as [|j off|j|]; try done.
    destruct Hw as (Hj & _ & Hwj). unfold modify in E. injection E as <-.
    rewrite advance_target, set_target_other; [done|lia..|]. intros ->. congruence.
  - destruct (_ =? _); simplify_eq/=; [|done]. unfold target_of. by rewrite recv_targets.
Qed.

Lemma read_data_targets s v s' : scsi_read_data s = Some (v, s') → scsi_targets s' = scsi_targets s.
Proof.
  unfold scsi_read_data, mbind, M_bind, data_read, modify, mret, M_ret. intros E.
  destruct (transferring _ _).
  - destruct (_ !! _); [|done]. injection E as <- <-. apply advance_targets.
  - repeat case_match; by simplify_eq.
Qed.

Lemma icr_targets v s : scsi_targets (scsi_write_icr v s) = scsi_targets s.
Proof.
  unfold scsi_write_icr. destruct (nz (v .& ICR_RST)), (nz (v .& ICR_SEL) && _ && _); try done;
    exact (select_targets (set_scsi_phase SCSI_PHASE_SELECTION (set_scsi_icr v s))).
Qed.

Lemma access_protected o s v s' id : scsi_ok s → 0 ≤ id → scsi_access o s = Some (v, s') →
  tgt_write_protect (target_of s id) = true → target_of s' id = target_of s id.
Proof.
  intros Hs Hid E Hwp. destruct o as [reg|reg w]; unfold scsi_access in E.
  - assert (scsi_targets s' = scsi_targets s) as Ht; [|unfold target_of; by rewrite Ht].
    unfold mac_scsi_reg_read in E.
    repeat case_match; try (by eapply read_data_targets); unfold gets, mret, M_ret in E; by simplify_eq.
  - unfold mbind, M_bind in E. destruct (mac_scsi_reg_write reg (u8 w) s) as [[[] s1]|] eqn:Ew; [|done].
    injection E as _ <-. unfold mac_scsi_reg_write in Ew.
    assert (0 ≤ reg .& 7 < 8) as Hr by (apply land_range_r; lia).
    destruct (reg .& 7) as [|p|p]; [by apply (write_odr_protected (u8 w))| |lia].
    assert (∀ s2, scsi_targets s2 = scsi_targets s → target_of s2 id = target_of s id) as Ht.
    { intros s2 H2. unfold target_of. by rewrite H2. }
    apply Ht. unfold modify, mret, M_ret in Ew.
    destruct p as [[|[]|]|[|[]|]|]; try lia; injection Ew as <-; try done. apply icr_targets.
Qed.

Fixpoint scsi_run (l : list scsi_op) : M mac_scsi unit :=
  match l with
  | [] => mret tt
  | o :: l => scsi_access o ;; scsi_run l
  end.

(** C18.  No sequence of register reads and writes, in any order, makes the
    controller touch memory outside a disk image, an inquiry block or the reply
    buffer, and none changes a write-protected disk. *)
Theorem scsi_run_safe l s : scsi_ok s →
  ∃ s', scsi_run l s = Some (tt, s') ∧ scsi_ok s' ∧
    ∀ id, 0 ≤ id → tgt_write_protect (target_of s id) = true → target_of s' id = target_of s id.
Proof.
  revert s. induction l as [|o l IH]; intros s Hs; [by exists s|].
  destruct (scsi_access_ok o s Hs) as (v & s1 & E & _ & H1). cbn [scsi_run].
  rewrite (bind_Some _ _ _ _ _ E). destruct (IH s1 H1) as (s2 & E2 & H2 & Hwp).
  exists s2. split; [done|]. split; [done|]. intros id Hid Hp.
  pose proof (access_protected o s v s1 id Hs Hid E Hp) as Et. rewrite <- Et. apply Hwp; [done|].
  by rewrite Et.
Qed.

(** ** Witnesses *)

Definition scsi_example : mac_scsi :=
  (mac_scsi_attach_disk 2 (replicate 1024 0x5A) 1024 false mac_scsi_init).2.

Definition target_okb (t : mac_scsi_target) : bool :=
  forallb byteb (tgt_image t)
  && (Z.of_nat (length (tgt_image t)) =? tgt_bytes t) && (tgt_bytes t <? 0x100000000)
  && (tgt_bytes t =? 512 * tgt_blocks t) && Nat.eqb (length (tgt_inquiry t)) 36
  && forallb byteb (tgt_inquiry t).

Lemma target_okb_spec t : target_okb t = true → target_ok t.
Proof.
  unfold target_okb. rewrite !andb_true_iff. intros [[[[[H1 H2] H3] H4] H5] H6].
  split; try (by apply forallb_byte); try lia. by apply Nat.eqb_eq.
Qed.

Lemma scsi_example_idle : idle scsi_example.
Proof.
  split; [|split; reflexivity]. split; split; try discriminate; try reflexivity.
  - apply Forall_forall. intros t Ht. apply target_okb_spec.
    assert (forallb target_okb (scsi_targets scsi_example) = true) as H by (vm_compute; reflexivity).
    rewrite forallb_forall in H. exact (H t Ht).
  - apply forallb_byte. reflexivity.
  - apply forallb_byte. reflexivity.
  - vm_compute. split; congruence.
  - apply forallb_byte. reflexivity.
Qed.

Lemma scsi_read10_witness : ∃ s',
  read10 2 1 1 scsi_example = Some (replicate 512 0x5A, 0, 0, s') ∧ idle s'.
Proof.
  destruct (scsi_read10 scsi_example 2 1 1 scsi_example_idle ltac:(lia) eq_refl ltac:(lia)
    ltac:(lia) ltac:(vm_compute; congruence)) as (s' & E & H & _).
  exists s'. split; [|done]. rewrite E. reflexivity.
Defined.

Lemma scsi_write10_witness : ∃ s',
  write10 2 0 (replicate 512 0x11) scsi_example = Some (0, 0, s') ∧
  tgt_image (target_of s' 2) = replicate 512 0x11 ++ replicate 512 0x5A.
Proof.
  destruct (scsi_write10 scsi_example 2 0 1 (replicate 512 0x11) scsi_example_idle ltac:(lia)
    eq_refl eq_refl ltac:(apply Forall_replicate; unfold byte; lia) eq_refl ltac:(lia) ltac:(lia)
    ltac:(vm_compute; congruence)) as (s' & E & _ & Ht).
  exists s'. split; [done|]. unfold target_of. rewrite Ht. reflexivity.
Defined.

Lemma scsi_run_safe_witness : ∃ s',
  scsi_run [ScsiWrite 0 4; ScsiWrite 1 4; ScsiWrite 0 0x12; ScsiRead 0; ScsiRead 6] scsi_example
    = Some (tt, s') ∧ scsi_ok s'.
Proof.
  destruct (scsi_run_safe [ScsiWrite 0 4; ScsiWrite 1 4; ScsiWrite 0 0x12; ScsiRead 0; ScsiRead 6]
    scsi_example (proj1 scsi_example_idle)) as (s' & E & H & _). by exists s'.
Defined.
