(* ===== verification/MacState.v ===== *)
(** * The state of the Macintosh hardware

    The structures of [core/mac_mem.h] and the file-scope state of
    [core/mac_input.c] ([K]) and [core/sony.c] ([S]), with the accessors the
    other files share.  The host's callbacks are booleans (installed or not);
    calling one appends to [mem_out], the trace of what the host observes. *)

From Stdlib Require Import ZArith Lia.
From stdpp Require Import base tactics list numbers.
From S2P Require Import Prelude Cpu Rtc Iwm Scsi.

Record via6522 := mk_via {
  via_ora : Z;
  via_orb : Z;
  via_ira : Z;
  via_irb : Z;
  via_ddra : Z;
  via_ddrb : Z;
  via_acr : Z;
  via_pcr : Z;
  via_ifr : Z;
  via_ier : Z;
  via_sr : Z;
  via_icb2 : Z;
  via_t1c : Z;
  via_t1l : Z;
  via_t2c : Z;
  via_t2l_lo : Z;
  via_t1_irq_armed : bool;
  via_t2_irq_armed : bool;
  via_last_cycle : Z;
  via_via_tick_rem : Z;
  via_next_vbl : Z
}.

Definition set_via_ora (v : Z) (x : via6522) : via6522 :=
  mk_via (u8 v) (via_orb x) (via_ira x) (via_irb x) (via_ddra x) (via_ddrb x) (via_acr x)
    (via_pcr x) (via_ifr x) (via_ier x) (via_sr x) (via_icb2 x) (via_t1c x) (via_t1l x)
    (via_t2c x) (via_t2l_lo x) (via_t1_irq_armed x) (via_t2_irq_armed x) (via_last_cycle
    x) (via_via_tick_rem x) (via_next_vbl x).
Definition set_via_orb (v : Z) (x : via6522) : via6522 :=
  mk_via (via_ora x) (u8 v) (via_ira x) (via_irb x) (via_ddra x) (via_ddrb x) (via_acr x)
    (via_pcr x) (via_ifr x) (via_ier x) (via_sr x) (via_icb2 x) (via_t1c x) (via_t1l x)
    (via_t2c x) (via_t2l_lo x) (via_t1_irq_armed x) (via_t2_irq_armed x) (via_last_cycle
    x) (via_via_tick_rem x) (via_next_vbl x).
Definition set_via_ira (v : Z) (x : via6522) : via6522 :=
  mk_via (via_ora x) (via_orb x) (u8 v) (via_irb x) (via_ddra x) (via_ddrb x) (via_acr x)
    (via_pcr x) (via_ifr x) (via_ier x) (via_sr x) (via_icb2 x) (via_t1c x) (via_t1l x)
    (via_t2c x) (via_t2l_lo x) (via_t1_irq_armed x) (via_t2_irq_armed x) (via_last_cycle
    x) (via_via_tick_rem x) (via_next_vbl x).
Definition set_via_irb (v : Z) (x : via6522) : via6522 :=
  mk_via (via_ora x) (via_orb x) (via_ira x) (u8 v) (via_ddra x) (via_ddrb x) (via_acr x)
    (via_pcr x) (via_ifr x) (via_ier x) (via_sr x) (via_icb2 x) (via_t1c x) (via_t1l x)
    (via_t2c x) (via_t2l_lo x) (via_t1_irq_armed x) (via_t2_irq_armed x) (via_last_cycle
    x) (via_via_tick_rem x) (via_next_vbl x).
Definition set_via_ddra (v : Z) (x : via6522) : via6522 :=
  mk_via (via_ora x) (via_orb x) (via_ira x) (via_irb x) (u8 v) (via_ddrb x) (via_acr x)
    (via_pcr x) (via_ifr x) (via_ier x) (via_sr x) (via_icb2 x) (via_t1c x) (via_t1l x)
    (via_t2c x) (via_t2l_lo x) (via_t1_irq_armed x) (via_t2_irq_armed x) (via_last_cycle
    x) (via_via_tick_rem x) (via_next_vbl x).
Definition set_via_ddrb (v : Z) (x : via6522) : via6522 :=
  mk_via (via_ora x) (via_orb x) (via_ira x) (via_irb x) (via_ddra x) (u8 v) (via_acr x)
    (via_pcr x) (via_ifr x) (via_ier x) (via_sr x) (via_icb2 x) (via_t1c x) (via_t1l x)
    (via_t2c x) (via_t2l_lo x) (via_t1_irq_armed x) (via_t2_irq_armed x) (via_last_cycle
    x) (via_via_tick_rem x) (via_next_vbl x).
Definition set_via_acr (v : Z) (x : via6522) : via6522 :=
  mk_via (via_ora x) (via_orb x) (via_ira x) (via_irb x) (via_ddra x) (via_ddrb x) (u8 v)
    (via_pcr x) (via_ifr x) (via_ier x) (via_sr x) (via_icb2 x) (via_t1c x) (via_t1l x)
    (via_t2c x) (via_t2l_lo x) (via_t1_irq_armed x) (via_t2_irq_armed x) (via_last_cycle
    x) (via_via_tick_rem x) (via_next_vbl x).
Definition set_via_pcr (v : Z) (x : via6522) : via6522 :=
  mk_via (via_ora x) (via_orb x) (via_ira x) (via_irb x) (via_ddra x) (via_ddrb x)
    (via_acr x) (u8 v) (via_ifr x) (via_ier x) (via_sr x) (via_icb2 x) (via_t1c x)
    (via_t1l x) (via_t2c x) (via_t2l_lo x) (via_t1_irq_armed x) (via_t2_irq_armed x)
    (via_last_cycle x) (via_via_tick_rem x) (via_next_vbl x).
Definition set_via_ifr (v : Z) (x : via6522) : via6522 :=
  mk_via (via_ora x) (via_orb x) (via_ira x) (via_irb x) (via_ddra x) (via_ddrb x)
    (via_acr x) (via_pcr x) (u8 v) (via_ier x) (via_sr x) (via_icb2 x) (via_t1c x)
    (via_t1l x) (via_t2c x) (via_t2l_lo x) (via_t1_irq_armed x) (via_t2_irq_armed x)
    (via_last_cycle x) (via_via_tick_rem x) (via_next_vbl x).
Definition set_via_ier (v : Z) (x : via6522) : via6522 :=
  mk_via (via_ora x) (via_orb x) (via_ira x) (via_irb x) (via_ddra x) (via_ddrb x)
    (via_acr x) (via_pcr x) (via_ifr x) (u8 v) (via_sr x) (via_icb2 x) (via_t1c x)
    (via_t1l x) (via_t2c x) (via_t2l_lo x) (via_t1_irq_armed x) (via_t2_irq_armed x)
    (via_last_cycle x) (via_via_tick_rem x) (via_next_vbl x).
Definition set_via_sr (v : Z) (x : via6522) : via6522 :=
  mk_via (via_ora x) (via_orb x) (via_ira x) (via_irb x) (via_ddra x) (via_ddrb x)
    (via_acr x) (via_pcr x) (via_ifr x) (via_ier x) (u8 v) (via_icb2 x) (via_t1c x)
    (via_t1l x) (via_t2c x) (via_t2l_lo x) (via_t1_irq_armed x) (via_t2_irq_armed x)
    (via_last_cycle x) (via_via_tick_rem x) (via_next_vbl x).
Definition set_via_icb2 (v : Z) (x : via6522) : via6522 :=
  mk_via (via_ora x) (via_orb x) (via_ira x) (via_irb x) (via_ddra x) (via_ddrb x)
    (via_acr x) (via_pcr x) (via_ifr x) (via_ier x) (via_sr x) (u8 v) (via_t1c x) (via_t1l
    x) (via_t2c x) (via_t2l_lo x) (via_t1_irq_armed x) (via_t2_irq_armed x)
    (via_last_cycle x) (via_via_tick_rem x) (via_next_vbl x).
Definition set_via_t1c (v : Z) (x : via6522) : via6522 :=
  mk_via (via_ora x) (via_orb x) (via_ira x) (via_irb x) (via_ddra x) (via_ddrb x)
    (via_acr x) (via_pcr x) (via_ifr x) (via_ier x) (via_sr x) (via_icb2 x) (u16 v)
    (via_t1l x) (via_t2c x) (via_t2l_lo x) (via_t1_irq_armed x) (via_t2_irq_armed x)
    (via_last_cycle x) (via_via_tick_rem x) (via_next_vbl x).
Definition set_via_t1l (v : Z) (x : via6522) : via6522 :=
  mk_via (via_ora x) (via_orb x) (via_ira x) (via_irb x) (via_ddra x) (via_ddrb x)
    (via_acr x) (via_pcr x) (via_ifr x) (via_ier x) (via_sr x) (via_icb2 x) (via_t1c x)
    (u16 v) (via_t2c x) (via_t2l_lo x) (via_t1_irq_armed x) (via_t2_irq_armed x)
    (via_last_cycle x) (via_via_tick_rem x) (via_next_vbl x).
Definition set_via_t2c (v : Z) (x : via6522) : via6522 :=
  mk_via (via_ora x) (via_orb x) (via_ira x) (via_irb x) (via_ddra x) (via_ddrb x)
    (via_acr x) (via_pcr x) (via_ifr x) (via_ier x) (via_sr x) (via_icb2 x) (via_t1c x)
    (via_t1l x) (u16 v) (via_t2l_lo x) (via_t1_irq_armed x) (via_t2_irq_armed x)
    (via_last_cycle x) (via_via_tick_rem x) (via_next_vbl x).
Definition set_via_t2l_lo (v : Z) (x : via6522) : via6522 :=
  mk_via (via_ora x) (via_orb x) (via_ira x) (via_irb x) (via_ddra x) (via_ddrb x)
    (via_acr x) (via_pcr x) (via_ifr x) (via_ier x) (via_sr x) (via_icb2 x) (via_t1c x)
    (via_t1l x) (via_t2c x) (u8 v) (via_t1_irq_armed x) (via_t2_irq_armed x)
    (via_last_cycle x) (via_via_tick_rem x) (via_next_vbl x).
Definition set_via_t1_irq_armed (v : bool) (x : via6522) : via6522 :=
  mk_via (via_ora x) (via_orb x) (via_ira x) (via_irb x) (via_ddra x) (via_ddrb x)
    (via_acr x) (via_pcr x) (via_ifr x) (via_ier x) (via_sr x) (via_icb2 x) (via_t1c x)
    (via_t1l x) (via_t2c x) (via_t2l_lo x) v (via_t2_irq_armed x) (via_last_cycle x)
    (via_via_tick_rem x) (via_next_vbl x).
Definition set_via_t2_irq_armed (v : bool) (x : via6522) : via6522 :=
  mk_via (via_ora x) (via_orb x) (via_ira x) (via_irb x) (via_ddra x) (via_ddrb x)
    (via_acr x) (via_pcr x) (via_ifr x) (via_ier x) (via_sr x) (via_icb2 x) (via_t1c x)
    (via_t1l x) (via_t2c x) (via_t2l_lo x) (via_t1_irq_armed x) v (via_last_cycle x)
    (via_via_tick_rem x) (via_next_vbl x).
Definition set_via_last_cycle (v : Z) (x : via6522) : via6522 :=
  mk_via (via_ora x) (via_orb x) (via_ira x) (via_irb x) (via_ddra x) (via_ddrb x)
    (via_acr x) (via_pcr x) (via_ifr x) (via_ier x) (via_sr x) (via_icb2 x) (via_t1c x)
    (via_t1l x) (via_t2c x) (via_t2l_lo x) (via_t1_irq_armed x) (via_t2_irq_armed x) (u64
    v) (via_via_tick_rem x) (via_next_vbl x).
Definition set_via_via_tick_rem (v : Z) (x : via6522) : via6522 :=
  mk_via (via_ora x) (via_orb x) (via_ira x) (via_irb x) (via_ddra x) (via_ddrb x)
    (via_acr x) (via_pcr x) (via_ifr x) (via_ier x) (via_sr x) (via_icb2 x) (via_t1c x)
    (via_t1l x) (via_t2c x) (via_t2l_lo x) (via_t1_irq_armed x) (via_t2_irq_armed x)
    (via_last_cycle x) (u32 v) (via_next_vbl x).
Definition set_via_next_vbl (v : Z) (x : via6522) : via6522 :=
  mk_via (via_ora x) (via_orb x) (via_ira x) (via_irb x) (via_ddra x) (via_ddrb x)
    (via_acr x) (via_pcr x) (via_ifr x) (via_ier x) (via_sr x) (via_icb2 x) (via_t1c x)
    (via_t1l x) (via_t2c x) (via_t2l_lo x) (via_t1_irq_armed x) (via_t2_irq_armed x)
    (via_last_cycle x) (via_via_tick_rem x) (u64 v).

Record mac_scc_chan := mk_scc_chan {
  ch_wr : list Z;  (** wr[16] *)
  ch_rr : list Z;  (** rr[16] *)
  ch_rx_byte : Z;
  ch_tx_byte : Z;
  ch_rx_avail : bool;
  ch_tx_pending : bool
}.

Definition set_ch_wr (v : list Z) (x : mac_scc_chan) : mac_scc_chan :=
  mk_scc_chan v (ch_rr x) (ch_rx_byte x) (ch_tx_byte x) (ch_rx_avail x) (ch_tx_pending x).
Definition set_ch_rr (v : list Z) (x : mac_scc_chan) : mac_scc_chan :=
  mk_scc_chan (ch_wr x) v (ch_rx_byte x) (ch_tx_byte x) (ch_rx_avail x) (ch_tx_pending x).
Definition set_ch_rx_byte (v : Z) (x : mac_scc_chan) : mac_scc_chan :=
  mk_scc_chan (ch_wr x) (ch_rr x) (u8 v) (ch_tx_byte x) (ch_rx_avail x) (ch_tx_pending x).
Definition set_ch_tx_byte (v : Z) (x : mac_scc_chan) : mac_scc_chan :=
  mk_scc_chan (ch_wr x) (ch_rr x) (ch_rx_byte x) (u8 v) (ch_rx_avail x) (ch_tx_pending x).
Definition set_ch_rx_avail (v : bool) (x : mac_scc_chan) : mac_scc_chan :=
  mk_scc_chan (ch_wr x) (ch_rr x) (ch_rx_byte x) (ch_tx_byte x) v (ch_tx_pending x).
Definition set_ch_tx_pending (v : bool) (x : mac_scc_chan) : mac_scc_chan :=
  mk_scc_chan (ch_wr x) (ch_rr x) (ch_rx_byte x) (ch_tx_byte x) (ch_rx_avail x) v.

Record mac_scc := mk_scc {
  scc_wr_ptr : Z;
  scc_irq_on : bool;
  scc_ch0 : mac_scc_chan;  (** ch[0]: B, printer *)
  scc_ch1 : mac_scc_chan;  (** ch[1]: A, modem *)
  scc_tx_sink : bool
}.

Definition set_scc_wr_ptr (v : Z) (x : mac_scc) : mac_scc :=
  mk_scc (u8 v) (scc_irq_on x) (scc_ch0 x) (scc_ch1 x) (scc_tx_sink x).
Definition set_scc_irq_on (v : bool) (x : mac_scc) : mac_scc :=
  mk_scc (scc_wr_ptr x) v (scc_ch0 x) (scc_ch1 x) (scc_tx_sink x).
Definition set_scc_ch0 (v : mac_scc_chan) (x : mac_scc) : mac_scc :=
  mk_scc (scc_wr_ptr x) (scc_irq_on x) v (scc_ch1 x) (scc_tx_sink x).
Definition set_scc_ch1 (v : mac_scc_chan) (x : mac_scc) : mac_scc :=
  mk_scc (scc_wr_ptr x) (scc_irq_on x) (scc_ch0 x) v (scc_tx_sink x).
Definition set_scc_tx_sink (v : bool) (x : mac_scc) : mac_scc :=
  mk_scc (scc_wr_ptr x) (scc_irq_on x) (scc_ch0 x) (scc_ch1 x) v.

(** [enum { KBD_IDLE, KBD_RX_CMD, KBD_GOT_CMD, KBD_RX_END }] *)
Definition KBD_IDLE : Z := 0.
Definition KBD_RX_CMD : Z := 1.
Definition KBD_GOT_CMD : Z := 2.
Definition KBD_RX_END : Z := 3.

Record kbd := mk_kbd {
  K_state : Z;
  K_have_result : bool;
  K_result : Z;
  K_instant_cmd : Z;
  K_inquiry_pending : bool;
  K_inquiry_deadline : Z;
  K_timed_action : Z;  (** 0 none, 1 receive-command, 2 receive-end *)
  K_timed_deadline : Z;
  K_keyq : list (Z * Z);  (** keyq[64]: code, down *)
  K_kq_head : Z;
  K_kq_tail : Z
}.

Definition set_K_state (v : Z) (x : kbd) : kbd :=
  mk_kbd v (K_have_result x) (K_result x) (K_instant_cmd x) (K_inquiry_pending x)
    (K_inquiry_deadline x) (K_timed_action x) (K_timed_deadline x) (K_keyq x) (K_kq_head
    x) (K_kq_tail x).
Definition set_K_have_result (v : bool) (x : kbd) : kbd :=
  mk_kbd (K_state x) v (K_result x) (K_instant_cmd x) (K_inquiry_pending x)
    (K_inquiry_deadline x) (K_timed_action x) (K_timed_deadline x) (K_keyq x) (K_kq_head
    x) (K_kq_tail x).
Definition set_K_result (v : Z) (x : kbd) : kbd :=
  mk_kbd (K_state x) (K_have_result x) (u8 v) (K_instant_cmd x) (K_inquiry_pending x)
    (K_inquiry_deadline x) (K_timed_action x) (K_timed_deadline x) (K_keyq x) (K_kq_head
    x) (K_kq_tail x).
Definition set_K_instant_cmd (v : Z) (x : kbd) : kbd :=
  mk_kbd (K_state x) (K_have_result x) (K_result x) (u8 v) (K_inquiry_pending x)
    (K_inquiry_deadline x) (K_timed_action x) (K_timed_deadline x) (K_keyq x) (K_kq_head
    x) (K_kq_tail x).
Definition set_K_inquiry_pending (v : bool) (x : kbd) : kbd :=
  mk_kbd (K_state x) (K_have_result x) (K_result x) (K_instant_cmd x) v
    (K_inquiry_deadline x) (K_timed_action x) (K_timed_deadline x) (K_keyq x) (K_kq_head
    x) (K_kq_tail x).
Definition set_K_inquiry_deadline (v : Z) (x : kbd) : kbd :=
  mk_kbd (K_state x) (K_have_result x) (K_result x) (K_instant_cmd x) (K_inquiry_pending
    x) (u64 v) (K_timed_action x) (K_timed_deadline x) (K_keyq x) (K_kq_head x) (K_kq_tail
    x).
Definition set_K_timed_action (v : Z) (x : kbd) : kbd :=
  mk_kbd (K_state x) (K_have_result x) (K_result x) (K_instant_cmd x) (K_inquiry_pending
    x) (K_inquiry_deadline x) v (K_timed_deadline x) (K_keyq x) (K_kq_head x) (K_kq_tail
    x).
Definition set_K_timed_deadline (v : Z) (x : kbd) : kbd :=
  mk_kbd (K_state x) (K_have_result x) (K_result x) (K_instant_cmd x) (K_inquiry_pending
    x) (K_inquiry_deadline x) (K_timed_action x) (u64 v) (K_keyq x) (K_kq_head x)
    (K_kq_tail x).
Definition set_K_keyq (v : list (Z * Z)) (x : kbd) : kbd :=
  mk_kbd (K_state x) (K_have_result x) (K_result x) (K_instant_cmd x) (K_inquiry_pending
    x) (K_inquiry_deadline x) (K_timed_action x) (K_timed_deadline x) v (K_kq_head x)
    (K_kq_tail x).
Definition set_K_kq_head (v : Z) (x : kbd) : kbd :=
  mk_kbd (K_state x) (K_have_result x) (K_result x) (K_instant_cmd x) (K_inquiry_pending
    x) (K_inquiry_deadline x) (K_timed_action x) (K_timed_deadline x) (K_keyq x) v
    (K_kq_tail x).
Definition set_K_kq_tail (v : Z) (x : kbd) : kbd :=
  mk_kbd (K_state x) (K_have_result x) (K_result x) (K_instant_cmd x) (K_inquiry_pending
    x) (K_inquiry_deadline x) (K_timed_action x) (K_timed_deadline x) (K_keyq x)
    (K_kq_head x) v.

Record sony := mk_sony {
  S_image : list (option (list Z));  (** image[NUM_DRIVES]; NULL is None *)
  S_size : list Z;
  S_inserted : list bool;
  S_mounted : list bool;
  S_wprot : list bool;
  S_mount_callback : Z;
  S_param_addr_hi : Z;
  S_disk_icon_addr : Z;
  S_insert_delay : Z;
  S_insert_pending : bool
}.

Definition set_S_image (v : list (option (list Z))) (x : sony) : sony :=
  mk_sony v (S_size x) (S_inserted x) (S_mounted x) (S_wprot x) (S_mount_callback x)
    (S_param_addr_hi x) (S_disk_icon_addr x) (S_insert_delay x) (S_insert_pending x).
Definition set_S_size (v : list Z) (x : sony) : sony :=
  mk_sony (S_image x) v (S_inserted x) (S_mounted x) (S_wprot x) (S_mount_callback x)
    (S_param_addr_hi x) (S_disk_icon_addr x) (S_insert_delay x) (S_insert_pending x).
Definition set_S_inserted (v : list bool) (x : sony) : sony :=
  mk_sony (S_image x) (S_size x) v (S_mounted x) (S_wprot x) (S_mount_callback x)
    (S_param_addr_hi x) (S_disk_icon_addr x) (S_insert_delay x) (S_insert_pending x).
Definition set_S_mounted (v : list bool) (x : sony) : sony :=
  mk_sony (S_image x) (S_size x) (S_inserted x) v (S_wprot x) (S_mount_callback x)
    (S_param_addr_hi x) (S_disk_icon_addr x) (S_insert_delay x) (S_insert_pending x).
Definition set_S_wprot (v : list bool) (x : sony) : sony :=
  mk_sony (S_image x) (S_size x) (S_inserted x) (S_mounted x) v (S_mount_callback x)
    (S_param_addr_hi x) (S_disk_icon_addr x) (S_insert_delay x) (S_insert_pending x).
Definition set_S_mount_callback (v : Z) (x : sony) : sony :=
  mk_sony (S_image x) (S_size x) (S_inserted x) (S_mounted x) (S_wprot x) (u32 v)
    (S_param_addr_hi x) (S_disk_icon_addr x) (S_insert_delay x) (S_insert_pending x).
Definition set_S_param_addr_hi (v : Z) (x : sony) : sony :=
  mk_sony (S_image x) (S_size x) (S_inserted x) (S_mounted x) (S_wprot x)
    (S_mount_callback x) (u32 v) (S_disk_icon_addr x) (S_insert_delay x) (S_insert_pending
    x).
Definition set_S_disk_icon_addr (v : Z) (x : sony) : sony :=
  mk_sony (S_image x) (S_size x) (S_inserted x) (S_mounted x) (S_wprot x)
    (S_mount_callback x) (S_param_addr_hi x) (u32 v) (S_insert_delay x) (S_insert_pending
    x).
Definition set_S_insert_delay (v : Z) (x : sony) : sony :=
  mk_sony (S_image x) (S_size x) (S_inserted x) (S_mounted x) (S_wprot x)
    (S_mount_callback x) (S_param_addr_hi x) (S_disk_icon_addr x) v (S_insert_pending x).
Definition set_S_insert_pending (v : bool) (x : sony) : sony :=
  mk_sony (S_image x) (S_size x) (S_inserted x) (S_mounted x) (S_wprot x)
    (S_mount_callback x) (S_param_addr_hi x) (S_disk_icon_addr x) (S_insert_delay x) v.

(** What the host's callbacks receive. *)
Inductive event :=
| EvSerial (byte : Z)                       (** [serial_sink] *)
| EvScc (channel byte : Z)                  (** [scc.tx_sink] *)
| EvSound (samples : list Z)                (** [snd_sink] *)
| EvWatch (addr : Z)                        (** [mac_write_watch] *)
| EvMmio (addr val is_write size : Z).      (** [mac_mmio_log] *)

Record mac_mem := mk_mem {
  mem_ram : list Z;
  mem_ram_size : Z;
  mem_rom : option (list Z);  (** NULL is None *)
  mem_rom_size : Z;
  mem_overlay : bool;
  mem_via : via6522;
  mem_rtc : mac_rtc;
  mem_iwm : mac_iwm;
  mem_scc : mac_scc;
  mem_scsi : mac_scsi;
  mem_fb_base : Z;
  mem_mouse_btn : Z;
  mem_serial_sink : bool;
  mem_snd_sink : bool;
  mem_cpu : bool;  (** cpu != NULL *)
  mem_reads : Z;
  mem_writes : Z;
  mem_kbd : kbd;  (** K *)
  mem_sony : sony;  (** S *)
  mem_mmio_log : bool;  (** mac_mmio_log != NULL *)
  mem_watch : bool;  (** mac_write_watch != NULL *)
  mem_out : list event  (** what the callbacks received, latest first *)
}.

Definition set_mem_ram (v : list Z) (x : mac_mem) : mac_mem :=
  mk_mem v (mem_ram_size x) (mem_rom x) (mem_rom_size x) (mem_overlay x) (mem_via x)
    (mem_rtc x) (mem_iwm x) (mem_scc x) (mem_scsi x) (mem_fb_base x) (mem_mouse_btn x)
    (mem_serial_sink x) (mem_snd_sink x) (mem_cpu x) (mem_reads x) (mem_writes x) (mem_kbd
    x) (mem_sony x) (mem_mmio_log x) (mem_watch x) (mem_out x).
Definition set_mem_ram_size (v : Z) (x : mac_mem) : mac_mem :=
  mk_mem (mem_ram x) (u32 v) (mem_rom x) (mem_rom_size x) (mem_overlay x) (mem_via x)
    (mem_rtc x) (mem_iwm x) (mem_scc x) (mem_scsi x) (mem_fb_base x) (mem_mouse_btn x)
    (mem_serial_sink x) (mem_snd_sink x) (mem_cpu x) (mem_reads x) (mem_writes x) (mem_kbd
    x) (mem_sony x) (mem_mmio_log x) (mem_watch x) (mem_out x).
Definition set_mem_rom (v : option (list Z)) (x : mac_mem) : mac_mem :=
  mk_mem (mem_ram x) (mem_ram_size x) v (mem_rom_size x) (mem_overlay x) (mem_via x)
    (mem_rtc x) (mem_iwm x) (mem_scc x) (mem_scsi x) (mem_fb_base x) (mem_mouse_btn x)
    (mem_serial_sink x) (mem_snd_sink x) (mem_cpu x) (mem_reads x) (mem_writes x) (mem_kbd
    x) (mem_sony x) (mem_mmio_log x) (mem_watch x) (mem_out x).
Definition set_mem_rom_size (v : Z) (x : mac_mem) : mac_mem :=
  mk_mem (mem_ram x) (mem_ram_size x) (mem_rom x) (u32 v) (mem_overlay x) (mem_via x)
    (mem_rtc x) (mem_iwm x) (mem_scc x) (mem_scsi x) (mem_fb_base x) (mem_mouse_btn x)
    (mem_serial_sink x) (mem_snd_sink x) (mem_cpu x) (mem_reads x) (mem_writes x) (mem_kbd
    x) (mem_sony x) (mem_mmio_log x) (mem_watch x) (mem_out x).
Definition set_mem_overlay (v : bool) (x : mac_mem) : mac_mem :=
  mk_mem (mem_ram x) (mem_ram_size x) (mem_rom x) (mem_rom_size x) v (mem_via x) (mem_rtc
    x) (mem_iwm x) (mem_scc x) (mem_scsi x) (mem_fb_base x) (mem_mouse_btn x)
    (mem_serial_sink x) (mem_snd_sink x) (mem_cpu x) (mem_reads x) (mem_writes x) (mem_kbd
    x) (mem_sony x) (mem_mmio_log x) (mem_watch x) (mem_out x).
Definition set_mem_via (v : via6522) (x : mac_mem) : mac_mem :=
  mk_mem (mem_ram x) (mem_ram_size x) (mem_rom x) (mem_rom_size x) (mem_overlay x) v
    (mem_rtc x) (mem_iwm x) (mem_scc x) (mem_scsi x) (mem_fb_base x) (mem_mouse_btn x)
    (mem_serial_sink x) (mem_snd_sink x) (mem_cpu x) (mem_reads x) (mem_writes x) (mem_kbd
    x) (mem_sony x) (mem_mmio_log x) (mem_watch x) (mem_out x).
Definition set_mem_rtc (v : mac_rtc) (x : mac_mem) : mac_mem :=
  mk_mem (mem_ram x) (mem_ram_size x) (mem_rom x) (mem_rom_size x) (mem_overlay x)
    (mem_via x) v (mem_iwm x) (mem_scc x) (mem_scsi x) (mem_fb_base x) (mem_mouse_btn x)
    (mem_serial_sink x) (mem_snd_sink x) (mem_cpu x) (mem_reads x) (mem_writes x) (mem_kbd
    x) (mem_sony x) (mem_mmio_log x) (mem_watch x) (mem_out x).
Definition set_mem_iwm (v : mac_iwm) (x : mac_mem) : mac_mem :=
  mk_mem (mem_ram x) (mem_ram_size x) (mem_rom x) (mem_rom_size x) (mem_overlay x)
    (mem_via x) (mem_rtc x) v (mem_scc x) (mem_scsi x) (mem_fb_base x) (mem_mouse_btn x)
    (mem_serial_sink x) (mem_snd_sink x) (mem_cpu x) (mem_reads x) (mem_writes x) (mem_kbd
    x) (mem_sony x) (mem_mmio_log x) (mem_watch x) (mem_out x).
Definition set_mem_scc (v : mac_scc) (x : mac_mem) : mac_mem :=
  mk_mem (mem_ram x) (mem_ram_size x) (mem_rom x) (mem_rom_size x) (mem_overlay x)
    (mem_via x) (mem_rtc x) (mem_iwm x) v (mem_scsi x) (mem_fb_base x) (mem_mouse_btn x)
    (mem_serial_sink x) (mem_snd_sink x) (mem_cpu x) (mem_reads x) (mem_writes x) (mem_kbd
    x) (mem_sony x) (mem_mmio_log x) (mem_watch x) (mem_out x).
Definition set_mem_scsi (v : mac_scsi) (x : mac_mem) : mac_mem :=
  mk_mem (mem_ram x) (mem_ram_size x) (mem_rom x) (mem_rom_size x) (mem_overlay x)
    (mem_via x) (mem_rtc x) (mem_iwm x) (mem_scc x) v (mem_fb_base x) (mem_mouse_btn x)
    (mem_serial_sink x) (mem_snd_sink x) (mem_cpu x) (mem_reads x) (mem_writes x) (mem_kbd
    x) (mem_sony x) (mem_mmio_log x) (mem_watch x) (mem_out x).
Definition set_mem_fb_base (v : Z) (x : mac_mem) : mac_mem :=
  mk_mem (mem_ram x) (mem_ram_size x) (mem_rom x) (mem_rom_size x) (mem_overlay x)
    (mem_via x) (mem_rtc x) (mem_iwm x) (mem_scc x) (mem_scsi x) (u32 v) (mem_mouse_btn x)
    (mem_serial_sink x) (mem_snd_sink x) (mem_cpu x) (mem_reads x) (mem_writes x) (mem_kbd
    x) (mem_sony x) (mem_mmio_log x) (mem_watch x) (mem_out x).
Definition set_mem_mouse_btn (v : Z) (x : mac_mem) : mac_mem :=
  mk_mem (mem_ram x) (mem_ram_size x) (mem_rom x) (mem_rom_size x) (mem_overlay x)
    (mem_via x) (mem_rtc x) (mem_iwm x) (mem_scc x) (mem_scsi x) (mem_fb_base x) (u8 v)
    (mem_serial_sink x) (mem_snd_sink x) (mem_cpu x) (mem_reads x) (mem_writes x) (mem_kbd
    x) (mem_sony x) (mem_mmio_log x) (mem_watch x) (mem_out x).
Definition set_mem_serial_sink (v : bool) (x : mac_mem) : mac_mem :=
  mk_mem (mem_ram x) (mem_ram_size x) (mem_rom x) (mem_rom_size x) (mem_overlay x)
    (mem_via x) (mem_rtc x) (mem_iwm x) (mem_scc x) (mem_scsi x) (mem_fb_base x)
    (mem_mouse_btn x) v (mem_snd_sink x) (mem_cpu x) (mem_reads x) (mem_writes x) (mem_kbd
    x) (mem_sony x) (mem_mmio_log x) (mem_watch x) (mem_out x).
Definition set_mem_snd_sink (v : bool) (x : mac_mem) : mac_mem :=
  mk_mem (mem_ram x) (mem_ram_size x) (mem_rom x) (mem_rom_size x) (mem_overlay x)
    (mem_via x) (mem_rtc x) (mem_iwm x) (mem_scc x) (mem_scsi x) (mem_fb_base x)
    (mem_mouse_btn x) (mem_serial_sink x) v (mem_cpu x) (mem_reads x) (mem_writes x)
    (mem_kbd x) (mem_sony x) (mem_mmio_log x) (mem_watch x) (mem_out x).
Definition set_mem_cpu (v : bool) (x : mac_mem) : mac_mem :=
  mk_mem (mem_ram x) (mem_ram_size x) (mem_rom x) (mem_rom_size x) (mem_overlay x)
    (mem_via x) (mem_rtc x) (mem_iwm x) (mem_scc x) (mem_scsi x) (mem_fb_base x)
    (mem_mouse_btn x) (mem_serial_sink x) (mem_snd_sink x) v (mem_reads x) (mem_writes x)
    (mem_kbd x) (mem_sony x) (mem_mmio_log x) (mem_watch x) (mem_out x).
Definition set_mem_reads (v : Z) (x : mac_mem) : mac_mem :=
  mk_mem (mem_ram x) (mem_ram_size x) (mem_rom x) (mem_rom_size x) (mem_overlay x)
    (mem_via x) (mem_rtc x) (mem_iwm x) (mem_scc x) (mem_scsi x) (mem_fb_base x)
    (mem_mouse_btn x) (mem_serial_sink x) (mem_snd_sink x) (mem_cpu x) (u64 v) (mem_writes
    x) (mem_kbd x) (mem_sony x) (mem_mmio_log x) (mem_watch x) (mem_out x).
Definition set_mem_writes (v : Z) (x : mac_mem) : mac_mem :=
  mk_mem (mem_ram x) (mem_ram_size x) (mem_rom x) (mem_rom_size x) (mem_overlay x)
    (mem_via x) (mem_rtc x) (mem_iwm x) (mem_scc x) (mem_scsi x) (mem_fb_base x)
    (mem_mouse_btn x) (mem_serial_sink x) (mem_snd_sink x) (mem_cpu x) (mem_reads x) (u64
    v) (mem_kbd x) (mem_sony x) (mem_mmio_log x) (mem_watch x) (mem_out x).
Definition set_mem_kbd (v : kbd) (x : mac_mem) : mac_mem :=
  mk_mem (mem_ram x) (mem_ram_size x) (mem_rom x) (mem_rom_size x) (mem_overlay x)
    (mem_via x) (mem_rtc x) (mem_iwm x) (mem_scc x) (mem_scsi x) (mem_fb_base x)
    (mem_mouse_btn x) (mem_serial_sink x) (mem_snd_sink x) (mem_cpu x) (mem_reads x)
    (mem_writes x) v (mem_sony x) (mem_mmio_log x) (mem_watch x) (mem_out x).
Definition set_mem_sony (v : sony) (x : mac_mem) : mac_mem :=
  mk_mem (mem_ram x) (mem_ram_size x) (mem_rom x) (mem_rom_size x) (mem_overlay x)
    (mem_via x) (mem_rtc x) (mem_iwm x) (mem_scc x) (mem_scsi x) (mem_fb_base x)
    (mem_mouse_btn x) (mem_serial_sink x) (mem_snd_sink x) (mem_cpu x) (mem_reads x)
    (mem_writes x) (mem_kbd x) v (mem_mmio_log x) (mem_watch x) (mem_out x).
Definition set_mem_mmio_log (v : bool) (x : mac_mem) : mac_mem :=
  mk_mem (mem_ram x) (mem_ram_size x) (mem_rom x) (mem_rom_size x) (mem_overlay x)
    (mem_via x) (mem_rtc x) (mem_iwm x) (mem_scc x) (mem_scsi x) (mem_fb_base x)
    (mem_mouse_btn x) (mem_serial_sink x) (mem_snd_sink x) (mem_cpu x) (mem_reads x)
    (mem_writes x) (mem_kbd x) (mem_sony x) v (mem_watch x) (mem_out x).
Definition set_mem_watch (v : bool) (x : mac_mem) : mac_mem :=
  mk_mem (mem_ram x) (mem_ram_size x) (mem_rom x) (mem_rom_size x) (mem_overlay x)
    (mem_via x) (mem_rtc x) (mem_iwm x) (mem_scc x) (mem_scsi x) (mem_fb_base x)
    (mem_mouse_btn x) (mem_serial_sink x) (mem_snd_sink x) (mem_cpu x) (mem_reads x)
    (mem_writes x) (mem_kbd x) (mem_sony x) (mem_mmio_log x) v (mem_out x).
Definition set_mem_out (v : list event) (x : mac_mem) : mac_mem :=
  mk_mem (mem_ram x) (mem_ram_size x) (mem_rom x) (mem_rom_size x) (mem_overlay x)
    (mem_via x) (mem_rtc x) (mem_iwm x) (mem_scc x) (mem_scsi x) (mem_fb_base x)
    (mem_mouse_btn x) (mem_serial_sink x) (mem_snd_sink x) (mem_cpu x) (mem_reads x)
    (mem_writes x) (mem_kbd x) (mem_sony x) (mem_mmio_log x) (mem_watch x) v.

(** ** Shared accessors *)

(** The machine: the CPU and the memory it is attached to. *)
Definition mac := st mac_mem.

Definition getm {A} (f : mac_mem → A) : M mac A := gets (λ s, f (bus s)).
Definition updm (f : mac_mem → mac_mem) : M mac unit := modify (with_bus f).
Definition on_via (f : via6522 → via6522) : mac_mem → mac_mem := λ m, set_mem_via (f (mem_via m)) m.
Definition on_kbd (f : kbd → kbd) : mac_mem → mac_mem := λ m, set_mem_kbd (f (mem_kbd m)) m.
Definition on_sony (f : sony → sony) : mac_mem → mac_mem := λ m, set_mem_sony (f (mem_sony m)) m.
Definition on_scc (f : mac_scc → mac_scc) : mac_mem → mac_mem := λ m, set_mem_scc (f (mem_scc m)) m.

(** A callback that is installed is called. *)
Definition emit (installed : bool) (e : event) : M mac unit :=
  when installed (updm (λ m, set_mem_out (e :: mem_out m) m)).

Definition bnth (l : list bool) (i : Z) : bool := nth (Z.to_nat i) l false.
Definition bset (l : list bool) (i : Z) (v : bool) : list bool := <[Z.to_nat i := v]> l.

(** VIA IFR/IER bits. *)
Definition VIA_IRQ_CA2 : Z := 0x01.
Definition VIA_IRQ_CA1 : Z := 0x02.
Definition VIA_IRQ_SR : Z := 0x04.
Definition VIA_IRQ_CB2 : Z := 0x08.
Definition VIA_IRQ_CB1 : Z := 0x10.
Definition VIA_IRQ_T2 : Z := 0x20.
Definition VIA_IRQ_T1 : Z := 0x40.
Definition VIA_IRQ_ANY : Z := 0x80.
