(* ===== verification/Kbd.v ===== *)
(** * The keyboard

    [core/mac_input.c]: the queue of key events, and the keyboard's end of the
    serial line through the VIA shift register; with [mac_via_recalc_irq] of
    [core/mac_mem.c], which both ends of the line call. *)

From Stdlib Require Import ZArith Lia.
From stdpp Require Import base tactics list numbers.
From S2P Require Import Prelude Cpu Rtc Iwm Scsi MacState.

(** ** The VIA interrupt summary *)

(** An enabled interrupt flag is up. *)
Definition via_active (v : via6522) : bool := nz (via_ifr v .& via_ier v .& 0x7F).

Definition mac_via_recalc_irq : M mac unit :=
  active ← getm (λ m, via_active (mem_via m));
  (if (active : bool) then updm (on_via (λ v, set_via_ifr (via_ifr v .| VIA_IRQ_ANY) v))
   else updm (on_via (λ v, set_via_ifr (via_ifr v .& u8 (Z.lnot VIA_IRQ_ANY)) v))) ;;
  attached ← getm mem_cpu;
  when attached (upd (set_cpu_pending_irq (b2z active))).

(** [v->ifr &= (u8)~bits; mac_via_recalc_irq(m)] *)
Definition via_clear_irq (bits : Z) : M mac unit :=
  updm (on_via (λ v, set_via_ifr (via_ifr v .& u8 (Z.lnot bits)) v)) ;; mac_via_recalc_irq.

Definition via_set_irq (bits : Z) : M mac unit :=
  updm (on_via (λ v, set_via_ifr (via_ifr v .| bits) v)) ;; mac_via_recalc_irq.

(** ** The event queue *)

Definition mac_input_init : kbd :=
  mk_kbd KBD_IDLE false 0 0x7B false 0 0 0 (replicate 64 (0, 0)) 0 0.

Definition mac_key_event (mac_keycode : Z) (down : bool) (k : kbd) : kbd :=
  let next := (K_kq_tail k + 1) .& 63 in
  if next =? K_kq_head k then k
  else
    let k := set_K_keyq (<[Z.to_nat (K_kq_tail k) := (u8 (mac_keycode .& 0x7F), b2z down)]>
               (K_keyq k)) k in
    set_K_kq_tail next k.

Definition find_key_event (k : kbd) : option (Z * bool) * kbd :=
  if K_kq_head k =? K_kq_tail k then (None, k)
  else
    let '(code, down) := nth (Z.to_nat (K_kq_head k)) (K_keyq k) (0, 0) in
    (Some (code, nz down), set_K_kq_head ((K_kq_head k + 1) .& 63) k).

(** ** Shift-register glue *)

Definition shift_mode (m : mac_mem) : Z := (via_acr (mem_via m) .& 0x1C) ≫ 2.

Definition via_shift_out_data : M mac Z :=
  via_set_irq (VIA_IRQ_SR .| VIA_IRQ_CB1) ;;
  updm (on_via (λ v, set_via_icb2 (via_sr v .& 1) v)) ;;
  getm (λ m, via_sr (mem_via m)).

Definition via_shift_in_data (v : Z) : M mac unit :=
  updm (on_via (set_via_sr v)) ;; via_set_irq (VIA_IRQ_SR .| VIA_IRQ_CB1).

(** ** The state machine *)

Definition KBD_DELAY_CYCLES : Z := 8000.
Definition KBD_INQUIRY_CYCLES : Z := 2000000.

(** [m->cpu->cycles]: undefined while no CPU is attached. *)
Definition cpu_cycles_now : M mac Z :=
  attached ← getm mem_cpu;
  if (attached : bool) then getc cpu_cycles else undefined_behaviour.

Definition got_keyboard_data (v : Z) : M mac unit :=
  state ← getm (λ m, K_state (mem_kbd m));
  if negb (state =? KBD_IDLE) then
    updm (on_kbd (λ k, set_K_result v (set_K_have_result true k)))
  else
    via_shift_in_data v ;; updm (on_via (set_via_icb2 1)).

(** The byte sent for a key event, and the code the next Instant command gets. *)
Definition key_data (code : Z) (down : bool) : Z * option Z :=
  if code <? 64 then
    let data := u8 (code ≪ 1) in
    (if down then data else u8 (data + 128), None)
  else
    let instant := u8 ((code - 64) ≪ 1) in
    (121, Some (if down then instant else u8 (instant + 128))).

Definition attempt_finish_inquiry : M mac bool :=
  k ← getm mem_kbd;
  match find_key_event k with
  | (None, _) => mret false
  | (Some (code, down), k') =>
      updm (on_kbd (λ _, k')) ;;
      let '(data, instant) := key_data code down in
      (match instant with Some i => updm (on_kbd (set_K_instant_cmd i)) | None => mret tt end) ;;
      got_keyboard_data data ;;
      mret true
  end.

Definition do_receive_command : M mac unit :=
  cmd ← via_shift_out_data;
  updm (on_kbd (set_K_state KBD_GOT_CMD)) ;;
  match cmd with
  | 0x10 =>
      finished ← attempt_finish_inquiry;
      if (finished : bool) then mret tt
      else
        updm (on_kbd (set_K_inquiry_pending true)) ;;
        now ← cpu_cycles_now;
        updm (on_kbd (set_K_inquiry_deadline (now + KBD_INQUIRY_CYCLES)))
  | 0x14 =>
      instant ← getm (λ m, K_instant_cmd (mem_kbd m));
      got_keyboard_data instant ;; updm (on_kbd (set_K_instant_cmd 0x7B))
  | 0x16 => got_keyboard_data 0x0B
  | 0x36 => got_keyboard_data 0x7D
  | _ => got_keyboard_data 0
  end.

Definition do_receive_end_command : M mac unit :=
  updm (on_kbd (set_K_state KBD_IDLE)) ;;
  k ← getm mem_kbd;
  if K_have_result k then
    updm (on_kbd (set_K_have_result false)) ;;
    via_shift_in_data (K_result k) ;;
    updm (on_via (set_via_icb2 1))
  else mret tt.

Definition kbd_cb2_changed : M mac unit :=
  m ← getm id;
  let state := K_state (mem_kbd m) in
  if state =? KBD_IDLE then
    when (via_icb2 (mem_via m) =? 0) (
      updm (on_kbd (λ k, set_K_timed_action 1 (set_K_state KBD_RX_CMD k))) ;;
      now ← cpu_cycles_now;
      updm (on_kbd (λ k, set_K_inquiry_pending false (set_K_timed_deadline (now + KBD_DELAY_CYCLES) k))))
  else if state =? KBD_GOT_CMD then
    when (via_icb2 (mem_via m) =? 1) (
      updm (on_kbd (λ k, set_K_timed_action 2 (set_K_state KBD_RX_END k))) ;;
      now ← cpu_cycles_now;
      updm (on_kbd (set_K_timed_deadline (now + KBD_DELAY_CYCLES))))
  else mret tt.

(** ** Hooks called from the VIA and the run loop *)

Definition mac_kbd_sr_written : M mac unit :=
  via_clear_irq VIA_IRQ_SR ;;
  m ← getm id;
  when ((shift_mode m =? 6) && (via_sr (mem_via m) =? 0)) (
    when (negb (via_icb2 (mem_via m) =? 0)) (
      updm (on_via (set_via_icb2 0)) ;; kbd_cb2_changed)).

Definition mac_kbd_acr_written (old_acr : Z) : M mac unit :=
  m ← getm id;
  let acr := via_acr (mem_via m) in
  when (negb (old_acr .& 0x10 =? acr .& 0x10) && (acr .& 0x10 =? 0)) (
    when (via_icb2 (mem_via m) =? 0) (
      updm (on_via (set_via_icb2 1)) ;; kbd_cb2_changed)).

Definition mac_kbd_tick (cycles : Z) : M mac unit :=
  k ← getm mem_kbd;
  when (negb (K_timed_action k =? 0) && (K_timed_deadline k <=? cycles)) (
    updm (on_kbd (set_K_timed_action 0)) ;;
    if K_timed_action k =? 1 then do_receive_command else do_receive_end_command) ;;
  pending ← getm (λ m, K_inquiry_pending (mem_kbd m));
  when pending (
    finished ← attempt_finish_inquiry;
    if (finished : bool) then updm (on_kbd (set_K_inquiry_pending false))
    else
      deadline ← getm (λ m, K_inquiry_deadline (mem_kbd m));
      when (deadline <=? cycles) (
        updm (on_kbd (set_K_inquiry_pending false)) ;; got_keyboard_data 0x7B)).
