(* ===== verification/Via.v ===== *)
(** * The VIA, SCC and SCSI register files

    The peripheral half of [core/mac_mem.c]: VIA registers and their side
    effects on the RTC, the keyboard, the ROM overlay and the interrupt line;
    the SCC's two channels; the SCSI register decode. *)

From Stdlib Require Import ZArith Lia.
From stdpp Require Import base tactics list numbers.
From S2P Require Import Prelude Cpu Rtc Iwm Scsi MacState Kbd.

Definition MAC_FB_OFFSET : Z := 0x5900.

Definition via_reg (addr : Z) : Z := u8 ((addr ≫ 9) .& 0x0F).

(** Port B: latched output bits, live input bits. *)
Definition via_read_pb : M mac Z :=
  m ← getm id;
  cycles ← getc cpu_cycles;
  let in_ := (if rtc_data_out (mem_rtc m) then 0x01 else 0)
             .| (if nz (mem_mouse_btn m) then 0x08 else 0)
             .| (if mem_cpu m && nz (cycles .& 0x80) then 0x40 else 0) in
  let v := mem_via m in
  mret (u8 ((via_orb v .& via_ddrb v) .| (in_ .& Z.lnot (via_ddrb v)))).

Definition via_read_pa : M mac Z :=
  v ← getm mem_via;
  mret (u8 ((via_ora v .& via_ddra v) .| (0x80 .& Z.lnot (via_ddra v)))).

Definition getv {A} (f : via6522 → A) : M mac A := getm (λ m, f (mem_via m)).

Definition via_read (addr : Z) : M mac Z :=
  match via_reg addr with
  | 0 => via_clear_irq (VIA_IRQ_CB1 .| VIA_IRQ_CB2) ;; via_read_pb
  | 1 => via_clear_irq (VIA_IRQ_CA1 .| VIA_IRQ_CA2) ;; via_read_pa
  | 15 => via_read_pa
  | 2 => getv via_ddrb
  | 3 => getv via_ddra
  | 4 => via_clear_irq VIA_IRQ_T1 ;; getv (λ v, u8 (via_t1c v .& 0xFF))
  | 5 => getv (λ v, u8 (via_t1c v ≫ 8))
  | 6 => getv (λ v, u8 (via_t1l v .& 0xFF))
  | 7 => getv (λ v, u8 (via_t1l v ≫ 8))
  | 8 => via_clear_irq VIA_IRQ_T2 ;; getv (λ v, u8 (via_t2c v .& 0xFF))
  | 9 => getv (λ v, u8 (via_t2c v ≫ 8))
  | 10 => via_clear_irq VIA_IRQ_SR ;; getv via_sr
  | 11 => getv via_acr
  | 12 => getv via_pcr
  | 13 => getv via_ifr
  | 14 => getv (λ v, u8 (via_ier v .| 0x80))
  | _ => mret 0
  end.

(** A port-A write: overlay, floppy SEL line, video page. *)
Definition via_write_ora (reg val : Z) : M mac unit :=
  updm (on_via (set_via_ora val)) ;;
  when (reg =? 1) (via_clear_irq (VIA_IRQ_CA1 .| VIA_IRQ_CA2)) ;;
  updm (λ m,
    let m := set_mem_overlay (nz (val .& 0x10)) m in
    let m := set_mem_iwm (set_iwm_sel (if nz (val .& 0x20) then 1 else 0) (mem_iwm m)) m in
    set_mem_fb_base (if nz (val .& 0x40) then mem_ram_size m - MAC_FB_OFFSET
                     else mem_ram_size m - 0x8000 - MAC_FB_OFFSET) m).

Definition via_write (addr val : Z) : M mac unit :=
  match via_reg addr with
  | 0 =>
      via_clear_irq (VIA_IRQ_CB1 .| VIA_IRQ_CB2) ;;
      updm (λ m, set_mem_rtc (rtc_via_write val (mem_rtc m)) m) ;;
      updm (on_via (set_via_orb val))
  | 1 => via_write_ora 1 val
  | 15 => via_write_ora 15 val
  | 2 => updm (on_via (set_via_ddrb val))
  | 3 => updm (on_via (set_via_ddra val))
  | 4 | 6 => updm (on_via (λ v, set_via_t1l ((via_t1l v .& 0xFF00) .| val) v))
  | 5 =>
      updm (on_via (λ v,
        let v := set_via_t1l ((via_t1l v .& 0x00FF) .| (val ≪ 8)) v in
        let v := set_via_t1c (via_t1l v) v in
        set_via_t1_irq_armed true v)) ;;
      via_clear_irq VIA_IRQ_T1
  | 7 => updm (on_via (λ v, set_via_t1l ((via_t1l v .& 0x00FF) .| (val ≪ 8)) v))
  | 8 => updm (on_via (set_via_t2l_lo val))
  | 9 =>
      updm (on_via (λ v,
        let v := set_via_t2c (via_t2l_lo v .| (val ≪ 8)) v in
        set_via_t2_irq_armed true v)) ;;
      via_clear_irq VIA_IRQ_T2
  | 10 => updm (on_via (set_via_sr val)) ;; mac_kbd_sr_written
  | 11 => old ← getv via_acr; updm (on_via (set_via_acr val)) ;; mac_kbd_acr_written old
  | 12 => updm (on_via (set_via_pcr val))
  | 13 => via_clear_irq (val .& 0x7F)
  | 14 =>
      updm (on_via (λ v, if nz (val .& 0x80) then set_via_ier (via_ier v .| u8 (val .& 0x7F)) v
                         else set_via_ier (via_ier v .& u8 (Z.lnot (val .& 0x7F))) v)) ;;
      mac_via_recalc_irq
  | _ => mret tt
  end.

(** ** SCC *)

Definition SCC_RR0_RX_AVAIL : Z := 0x01.
Definition SCC_RR0_TX_EMPTY : Z := 0x04.
Definition SCC_RR0_DCD : Z := 0x08.
Definition SCC_RR0_CTS : Z := 0x20.

Definition scc_chan (addr : Z) : Z := (addr ≫ 1) .& 1.
Definition scc_is_data (addr : Z) : Z := (addr ≫ 2) .& 1.

(** [scc.ch[i]] *)
Definition scc_ch (i : Z) (c : mac_scc) : mac_scc_chan := if i =? 0 then scc_ch0 c else scc_ch1 c.
Definition set_scc_ch (i : Z) (v : mac_scc_chan) (c : mac_scc) : mac_scc :=
  if i =? 0 then set_scc_ch0 v c else set_scc_ch1 v c.
Definition upd_ch (i : Z) (f : mac_scc_chan → mac_scc_chan) (c : mac_scc) : mac_scc :=
  set_scc_ch i (f (scc_ch i c)) c.
(** [c->rr[0] |= bits], [c->rr[0] &= (u8)~bits] *)
Definition rr0_or (bits : Z) (c : mac_scc_chan) : mac_scc_chan :=
  set_ch_rr (zset (ch_rr c) 0 (u8 (znth (ch_rr c) 0 .| bits))) c.
Definition rr0_clear (bits : Z) (c : mac_scc_chan) : mac_scc_chan :=
  set_ch_rr (zset (ch_rr c) 0 (u8 (znth (ch_rr c) 0 .& u8 (Z.lnot bits)))) c.

Definition mac_scc_rx (channel byte : Z) (c : mac_scc) : mac_scc :=
  if (channel <? 0) || (1 <? channel) then c
  else upd_ch channel (λ h, rr0_or SCC_RR0_RX_AVAIL (set_ch_rx_avail true (set_ch_rx_byte byte h))) c.

Definition scc_read (addr : Z) (c : mac_scc) : Z * mac_scc :=
  let i := scc_chan addr in
  let h := scc_ch i c in
  if nz (scc_is_data addr) then
    (ch_rx_byte h, upd_ch i (λ h, rr0_clear SCC_RR0_RX_AVAIL (set_ch_rx_avail false h)) c)
  else
    let ptr := scc_wr_ptr c .& 0xF in
    let c := set_scc_wr_ptr 0 c in
    if ptr =? 0 then
      let rr0 := SCC_RR0_TX_EMPTY .| SCC_RR0_DCD in
      (if ch_rx_avail h then rr0 .| (SCC_RR0_RX_AVAIL .| SCC_RR0_CTS) else rr0, c)
    else (znth (ch_rr h) ptr, c).

Definition scc_write (addr v : Z) : M mac unit :=
  let i := scc_chan addr in
  if nz (scc_is_data addr) then
    updm (on_scc (upd_ch i (set_ch_tx_byte v))) ;;
    sink ← getm (λ m, scc_tx_sink (mem_scc m));
    emit sink (EvScc i v) ;;
    updm (on_scc (upd_ch i (λ h, rr0_or SCC_RR0_TX_EMPTY (set_ch_tx_pending false h))))
  else
    updm (on_scc (λ c,
      if scc_wr_ptr c =? 0 then
        let c := set_scc_wr_ptr (v .& 0x0F) c in
        upd_ch i (λ h, set_ch_wr (zset (ch_wr h) 0 v) h) c
      else
        let ptr := scc_wr_ptr c .& 0xF in
        let c := upd_ch i (λ h, set_ch_wr (zset (ch_wr h) ptr v) h) c in
        let c := if (ptr =? 9) && nz (v .& 0x08) then set_scc_irq_on true c else c in
        set_scc_wr_ptr 0 c)).

(** ** SCSI *)

(** An access to the SCSI controller, on the machine's state. *)
Definition on_scsi {A} (f : M mac_scsi A) : M mac A := λ s,
  match f (mem_scsi (bus s)) with
  | Some (v, c) => Some (v, with_bus (set_mem_scsi c) s)
  | None => None
  end.

Definition scsi_read (addr : Z) : M mac Z := on_scsi (mac_scsi_reg_read ((addr ≫ 4) .& 7)).
Definition scsi_write (addr v : Z) : M mac unit := on_scsi (mac_scsi_reg_write ((addr ≫ 4) .& 7) v).
