(* ===== verification/Sony.v ===== *)
(** * The replacement .Sony driver

    [core/sony.c]: the stub patched into the ROM, the extension trap it pokes,
    and the Open, Prime, Control, Status and Mount commands served from the
    inserted disk images.  The driver reaches the guest through the memory
    accessors, which reach the driver back through the trap window; here they
    are a record of operations, and MacMem.v ties the knot. *)

From Stdlib Require Import ZArith Lia.
From stdpp Require Import base tactics list numbers.
From S2P Require Import Prelude Cpu Rtc Iwm Scsi MacState.

Definition sony_driver : list Z := [
  0x4F; 0x00; 0x00; 0x00; 0x00; 0x00; 0x00; 0x00; 0x00; 0xF4; 0x00; 0x18; 0x00; 0x24; 0x00; 0x4A;
  0x00; 0x8A; 0x05; 0x2E; 0x53; 0x6F; 0x6E; 0x79; 0x48; 0xE7; 0x00; 0xC0; 0x55; 0x4F; 0x3F; 0x3C;
  0x00; 0x01; 0x60; 0x30; 0x48; 0xE7; 0x00; 0xC0; 0x55; 0x4F; 0x3F; 0x3C; 0x00; 0x02; 0x41; 0xFA;
  0x01; 0xA4; 0x2F; 0x18; 0x20; 0x50; 0x20; 0x8F; 0x5C; 0x4F; 0x30; 0x1F; 0x4C; 0xDF; 0x03; 0x00;
  0x0C; 0x68; 0x00; 0x01; 0x00; 0x1A; 0x66; 0x1E; 0x4E; 0x75; 0x48; 0xE7; 0x00; 0xC0; 0x55; 0x4F;
  0x3F; 0x3C; 0x00; 0x03; 0x41; 0xFA; 0x01; 0x7E; 0x2F; 0x18; 0x20; 0x50; 0x20; 0x8F; 0x5C; 0x4F;
  0x30; 0x1F; 0x4C; 0xDF; 0x03; 0x00; 0x32; 0x28; 0x00; 0x06; 0x08; 0x01; 0x00; 0x09; 0x67; 0x0C;
  0x4A; 0x40; 0x6F; 0x02; 0x42; 0x40; 0x31; 0x40; 0x00; 0x10; 0x4E; 0x75; 0x4A; 0x40; 0x6F; 0x04;
  0x42; 0x40; 0x4E; 0x75; 0x2F; 0x38; 0x08; 0xFC; 0x4E; 0x75; 0x48; 0xE7; 0x00; 0xC0; 0x55; 0x4F;
  0x3F; 0x3C; 0x00; 0x04; 0x41; 0xFA; 0x01; 0x3E; 0x2F; 0x18; 0x20; 0x50; 0x20; 0x8F; 0x5C; 0x4F;
  0x30; 0x1F; 0x4C; 0xDF; 0x03; 0x00; 0x4E; 0x75; 0x48; 0xE7; 0xE0; 0xC0; 0x20; 0x2F; 0x00; 0x14;
  0x59; 0x4F; 0x2F; 0x00; 0x55; 0x4F; 0x3F; 0x3C; 0x00; 0x08; 0x41; 0xFA; 0x01; 0x18; 0x2F; 0x18;
  0x20; 0x50; 0x20; 0x8F; 0x5C; 0x4F; 0x32; 0x1F; 0x58; 0x4F; 0x20; 0x1F; 0x4A; 0x41; 0x66; 0x06;
  0x30; 0x7C; 0x00; 0x07; 0xA0; 0x2F; 0x4C; 0xDF; 0x03; 0x07; 0x58; 0x4F; 0x4E; 0x73; 0x21; 0x40;
  0x00; 0x06; 0x43; 0xF8; 0x03; 0x08; 0x4E; 0xF9; 0x00; 0x40; 0x0B; 0x20; 0x31; 0x78; 0x0E; 0x19;
  0x00; 0x0A; 0x4E; 0x75; 0x48; 0xE7; 0x1F; 0x18; 0x48; 0xE7; 0x00; 0xC0; 0x5D; 0x4F; 0x3F; 0x3C;
  0x00; 0x05; 0x41; 0xFA; 0x00; 0xD0; 0x2F; 0x18; 0x20; 0x50; 0x20; 0x8F; 0x5C; 0x4F; 0x30; 0x1F;
  0x2E; 0x1F; 0x0C; 0x40; 0xFF; 0xCF; 0x66; 0x06; 0x42; 0x40; 0x60; 0x00; 0x00; 0xA8; 0x4A; 0x40;
  0x66; 0x00; 0x00; 0xA2; 0x20; 0x07; 0xA7; 0x1E; 0x28; 0x48; 0x20; 0x0C; 0x67; 0x00; 0x00; 0xA0;
  0x9E; 0xFC; 0x00; 0x10; 0x2F; 0x0C; 0x2F; 0x07; 0x55; 0x4F; 0x3F; 0x3C; 0x00; 0x06; 0x41; 0xFA;
  0x00; 0x94; 0x2F; 0x18; 0x20; 0x50; 0x20; 0x8F; 0x5C; 0x4F; 0x30; 0x1F; 0x50; 0x4F; 0x2E; 0x1F;
  0x76; 0x00; 0x36; 0x1F; 0x38; 0x1F; 0x3C; 0x1F; 0x3A; 0x1F; 0x26; 0x5F; 0x4A; 0x40; 0x66; 0x64;
  0x41; 0xEC; 0x00; 0x30; 0x43; 0xFA; 0xFF; 0x86; 0x31; 0x7C; 0x00; 0x01; 0x00; 0x04; 0x21; 0x49;
  0x00; 0x06; 0x31; 0x78; 0x0E; 0x19; 0x00; 0x0A; 0xA0; 0x33; 0x20; 0x0B; 0x67; 0x0E; 0x41; 0xFA;
  0xFF; 0x72; 0x27; 0x48; 0x00; 0x06; 0x20; 0x4B; 0xA0; 0x58; 0x60; 0x1A; 0x41; 0xFA; 0xFF; 0x50;
  0x30; 0x3C; 0xA0; 0x4E; 0xA0; 0x47; 0x60; 0x0E; 0x20; 0x47; 0x30; 0x06; 0x48; 0x40; 0x30; 0x05;
  0xA0; 0x4E; 0xDE; 0x83; 0x52; 0x46; 0x51; 0xCC; 0xFF; 0xF0; 0x48; 0x7A; 0xFE; 0xFC; 0x55; 0x4F;
  0x3F; 0x3C; 0x00; 0x07; 0x41; 0xFA; 0x00; 0x1E; 0x2F; 0x18; 0x20; 0x50; 0x20; 0x8F; 0x5C; 0x4F;
  0x30; 0x1F; 0x58; 0x4F; 0x4C; 0xDF; 0x03; 0x00; 0x4C; 0xDF; 0x18; 0xF8; 0x4E; 0x75; 0x30; 0x3C;
  0xFF; 0xFF; 0x60; 0xF0].

Definition my_disk_icon : list Z := [
  0x7F; 0xFF; 0xFF; 0xF0; 0x81; 0x00; 0x01; 0x08; 0x81; 0x00; 0x71; 0x04; 0x81; 0x00; 0x89; 0x02;
  0x81; 0x00; 0x89; 0x01; 0x81; 0x00; 0x89; 0x01; 0x81; 0x00; 0x89; 0x01; 0x81; 0x00; 0x89; 0x01;
  0x81; 0x00; 0x89; 0x01; 0x81; 0x00; 0x71; 0x01; 0x81; 0x00; 0x01; 0x01; 0x80; 0xFF; 0xFE; 0x01;
  0x80; 0x00; 0x00; 0x01; 0x80; 0x00; 0x00; 0x01; 0x80; 0x00; 0x00; 0x01; 0x80; 0x00; 0x00; 0x01;
  0x83; 0xFF; 0xFF; 0xC1; 0x84; 0x00; 0x00; 0x21; 0x84; 0x00; 0x00; 0x21; 0x84; 0x00; 0x00; 0x21;
  0x84; 0x00; 0x00; 0x21; 0x84; 0x00; 0x00; 0x21; 0x84; 0x06; 0x30; 0x21; 0x84; 0x06; 0x60; 0x21;
  0x84; 0x06; 0xC0; 0x21; 0x84; 0x07; 0x80; 0x21; 0x84; 0x07; 0x00; 0x21; 0x84; 0x06; 0x00; 0x21;
  0x84; 0x00; 0x00; 0x21; 0x84; 0x00; 0x00; 0x21; 0x84; 0x00; 0x00; 0x21; 0x7F; 0xFF; 0xFF; 0xFE;
  0x3F; 0xFF; 0xFF; 0xF0; 0x7F; 0xFF; 0xFF; 0xF0; 0xFF; 0xFF; 0xFF; 0xFC; 0xFF; 0xFF; 0xFF; 0xFC;
  0xFF; 0xFF; 0xFF; 0xFF; 0xFF; 0xFF; 0xFF; 0xFF; 0xFF; 0xFF; 0xFF; 0xFF; 0xFF; 0xFF; 0xFF; 0xFF;
  0xFF; 0xFF; 0xFF; 0xFF; 0xFF; 0xFF; 0xFF; 0xFF; 0xFF; 0xFF; 0xFF; 0xFF; 0xFF; 0xFF; 0xFF; 0xFF;
  0xFF; 0xFF; 0xFF; 0xFF; 0xFF; 0xFF; 0xFF; 0xFF; 0xFF; 0xFF; 0xFF; 0xFF; 0xFF; 0xFF; 0xFF; 0xFF;
  0xFF; 0xFF; 0xFF; 0xFF; 0xFF; 0xFF; 0xFF; 0xFF; 0xFF; 0xFF; 0xFF; 0xFF; 0xFF; 0xFF; 0xFF; 0xFF;
  0xFF; 0xFF; 0xFF; 0xFF; 0xFF; 0xFF; 0xFF; 0xFF; 0xFF; 0xFF; 0xFF; 0xFF; 0xFF; 0xFF; 0xFF; 0xFF;
  0xFF; 0xFF; 0xFF; 0xFF; 0xFF; 0xFF; 0xFF; 0xFF; 0xFF; 0xFF; 0xFF; 0xFF; 0xFF; 0xFF; 0xFF; 0xFF;
  0xFF; 0xFF; 0xFF; 0xFF; 0xFF; 0xFF; 0xFF; 0xFF; 0x7F; 0xFF; 0xFF; 0xFC; 0x3F; 0xFF; 0xFF; 0xFC;
  0x00; 0x00].

Definition SONY_DRIVER_BASE : Z := 0x17D30.
Definition SONY_EXTN_BASE : Z := 0xF40000.
Definition MAC_ROM_BASE : Z := 0x400000.
Definition kcom_callcheck : Z := 0x5B17.
Definition kcom_checkval : Z := 0x841339E2.
Definition kExtnSony : Z := 2.
Definition kExtnDisk : Z := 1.

Definition ExtnDat_extension : Z := 2.
Definition ExtnDat_commnd : Z := 4.
Definition ExtnDat_result : Z := 6.
Definition ExtnDat_params : Z := 8.
Definition ExtnDat_version : Z := 8.

Definition mnvm_noErr : Z := 0x0000.
Definition mnvm_miscErr : Z := 0xFFFF.
Definition mnvm_controlErr : Z := 0xFFEF.
Definition mnvm_statusErr : Z := 0xFFEE.
Definition mnvm_closErr : Z := 0xFFE8.
Definition mnvm_eofErr : Z := 0xFFD9.
Definition mnvm_wPrErr : Z := 0xFFD4.
Definition mnvm_opWrErr : Z := 0xFFCF.
Definition mnvm_paramErr : Z := 0xFFCE.
Definition mnvm_nsDrvErr : Z := 0xFFC8.
Definition mnvm_offLinErr : Z := 0xFFBF.

Definition kioTrap : Z := 6.
Definition kioResult : Z := 16.
Definition kioVRefNum : Z := 22.
Definition kcsCode : Z := 26.
Definition kcsParam : Z := 28.
Definition kioBuffer : Z := 32.
Definition kioReqCount : Z := 36.
Definition kioActCount : Z := 40.
Definition kdCtlPosition : Z := 16.

Definition kWriteProt : Z := 2.
Definition kDiskInPlace : Z := 3.
Definition kInstalled : Z := 4.
Definition kSides : Z := 5.
Definition kQLink : Z := 6.
Definition kQType : Z := 10.
Definition kQDriveNo : Z := 12.
Definition kQRefNum : Z := 14.
Definition kQDrvSz : Z := 18.
Definition kQDrvSz2 : Z := 20.
Definition kTwoSideFmt : Z := 18.
Definition kNewIntf : Z := 19.
Definition kDriveErrs : Z := 20.

Definition SonyVarsPtr : Z := 0x0134.
Definition DskErr : Z := 0x0142.
Definition FirstDriveVarsOffset : Z := 0x004A.
Definition EachDriveVarsSize : Z := 0x0042.
Definition MinSonVarsSize : Z := 0x00000310.
Definition NUM_DRIVES : Z := 2.

(** ** Disks and the ROM patch *)

Definition sony_init : sony :=
  mk_sony [None; None] [0; 0] [false; false] [false; false] [false; false] 0 0 0 0 false.

Definition sony_insert_disk_drive (d : Z) (img : list Z) (len : Z) (wprot : bool) (s : sony)
    : bool * sony :=
  if (d <? 0) || (NUM_DRIVES <=? d) then (false, s)
  else
    let s := set_S_image (<[Z.to_nat d := Some (take (Z.to_nat len) img)]> (S_image s)) s in
    let s := set_S_size (zset (S_size s) d len) s in
    let s := set_S_inserted (bset (S_inserted s) d true) s in
    let s := set_S_mounted (bset (S_mounted s) d false) s in
    (true, set_S_wprot (bset (S_wprot s) d wprot) s).

Definition sony_insert_disk (img : list Z) (len : Z) (wprot : bool) (s : sony) : bool * sony :=
  sony_insert_disk_drive 0 img len wprot s.

(** [memcpy(rom + off, l, sizeof l)] *)
Definition patch (off : Z) (l : list Z) (rom : list Z) : list Z :=
  list_inserts (Z.to_nat off) l rom.

(** The sum of the big-endian 16-bit words of [l]; an odd last byte is not counted. *)
Fixpoint sum_words (l : list Z) (sum : Z) : Z :=
  match l with
  | hi :: lo :: l => sum_words l (u32 (sum + (u32 (hi ≪ 8) .| lo)))
  | _ => sum
  end.

Definition be32 (v : Z) : list Z := [u8 (v ≫ 24); u8 (v ≫ 16); u8 (v ≫ 8); u8 v].

Definition sony_patch_rom (m : mac_mem) : bool * mac_mem :=
  let n := Z.of_nat (length sony_driver) in
  match mem_rom m with
  | None => (false, m)
  | Some rom =>
      if mem_rom_size m <? SONY_DRIVER_BASE + n + 300 then (false, m)
      else
        let rom := patch SONY_DRIVER_BASE sony_driver rom in
        let pto := SONY_DRIVER_BASE + n in
        let rom := patch pto [u8 (kcom_callcheck ≫ 8); u8 kcom_callcheck; 0; kExtnSony] rom in
        let rom := patch (pto + 4) (be32 SONY_EXTN_BASE) rom in
        let pto := pto + 8 in
        let m := on_sony (set_S_disk_icon_addr (pto + MAC_ROM_BASE)) m in
        let rom := patch pto my_disk_icon rom in
        let sum := sum_words (drop 4 (take (Z.to_nat (mem_rom_size m)) rom)) 0 in
        (true, set_mem_rom (Some (patch 0 (be32 sum) rom)) m)
  end.

(** ** The driver commands *)

(** [vget8] to [vput32]: the guest's memory. *)
Record accessors := mk_accessors {
  vget8 : Z → M mac Z;
  vget16 : Z → M mac Z;
  vget32 : Z → M mac Z;
  vput8 : Z → Z → M mac unit;
  vput16 : Z → Z → M mac unit;
  vput32 : Z → Z → M mac unit
}.

Definition gets_sony {A} (f : sony → A) : M mac A := getm (λ m, f (mem_sony m)).

(** [S.image[d][i]]: outside the allocation it is undefined behaviour. *)
Definition image_get (d i : Z) : M mac Z := λ s,
  match nth (Z.to_nat d) (S_image (mem_sony (bus s))) None with
  | Some img => match img !! Z.to_nat i with Some v => Some (v, s) | None => None end
  | None => None
  end.
Definition image_put (d i v : Z) : M mac unit := λ s,
  match nth (Z.to_nat d) (S_image (mem_sony (bus s))) None with
  | Some img =>
      if Z.of_nat (length img) <=? i then None
      else Some (tt, with_bus (on_sony (λ S,
             set_S_image (<[Z.to_nat d := Some (zset img i (u8 v))]> (S_image S)) S)) s)
  | None => None
  end.

Section driver.
Context (vm : accessors).

(** Addresses are [u32] expressions. *)
Definition get8 (a : Z) : M mac Z := vget8 vm (u32 a).
Definition get16 (a : Z) : M mac Z := vget16 vm (u32 a).
Definition get32 (a : Z) : M mac Z := vget32 vm (u32 a).
Definition put8 (a v : Z) : M mac unit := vput8 vm (u32 a) (u8 v).
Definition put16 (a v : Z) : M mac unit := vput16 vm (u32 a) (u16 v).
Definition put32 (a v : Z) : M mac unit := vput32 vm (u32 a) (u32 v).

Definition vmove (dst src n : Z) : M mac unit :=
  for_each (upto (Z.to_nat n)) (λ i, v ← get8 (src + i); put8 (dst + i) v).

Definition check_drive (d : Z) : M mac Z :=
  inserted ← gets_sony S_inserted;
  mret (if (d <? 0) || (NUM_DRIVES <=? d) || negb (bnth inserted d)
        then mnvm_nsDrvErr else mnvm_noErr).

(** The result and [*act]. *)
Definition drive_transfer (is_write : bool) (buffer d start count : Z) : M mac (Z * Z) :=
  r ← check_drive d;
  if negb (r =? mnvm_noErr) then mret (r, 0) else
  wprot ← gets_sony (λ S, bnth (S_wprot S) d);
  if is_write && wprot then mret (mnvm_wPrErr, 0) else
  size ← gets_sony (λ S, znth (S_size S) d);
  if size <? start then mret (mnvm_eofErr, 0) else
  let L := u32 (size - start) in
  let eof := negb (count <=? L) in
  let L := if count <=? L then count else L in
  for_each (upto (Z.to_nat L)) (λ i,
    if is_write then v ← get8 (buffer + i); image_put d (start + i) v
    else v ← image_get d (start + i); put8 (buffer + i) v) ;;
  mret (if eof then mnvm_eofErr else mnvm_noErr, L).

Definition drive_vars (d : Z) : M mac Z :=
  sv ← get32 SonyVarsPtr;
  mret (if (d <? 0) || (NUM_DRIVES <=? d) then 0
        else u32 (sv + FirstDriveVarsOffset + EachDriveVarsSize * d)).

(** Prime once the drive's variables are found: the result and the count. *)
Definition prime_transfer (pb dce d trap dvl : Z) : M mac (Z * Z) :=
  let is_write := nz (trap .& 1) in
  dip ← get8 (dvl + kDiskInPlace);
  if negb (dip =? 0x02) && negb (dip =? 0x01) then mret (mnvm_offLinErr, 0) else
  when (dip =? 0x01) (put8 (dvl + kDiskInPlace) 0x02) ;;
  start ← get32 (dce + kdCtlPosition);
  count ← get32 (pb + kioReqCount);
  if nz (start .& 0x1FF) || nz (count .& 0x1FF) then mret (mnvm_paramErr, 0) else
  wp ← (if is_write then get8 (dvl + kWriteProt) else mret 0);
  if nz wp then mret (mnvm_wPrErr, 0) else
  buffer ← get32 (pb + kioBuffer);
  ra ← drive_transfer is_write buffer d start count;
  put32 (dce + kdCtlPosition) (start + snd ra) ;;
  mret ra.

Definition sony_prime (p : Z) : M mac Z :=
  pb ← get32 (p + ExtnDat_params + 0);
  dce ← get32 (p + ExtnDat_params + 4);
  ref ← get16 (pb + kioVRefNum);
  let d := ref - 1 in
  trap ← get16 (pb + kioTrap);
  dvl ← drive_vars d;
  ra ← (if dvl =? 0 then mret (mnvm_nsDrvErr, 0)
        else if negb (trap .& 0xF0FE =? 0xA002) then mret (mnvm_controlErr, 0)
        else prime_transfer pb dce d trap dvl);
  put16 (pb + kioResult) (fst ra) ;;
  put32 (pb + kioActCount) (snd ra) ;;
  when (negb (fst ra =? mnvm_noErr)) (put16 DskErr (fst ra)) ;;
  mret (fst ra).

(** The control calls that need a disk in place. *)
Definition control_op (pb op d dvl : Z) : M mac Z :=
  match op with
  | 5 | 6 => mret mnvm_noErr
  | 7 =>
      put8 (dvl + kWriteProt) 0 ;;
      put8 (dvl + kDiskInPlace) 0 ;;
      put16 (dvl + kQRefNum) 0xFFFB ;;
      updm (on_sony (λ S, set_S_mounted (bset (S_mounted S) d false) S)) ;;
      mret mnvm_noErr
  | 21 | 20 | 22 =>
      qtype ← get16 (dvl + kQType);
      if negb (qtype =? 0) then
        icon ← gets_sony S_disk_icon_addr;
        put32 (pb + kcsParam) icon ;; mret mnvm_noErr
      else mret mnvm_controlErr
  | 23 =>
      qtype ← get16 (dvl + kQType);
      let v := if negb (qtype =? 0) then 0x00000001 else 0x00000003 in
      let v := if negb (d =? 0) then v + 0x00000900 else v in
      put32 (pb + kcsParam) v ;; mret mnvm_noErr
  | _ => mret mnvm_controlErr
  end.

Definition sony_control (p : Z) : M mac Z :=
  pb ← get32 (p + ExtnDat_params + 0);
  op ← get16 (pb + kcsCode);
  result ←
    (if op =? 1 then mret mnvm_miscErr
     else if (op =? 8) || (op =? 9) then mret mnvm_noErr
     else
       ref ← get16 (pb + kioVRefNum);
       let d := ref - 1 in
       dvl ← drive_vars d;
       if dvl =? 0 then mret mnvm_nsDrvErr
       else
         dip ← get8 (dvl + kDiskInPlace);
         if dip =? 0 then mret mnvm_offLinErr else control_op pb op d dvl);
  when (negb (result =? mnvm_noErr)) (put16 DskErr result) ;;
  mret result.

Definition sony_status (p : Z) : M mac Z :=
  pb ← get32 (p + ExtnDat_params + 0);
  op ← get16 (pb + kcsCode);
  result ←
    (if op =? 8 then
       ref ← get16 (pb + kioVRefNum);
       src ← drive_vars (ref - 1);
       if src =? 0 then mret mnvm_nsDrvErr
       else
         updm (on_sony (λ S, if 4 <? S_insert_delay S then set_S_insert_delay 4 S else S)) ;;
         vmove (pb + kcsParam) src 22 ;;
         mret mnvm_noErr
     else mret mnvm_statusErr);
  when (negb (result =? mnvm_noErr)) (put16 DskErr result) ;;
  mret result.

Definition sony_open_a (p : Z) : M mac Z :=
  callback ← gets_sony S_mount_callback;
  if negb (callback =? 0) then mret mnvm_opWrErr
  else
    let L := FirstDriveVarsOffset + EachDriveVarsSize * NUM_DRIVES in
    let L := if L <? MinSonVarsSize then MinSonVarsSize else L in
    put32 (p + ExtnDat_params + 0) L ;; mret mnvm_noErr.

(** The variables of drive [i], as OpenB initialises them. *)
Definition open_b_drive (sony_vars i : Z) : M mac unit :=
  let dvl := u32 (sony_vars + FirstDriveVarsOffset + EachDriveVarsSize * i) in
  put8 (dvl + kDiskInPlace) 0x00 ;;
  put8 (dvl + kInstalled) 0x01 ;;
  put8 (dvl + kSides) 0xFF ;;
  put16 (dvl + kQDriveNo) (i + 1) ;;
  put16 (dvl + kQRefNum) 0xFFFB.

Definition sony_open_b (p : Z) : M mac Z :=
  sony_vars ← get32 (p + ExtnDat_params + 4);
  dce ← get32 (p + ExtnDat_params + 28);
  put32 (sony_vars + 16) kcom_checkval ;;
  put32 (sony_vars + 20) SONY_EXTN_BASE ;;
  put16 (sony_vars + 24) NUM_DRIVES ;;
  put16 (sony_vars + 26) kExtnDisk ;;
  put32 SonyVarsPtr sony_vars ;;
  for_each (upto 2) (open_b_drive sony_vars) ;;
  (utable ← get32 0x011C;
   slot ← get32 (utable + 4 * 4);
   put32 (utable + 4 * 1) slot) ;;
  put8 (dce + 7) 1 ;;
  put32 (p + ExtnDat_params + 8) (sony_vars + FirstDriveVarsOffset + kQLink) ;;
  put16 (p + ExtnDat_params + 12) EachDriveVarsSize ;;
  put16 (p + ExtnDat_params + 14) NUM_DRIVES ;;
  put16 (p + ExtnDat_params + 16) 1 ;;
  put16 (p + ExtnDat_params + 18) 0xFFFB ;;
  put32 (p + ExtnDat_params + 20) (sony_vars + 28) ;;
  mret mnvm_noErr.

Definition sony_open_c (p : Z) : M mac Z :=
  v ← get32 (p + ExtnDat_params + 0);
  updm (on_sony (set_S_mount_callback v)) ;; mret mnvm_noErr.

(** The queue element of a floppy, or of a disk of any other size. *)
Definition mount_element (dvl blocks : Z) : M mac unit :=
  if (blocks =? 800) || (blocks =? 1600) then
    put8 (dvl + kTwoSideFmt) (if blocks =? 800 then 0x00 else 0xFF) ;;
    put8 (dvl + kNewIntf) 0xFF ;;
    put16 (dvl + kQType) 0x00 ;;
    put16 (dvl + kDriveErrs) 0x0000
  else
    put16 (dvl + kQRefNum) 0xFFFE ;;
    put16 (dvl + kQType) 0x01 ;;
    put16 (dvl + kQDrvSz) blocks ;;
    put16 (dvl + kQDrvSz2) (blocks ≫ 16).

Definition sony_mount (p : Z) : M mac Z :=
  data ← get32 (p + ExtnDat_params + 0);
  let d := data .& 0xFFFF in
  dvl ← drive_vars d;
  if dvl =? 0 then mret mnvm_nsDrvErr else
  dip ← get8 (dvl + kDiskInPlace);
  if negb (dip =? 0x00) then mret mnvm_miscErr else
  size ← gets_sony (λ S, znth (S_size S) d);
  mount_element dvl (size ≫ 9) ;;
  put8 (dvl + kWriteProt) (data ≫ 16) ;;
  put8 (dvl + kDiskInPlace) 0x01 ;;
  put32 (p + ExtnDat_params + 4) (d + 1) ;;
  updm (on_sony (λ S, set_S_mounted (bset (S_mounted S) d true) S)) ;;
  mret mnvm_noErr.

(** ** The extension trap *)

Definition extn_sony_access (p : Z) : M mac unit :=
  commnd ← get16 (p + ExtnDat_commnd);
  result ←
    match commnd with
    | 0 => put16 (p + ExtnDat_version) 0 ;; mret mnvm_noErr
    | 1 => sony_prime p
    | 2 => sony_control p
    | 3 => sony_status p
    | 4 => mret mnvm_closErr
    | 5 => sony_open_a p
    | 6 => sony_open_b p
    | 7 => sony_open_c p
    | 8 => sony_mount p
    | _ => mret mnvm_controlErr
    end;
  put16 (p + ExtnDat_result) result.

Definition sony_extn_write (offset data : Z) : M mac unit :=
  let reg := (offset ≫ 1) .& 0x0F in
  if reg =? 0 then updm (on_sony (set_S_param_addr_hi (data .& 0xFFFF)))
  else if reg =? 1 then
    hi ← gets_sony S_param_addr_hi;
    let p := u32 (hi ≪ 16) .| (data .& 0xFFFF) in
    updm (on_sony (set_S_param_addr_hi 0xFFFFFFFF)) ;;
    check ← get16 p;
    when (check =? kcom_callcheck) (
      put16 p 0 ;;
      extension ← get16 (p + ExtnDat_extension);
      if extension =? kExtnSony then extn_sony_access p
      else put16 (p + ExtnDat_result) mnvm_controlErr)
  else mret tt.

(** ** The disk-inserted pseudo-exception *)

(** The first inserted drive that is not mounted. *)
Definition unmounted (S : sony) : option Z :=
  snd <$> list_find (λ i, bnth (S_inserted S) i && negb (bnth (S_mounted S) i) = true) (upto 2).

Definition sony_service : M mac bool :=
  S ← gets_sony id;
  if (S_mount_callback S =? 0) || (0 <? S_insert_delay S) then mret false else
  match unmounted S with
  | None => mret false
  | Some d =>
      updm (on_sony (λ S, set_S_mounted (bset (S_mounted S) d true) S)) ;;
      let data := if bnth (S_wprot S) d then d .| 0x00FF0000 else d in
      was_super ← getc m68k_is_super;
      saved_sr ← getc cpu_sr;
      upd (λ c, set_cpu_sr (cpu_sr c .| SR_S) c) ;;
      upd (λ c, set_cpu_sr (cpu_sr c .& u16 (Z.lnot SR_T)) c) ;;
      upd (m68k_sync_sp was_super) ;;
      upd (λ c, set_areg 7 (areg c 7 - 4) c) ;;
      (sp ← getc (λ c, areg c 7); pc ← getc cpu_pc; put32 sp pc) ;;
      upd (λ c, set_areg 7 (areg c 7 - 2) c) ;;
      (sp ← getc (λ c, areg c 7); put16 sp saved_sr) ;;
      callback ← gets_sony S_mount_callback;
      upd (set_cpu_pc callback) ;;
      upd (λ c, set_areg 7 (areg c 7 - 4) c) ;;
      (sp ← getc (λ c, areg c 7); put32 sp data) ;;
      mret true
  end.
End driver.

Definition sony_tick (S : sony) : sony :=
  if 0 <? S_insert_delay S then set_S_insert_delay (S_insert_delay S - 1) S else S.
