(* ===== verification/MacMem.v ===== *)
(** * The memory map, the periodic tick and the machine's bus

    [core/mac_mem.c]: address decode, the 8-, 16- and 32-bit accessors,
    [mac_mem_tick] and the loaders; the sample extraction of [core/mac_snd.c]
    up to its filter; [mac_set_mouse] of [core/mac_input.c].  The accessors
    make [mac_mem] a [Bus] of the interpreter. *)

From Stdlib Require Import ZArith Lia.
From stdpp Require Import base tactics list numbers.
From S2P Require Import Prelude Cpu Rtc Iwm Scsi MacState Kbd Via Sony.

Definition MAC_OVL_RAM_BASE : Z := 0x600000.
Definition MAC_SCSI_BASE : Z := 0x580000.
Definition MAC_SCC_RD_BASE : Z := 0x900000.
Definition MAC_SCC_WR_BASE : Z := 0xB00000.
Definition MAC_IWM_BASE : Z := 0xC00000.
Definition MAC_VIA_BASE : Z := 0xE80000.
Definition MAC_DEBUG_BASE : Z := 0xF00000.
Definition MAC_DBG_SERIAL : Z := 0x00.
Definition MAC_DBG_EXIT : Z := 0x02.
Definition MAC_DBG_CYCLES : Z := 0x04.
Definition MAC_RAM_SIZE_DEFAULT : Z := 0x100000.
(** [MAC_CPU_HZ / MAC_VBL_HZ] *)
Definition MAC_VBL_CYCLES : Z := 7833600 / 60.

(** ** Loading *)

Definition mac_scc_init : mac_scc :=
  let ch := mk_scc_chan (replicate 16 0) (replicate 16 0) 0 0 false false in
  mk_scc 0 false ch ch false.

(** [mac_mem_init], the hooks being set by the host afterwards. *)
Definition mac_mem_init (ram_size : Z) : mac_mem :=
  let ram_size := if ram_size =? 0 then MAC_RAM_SIZE_DEFAULT else ram_size in
  let via := mk_via 0x7F 0x87 0 0 0 0 0 0 0 0 0 0 0xFFFF 0 0xFFFF 0 false false 0 0 MAC_VBL_CYCLES in
  let rtc := mk_rtc 0 0 0 0 false false 0xB0000000 (replicate 256 0) false in
  mk_mem (replicate (Z.to_nat ram_size) 0) ram_size None 0 true via rtc iwm_init mac_scc_init
    mac_scsi_init (u32 (ram_size - MAC_FB_OFFSET)) 1 false false false 0 0 mac_input_init sony_init
    false false [].

Definition mac_load_rom (rom : list Z) (len : Z) (m : mac_mem) : bool * mac_mem :=
  if (len =? 0) || (0x100000 <? len) then (false, m)
  else
    let m := set_mem_rom (Some (take (Z.to_nat len) rom)) m in
    let m := set_mem_rom_size len m in
    (true, snd (sony_patch_rom m)).

(** [memcpy] past the end of RAM is undefined. *)
Definition mac_load_ram_image (addr : Z) (img : list Z) (len : Z) : M mac_mem unit := λ m,
  if mem_ram_size m <=? addr then Some (tt, m)
  else
    let len := if mem_ram_size m <? u32 (addr + len) then u32 (mem_ram_size m - addr) else len in
    if Z.of_nat (length (mem_ram m)) <? addr + len then None
    else
      let m := set_mem_ram (list_inserts (Z.to_nat addr) (take (Z.to_nat len) img) (mem_ram m)) m in
      Some (tt, set_mem_overlay false m).

Definition mac_insert_disk (img : list Z) (len : Z) (wprot : bool) (m : mac_mem) : bool * mac_mem :=
  let '(ok, s) := sony_insert_disk img len wprot (mem_sony m) in (ok, set_mem_sony s m).
Definition mac_insert_disk_drive (drive : Z) (img : list Z) (len : Z) (wprot : bool) (m : mac_mem)
    : bool * mac_mem :=
  let '(ok, s) := sony_insert_disk_drive drive img len wprot (mem_sony m) in (ok, set_mem_sony s m).

(** ** Address decode *)

(** A pointer into an allocation of [mac_mem]. *)
Inductive mem_loc := InRam (i : Z) | InRom (i : Z).

(** [m->rom ? m->rom + (off % m->rom_size) : NULL], and the same for RAM. *)
Definition rom_at (m : mac_mem) (off : Z) : option mem_loc :=
  match mem_rom m with Some _ => Some (InRom (off mod mem_rom_size m)) | None => None end.
Definition ram_at (m : mac_mem) (off : Z) : option mem_loc :=
  if nz (mem_ram_size m) then Some (InRam (off mod mem_ram_size m)) else None.

Definition between (lo hi x : Z) : bool := (lo <=? x) && (x <? hi).

Definition mem_ptr (m : mac_mem) (addr : Z) : option mem_loc :=
  if mem_overlay m then
    if addr <? 0x100000 then rom_at m addr
    else if between MAC_ROM_BASE (MAC_ROM_BASE + 0x100000) addr then rom_at m (addr - MAC_ROM_BASE)
    else if between MAC_OVL_RAM_BASE (MAC_OVL_RAM_BASE + 0x100000) addr
    then ram_at m (addr - MAC_OVL_RAM_BASE)
    else None
  else if addr <? MAC_ROM_BASE then ram_at m addr
  else if between MAC_ROM_BASE (MAC_ROM_BASE + 0x100000) addr then rom_at m (addr - MAC_ROM_BASE)
  else None.

Inductive region := RGN_NONE | RGN_VIA | RGN_IWM | RGN_SCC_RD | RGN_SCC_WR | RGN_SCSI | RGN_DEBUG.

Definition region_of (addr : Z) : region :=
  if between MAC_DEBUG_BASE (MAC_DEBUG_BASE + 0x10) addr then RGN_DEBUG
  else if between MAC_VIA_BASE 0xF00000 addr then RGN_VIA
  else if between MAC_IWM_BASE MAC_VIA_BASE addr then RGN_IWM
  else if between MAC_SCC_WR_BASE MAC_IWM_BASE addr then RGN_SCC_WR
  else if between MAC_SCC_RD_BASE 0xA00000 addr then RGN_SCC_RD
  else if between 0x800000 MAC_SCC_RD_BASE addr then RGN_SCC_RD
  else if between 0xA00000 MAC_SCC_WR_BASE addr then RGN_SCC_WR
  else if between MAC_SCSI_BASE 0x600000 addr then RGN_SCSI
  else RGN_NONE.

(** The byte [k] places after the one pointed at. *)
Definition deref (m : mac_mem) (p : mem_loc) (k : Z) : option Z :=
  match p with
  | InRam i => mem_ram m !! Z.to_nat (i + k)
  | InRom i => match mem_rom m with Some rom => rom !! Z.to_nat (i + k) | None => None end
  end.
Definition load (p : mem_loc) (k : Z) : M mac Z := λ s,
  match deref (bus s) p k with Some v => Some (v, s) | None => None end.

Definition mem_addr (addr : Z) : Z := addr .& 0xFFFFFF.

(** ** 8-bit access *)

Definition read_debug (addr : Z) : M mac Z :=
  attached ← getm mem_cpu;
  cycles ← getc cpu_cycles;
  let off := addr - MAC_DEBUG_BASE in
  mret (if between MAC_DBG_CYCLES (MAC_DBG_CYCLES + 4) off && attached
        then u8 (u32 cycles ≫ (8 * (3 - (off - MAC_DBG_CYCLES)))) else 0).

Definition on_state {A} (get : mac_mem → A) (set : A → mac_mem → mac_mem) (f : A → Z * A)
    : M mac Z := λ s,
  let '(v, a) := f (get (bus s)) in Some (v, with_bus (set a) s).

Definition read_mmio (addr : Z) : M mac Z :=
  match region_of addr with
  | RGN_VIA => via_read addr
  | RGN_IWM => on_state mem_iwm set_mem_iwm (iwm_read addr)
  | RGN_SCC_RD | RGN_SCC_WR => on_state mem_scc set_mem_scc (scc_read addr)
  | RGN_SCSI => scsi_read addr
  | RGN_DEBUG => read_debug addr
  | RGN_NONE => mret 0
  end.

Definition mac_read8 (addr : Z) : M mac Z :=
  let addr := mem_addr addr in
  updm (λ m, set_mem_reads (mem_reads m + 1) m) ;;
  p ← getm (λ m, mem_ptr m addr);
  match p with
  | Some p => load p 0
  | None =>
      val ← read_mmio addr;
      logged ← getm mem_mmio_log;
      emit logged (EvMmio addr val 0 1) ;;
      mret val
  end.

Definition write_debug (off v : Z) : M mac unit :=
  m ← getm id;
  if off =? MAC_DBG_SERIAL then emit (mem_serial_sink m) (EvSerial v)
  else when ((off =? MAC_DBG_EXIT) && mem_cpu m)
    (upd (λ c, set_cpu_chain_budget 0 (set_cpu_halted M68K_HALT_GUEST_EXIT (set_cpu_exit_code v c)))).

Definition write_mmio (addr v : Z) : M mac unit :=
  match region_of addr with
  | RGN_VIA => via_write addr v
  | RGN_IWM => updm (λ m, set_mem_iwm (iwm_write addr v (mem_iwm m)) m)
  | RGN_SCC_RD | RGN_SCC_WR => scc_write addr v
  | RGN_SCSI => scsi_write addr v
  | RGN_DEBUG => write_debug (addr - MAC_DEBUG_BASE) v
  | RGN_NONE => mret tt
  end.

(** The RAM index a write to [addr] lands on, if it is a RAM write. *)
Definition ram_index (m : mac_mem) (addr : Z) : option Z :=
  if mem_overlay m then
    if between MAC_OVL_RAM_BASE (MAC_OVL_RAM_BASE + 0x100000) addr && nz (mem_ram_size m)
    then Some ((addr - MAC_OVL_RAM_BASE) mod mem_ram_size m) else None
  else if (addr <? MAC_ROM_BASE) && nz (mem_ram_size m) then Some (addr mod mem_ram_size m)
  else None.

(** [m->ram[i] = v] *)
Definition store (i v : Z) : M mac unit := λ s,
  if Z.of_nat (length (mem_ram (bus s))) <=? i then None
  else Some (tt, with_bus (λ m, set_mem_ram (zset (mem_ram m) i v) m) s).

Definition mac_write8 (addr v : Z) : M mac unit :=
  let addr := mem_addr addr in
  updm (λ m, set_mem_writes (mem_writes m + 1) m) ;;
  m ← getm id;
  emit (mem_mmio_log m && match mem_ptr m addr with None => true | Some _ => false end)
    (EvMmio addr v 1 1) ;;
  match ram_index m addr with
  | Some i =>
      store i v ;;
      emit (mem_watch m) (EvWatch (if mem_overlay m then i else addr))
  | None => write_mmio addr v
  end.

(** ** 16- and 32-bit access

    The operands of [|] are evaluated left to right. *)

Definition mac_read16 (addr : Z) : M mac Z :=
  let addr := mem_addr addr in
  p ← getm (λ m, mem_ptr m addr);
  match p with
  | Some p =>
      updm (λ m, set_mem_reads (mem_reads m + 2) m) ;;
      hi ← load p 0; lo ← load p 1; mret (u16 (u16 (hi ≪ 8) .| lo))
  | None => hi ← mac_read8 addr; lo ← mac_read8 (u32 (addr + 1)); mret (u16 (u16 (hi ≪ 8) .| lo))
  end.

Definition mac_read32 (addr : Z) : M mac Z :=
  hi ← mac_read16 addr; lo ← mac_read16 (u32 (addr + 2)); mret (u32 (hi ≪ 16) .| lo).

(** A word written to the trap window enters the driver, which may write to the
    window again: [depth] bounds the nesting, 0 being an exhausted C stack. *)
Fixpoint mac_write16_at (depth : nat) (addr v : Z) : M mac unit :=
  let addr := mem_addr addr in
  if between SONY_EXTN_BASE (SONY_EXTN_BASE + 0x20) addr then
    match depth with
    | O => undefined_behaviour
    | S depth =>
        sony_extn_write
          (mk_accessors mac_read8 mac_read16 mac_read32 mac_write8 (mac_write16_at depth)
             (λ a v, mac_write16_at depth a (v ≫ 16) ;;
                     mac_write16_at depth (u32 (a + 2)) (v .& 0xFFFF)))
          (addr - SONY_EXTN_BASE) v
    end
  else
    mac_write8 addr (u8 (v ≫ 8)) ;;
    mac_write8 (u32 (addr + 1)) (u8 (v .& 0xFF)).

(** The nesting the model follows. *)
Definition extn_depth : nat := 64.

Definition mac_write16 (addr v : Z) : M mac unit := mac_write16_at extn_depth addr v.
Definition mac_write32 (addr v : Z) : M mac unit :=
  mac_write16 addr (v ≫ 16) ;; mac_write16 (u32 (addr + 2)) (v .& 0xFFFF).

(** What the driver's [vget] and [vput] helpers are. *)
Definition mac_accessors : accessors :=
  mk_accessors mac_read8 mac_read16 mac_read32 mac_write8 mac_write16 mac_write32.

#[export] Instance mac_bus : Bus mac_mem := {|
  rd8 := mac_read8; rd16 := mac_read16; rd32 := mac_read32;
  wr8 a v := mac_write8 a (u8 v); wr16 a v := mac_write16 a (u16 v); wr32 a v := mac_write32 a (u32 v);
  trap_hook := None
|}.

(** ** The periodic tick *)

Definition MAC_SND_SAMPLES_PER_VBL : nat := 370.

(** The samples of one vertical blank, before the filter: [None] while the
    sound is switched off, else the centred bytes of the selected buffer. *)
Definition mac_snd_raw (m : mac_mem) : option (list (option Z)) :=
  let v := mem_via m in
  if nz (via_orb v .& 0x80) then None
  else
    let buf_off := if nz (via_ora v .& 0x08) then 0x0300 else 0x5F00 in
    if mem_ram_size m <? buf_off then Some (replicate MAC_SND_SAMPLES_PER_VBL (Some 0x80))
    else
      let base := mem_ram_size m - buf_off in
      Some ((λ i, let a := u32 (base + u32 (i * 2)) in
                  if a <? mem_ram_size m then mem_ram m !! Z.to_nat a else Some 0x80)
            <$> upto MAC_SND_SAMPLES_PER_VBL).

(** Timer 1 after [elapsed] Phi2 clocks. *)
Definition tick_t1 (elapsed : Z) (v : via6522) : via6522 * bool :=
  if via_t1c v <=? elapsed then
    let '(v, irq) :=
      if via_t1_irq_armed v then
        let v := set_via_ifr (via_ifr v .| VIA_IRQ_T1) v in
        (if nz (via_acr v .& 0x40) then v else set_via_t1_irq_armed false v, true)
      else (v, false) in
    let rem := u32 (elapsed - via_t1c v) in
    (set_via_t1c (if nz (via_t1l v) then rem mod u32 (via_t1l v + 1) else 0) v, irq)
  else (set_via_t1c (u32 (via_t1c v - elapsed)) v, false).

Definition tick_t2 (elapsed : Z) (v : via6522) : via6522 * bool :=
  let '(v, irq) :=
    if via_t2_irq_armed v && (via_t2c v <=? elapsed)
    then (set_via_t2_irq_armed false (set_via_ifr (via_ifr v .| VIA_IRQ_T2) v), true)
    else (v, false) in
  (set_via_t2c (u32 (via_t2c v - elapsed)) v, irq).

(** The CPU cycles since the last tick, in Phi2 clocks, with the remainder kept. *)
Definition tick_clock (cycles : Z) (v : via6522) : Z * via6522 :=
  let v := if via_last_cycle v =? 0 then set_via_last_cycle cycles v else v in
  let elapsed_cyc := u64 (cycles - via_last_cycle v) in
  let v := set_via_last_cycle cycles v in
  let v := set_via_via_tick_rem (via_via_tick_rem v + elapsed_cyc) v in
  let elapsed := via_via_tick_rem v / 10 in
  (elapsed, set_via_via_tick_rem (via_via_tick_rem v mod 10) v).

Definition tick_timers (cycles : Z) (v : via6522) : via6522 * bool :=
  let '(elapsed, v) := tick_clock cycles v in
  if 0 <? elapsed then
    let '(v, irq1) := tick_t1 elapsed v in
    let '(v, irq2) := tick_t2 elapsed v in
    (v, irq1 || irq2)
  else (v, false).

(** One vertical blank. *)
Definition vbl_edge : M mac unit :=
  updm (on_via (λ v, set_via_next_vbl (via_next_vbl v + MAC_VBL_CYCLES)
                       (set_via_ifr (via_ifr v .| VIA_IRQ_CA1) v))) ;;
  updm (on_sony sony_tick) ;;
  m ← getm id;
  when (mem_snd_sink m)
    match mac_snd_raw m with
    | None => emit true (EvSound (replicate MAC_SND_SAMPLES_PER_VBL 0x80))
    | Some raw => match mapM id raw with
                  | Some samples => emit true (EvSound samples)
                  | None => undefined_behaviour
                  end
    end.

(** [while (cycles >= v->next_vbl)]: whether an edge happened. *)
Fixpoint vbl_loop (fuel : nat) (cycles : Z) (edge : bool) : M mac bool :=
  next ← getv via_next_vbl;
  if cycles <? next then mret edge
  else match fuel with
       | O => undefined_behaviour
       | S fuel => vbl_edge ;; vbl_loop fuel cycles true
       end.

(** Enough iterations to pass [cycles] from the present [next_vbl]. *)
Definition vbl_fuel (cycles next : Z) : nat := S (Z.to_nat ((cycles - next) / MAC_VBL_CYCLES)).

Definition mac_mem_tick (cycles : Z) : M mac unit :=
  v ← getm mem_via;
  let '(v', irq_changed) := tick_timers cycles v in
  updm (on_via (λ _, v')) ;;
  edge ← vbl_loop (vbl_fuel cycles (via_next_vbl v')) cycles false;
  when (irq_changed || edge) mac_via_recalc_irq ;;
  mac_kbd_tick cycles.

(** ** The mouse *)

Definition LM_MTemp : Z := 0x0828.
Definition LM_RawMouse : Z := 0x082C.
Definition LM_CrsrNew : Z := 0x08CE.
Definition LM_CrsrCouple : Z := 0x08CF.

Definition mac_mouse_enabled (m : mac_mem) : bool := scc_irq_on (mem_scc m).

Definition clamp (hi x : Z) : Z := let x := if x <? 0 then 0 else x in if hi <? x then hi else x.

Definition mac_set_mouse (x y : Z) (button_down : bool) : M mac unit :=
  enabled ← getm mac_mouse_enabled;
  if negb enabled then mret tt
  else
    let x := clamp 511 x in
    let y := clamp 341 y in
    let pos := u32 (y ≪ 16) .| (x .& 0xFFFF) in
    old ← mac_read32 LM_MTemp;
    when (negb (old =? pos)) (
      mac_write32 LM_MTemp pos ;;
      mac_write32 LM_RawMouse pos ;;
      v ← mac_read8 LM_CrsrCouple; mac_write8 LM_CrsrNew v) ;;
    updm (set_mem_mouse_btn (if button_down then 0 else 1)).
