(* ===== verification/MacSafe.v ===== *)
(** * Well-formed machines

    The invariant of the hardware state of MacState.v, and that every
    operation of the peripherals keeps it without undefined behaviour, with
    the interrupt line always equal to the VIA's summary. *)

From Stdlib Require Import ZArith Lia.
From stdpp Require Import base tactics list numbers.
From S2P Require Import Prelude Cpu Rtc Iwm Scsi MacState Kbd Via Sony MacMem.

(** ** The invariant *)

Record via_ok (v : via6522) : Prop := {
  vo_bytes : Forall byte [via_ora v; via_orb v; via_ira v; via_irb v; via_ddra v; via_ddrb v;
    via_acr v; via_pcr v; via_ifr v; via_ier v; via_sr v; via_icb2 v; via_t2l_lo v];
  vo_t1c : 0 ≤ via_t1c v < 0x10000;
  vo_t1l : 0 ≤ via_t1l v < 0x10000;
  vo_t2c : 0 ≤ via_t2c v < 0x10000;
  vo_last : 0 ≤ via_last_cycle v < 0x10000000000000000;
  vo_rem : 0 ≤ via_via_tick_rem v < 10;
  vo_vbl : 0 ≤ via_next_vbl v < 0x10000000000000000
}.

Definition key_ok (k : Z * Z) : Prop := 0 ≤ fst k < 128 ∧ 0 ≤ snd k < 2.

Record kbd_ok (k : kbd) : Prop := {
  ko_state : 0 ≤ K_state k < 4;
  ko_bytes : Forall byte [K_result k; K_instant_cmd k];
  ko_action : 0 ≤ K_timed_action k < 3;
  ko_len : length (K_keyq k) = 64%nat;
  ko_keys : Forall key_ok (K_keyq k);
  ko_head : 0 ≤ K_kq_head k < 64;
  ko_tail : 0 ≤ K_kq_tail k < 64
}.

Record chan_ok (h : mac_scc_chan) : Prop := {
  co_wr : length (ch_wr h) = 16%nat;
  co_rr : length (ch_rr h) = 16%nat;
  co_rr_bytes : Forall byte (ch_rr h);
  co_rx : byte (ch_rx_byte h)
}.
Definition scc_ok (c : mac_scc) : Prop :=
  byte (scc_wr_ptr c) ∧ chan_ok (scc_ch0 c) ∧ chan_ok (scc_ch1 c).

(** An image holds what its size says; an inserted drive has one. *)
Definition drive_ok (S : sony) (d : Z) : Prop :=
  match nth (Z.to_nat d) (S_image S) None with
  | Some img => Z.of_nat (length img) = znth (S_size S) d ∧ znth (S_size S) d < 0x100000000 ∧
                Forall byte img
  | None => bnth (S_inserted S) d = false
  end.
Record sony_ok (S : sony) : Prop := {
  yo_image : length (S_image S) = 2%nat;
  yo_size : length (S_size S) = 2%nat;
  yo_inserted : length (S_inserted S) = 2%nat;
  yo_mounted : length (S_mounted S) = 2%nat;
  yo_drive : ∀ d, 0 ≤ d < 2 → drive_ok S d
}.

(** What no access of the guest changes: the ROM and the size of RAM. *)
Record frame := mk_frame { fr_rom : option (list Z); fr_ram_size : Z }.
Definition frame_of (m : mac_mem) : frame := mk_frame (mem_rom m) (mem_ram_size m).

Record mem_ok (F : frame) (m : mac_mem) : Prop := {
  mo_frame : frame_of m = F;
  mo_ram_len : Z.of_nat (length (mem_ram m)) = mem_ram_size m;
  mo_ram_size : 0 < mem_ram_size m < 0x100000000;
  mo_ram : Forall byte (mem_ram m);
  mo_rom : match mem_rom m with
           | Some rom => Z.of_nat (length rom) = mem_rom_size m ∧ 0 < mem_rom_size m ≤ 0x100000 ∧
                         Forall byte rom
           | None => True
           end;
  mo_via : via_ok (mem_via m);
  mo_rtc : rtc_ok (mem_rtc m);
  mo_iwm : iwm_ok (mem_iwm m);
  mo_iwm_bytes : iwm_bytes (mem_iwm m);
  mo_scc : scc_ok (mem_scc m);
  mo_scsi : scsi_ok (mem_scsi m);
  mo_kbd : kbd_ok (mem_kbd m);
  mo_sony : sony_ok (mem_sony m);
  mo_cpu : mem_cpu m = true
}.
Arguments mo_frame {F}.
Arguments mo_ram_len {F}.
Arguments mo_ram_size {F}.
Arguments mo_ram {F}.
Arguments mo_rom {F}.
Arguments mo_via {F}.
Arguments mo_rtc {F}.
Arguments mo_iwm {F}.
Arguments mo_iwm_bytes {F}.
Arguments mo_scc {F}.
Arguments mo_scsi {F}.
Arguments mo_kbd {F}.
Arguments mo_sony {F}.
Arguments mo_cpu {F}.

(** The CPU's interrupt input follows the VIA. *)
Definition mac_inv (F : frame) (m : mac_mem) (irq : Z) : Prop := mem_ok F m ∧ irq = b2z (via_active (mem_via m)).
(** While an operation is under way it may lag behind. *)
Definition mac_inv0 (F : frame) (m : mac_mem) (_ : Z) : Prop := mem_ok F m.

(** ** Rules for [access_ok] *)

Section rules.
Context (inv : mac_mem → Z → Prop) (ub : Prop).

Lemma safe_ret {A} (a : A) (P : A → Prop) : P a → access_ok inv ub (mret a : M mac A) P.
Proof. intros Ha s Hs. split; [done|]. split; [by split_and!|done]. Qed.

Lemma safe_bind {A A'} (m : M mac A) (k : A → M mac A') P Q :
  access_ok inv ub m P → (∀ a, P a → access_ok inv ub (k a) Q) → access_ok inv ub (m ≫= k) Q.
Proof.
  intros Hm Hk s Hs. specialize (Hm s Hs). unfold mbind, M_bind.
  destruct (m s) as [[a s1]|]; [|done]. destruct Hm as (Hs1 & (Hc & Hl & Hn) & Ha).
  specialize (Hk a Ha s1 Hs1). destruct (k a s1) as [[b s2]|]; [|done].
  destruct Hk as (Hs2 & (Hc2 & Hl2 & Hn2) & Hb). split; [done|]. split; [|done].
  split; [congruence|]. split; congruence.
Qed.

Lemma safe_weaken {A} (m : M mac A) (P Q : A → Prop) :
  (∀ a, P a → Q a) → access_ok inv ub m P → access_ok inv ub m Q.
Proof.
  intros H Hm s Hs. specialize (Hm s Hs). destruct (m s) as [[a s1]|]; [|done].
  destruct Hm as (? & ? & ?). auto.
Qed.

Lemma safe_seq {A} (m : M mac unit) (k : M mac A) Q :
  access_ok inv ub m (λ _, True) → access_ok inv ub k Q → access_ok inv ub (m ;; k) Q.
Proof. intros Hm Hk. by eapply safe_bind; [exact Hm|]. Qed.

Lemma safe_when (b : bool) (m : M mac unit) :
  (b = true → access_ok inv ub m (λ _, True)) → access_ok inv ub (when b m) (λ _, True).
Proof. destruct b; intros H; [by apply H|by apply safe_ret]. Qed.

Lemma safe_if {A} (b : bool) (m1 m2 : M mac A) P :
  (b = true → access_ok inv ub m1 P) → (b = false → access_ok inv ub m2 P) →
  access_ok inv ub (if b then m1 else m2) P.
Proof. destruct b; auto. Qed.

Lemma safe_for_each l (body : Z → M mac unit) :
  (∀ i, i ∈ l → access_ok inv ub (body i) (λ _, True)) →
  access_ok inv ub (for_each l body) (λ _, True).
Proof.
  induction l as [|i l IH]; intros H; [by apply safe_ret|]. simpl. apply safe_seq.
  - apply H. by constructor.
  - apply IH. intros j Hj. apply H. by constructor.
Qed.

Lemma safe_getc {A} (f : m68k_cpu → A) (P : A → Prop) :
  (∀ c, cpu_ok c → P (f c)) → access_ok inv ub (getc f) P.
Proof. intros H s Hs. split; [done|]. split; [done|]. apply H, Hs. Qed.

(** Reading, and updating, the hardware state. *)
Lemma safe_getm {A} (f : mac_mem → A) (P : A → Prop) :
  (∀ m irq, inv m irq → P (f m)) → access_ok inv ub (getm f) P.
Proof. intros H s Hs. split; [done|]. split; [done|]. eapply H, Hs. Qed.

Lemma safe_updm f : (∀ m irq, inv m irq → inv (f m) irq) → access_ok inv ub (updm f) (λ _, True).
Proof. intros H s []. split; [|split; [by split_and!|done]]. split; simpl; auto. Qed.
End rules.

(** An access that is never undefined. *)
Lemma safe_total {inv A} ub (m : M mac A) P : access_ok inv False m P → access_ok inv ub m P.
Proof. intros H s Hs. specialize (H s Hs). by destruct (m s) as [[a s1]|]. Qed.

(** ** Changing one component *)

Lemma mac_inv_mem {F} m irq : (mac_inv F) m irq → (mem_ok F) m.
Proof. by intros []. Qed.

(** Everything but the VIA. *)
Lemma mem_set_ok {F} m irq f : (mem_ok F) (f m) → mem_via (f m) = mem_via m → (mac_inv F) m irq → (mac_inv F) (f m) irq.
Proof. intros Hf Hv [_ Hi]. split; [done|]. by rewrite Hv. Qed.

Lemma on_kbd_ok {F} f m : (kbd_ok (mem_kbd m) → kbd_ok (f (mem_kbd m))) → (mem_ok F) m → (mem_ok F) (on_kbd f m).
Proof. intros Hf []. split; cbn; auto. Qed.
Lemma on_sony_ok {F} f m : (sony_ok (mem_sony m) → sony_ok (f (mem_sony m))) → (mem_ok F) m → (mem_ok F) (on_sony f m).
Proof. intros Hf []. split; cbn; auto. Qed.
Lemma on_scc_ok {F} f m : (scc_ok (mem_scc m) → scc_ok (f (mem_scc m))) → (mem_ok F) m → (mem_ok F) (on_scc f m).
Proof. intros Hf []. split; cbn; auto. Qed.
Lemma on_via_ok {F} f m : (via_ok (mem_via m) → via_ok (f (mem_via m))) → (mem_ok F) m → (mem_ok F) (on_via f m).
Proof. intros Hf []. split; cbn; auto. Qed.

(** The VIA's setters keep its registers in range. *)
Ltac via_setter :=
  intros [Hb ? ? ? ? ? ?]; decompose_Forall; split; cbn; auto with c_int;
  repeat apply Forall_cons_2; try apply Forall_nil_2; auto; try apply u8_range.

Lemma set_ifr_ok x v : via_ok v → via_ok (set_via_ifr x v).
Proof. via_setter. Qed.
Lemma set_ier_ok x v : via_ok v → via_ok (set_via_ier x v).
Proof. via_setter. Qed.
Lemma set_sr_ok' x v : via_ok v → via_ok (set_via_sr x v).
Proof. via_setter. Qed.
Lemma set_icb2_ok x v : via_ok v → via_ok (set_via_icb2 x v).
Proof. via_setter. Qed.
Lemma set_ora_ok x v : via_ok v → via_ok (set_via_ora x v).
Proof. via_setter. Qed.
Lemma set_orb_ok x v : via_ok v → via_ok (set_via_orb x v).
Proof. via_setter. Qed.
Lemma set_ddra_ok x v : via_ok v → via_ok (set_via_ddra x v).
Proof. via_setter. Qed.
Lemma set_ddrb_ok x v : via_ok v → via_ok (set_via_ddrb x v).
Proof. via_setter. Qed.
Lemma set_acr_ok x v : via_ok v → via_ok (set_via_acr x v).
Proof. via_setter. Qed.
Lemma set_pcr_ok x v : via_ok v → via_ok (set_via_pcr x v).
Proof. via_setter. Qed.
Lemma set_t1c_ok x v : via_ok v → via_ok (set_via_t1c x v).
Proof. via_setter. Qed.
Lemma set_t1l_ok x v : via_ok v → via_ok (set_via_t1l x v).
Proof. via_setter. Qed.
Lemma set_t2c_ok x v : via_ok v → via_ok (set_via_t2c x v).
Proof. via_setter. Qed.
Lemma set_t2l_ok x v : via_ok v → via_ok (set_via_t2l_lo x v).
Proof. via_setter. Qed.
Lemma set_t1_armed_ok x v : via_ok v → via_ok (set_via_t1_irq_armed x v).
Proof. via_setter. Qed.
Lemma set_t2_armed_ok x v : via_ok v → via_ok (set_via_t2_irq_armed x v).
Proof. via_setter. Qed.
Lemma set_last_ok x v : via_ok v → via_ok (set_via_last_cycle x v).
Proof. via_setter. Qed.
Lemma set_vbl_ok x v : via_ok v → via_ok (set_via_next_vbl x v).
Proof. via_setter. Qed.

Create HintDb mac.
#[export] Hint Resolve set_ifr_ok set_ier_ok set_sr_ok' set_icb2_ok set_ora_ok set_orb_ok set_ddra_ok
  set_ddrb_ok set_acr_ok set_pcr_ok set_t1c_ok set_t1l_ok set_t2c_ok set_t2l_ok set_t1_armed_ok
  set_t2_armed_ok set_last_ok set_vbl_ok on_kbd_ok on_sony_ok on_scc_ok on_via_ok mac_inv_mem : mac.

(** ** The interrupt line *)

Lemma active_any v :
  nz (u8 (via_ifr v .| VIA_IRQ_ANY) .& via_ier v .& 0x7F) = via_active v ∧
  nz (u8 (via_ifr v .& u8 (Z.lnot VIA_IRQ_ANY)) .& via_ier v .& 0x7F) = via_active v.
Proof.
  unfold via_active. change (u8 (Z.lnot VIA_IRQ_ANY)) with 0x7F.
  assert (∀ x, u8 x .& 0x7F = x .& 0x7F) as Hu.
  { intros x. unfold u8. change 0x100 with (2 ^ 8). rewrite <- Z.land_ones by lia.
    by rewrite <- Z.land_assoc. }
  assert (∀ x y, x .& y .& 0x7F = (x .& 0x7F) .& y) as Hc.
  { intros. rewrite <- !Z.land_assoc. f_equal. apply Z.land_comm. }
  rewrite !Hc, !Hu. split; do 2 f_equal.
  - rewrite Z.land_lor_distr_l. change (VIA_IRQ_ANY .& 0x7F) with 0. apply Z.lor_0_r.
  - rewrite <- Z.land_assoc. done.
Qed.

(** Recomputing the summary restores the full invariant. *)
Lemma recalc_ok {F} s : st_ok_with (mac_inv0 F) s →
  ∃ s', mac_via_recalc_irq s = Some (tt, s') ∧ st_ok_with (mac_inv F) s' ∧ same_core s s'.
Proof.
  intros [Hc Hm Hl Hn]. unfold mac_inv0 in Hm.
  destruct (active_any (mem_via (bus s))) as (H1 & H2).
  unfold mac_via_recalc_irq, getm, updm, upd, gets, modify, mbind, M_bind, when.
  destruct (via_active (mem_via (bus s))) eqn:E;
    change (mem_cpu (bus (with_bus _ s))) with (mem_cpu (bus s)); rewrite (mo_cpu _ Hm);
    (eexists; split; [reflexivity|]); (split; [|by split_and!]);
    (split; cbn [cpu bus exc_log exc_n with_cpu with_bus]; [auto with cpu| |done|done]);
    (split; [apply on_via_ok; [auto with mac|done]|]);
    unfold via_active; cbn [mem_via on_via set_mem_via via_ifr via_ier set_via_ifr];
    [rewrite H1|rewrite H2]; by rewrite ?E.
Qed.

Lemma safe_recalc {F} ub f : (∀ m, (mem_ok F) m → (mem_ok F) (f m)) →
  access_ok (mac_inv F) ub (updm f ;; mac_via_recalc_irq) (λ _, True).
Proof.
  intros Hf s [Hc [Hm _] Hl Hn]. unfold mbind, M_bind, updm, modify.
  destruct (recalc_ok (F := F) (with_bus f s)) as (s' & -> & Hs' & Hsame); [by split; simpl; auto; apply Hf|].
  split; [done|]. split; [|done]. destruct Hsame as (? & ? & ?). by split_and!.
Qed.

Lemma safe_clear_irq {F} ub bits : access_ok (mac_inv F) ub (via_clear_irq bits) (λ _, True).
Proof. apply safe_recalc. auto with mac. Qed.
Lemma safe_set_irq {F} ub bits : access_ok (mac_inv F) ub (via_set_irq bits) (λ _, True).
Proof. apply safe_recalc. auto with mac. Qed.

(** Updates that do not touch the flags. *)
Lemma safe_kbd {F} ub f : (∀ k, kbd_ok k → kbd_ok (f k)) →
  access_ok (mac_inv F) ub (updm (on_kbd f)) (λ _, True).
Proof. intros Hf. apply safe_updm. intros m irq [Hm Hi]. split; [|done]. auto with mac. Qed.
Lemma safe_via {F} ub f : (∀ v, via_ok v → via_ok (f v)) → (∀ v, via_active (f v) = via_active v) →
  access_ok (mac_inv F) ub (updm (on_via f)) (λ _, True).
Proof.
  intros Hf Ha. apply safe_updm. intros m irq [Hm Hi]. split; [auto with mac|].
  cbn. by rewrite Ha.
Qed.
Lemma safe_sony {F} ub f : (∀ S, sony_ok S → sony_ok (f S)) →
  access_ok (mac_inv F) ub (updm (on_sony f)) (λ _, True).
Proof. intros Hf. apply safe_updm. intros m irq [Hm Hi]. split; [|done]. auto with mac. Qed.
Lemma safe_scc {F} ub f : (∀ c, scc_ok c → scc_ok (f c)) →
  access_ok (mac_inv F) ub (updm (on_scc f)) (λ _, True).
Proof. intros Hf. apply safe_updm. intros m irq [Hm Hi]. split; [|done]. auto with mac. Qed.
Lemma safe_emit {F} ub b e : access_ok (mac_inv F) ub (emit b e) (λ _, True).
Proof.
  apply safe_when. intros _. apply safe_updm. intros m irq [Hm Hi]. split; [|done].
  destruct Hm. by split.
Qed.

(** Reading a component. *)
Lemma safe_get_via {F} {A} ub (f : via6522 → A) (P : A → Prop) : (∀ v, via_ok v → P (f v)) →
  access_ok (mac_inv F) ub (getm (λ m, f (mem_via m))) P.
Proof. intros H. apply safe_getm. intros m irq [Hm _]. apply H, Hm. Qed.
Lemma safe_get_kbd {F} {A} ub (f : kbd → A) (P : A → Prop) : (∀ v, kbd_ok v → P (f v)) →
  access_ok (mac_inv F) ub (getm (λ m, f (mem_kbd m))) P.
Proof. intros H. apply safe_getm. intros m irq [Hm _]. apply H, Hm. Qed.
Lemma safe_get_sony {F} {A} ub (f : sony → A) (P : A → Prop) : (∀ v, sony_ok v → P (f v)) →
  access_ok (mac_inv F) ub (getm (λ m, f (mem_sony m))) P.
Proof. intros H. apply safe_getm. intros m irq [Hm _]. apply H, Hm. Qed.
Lemma safe_get {F} {A} ub (f : mac_mem → A) (P : A → Prop) : (∀ m, (mem_ok F) m → P (f m)) →
  access_ok (mac_inv F) ub (getm f) P.
Proof. intros H. apply safe_getm. intros m irq [Hm _]. by apply H. Qed.
Lemma safe_now {F} ub : access_ok (mac_inv F) ub cpu_cycles_now (λ _, True).
Proof.
  unfold cpu_cycles_now. eapply (safe_bind _ _ _ _ (λ b, b = true)).
  - apply safe_get. by intros m [].
  - intros b ->. by apply safe_getc.
Qed.

#[export] Hint Resolve safe_clear_irq safe_set_irq safe_emit safe_now : mac.

(** ** The keyboard *)

Ltac kbd_setter := intros [? ? ? ? ? ? ?]; decompose_Forall; split; cbn; try done;
  repeat apply Forall_cons_2; try apply Forall_nil_2; auto; try apply u8_range.

Lemma set_K_state_ok x k : 0 ≤ x < 4 → kbd_ok k → kbd_ok (set_K_state x k).
Proof. intros ?. kbd_setter. Qed.
Lemma set_K_have_ok x k : kbd_ok k → kbd_ok (set_K_have_result x k).
Proof. kbd_setter. Qed.
Lemma set_K_result_ok x k : kbd_ok k → kbd_ok (set_K_result x k).
Proof. kbd_setter. Qed.
Lemma set_K_instant_ok x k : kbd_ok k → kbd_ok (set_K_instant_cmd x k).
Proof. kbd_setter. Qed.
Lemma set_K_pending_ok x k : kbd_ok k → kbd_ok (set_K_inquiry_pending x k).
Proof. kbd_setter. Qed.
Lemma set_K_deadline_ok x k : kbd_ok k → kbd_ok (set_K_inquiry_deadline x k).
Proof. kbd_setter. Qed.
Lemma set_K_action_ok x k : 0 ≤ x < 3 → kbd_ok k → kbd_ok (set_K_timed_action x k).
Proof. intros ?. kbd_setter. Qed.
Lemma set_K_timed_ok x k : kbd_ok k → kbd_ok (set_K_timed_deadline x k).
Proof. kbd_setter. Qed.
#[export] Hint Resolve set_K_have_ok set_K_result_ok set_K_instant_ok set_K_pending_ok
  set_K_deadline_ok set_K_timed_ok : mac.

Lemma find_key_ok k : kbd_ok k → kbd_ok (find_key_event k).2.
Proof.
  intros Hk. unfold find_key_event. destruct (_ =? _); [done|].
  assert (0 ≤ (K_kq_head k + 1) .& 63 < 64) by (apply land_range_r; lia).
  destruct (nth _ _ _) as [code down]. destruct Hk. by split.
Qed.

Lemma mac_key_event_ok code down k : kbd_ok k → kbd_ok (mac_key_event code down k).
Proof.
  intros Hk. unfold mac_key_event. destruct (_ =? _); [done|].
  assert (0 ≤ (K_kq_tail k + 1) .& 63 < 64) by (apply land_range_r; lia).
  assert (0 ≤ u8 (code .& 0x7F) < 128).
  { pose proof (land_range_r code 0x7F 128 ltac:(lia)). rewrite u8_small; lia. }
  destruct Hk. split; cbn; try done.
  - by rewrite length_insert.
  - apply Forall_insert; [done|]. split; simpl; [done|]. destruct down; simpl; lia.
Qed.

Ltac mac_side := intros; first [done | lia | solve [eauto with mac] | reflexivity].

(** Apply the rules along the syntax. *)
Ltac safe_auto :=
  cbv zeta;
  lazymatch goal with
  | |- access_ok _ _ (getm (λ m, _ (mem_via m)) ≫= _) _ =>
      eapply safe_bind; [apply (safe_get_via _ _ (λ _, True)); done|intros ? _; safe_auto]
  | |- access_ok _ _ (getm _ ≫= _) _ =>
      eapply safe_bind; [apply (safe_get _ _ (λ _, True)); done|intros ? _; safe_auto]
  | |- access_ok _ _ (getc _ ≫= _) _ =>
      eapply safe_bind; [apply (safe_getc _ _ _ (λ _, True)); done|intros ? _; safe_auto]
  | |- access_ok _ _ (?m ≫= (λ _, ?k)) _ => eapply safe_seq; [safe_auto|safe_auto]
  | |- access_ok _ _ (?m ≫= _) _ =>
      first [eapply safe_bind; [solve [eauto with mac]|intros; safe_auto]
            |eapply (safe_bind _ _ _ _ (λ _, True)); [safe_auto|intros ? _; safe_auto]]
  | |- access_ok _ _ (when _ _) _ => apply safe_when; intros ?; safe_auto
  | |- access_ok _ _ (if _ then _ else _) _ => apply safe_if; intros ?; safe_auto
  | |- access_ok _ _ (mret _) _ => apply safe_ret; try done
  | |- access_ok _ _ (updm (on_kbd _)) _ => apply safe_kbd; try solve [mac_side]
  | |- access_ok _ _ (updm (on_via _)) _ => apply safe_via; try solve [mac_side]
  | |- access_ok _ _ (updm (on_sony _)) _ => apply safe_sony; try solve [mac_side]
  | |- access_ok _ _ (updm (on_scc _)) _ => apply safe_scc; try solve [mac_side]
  | |- _ => try solve [eauto with mac]
  end.

Lemma safe_shift_in {F} ub v : access_ok (mac_inv F) ub (via_shift_in_data v) (λ _, True).
Proof. unfold via_shift_in_data. safe_auto. Qed.
#[export] Hint Resolve safe_shift_in : mac.

Lemma safe_shift_out {F} ub : access_ok (mac_inv F) ub via_shift_out_data (λ _, True).
Proof.
  unfold via_shift_out_data. safe_auto. by apply safe_get_via.
Qed.
#[export] Hint Resolve safe_shift_out : mac.

Lemma safe_got {F} ub v : access_ok (mac_inv F) ub (got_keyboard_data v) (λ _, True).
Proof. unfold got_keyboard_data. safe_auto. Qed.
#[export] Hint Resolve safe_got : mac.

Lemma safe_inquiry {F} ub : access_ok (mac_inv F) ub attempt_finish_inquiry (λ _, True).
Proof.
  unfold attempt_finish_inquiry.
  eapply (safe_bind _ _ _ _ kbd_ok); [by apply (safe_get_kbd _ id)|]. intros k Hk.
  pose proof (find_key_ok k Hk) as Hk'.
  destruct (find_key_event k) as [[[code down]|] k']; [|by apply safe_ret].
  apply safe_seq; [by apply safe_kbd|]. destruct (key_data code down) as [data [i|]]; safe_auto.
Qed.
#[export] Hint Resolve safe_inquiry : mac.

Lemma safe_receive {F} ub : access_ok (mac_inv F) ub do_receive_command (λ _, True).
Proof.
  unfold do_receive_command. eapply safe_bind; [apply safe_shift_out|]. intros cmd _.
  apply safe_seq; [safe_auto; intros; by apply set_K_state_ok|].
  repeat case_match; safe_auto.
Qed.
Lemma safe_receive_end {F} ub : access_ok (mac_inv F) ub do_receive_end_command (λ _, True).
Proof.
  unfold do_receive_end_command. apply safe_seq; [safe_auto; intros; by apply set_K_state_ok|].
  safe_auto.
Qed.
Lemma safe_cb2 {F} ub : access_ok (mac_inv F) ub kbd_cb2_changed (λ _, True).
Proof.
  unfold kbd_cb2_changed. safe_auto; intros; apply set_K_action_ok; try lia; by apply set_K_state_ok.
Qed.
#[export] Hint Resolve safe_receive safe_receive_end safe_cb2 : mac.

Lemma safe_sr_written {F} ub : access_ok (mac_inv F) ub mac_kbd_sr_written (λ _, True).
Proof. unfold mac_kbd_sr_written. safe_auto. Qed.
Lemma safe_acr_written {F} ub old : access_ok (mac_inv F) ub (mac_kbd_acr_written old) (λ _, True).
Proof. unfold mac_kbd_acr_written. safe_auto. Qed.
Lemma safe_kbd_tick {F} ub cycles : access_ok (mac_inv F) ub (mac_kbd_tick cycles) (λ _, True).
Proof.
  unfold mac_kbd_tick. safe_auto.
  intros. by apply set_K_action_ok.
Qed.
#[export] Hint Resolve safe_sr_written safe_acr_written safe_kbd_tick : mac.

(** ** The VIA *)

Lemma via_bytes v : via_ok v →
  byte (via_ora v) ∧ byte (via_orb v) ∧ byte (via_ddra v) ∧ byte (via_ddrb v) ∧ byte (via_acr v) ∧
  byte (via_pcr v) ∧ byte (via_ifr v) ∧ byte (via_sr v).
Proof. intros [Hb ? ? ? ? ? ?]. by decompose_Forall. Qed.

Lemma safe_read_pb {F} ub : access_ok (mac_inv F) ub via_read_pb byte.
Proof.
  unfold via_read_pb. eapply safe_bind; [by apply (safe_get _ _ (mem_ok F))|]. intros m _.
  eapply safe_bind; [by apply (safe_getc _ _ _ (λ _, True))|]. intros c _.
  apply safe_ret, u8_range.
Qed.
Lemma safe_read_pa {F} ub : access_ok (mac_inv F) ub via_read_pa byte.
Proof.
  unfold via_read_pa. eapply safe_bind; [by apply (safe_get _ _ (λ _, True))|]. intros m _.
  apply safe_ret, u8_range.
Qed.

Lemma safe_getv {F} {A} ub (f : via6522 → A) (P : A → Prop) : (∀ v, via_ok v → P (f v)) →
  access_ok (mac_inv F) ub (getv f) P.
Proof. apply safe_get_via. Qed.

Lemma safe_via_read {F} ub addr : access_ok (mac_inv F) ub (via_read addr) byte.
Proof.
  unfold via_read. pose proof via_bytes as Hv.
  repeat case_match;
    repeat (apply safe_seq; [solve [auto with mac]|]);
    first [apply safe_read_pb | apply safe_read_pa | apply safe_ret; by split
          | apply safe_getv; intros; first [apply u8_range | apply Hv; done]].
Qed.

Lemma set_overlay_ok {F} x m : (mem_ok F) m → (mem_ok F) (set_mem_overlay x m).
Proof. intros []. by split. Qed.
Lemma set_fb_ok {F} x m : (mem_ok F) m → (mem_ok F) (set_mem_fb_base x m).
Proof. intros []. by split. Qed.
Lemma set_sel_ok {F} x m : (mem_ok F) m → (mem_ok F) (set_mem_iwm (set_iwm_sel x (mem_iwm m)) m).
Proof. intros [? ? ? ? ? ? ? Hi [? ? ?] ? ? ? ? ?]. split; cbn; try done. destruct Hi. by split. Qed.

Lemma safe_write_ora {F} ub reg val : access_ok (mac_inv F) ub (via_write_ora reg val) (λ _, True).
Proof.
  unfold via_write_ora. apply safe_seq; [safe_auto|]. apply safe_seq; [safe_auto|].
  apply safe_updm. intros m irq [Hm Hi]. split; [|done].
  by apply set_fb_ok, set_sel_ok, set_overlay_ok.
Qed.

Lemma safe_rtc {F} ub val :
  access_ok (mac_inv F) ub (updm (λ m, set_mem_rtc (rtc_via_write val (mem_rtc m)) m)) (λ _, True).
Proof.
  apply safe_updm. intros m irq [Hm Hi]. split; [|done]. destruct Hm.
  split; cbn; try done. by apply via_write_rtc_ok.
Qed.
#[export] Hint Resolve safe_write_ora safe_rtc : mac.

Lemma safe_via_write {F} ub addr val : access_ok (mac_inv F) ub (via_write addr val) (λ _, True).
Proof.
  unfold via_write, getv. repeat case_match; first [solve [safe_auto] | apply safe_recalc; auto with mac].
Qed.

(** ** SCC *)

Lemma chan_of_ok i c : scc_ok c → chan_ok (scc_ch i c).
Proof. intros (? & ? & ?). unfold scc_ch. by case_match. Qed.
Lemma upd_ch_ok i f c : (∀ h, chan_ok h → chan_ok (f h)) → scc_ok c → scc_ok (upd_ch i f c).
Proof. intros Hf (? & ? & ?). unfold upd_ch, set_scc_ch, scc_ch. case_match; (split; [done|split; cbn; auto]). Qed.
Lemma rr0_or_ok b h : chan_ok h → chan_ok (rr0_or b h).
Proof.
  intros []. split; cbn; try done; [by rewrite zset_length|].
  apply zset_Forall; [apply u8_range|done].
Qed.
Lemma rr0_clear_ok b h : chan_ok h → chan_ok (rr0_clear b h).
Proof.
  intros []. split; cbn; try done; [by rewrite zset_length|].
  apply zset_Forall; [apply u8_range|done].
Qed.
Lemma set_ch_flags_ok x y h : chan_ok h → chan_ok (set_ch_rx_avail x h) ∧
  chan_ok (set_ch_tx_pending x h) ∧ chan_ok (set_ch_tx_byte y h) ∧ chan_ok (set_ch_rx_byte y h).
Proof. intros []. split_and!; split; cbn; try done. apply u8_range. Qed.
Lemma set_wr_ok i v h : chan_ok h → chan_ok (set_ch_wr (zset (ch_wr h) i v) h).
Proof. intros []. split; cbn; try done. by rewrite zset_length. Qed.
Lemma set_wr_ptr_ok x c : scc_ok c → scc_ok (set_scc_wr_ptr x c).
Proof. intros (? & ? & ?). split; [apply u8_range|by split]. Qed.
Lemma set_irq_on_ok x c : scc_ok c → scc_ok (set_scc_irq_on x c).
Proof. done. Qed.

Lemma mac_scc_rx_ok ch v c : scc_ok c → scc_ok (mac_scc_rx ch v c).
Proof.
  intros Hc. unfold mac_scc_rx. case_match; [done|]. apply upd_ch_ok; [|done]. intros h Hh.
  by apply rr0_or_ok, (set_ch_flags_ok true 0), (set_ch_flags_ok true v).
Qed.

Lemma scc_read_ok addr c : scc_ok c → byte (scc_read addr c).1 ∧ scc_ok (scc_read addr c).2.
Proof.
  intros Hc. unfold scc_read. pose proof (chan_of_ok (scc_chan addr) c Hc) as Hh.
  case_match; [split; [apply Hh|]|].
  - apply upd_ch_ok; [|done]. intros h ?. by apply rr0_clear_ok, (set_ch_flags_ok false 0).
  - pose proof (set_wr_ptr_ok 0 c Hc). case_match; (split; [|done]).
    + cbn [fst]. case_match; by split.
    + apply (znth_Forall byte); [by split|apply Hh].
Qed.

Lemma safe_scc_write {F} ub addr v : access_ok (mac_inv F) ub (scc_write addr v) (λ _, True).
Proof.
  unfold scc_write. safe_auto.
  - intros c Hc. apply upd_ch_ok; [|done]. intros h Hh. by apply (set_ch_flags_ok true v).
  - intros c Hc. apply upd_ch_ok; [|done]. intros h Hh. by apply rr0_or_ok, (set_ch_flags_ok false v).
  - intros c Hc. assert (∀ i p, scc_ok (upd_ch i (λ h, set_ch_wr (zset (ch_wr h) p v) h) c)) as H1.
    { intros. apply upd_ch_ok; [|done]. intros h Hh. by apply set_wr_ok. }
    case_match.
    + apply upd_ch_ok; [|by apply set_wr_ptr_ok]. intros h Hh. by apply set_wr_ok.
    + apply set_wr_ptr_ok. case_match; [apply set_irq_on_ok|]; apply H1.
Qed.

(** ** SCSI, the floppy controller and the debug ports *)

Lemma set_scsi_ok {F} c m : scsi_ok c → (mem_ok F) m → (mem_ok F) (set_mem_scsi c m).
Proof. intros ? []. by split. Qed.

Lemma safe_on_scsi {F} {A} ub (f : M mac_scsi A) P :
  (∀ c, scsi_ok c → ∃ v c', f c = Some (v, c') ∧ scsi_ok c' ∧ P v) →
  access_ok (mac_inv F) ub (on_scsi f) P.
Proof.
  intros Hf s [Hc [Hm Hi] Hl Hn]. unfold on_scsi.
  destruct (Hf _ (mo_scsi _ Hm)) as (v & c' & -> & Hok & HP).
  split; [|by split_and!]. split; try done. split; [by apply set_scsi_ok|done].
Qed.

Lemma safe_scsi_read {F} ub addr : access_ok (mac_inv F) ub (scsi_read addr) byte.
Proof.
  apply safe_on_scsi. intros c Hc.
  destruct (scsi_access_ok (ScsiRead ((addr ≫ 4) .& 7)) c Hc) as (v & c' & ? & ? & ?). by exists v, c'.
Qed.
Lemma safe_scsi_write {F} ub addr v : byte v → access_ok (mac_inv F) ub (scsi_write addr v) (λ _, True).
Proof.
  intros Hv. apply safe_on_scsi. intros c Hc.
  destruct (scsi_access_ok (ScsiWrite ((addr ≫ 4) .& 7) v) c Hc) as (x & c' & E & _ & ?).
  unfold scsi_access in E. rewrite u8_small in E by done. unfold mbind, M_bind in E.
  destruct (mac_scsi_reg_write _ _ _) as [[[] c2]|]; [|done]. injection E as _ <-. by exists tt, c2.
Qed.

Lemma safe_on_state {F} {A} ub (get : mac_mem → A) (set : A → mac_mem → mac_mem) f (ok : A → Prop) :
  (∀ m, (mem_ok F) m → ok (get m)) → (∀ a m, ok a → (mem_ok F) m → (mem_ok F) (set a m)) →
  (∀ a m, mem_via (set a m) = mem_via m) → (∀ a, ok a → byte (f a).1 ∧ ok (f a).2) →
  access_ok (mac_inv F) ub (on_state get set f) byte.
Proof.
  intros Hget Hset Hvia Hf s [Hc [Hm Hi] Hl Hn]. unfold on_state.
  destruct (Hf _ (Hget _ Hm)) as [Hb Hok]. destruct (f (get (bus s))) as [v a].
  split; [|by split_and!]. split; try done. split; [by apply Hset|]. cbn. by rewrite Hvia.
Qed.

Lemma safe_debug {F} ub addr : access_ok (mac_inv F) ub (read_debug addr) byte.
Proof.
  unfold read_debug. eapply safe_bind; [by apply (safe_get _ _ (λ _, True))|]. intros b _.
  eapply safe_bind; [by apply (safe_getc _ _ _ (λ _, True))|]. intros c _.
  apply safe_ret. case_match; [apply u8_range|by split].
Qed.

Lemma safe_read_mmio {F} ub addr : access_ok (mac_inv F) ub (read_mmio addr) byte.
Proof.
  unfold read_mmio. destruct (region_of addr).
  - apply safe_ret. by split.
  - apply safe_via_read.
  - apply (safe_on_state _ _ _ _ (λ i, iwm_ok i ∧ iwm_bytes i)); try done.
    + by intros m [].
    + intros a m [? ?] []. by split.
    + intros a [? ?]. destruct (iwm_read_byte addr a) as [? ?]; [done|].
      split; [done|]. split; [by apply iwm_read_ok|done].
  - apply (safe_on_state _ _ _ _ scc_ok); try done; [by intros m []|by intros a m ? []; split|].
    intros. by apply scc_read_ok.
  - apply (safe_on_state _ _ _ _ scc_ok); try done; [by intros m []|by intros a m ? []; split|].
    intros. by apply scc_read_ok.
  - apply safe_scsi_read.
  - apply safe_debug.
Qed.

(** Setting the CPU fields the debug port drives. *)
Lemma safe_upd {F} ub f : (∀ c, cpu_ok c → cpu_ok (f c)) → (∀ c, cpu_pending_irq (f c) = cpu_pending_irq c) →
  (∀ c, cpu_core (f c) = cpu_core c) → access_ok (mac_inv F) ub (upd f) (λ _, True).
Proof.
  intros Hok Hirq Hcore s [Hc [Hm Hi] Hl Hn].
  split; [|split; [|done]; split; [symmetry; apply Hcore|done]].
  split; cbn; auto. rewrite Hirq. by split.
Qed.

Lemma safe_write_mmio {F} ub addr v : byte v → access_ok (mac_inv F) ub (write_mmio addr v) (λ _, True).
Proof.
  intros Hv. unfold write_mmio. destruct (region_of addr).
  - by apply safe_ret.
  - apply safe_via_write.
  - apply safe_updm. intros m irq [Hm Hi]. split; [|done]. destruct Hm.
    split; cbn; try done; [by apply iwm_write_ok|by apply iwm_write_byte].
  - apply safe_scc_write.
  - apply safe_scc_write.
  - by apply safe_scsi_write.
  - unfold write_debug. eapply safe_bind; [by apply (safe_get _ _ (λ _, True))|]. intros m _.
    apply safe_if; intros _; [auto with mac|]. apply safe_when. intros _.
    apply safe_upd; auto with cpu.
Qed.
