(* ===== verification/MacBus.v ===== *)
(** * The machine's bus meets the interpreter's contract

    Every accessor of MacMem.v on a well-formed machine: the byte accessors are
    total, the wider ones are undefined only where the C code is, and the
    result is an instance of [BusOk], so that the theorems of Step.v and
    Decode.v hold of the emulated Macintosh; then what the memory map promises
    its users. *)

From Stdlib Require Import ZArith Lia.
From stdpp Require Import base tactics list numbers.
From S2P Require Import Prelude Cpu Flat Rtc Iwm Scsi MacState Kbd Via Sony MacMem MacSafe.

(** ** Address decode *)

Definition loc_ok (m : mac_mem) (p : mem_loc) : Prop :=
  match p with
  | InRam i => 0 ≤ i < mem_ram_size m
  | InRom i => 0 ≤ i < mem_rom_size m ∧ mem_rom m ≠ None
  end.

Lemma rom_at_ok {F} m off p : (mem_ok F) m → rom_at m off = Some p → loc_ok m p.
Proof.
  intros [_ ? ? ? Hr]. unfold rom_at. destruct (mem_rom m) eqn:E; [|done]. intros [= <-].
  split; [|congruence]. apply Z.mod_pos_bound. lia.
Qed.
Lemma ram_at_ok {F} m off p : (mem_ok F) m → ram_at m off = Some p → loc_ok m p.
Proof.
  intros [_ ? Hs ?]. unfold ram_at. destruct (nz _); [|done]. intros [= <-].
  apply Z.mod_pos_bound. lia.
Qed.

Lemma mem_ptr_ok {F} m addr p : (mem_ok F) m → mem_ptr m addr = Some p → loc_ok m p.
Proof.
  intros Hm. unfold mem_ptr. repeat case_match; try done; eauto using rom_at_ok, ram_at_ok.
Qed.

(** The byte at a decoded location. *)
Lemma deref_ok {F} m p k : (mem_ok F) m → loc_ok m p → 0 ≤ k →
  match deref m p k with
  | Some v => byte v
  | None => match p with InRam i => mem_ram_size m ≤ i + k | InRom i => mem_rom_size m ≤ i + k end
  end.
Proof.
  intros [_ Hl Hs Hr Hrom] Hp Hk. destruct p as [i|i]; simpl in *.
  - destruct (mem_ram m !! Z.to_nat (i + k)) eqn:E; [exact (Forall_lookup_1 _ _ _ _ Hr E)|].
    apply lookup_ge_None in E. lia.
  - destruct (mem_rom m) as [rom|]; [|by destruct Hp]. destruct Hrom as (Hrl & ? & Hrb).
    destruct (rom !! Z.to_nat (i + k)) eqn:E; [exact (Forall_lookup_1 _ _ _ _ Hrb E)|].
    apply lookup_ge_None in E. lia.
Qed.

Lemma ram_index_ok {F} m addr i : (mem_ok F) m → ram_index m addr = Some i → 0 ≤ i < mem_ram_size m.
Proof.
  intros [_ ? Hs ?]. unfold ram_index.
  repeat case_match; try done; intros [= <-]; apply Z.mod_pos_bound; lia.
Qed.

(** ** 8-bit accesses are total *)

Lemma set_reads_ok {F} x m : (mem_ok F) m → (mem_ok F) (set_mem_reads x m).
Proof. intros []. by split. Qed.
Lemma set_writes_ok {F} x m : (mem_ok F) m → (mem_ok F) (set_mem_writes x m).
Proof. intros []. by split. Qed.

(** Counting an access changes nothing the rest looks at. *)
Lemma counted_ok {F} f s : (∀ m, (mem_ok F) m → (mem_ok F) (f m)) → (∀ m, mem_via (f m) = mem_via m) →
  st_ok_with (mac_inv F) s → st_ok_with (mac_inv F) (with_bus f s).
Proof.
  intros Hf Hv [Hc [Hm Hi] Hl Hn]. split; cbn; try done. split; [auto|]. by rewrite Hv.
Qed.

Lemma same_core_bus f (s : mac) : same_core s (with_bus f s).
Proof. by split_and!. Qed.
Lemma same_core_trans (s1 s2 s3 : mac) : same_core s1 s2 → same_core s2 s3 → same_core s1 s3.
Proof. intros (? & ? & ?) (? & ? & ?). split_and!; congruence. Qed.

(** Continuing from an intermediate state. *)
Lemma safe_from {A} inv ub (m : M mac A) P s0 s :
  access_ok inv ub m P → st_ok_with inv s → same_core s0 s →
  match m s with
  | Some (v, s') => st_ok_with inv s' ∧ same_core s0 s' ∧ P v
  | None => ub
  end.
Proof.
  intros Hm Hs Hc. specialize (Hm s Hs). destruct (m s) as [[v s']|]; [|done].
  destruct Hm as (? & ? & ?). split_and!; try done. by eapply same_core_trans.
Qed.

Lemma safe_read8 {F} addr : access_ok (mac_inv F) False (mac_read8 addr) byte.
Proof.
  intros s Hs. unfold mac_read8. set (f := λ m, set_mem_reads (mem_reads m + 1) m).
  assert (st_ok_with (mac_inv F) (with_bus f s)) as Hs1.
  { apply counted_ok; [|done|done]. intros. by apply set_reads_ok. }
  pose proof (same_core_bus f s) as Hc1. set (s1 := with_bus f s) in *.
  rewrite (bind_Some (updm f) _ s tt s1) by done.
  rewrite (bind_Some (getm _) _ s1 (mem_ptr (bus s1) (mem_addr addr)) s1) by done.
  destruct (mem_ptr (bus s1) (mem_addr addr)) as [p|] eqn:E.
  - assert ((mem_ok F) (bus s1)) as Hm by apply Hs1. pose proof (mem_ptr_ok _ _ _ Hm E) as Hp.
    pose proof (deref_ok _ p 0 Hm Hp ltac:(lia)) as Hd. unfold load.
    destruct (deref (bus s1) p 0) as [v|]; [by split_and!|]. destruct p; simpl in *; lia.
  - apply safe_from; [|done|done]. eapply safe_bind; [apply safe_read_mmio|]. intros v Hv.
    eapply safe_bind; [by apply (safe_get _ _ (λ _, True))|]. intros b _.
    apply safe_seq; [apply safe_emit|]. by apply safe_ret.
Qed.

Lemma store_ok {F} i v s : st_ok_with (mac_inv F) s → 0 ≤ i < mem_ram_size (bus s) → byte v →
  ∃ s', store i v s = Some (tt, s') ∧ st_ok_with (mac_inv F) s' ∧ same_core s s'.
Proof.
  intros [Hc [Hm Hi] Hl Hn] Hr Hv. unfold store. pose proof (mo_ram_len _ Hm).
  rewrite (proj2 (Z.leb_gt _ _)) by lia. eexists. split; [done|]. split; [|apply same_core_bus].
  split; cbn; try done. split; [|done]. destruct Hm. split; cbn; try done.
  - by rewrite zset_length.
  - by apply zset_Forall.
Qed.

Lemma emit_sizes b e s s' : emit b e s = Some (tt, s') → mem_ram_size (bus s') = mem_ram_size (bus s).
Proof. destruct b; intros [= <-]; done. Qed.

Lemma safe_write8 {F} addr v : byte v → access_ok (mac_inv F) False (mac_write8 addr v) (λ _, True).
Proof.
  intros Hv s Hs. unfold mac_write8. set (f := λ m, set_mem_writes (mem_writes m + 1) m).
  assert (st_ok_with (mac_inv F) (with_bus f s)) as Hs1.
  { apply counted_ok; [|done|done]. intros. by apply set_writes_ok. }
  pose proof (same_core_bus f s) as Hc1. set (s1 := with_bus f s) in *.
  rewrite (bind_Some (updm f) _ s tt s1) by done.
  rewrite (bind_Some (getm id) _ s1 (bus s1) s1) by done.
  set (logged := _ && _). set (ev := EvMmio _ _ _ _).
  pose proof (safe_from _ _ _ _ _ _ (safe_emit False logged ev) Hs1 Hc1) as He.
  destruct (emit logged ev s1) as [[[] s2]|] eqn:Ee; [|done]. destruct He as (Hs2 & Hc2 & _).
  rewrite (bind_Some _ _ _ _ _ Ee). apply emit_sizes in Ee.
  destruct (ram_index (bus s1) (mem_addr addr)) as [i|] eqn:Ei.
  - pose proof (ram_index_ok _ _ _ ltac:(apply Hs1) Ei) as Hi.
    destruct (store_ok i v s2 Hs2 ltac:(lia) Hv) as (s3 & E3 & Hs3 & Hc3).
    rewrite (bind_Some _ _ _ _ _ E3).
    apply safe_from; [apply safe_emit|done|]. by eapply same_core_trans.
  - apply safe_from; [by apply safe_write_mmio|done|done].
Qed.

(** ** Word accesses *)

Lemma safe_load {F} ub p k P :
  (∀ m irq, (mac_inv F) m irq → match deref m p k with Some v => P v | None => ub end) →
  access_ok (mac_inv F) ub (load p k) P.
Proof.
  intros Hd s Hs. unfold load. specialize (Hd _ _ (st_bus_ok _ _ Hs)).
  destruct (deref _ _ _); [by split_and!|done].
Qed.

Lemma deref_byte {F} m p k : (mem_ok F) m → match deref m p k with Some v => byte v | None => True end.
Proof.
  intros [_ Hl Hs Hr Hrom]. destruct p as [i|i]; simpl.
  - destruct (mem_ram m !! Z.to_nat (i + k)) eqn:E; [exact (Forall_lookup_1 _ _ _ _ Hr E)|done].
  - destruct (mem_rom m) as [rom|]; [|done]. destruct Hrom as (_ & _ & Hrb).
    destruct (rom !! Z.to_nat (i + k)) eqn:E; [exact (Forall_lookup_1 _ _ _ _ Hrb E)|done].
Qed.

Definition word16 (x : Z) : Prop := 0 ≤ x < 0x10000.

Lemma safe_read16 {F} addr : access_ok (mac_inv F) True (mac_read16 addr) word16.
Proof.
  unfold mac_read16. eapply safe_bind; [by apply (safe_get _ _ (λ _, True))|]. intros [p|] _.
  - apply safe_seq.
    { apply safe_updm. intros m irq [Hm Hi]. split; [by apply set_reads_ok|done]. }
    eapply safe_bind; [apply (safe_load _ _ _ byte); intros m irq [Hm _]; by eapply deref_byte|].
    intros hi _.
    eapply safe_bind; [apply (safe_load _ _ _ byte); intros m irq [Hm _]; by eapply deref_byte|].
    intros lo _. apply safe_ret, u16_range.
  - eapply safe_bind; [apply safe_total, safe_read8|]. intros hi _.
    eapply safe_bind; [apply safe_total, safe_read8|]. intros lo _. apply safe_ret, u16_range.
Qed.

Lemma safe_read32 {F} addr : access_ok (mac_inv F) True (mac_read32 addr) word32.
Proof.
  unfold mac_read32. eapply safe_bind; [apply safe_read16|]. intros hi Hhi.
  eapply safe_bind; [apply safe_read16|]. intros lo Hlo. apply safe_ret.
  unfold word16, word32 in *. rewrite u32_small by (rewrite Z.shiftl_mul_pow2 by lia; lia).
  rewrite (lor_shiftl_add 16) by lia. lia.
Qed.

(** ** The driver, over any accessors that meet the contract *)

Record accessors_ok F (vm : accessors) : Prop := {
  ao_get8 a : access_ok (mac_inv F) True (vget8 vm a) byte;
  ao_get16 a : access_ok (mac_inv F) True (vget16 vm a) word16;
  ao_get32 a : access_ok (mac_inv F) True (vget32 vm a) word32;
  ao_put8 a v : byte v → access_ok (mac_inv F) True (vput8 vm a v) (λ _, True);
  ao_put16 a v : word16 v → access_ok (mac_inv F) True (vput16 vm a v) (λ _, True);
  ao_put32 a v : word32 v → access_ok (mac_inv F) True (vput32 vm a v) (λ _, True)
}.

Ltac sony_setter := intros [? ? ? ? ?]; split; cbn; try done; try (unfold bset; by rewrite length_insert).
Lemma set_mounted_ok d x S : sony_ok S → sony_ok (set_S_mounted (bset (S_mounted S) d x) S).
Proof. sony_setter. Qed.
Lemma set_callback_ok x S : sony_ok S → sony_ok (set_S_mount_callback x S).
Proof. sony_setter. Qed.
Lemma set_param_ok x S : sony_ok S → sony_ok (set_S_param_addr_hi x S).
Proof. sony_setter. Qed.
Lemma set_icon_ok x S : sony_ok S → sony_ok (set_S_disk_icon_addr x S).
Proof. sony_setter. Qed.
Lemma set_delay_ok x S : sony_ok S → sony_ok (set_S_insert_delay x S).
Proof. sony_setter. Qed.
Lemma sony_tick_ok S : sony_ok S → sony_ok (sony_tick S).
Proof. intros. unfold sony_tick. case_match; [by apply set_delay_ok|done]. Qed.
#[export] Hint Resolve set_mounted_ok set_callback_ok set_param_ok set_icon_ok set_delay_ok sony_tick_ok : mac.

Lemma safe_image_get {F} d i : access_ok (mac_inv F) True (image_get d i) (λ _, True).
Proof. intros s Hs. unfold image_get. repeat case_match; simplify_eq; try done; by split_and!. Qed.

Lemma put_image_ok S d i img v : sony_ok S → nth (Z.to_nat d) (S_image S) None = Some img → byte v →
  sony_ok (set_S_image (<[Z.to_nat d := Some (zset img i v)]> (S_image S)) S).
Proof.
  intros [Hl ? ? ? Hd] Hi Hv. split; cbn; try done; [by rewrite length_insert|].
  intros e He. specialize (Hd e He). unfold drive_ok in *. cbn.
  rewrite nth_lookup. destruct (decide (Z.to_nat e = Z.to_nat d)) as [Ee|Hne].
  - rewrite Ee in Hd |- *. rewrite Hi in Hd. rewrite list_lookup_insert_eq by lia. simpl.
    replace (znth (S_size S) e) with (znth (S_size S) d) in * by (unfold znth; by rewrite Ee).
    rewrite zset_length. destruct Hd as (? & ? & ?). split_and!; try done. by apply zset_Forall.
  - rewrite list_lookup_insert_ne by done. by rewrite <- nth_lookup.
Qed.

Lemma safe_image_put {F} d i v : access_ok (mac_inv F) True (image_put d i v) (λ _, True).
Proof.
  intros s [Hc [Hm Hi] Hl Hn]. unfold image_put.
  destruct (nth _ _ _) as [img|] eqn:E; [|done].
  destruct (_ <=? _); [done|].
  split; [|split; [apply same_core_bus|done]]. split; cbn; try done. split; [|done].
  apply on_sony_ok; [|done]. intros HS. apply put_image_ok; [done..|apply u8_range].
Qed.
#[export] Hint Resolve safe_image_get safe_image_put : mac.

Section driver.
Context (F : frame) (vm : accessors) (Hvm : accessors_ok F vm).

Lemma safe_get8 a : access_ok (mac_inv F) True (get8 vm a) (λ _, True).
Proof. eapply safe_weaken; [|apply (ao_get8 _ _ Hvm)]. done. Qed.
Lemma safe_get16 a : access_ok (mac_inv F) True (get16 vm a) (λ _, True).
Proof. eapply safe_weaken; [|apply (ao_get16 _ _ Hvm)]. done. Qed.
Lemma safe_get32 a : access_ok (mac_inv F) True (get32 vm a) (λ _, True).
Proof. eapply safe_weaken; [|apply (ao_get32 _ _ Hvm)]. done. Qed.
Lemma safe_put8 a v : access_ok (mac_inv F) True (put8 vm a v) (λ _, True).
Proof. apply (ao_put8 _ _ Hvm), u8_range. Qed.
Lemma safe_put16 a v : access_ok (mac_inv F) True (put16 vm a v) (λ _, True).
Proof. apply (ao_put16 _ _ Hvm), u16_range. Qed.
Lemma safe_put32 a v : access_ok (mac_inv F) True (put32 vm a v) (λ _, True).
Proof. apply (ao_put32 _ _ Hvm), u32_range. Qed.
#[local] Hint Resolve safe_get8 safe_get16 safe_get32 safe_put8 safe_put16 safe_put32 : mac.

Lemma safe_gets_sony {A} (f : sony → A) : access_ok (mac_inv F) True (gets_sony f) (λ _, True).
Proof. by apply safe_get_sony. Qed.
#[local] Hint Resolve safe_gets_sony : mac.

Lemma safe_vmove dst src n : access_ok (mac_inv F) True (vmove vm dst src n) (λ _, True).
Proof. apply safe_for_each. intros i _. safe_auto. Qed.
Lemma safe_check_drive d : access_ok (mac_inv F) True (check_drive d) (λ _, True).
Proof. unfold check_drive. safe_auto. Qed.
#[local] Hint Resolve safe_vmove safe_check_drive : mac.

Lemma safe_transfer w b d st n : access_ok (mac_inv F) True (drive_transfer vm w b d st n) (λ _, True).
Proof.
  unfold drive_transfer. safe_auto.
  all: apply safe_for_each; intros i _; safe_auto.
Qed.
Lemma safe_drive_vars d : access_ok (mac_inv F) True (drive_vars vm d) (λ _, True).
Proof. unfold drive_vars. safe_auto. Qed.
#[local] Hint Resolve safe_transfer safe_drive_vars : mac.

Lemma safe_prime_transfer a b c d e : access_ok (mac_inv F) True (prime_transfer vm a b c d e) (λ _, True).
Proof.
  unfold prime_transfer. safe_auto.
Qed.
#[local] Hint Resolve safe_prime_transfer : mac.

Lemma safe_sony_prime p : access_ok (mac_inv F) True (sony_prime vm p) (λ _, True).
Proof. unfold sony_prime. safe_auto. Qed.
Lemma safe_control_op a b c d : access_ok (mac_inv F) True (control_op vm a b c d) (λ _, True).
Proof. unfold control_op. repeat case_match; safe_auto. Qed.
#[local] Hint Resolve safe_sony_prime safe_control_op : mac.
Lemma safe_sony_control p : access_ok (mac_inv F) True (sony_control vm p) (λ _, True).
Proof. unfold sony_control. safe_auto. Qed.
Lemma safe_sony_status p : access_ok (mac_inv F) True (sony_status vm p) (λ _, True).
Proof.
  unfold sony_status. safe_auto. intros S HS. case_match; auto with mac.
Qed.
Lemma safe_sony_open_a p : access_ok (mac_inv F) True (sony_open_a vm p) (λ _, True).
Proof. unfold sony_open_a. safe_auto. Qed.
Lemma safe_open_b_drive v i : access_ok (mac_inv F) True (open_b_drive vm v i) (λ _, True).
Proof. unfold open_b_drive. safe_auto. Qed.
Lemma safe_sony_open_b p : access_ok (mac_inv F) True (sony_open_b vm p) (λ _, True).
Proof.
  unfold sony_open_b. safe_auto. apply safe_for_each. intros i _. apply safe_open_b_drive.
Qed.
Lemma safe_sony_open_c p : access_ok (mac_inv F) True (sony_open_c vm p) (λ _, True).
Proof. unfold sony_open_c. safe_auto. Qed.
Lemma safe_mount_element d b : access_ok (mac_inv F) True (mount_element vm d b) (λ _, True).
Proof. unfold mount_element. safe_auto. Qed.
#[local] Hint Resolve safe_sony_control safe_sony_status safe_sony_open_a safe_sony_open_b
  safe_sony_open_c safe_mount_element : mac.
Lemma safe_sony_mount p : access_ok (mac_inv F) True (sony_mount vm p) (λ _, True).
Proof. unfold sony_mount. safe_auto. Qed.
#[local] Hint Resolve safe_sony_mount : mac.

Lemma safe_extn_access p : access_ok (mac_inv F) True (extn_sony_access vm p) (λ _, True).
Proof.
  unfold extn_sony_access. safe_auto.
  repeat case_match; safe_auto.
Qed.
#[local] Hint Resolve safe_extn_access : mac.

Lemma safe_extn_write off v : access_ok (mac_inv F) True (sony_extn_write vm off v) (λ _, True).
Proof. unfold sony_extn_write. safe_auto. Qed.
End driver.

(** ** The accessors, and the instance *)

Lemma word_bytes {F} a b v :
  access_ok (mac_inv F) True (mac_write8 a (u8 (v ≫ 8)) ;; mac_write8 b (u8 (v .& 0xFF))) (λ _, True).
Proof. apply safe_seq; apply safe_total, safe_write8, u8_range. Qed.

Lemma safe_write16_at {F} n a v : access_ok (mac_inv F) True (mac_write16_at n a v) (λ _, True).
Proof.
  revert a v. induction n as [|n IH]; intros a v; cbn [mac_write16_at]; apply safe_if; intros _;
    try apply word_bytes.
  - by intros s Hs.
  - apply (safe_extn_write F). split; cbn; intros.
    + apply safe_total, safe_read8.
    + apply safe_read16.
    + apply safe_read32.
    + by apply safe_total, safe_write8.
    + apply IH.
    + by apply safe_seq.
Qed.

Lemma safe_write16 {F} a v : access_ok (mac_inv F) True (mac_write16 a v) (λ _, True).
Proof. apply safe_write16_at. Qed.
Lemma safe_write32 {F} a v : access_ok (mac_inv F) True (mac_write32 a v) (λ _, True).
Proof. apply safe_seq; apply safe_write16. Qed.

Lemma mac_accessors_ok F : accessors_ok F mac_accessors.
Proof.
  split; intros.
  - exact (safe_total True _ _ (safe_read8 a)).
  - exact (safe_read16 a).
  - exact (safe_read32 a).
  - exact (safe_total True _ _ (safe_write8 a v H)).
  - exact (safe_write16 a v).
  - exact (safe_write32 a v).
Qed.

(** For each ROM and RAM size, the machines that have them. *)
Definition mac_bus_ok (F : frame) : BusOk mac_mem.
Proof.
  refine {| bus_inv := mac_inv F; bus_ub := True |}.
  - intros a. exact (safe_total True _ _ (safe_read8 a)).
  - intros a. exact (safe_read16 a).
  - intros a. exact (safe_read32 a).
  - intros a v. exact (safe_total True _ _ (safe_write8 a (u8 v) (u8_range v))).
  - intros a v. exact (safe_write16 a (u16 v)).
  - intros a v. exact (safe_write32 a (u32 v)).
  - exact (λ _, I).
Defined.

(** ** What the memory map promises *)

(** C19.  A byte access anywhere in the address space of a well-formed machine
    is defined: it stays inside the RAM, ROM and device state it reaches, a
    read returns a byte, the invariant is kept (the ROM, the RAM size and the
    equality of the CPU's interrupt input with the VIA summary included), and
    the CPU registers are left alone. *)
Theorem mac_byte_access (F : frame) (s : mac) a v : st_ok_with (mac_inv F) s → byte v →
  (∃ x s', mac_read8 a s = Some (x, s') ∧ byte x ∧ st_ok_with (mac_inv F) s' ∧ same_core s s') ∧
  (∃ s', mac_write8 a v s = Some (tt, s') ∧ st_ok_with (mac_inv F) s' ∧ same_core s s').
Proof.
  intros Hs Hv. split.
  - pose proof (safe_read8 (F := F) a s Hs) as H.
    destruct (mac_read8 a s) as [[x s']|]; [|done]. destruct H as (? & ? & ?). by exists x, s'.
  - pose proof (safe_write8 (F := F) a v Hv s Hs) as H.
    destruct (mac_write8 a v s) as [[[] s']|]; [|done]. destruct H as (? & ? & ?). by exists s'.
Qed.

(** The last byte of the allocation a plain address decodes to. *)
Definition at_end (m : mac_mem) (p : mem_loc) : Prop :=
  match p with
  | InRam i => i + 1 = mem_ram_size m
  | InRom i => i + 1 = mem_rom_size m
  end.

(** C20.  A 16-bit read is undefined exactly when it decodes to the last byte of
    RAM or ROM: the second byte is then read past the allocation. *)
Theorem mac_read16_defined (F : frame) (s : mac) a : st_ok_with (mac_inv F) s →
  mac_read16 a s = None ↔ ∃ p, mem_ptr (bus s) (mem_addr a) = Some p ∧ at_end (bus s) p.
Proof.
  intros Hs. assert (mem_ok F (bus s)) as Hm by apply Hs.
  unfold mac_read16. rewrite (bind_Some (getm _) _ s (mem_ptr (bus s) (mem_addr a)) s) by done.
  destruct (mem_ptr (bus s) (mem_addr a)) as [p|] eqn:E.
  - pose proof (mem_ptr_ok _ _ _ Hm E) as Hp.
    pose proof (deref_ok _ p 0 Hm Hp ltac:(lia)) as H0.
    pose proof (deref_ok _ p 1 Hm Hp ltac:(lia)) as H1.
    set (f := λ m, set_mem_reads (mem_reads m + 2) m).
    rewrite (bind_Some (updm f) _ s tt (with_bus f s)) by done.
    unfold mbind, M_bind, load.
    assert (∀ k, deref (bus (with_bus f s)) p k = deref (bus s) p k) as Ed by (by destruct p).
    rewrite Ed.
    destruct (deref (bus s) p 0) as [b0|]; [|destruct p; simpl in *; lia]. rewrite Ed.
    destruct (deref (bus s) p 1) as [b1|] eqn:E1.
    + split; [intros Hn; discriminate Hn|].
      intros (q & [= <-] & Hend). destruct p as [i|i]; simpl in *.
      * apply lookup_lt_Some in E1. pose proof (mo_ram_len _ Hm). lia.
      * pose proof (mo_rom _ Hm) as Hr. revert E1 Hr. destruct (mem_rom (bus s)) as [rom|]; [|done].
        intros E1%lookup_lt_Some Hr. lia.
    + split; [|done]. intros _. exists p. split; [done|]. destruct p; simpl in *; lia.
  - split; [|by intros (p & ? & _)]. intros Hn. exfalso.
    assert (access_ok (mac_inv F) False (hi ← mac_read8 (mem_addr a);
      lo ← mac_read8 (u32 (mem_addr a + 1)); mret (u16 (u16 (hi ≪ 8) .| lo)) : M mac Z) (λ _, True)) as Hr.
    { eapply safe_bind; [apply safe_read8|]. intros hi _.
      eapply safe_bind; [apply safe_read8|]. intros lo _. by apply safe_ret. }
    specialize (Hr s Hs). unfold mbind, M_bind, mret, M_ret in Hr, Hn. rewrite Hn in Hr. done.
Qed.

(** ** Plain RAM *)

(** Everything but the contents of RAM, the access counters and the trace. *)
Definition mem_rest (m : mac_mem) : mac_mem :=
  set_mem_ram [] (set_mem_out [] (set_mem_writes 0 (set_mem_reads 0 m))).

(** [s'] is [s] with [ram] as the contents of RAM (and other counters and trace). *)
Definition ram_only (ram : list Z) (s s' : mac) : Prop :=
  cpu s' = cpu s ∧ exc_log s' = exc_log s ∧ exc_n s' = exc_n s ∧
  mem_rest (bus s') = mem_rest (bus s) ∧ mem_ram (bus s') = ram.

Lemma ram_only_trans ram ram' s s1 s2 : ram_only ram s s1 → ram_only ram' s1 s2 → ram_only ram' s s2.
Proof. intros (? & ? & ? & ? & ?) (? & ? & ? & ? & ?). split_and!; congruence. Qed.

(** Fields of the rest. *)
Lemma ram_only_field {A} (f : mac_mem → A) ram s s' : (∀ m, f (mem_rest m) = f m) →
  ram_only ram s s' → f (bus s') = f (bus s).
Proof. intros Hf (_ & _ & _ & E & _). by rewrite <- (Hf (bus s')), E, Hf. Qed.

Lemma mem_addr_small a : 0 ≤ a < 0x1000000 → mem_addr a = a.
Proof. intros. unfold mem_addr. rewrite (land_ones_low _ _ 24) by done. apply Z.mod_small. lia. Qed.

(** A machine past the boot overlay. *)
Definition ram_mapped (s : mac) : Prop :=
  mem_overlay (bus s) = false ∧ 0 < mem_ram_size (bus s) ∧
  Z.of_nat (length (mem_ram (bus s))) = mem_ram_size (bus s).

Definition ram_index_of (s : mac) (a : Z) : Z := a mod mem_ram_size (bus s).

Lemma ram_ptr s a : ram_mapped s → 0 ≤ a < MAC_ROM_BASE →
  mem_ptr (bus s) a = Some (InRam (ram_index_of s a)) ∧
  ram_index (bus s) a = Some (ram_index_of s a) ∧ 0 ≤ ram_index_of s a < mem_ram_size (bus s).
Proof.
  intros (Ho & Hz & _) Ha. unfold mem_ptr, ram_index, ram_at, ram_index_of. rewrite Ho.
  rewrite (proj2 (Z.ltb_lt _ _)) by lia. split; [|split].
  - replace (nz (mem_ram_size (bus s))) with true; [done|].
    unfold nz. by rewrite (proj2 (Z.eqb_neq _ _)) by lia.
  - replace (nz (mem_ram_size (bus s))) with true; [done|].
    unfold nz. by rewrite (proj2 (Z.eqb_neq _ _)) by lia.
  - apply Z.mod_pos_bound. lia.
Qed.

Lemma ram_mapped_only ram s s' : ram_only ram s s' → length ram = length (mem_ram (bus s)) →
  ram_mapped s → ram_mapped s'.
Proof.
  intros Ho Hl (H1 & H2 & H3). unfold ram_mapped.
  rewrite (ram_only_field mem_overlay _ _ _ ltac:(done) Ho),
    (ram_only_field mem_ram_size _ _ _ ltac:(done) Ho).
  destruct Ho as (_ & _ & _ & _ & ->). by rewrite Hl.
Qed.

Lemma read8_ram s a : ram_mapped s → 0 ≤ a < MAC_ROM_BASE →
  ∃ s', mac_read8 a s = Some (znth (mem_ram (bus s)) (ram_index_of s a), s') ∧
    ram_only (mem_ram (bus s)) s s'.
Proof.
  intros Hs Ha. destruct (ram_ptr s a Hs Ha) as (Hp & _ & Hi). unfold MAC_ROM_BASE in Ha.
  unfold mac_read8. rewrite mem_addr_small by lia.
  set (f := λ m, set_mem_reads (mem_reads m + 1) m).
  rewrite (bind_Some (updm f) _ s tt (with_bus f s)) by done.
  rewrite (bind_Some (getm _) _ _ (mem_ptr (bus s) a) (with_bus f s)) by done. rewrite Hp.
  unfold load. change (deref (bus (with_bus f s)) (InRam (ram_index_of s a)) 0) with
    (mem_ram (bus s) !! Z.to_nat (ram_index_of s a + 0)). rewrite Z.add_0_r.
  destruct Hs as (_ & _ & Hl).
  destruct (lookup_lt_is_Some_2 (mem_ram (bus s)) (Z.to_nat (ram_index_of s a))) as [v Hv]; [lia|].
  rewrite Hv. exists (with_bus f s). split; [|by split_and!].
  unfold znth. by rewrite nth_lookup, Hv.
Qed.

Lemma emit_only b e s : ∃ s', emit b e s = Some (tt, s') ∧ ram_only (mem_ram (bus s)) s s'.
Proof. destruct b; (eexists; split; [reflexivity|]); by split_and!. Qed.

Lemma write8_ram s a v : ram_mapped s → 0 ≤ a < MAC_ROM_BASE →
  ∃ s', mac_write8 a v s = Some (tt, s') ∧
    ram_only (zset (mem_ram (bus s)) (ram_index_of s a) v) s s'.
Proof.
  intros Hs Ha. destruct (ram_ptr s a Hs Ha) as (Hp & Hr & Hi). unfold MAC_ROM_BASE in Ha.
  unfold mac_write8. rewrite mem_addr_small by lia.
  set (f := λ m, set_mem_writes (mem_writes m + 1) m). set (s1 := with_bus f s).
  rewrite (bind_Some (updm f) _ s tt s1) by done.
  rewrite (bind_Some (getm id) _ s1 (bus s1) s1) by done.
  assert (ram_only (mem_ram (bus s)) s s1) as H1 by (by split_and!).
  set (b := _ && _). set (e := EvMmio _ _ _ _).
  destruct (emit_only b e s1) as (s2 & E2 & H2). rewrite (bind_Some _ _ _ _ _ E2).
  change (ram_index (bus s1) a) with (ram_index (bus s) a). rewrite Hr.
  assert (mem_ram (bus s2) = mem_ram (bus s)) as Er by apply H2.
  set (s3 := with_bus (λ m, set_mem_ram (zset (mem_ram m) (ram_index_of s a) v) m) s2).
  assert (store (ram_index_of s a) v s2 = Some (tt, s3)) as E3.
  { unfold store. rewrite Er. destruct Hs as (_ & _ & Hl).
    by rewrite (proj2 (Z.leb_gt _ _)) by lia. }
  rewrite (bind_Some _ _ _ _ _ E3).
  assert (ram_only (zset (mem_ram (bus s)) (ram_index_of s a) v) s2 s3) as H3.
  { split_and!; try done. unfold s3. cbn. by rewrite Er. }
  set (b4 := mem_watch _). set (e4 := EvWatch _).
  destruct (emit_only b4 e4 s3) as (s4 & E4 & H4). exists s4. split; [exact E4|].
  apply (ram_only_trans _ _ _ s1 _ H1). apply (ram_only_trans _ _ _ s2 _ H2).
  apply (ram_only_trans _ _ _ s3 _ H3). by replace (zset _ _ _) with (mem_ram (bus s3)) by apply H3.
Qed.

(** The [k]-th address after [a] is the [k]-th byte, as long as RAM does not wrap. *)
Lemma ram_index_add s a k : 0 < mem_ram_size (bus s) → 0 ≤ k →
  ram_index_of s a + k < mem_ram_size (bus s) → ram_index_of s (a + k) = ram_index_of s a + k.
Proof.
  unfold ram_index_of. intros Hz Hk Hlt.
  rewrite <- Zplus_mod_idemp_l. apply Z.mod_small. pose proof (Z.mod_pos_bound a _ Hz). lia.
Qed.

Lemma ram_index_only ram s s' a : ram_only ram s s' → ram_index_of s' a = ram_index_of s a.
Proof. intros H. unfold ram_index_of. by rewrite (ram_only_field mem_ram_size _ _ _ ltac:(done) H). Qed.

(** Outside the trap window a word write is its two bytes. *)
Lemma write16_plain n a v : ¬ (SONY_EXTN_BASE ≤ mem_addr a < SONY_EXTN_BASE + 0x20) →
  mac_write16_at n a v =
    (mac_write8 (mem_addr a) (u8 (v ≫ 8)) ;; mac_write8 (u32 (mem_addr a + 1)) (u8 (v .& 0xFF))).
Proof.
  intros Hw. assert (between SONY_EXTN_BASE (SONY_EXTN_BASE + 0x20) (mem_addr a) = false) as Hb.
  { unfold between. lia. }
  by destruct n; cbn [mac_write16_at]; rewrite Hb.
Qed.

Lemma write16_ram s a v : ram_mapped s → 0 ≤ a → a + 1 < MAC_ROM_BASE →
  ram_index_of s a + 1 < mem_ram_size (bus s) → word16 v →
  ∃ s', mac_write16 a v s = Some (tt, s') ∧
    ram_only (zset (zset (mem_ram (bus s)) (ram_index_of s a) (v / 0x100))
                (ram_index_of s a + 1) (v mod 0x100)) s s'.
Proof.
  intros Hs Ha Ha1 Hi Hv. unfold MAC_ROM_BASE, word16 in *.
  unfold mac_write16. rewrite write16_plain by (rewrite ?mem_addr_small by lia; unfold SONY_EXTN_BASE; lia).
  rewrite mem_addr_small by lia.
  rewrite Z.shiftr_div_pow2 by lia. rewrite (land_ones_low v 0xFF 8) by done.
  change (2 ^ 8) with 0x100. pose proof (Z.mod_pos_bound v 0x100).
  assert (0 ≤ v / 0x100 < 0x100) by (apply div_bound; lia).
  rewrite (u32_small (a + 1)) by lia. rewrite (u8_small (v / 0x100)) by lia.
  rewrite (u8_small (v mod 0x100)) by lia.
  destruct (write8_ram s a (v / 0x100) Hs ltac:(unfold MAC_ROM_BASE; lia)) as (s1 & E1 & H1).
  rewrite (bind_Some _ _ _ _ _ E1).
  assert (ram_mapped s1) as Hs1.
  { apply (ram_mapped_only _ _ _ H1); [|done]. apply zset_length. }
  destruct (write8_ram s1 (a + 1) (v mod 0x100) Hs1 ltac:(unfold MAC_ROM_BASE; lia)) as (s2 & E2 & H2).
  exists s2. split; [done|]. apply (ram_only_trans _ _ _ _ _ H1).
  rewrite (ram_index_only _ _ _ _ H1), ram_index_add in H2 by (try lia; apply Hs).
  by replace (mem_ram (bus s1)) with (zset (mem_ram (bus s)) (ram_index_of s a) (v / 0x100)) in H2
    by (symmetry; apply H1).
Qed.

Lemma read16_ram s a : ram_mapped s → 0 ≤ a → a + 1 < MAC_ROM_BASE →
  ram_index_of s a + 1 < mem_ram_size (bus s) →
  byte (znth (mem_ram (bus s)) (ram_index_of s a)) →
  byte (znth (mem_ram (bus s)) (ram_index_of s a + 1)) →
  ∃ s', mac_read16 a s = Some (znth (mem_ram (bus s)) (ram_index_of s a) * 0x100 +
      znth (mem_ram (bus s)) (ram_index_of s a + 1), s') ∧ ram_only (mem_ram (bus s)) s s'.
Proof.
  intros Hs Ha Ha1 Hi Hb0 Hb1. unfold byte in *.
  destruct (ram_ptr s a Hs ltac:(lia)) as (Hp & _ & Hr). unfold MAC_ROM_BASE in *.
  unfold mac_read16. rewrite mem_addr_small by lia.
  rewrite (bind_Some (getm _) _ s (mem_ptr (bus s) a) s) by done. rewrite Hp.
  set (f := λ m, set_mem_reads (mem_reads m + 2) m). set (s1 := with_bus f s).
  rewrite (bind_Some (updm f) _ s tt s1) by done.
  assert (∀ k, 0 ≤ k < 2 → load (InRam (ram_index_of s a)) k s1 =
    Some (znth (mem_ram (bus s)) (ram_index_of s a + k), s1)) as Hload.
  { intros k Hk. unfold load. change (deref (bus s1) (InRam (ram_index_of s a)) k) with
      (mem_ram (bus s) !! Z.to_nat (ram_index_of s a + k)).
    destruct Hs as (_ & _ & Hl).
    destruct (lookup_lt_is_Some_2 (mem_ram (bus s)) (Z.to_nat (ram_index_of s a + k))) as [v Hv]; [lia|].
    rewrite Hv. unfold znth. by rewrite nth_lookup, Hv. }
  rewrite (bind_Some _ _ _ _ _ (Hload 0 ltac:(lia))), (bind_Some _ _ _ _ _ (Hload 1 ltac:(lia))).
  rewrite Z.add_0_r. exists s1. split; [|by split_and!]. unfold mret, M_ret. f_equal. f_equal.
  rewrite (u16_small (_ ≪ 8)) by (rewrite Z.shiftl_mul_pow2 by lia; lia).
  rewrite join16 by done. apply u16_small. lia.
Qed.

(** The bytes of a word, stored from [i] on. *)
Definition put_long (i v : Z) (ram : list Z) : list Z :=
  zset (zset (zset (zset ram i (v / 0x10000 / 0x100)) (i + 1) ((v / 0x10000) mod 0x100))
    (i + 2) ((v mod 0x10000) / 0x100)) (i + 3) ((v mod 0x10000) mod 0x100).

Lemma write32_ram s a v : ram_mapped s → 0 ≤ a → a + 3 < MAC_ROM_BASE →
  ram_index_of s a + 3 < mem_ram_size (bus s) → word32 v →
  ∃ s', mac_write32 a v s = Some (tt, s') ∧
    ram_only (put_long (ram_index_of s a) v (mem_ram (bus s))) s s'.
Proof.
  intros Hs Ha Ha3 Hi Hv. unfold word32 in Hv. pose proof Hs as (_ & Hz & _).
  assert (word16 (v / 0x10000) ∧ word16 (v mod 0x10000)) as [Hhi Hlo].
  { split; [apply div_bound|apply Z.mod_pos_bound]; lia. }
  unfold mac_write32. rewrite Z.shiftr_div_pow2 by lia. rewrite (land_ones_low v 0xFFFF 16) by done.
  change (2 ^ 16) with 0x10000.
  destruct (write16_ram s a _ Hs Ha ltac:(lia) ltac:(lia) Hhi) as (s1 & E1 & H1).
  rewrite (bind_Some _ _ _ _ _ E1). rewrite (u32_small (a + 2)) by (unfold MAC_ROM_BASE in Ha3; lia).
  assert (ram_mapped s1) as Hs1 by (apply (ram_mapped_only _ _ _ H1); [by rewrite !zset_length|done]).
  assert (ram_index_of s1 (a + 2) = ram_index_of s a + 2) as Ei.
  { rewrite (ram_index_only _ _ _ _ H1). apply ram_index_add; lia. }
  destruct (write16_ram s1 (a + 2) _ Hs1 ltac:(lia) ltac:(lia)
    ltac:(rewrite Ei, (ram_only_field mem_ram_size _ _ _ ltac:(done) H1); lia) Hlo) as (s2 & E2 & H2).
  exists s2. split; [done|]. rewrite Ei in H2.
  replace (mem_ram (bus s1)) with (zset (zset (mem_ram (bus s)) (ram_index_of s a) (v / 0x10000 / 0x100))
    (ram_index_of s a + 1) ((v / 0x10000) mod 0x100)) in H2 by (symmetry; apply H1).
  replace (ram_index_of s a + 2 + 1) with (ram_index_of s a + 3) in H2 by lia.
  exact (ram_only_trans _ _ _ _ _ H1 H2).
Qed.

Lemma read32_ram s a : ram_mapped s → 0 ≤ a → a + 3 < MAC_ROM_BASE →
  ram_index_of s a + 3 < mem_ram_size (bus s) → Forall byte (mem_ram (bus s)) →
  ∃ s', mac_read32 a s = Some
      ((znth (mem_ram (bus s)) (ram_index_of s a) * 0x100 + znth (mem_ram (bus s)) (ram_index_of s a + 1))
         * 0x10000 +
       (znth (mem_ram (bus s)) (ram_index_of s a + 2) * 0x100 + znth (mem_ram (bus s)) (ram_index_of s a + 3)),
       s') ∧ ram_only (mem_ram (bus s)) s s'.
Proof.
  intros Hs Ha Ha3 Hi Hb. pose proof Hs as (_ & Hz & _).
  assert (∀ j, byte (znth (mem_ram (bus s)) j)) as Hb' by (intros; by apply (znth_Forall byte)).
  destruct (read16_ram s a Hs Ha ltac:(lia) ltac:(lia) (Hb' _) (Hb' _)) as (s1 & E1 & H1).
  unfold mac_read32. rewrite (bind_Some _ _ _ _ _ E1).
  rewrite (u32_small (a + 2)) by (unfold MAC_ROM_BASE in Ha3; lia).
  assert (ram_mapped s1) as Hs1 by (by apply (ram_mapped_only _ _ _ H1)).
  assert (ram_index_of s1 (a + 2) = ram_index_of s a + 2) as Ei.
  { rewrite (ram_index_only _ _ _ _ H1). apply ram_index_add; lia. }
  assert (mem_ram (bus s1) = mem_ram (bus s)) as R1 by apply H1.
  destruct (read16_ram s1 (a + 2) Hs1 ltac:(lia) ltac:(lia)
    ltac:(rewrite Ei, (ram_only_field mem_ram_size _ _ _ ltac:(done) H1); lia)) as (s2 & E2 & H2);
    rewrite ?R1; try apply Hb'.
  rewrite Ei, R1 in *. rewrite (bind_Some _ _ _ _ _ E2). exists s2.
  split; [|exact (ram_only_trans _ _ _ _ _ H1 H2)].
  replace (ram_index_of s a + 2 + 1) with (ram_index_of s a + 3) by lia.
  pose proof (Hb' (ram_index_of s a)). pose proof (Hb' (ram_index_of s a + 1)).
  pose proof (Hb' (ram_index_of s a + 2)). pose proof (Hb' (ram_index_of s a + 3)).
  unfold byte, mret, M_ret in *. f_equal. f_equal.
  rewrite u32_small by (rewrite Z.shiftl_mul_pow2 by lia; lia). by rewrite (lor_shiftl_add 16) by lia.
Qed.

Lemma put_long_bytes i v ram : 0 ≤ i → i + 3 < Z.of_nat (length ram) →
  znth (put_long i v ram) i = v / 0x10000 / 0x100 ∧ znth (put_long i v ram) (i + 1) = (v / 0x10000) mod 0x100 ∧
  znth (put_long i v ram) (i + 2) = (v mod 0x10000) / 0x100 ∧
  znth (put_long i v ram) (i + 3) = (v mod 0x10000) mod 0x100 ∧
  (∀ j, 0 ≤ j → ¬ (i ≤ j ≤ i + 3) → znth (put_long i v ram) j = znth ram j).
Proof.
  intros Hi Hl. unfold put_long.
  split_and!; [..|intros j Hj Hne; by rewrite !znth_zset_ne by lia];
    rewrite ?znth_zset_ne by lia; apply znth_zset_eq; rewrite ?zset_length; lia.
Qed.

Lemma put_long_ok i v ram : word32 v → Forall byte ram → Forall byte (put_long i v ram).
Proof.
  unfold word32. intros Hv Hr. pose proof (Z.mod_pos_bound v 0x10000).
  assert (0 ≤ v / 0x10000 < 0x10000) by (apply div_bound; lia).
  unfold put_long. repeat apply zset_Forall; try done;
    first [apply Z.mod_pos_bound; lia | apply div_bound; lia].
Qed.

(** C21.  Past the boot overlay, a long word written to RAM reads back, and
    nothing else changes: the four bytes are stored most significant first, the
    rest of RAM, the ROM, the CPU and every device keep their state. *)
Theorem ram_long_roundtrip s a v : ram_mapped s → Forall byte (mem_ram (bus s)) →
  0 ≤ a → a + 3 < MAC_ROM_BASE → ram_index_of s a + 3 < mem_ram_size (bus s) → word32 v →
  ∃ s', mac_write32 a v s = Some (tt, s') ∧
    ram_only (put_long (ram_index_of s a) v (mem_ram (bus s))) s s' ∧
    (∀ j, 0 ≤ j → ¬ (ram_index_of s a ≤ j ≤ ram_index_of s a + 3) →
       znth (mem_ram (bus s')) j = znth (mem_ram (bus s)) j) ∧
    ∃ s2, mac_read32 a s' = Some (v, s2) ∧ ram_only (mem_ram (bus s')) s' s2.
Proof.
  intros Hs Hb Ha Ha3 Hi Hv. pose proof Hs as (_ & Hz & Hlen).
  assert (0 ≤ ram_index_of s a) as Hi0 by (apply Z.mod_pos_bound; lia).
  destruct (write32_ram s a v Hs Ha Ha3 Hi Hv) as (s' & E & H). exists s'. split; [done|].
  split; [done|]. pose proof H as (_ & _ & _ & _ & Hr).
  destruct (put_long_bytes (ram_index_of s a) v (mem_ram (bus s)) Hi0 ltac:(lia)) as (B0 & B1 & B2 & B3 & Bj).
  split; [by rewrite Hr|].
  assert (ram_mapped s') as Hs'.
  { apply (ram_mapped_only _ _ _ H); [|done]. unfold put_long. by rewrite !zset_length. }
  assert (Forall byte (mem_ram (bus s'))) as Hb' by (rewrite Hr; by apply put_long_ok).
  destruct (read32_ram s' a Hs' Ha Ha3) as (s2 & E2 & H2);
    rewrite ?(ram_index_only _ _ _ _ H), ?(ram_only_field mem_ram_size _ _ _ ltac:(done) H); try done.
  exists s2. split; [|done]. rewrite E2. f_equal. f_equal.
  rewrite (ram_index_only _ _ _ _ H), Hr, B0, B1, B2, B3.
  pose proof (Z.div_mod (v / 0x10000) 0x100). pose proof (Z.div_mod (v mod 0x10000) 0x100).
  pose proof (Z.div_mod v 0x10000). lia.
Qed.

(** ** A machine to start from *)

Definition cpu_attached (b : bool) (m : mac_mem) : mac_mem := set_mem_cpu b m.

Lemma mem_init_ok n : 0 ≤ n < 0x100000000 →
  let m := cpu_attached true (mac_mem_init n) in mem_ok (frame_of m) m.
Proof.
  intros Hn m. set (k := if n =? 0 then MAC_RAM_SIZE_DEFAULT else n).
  assert (0 < k < 0x100000000) as Hk.
  { unfold k, MAC_RAM_SIZE_DEFAULT. destruct (Z.eqb_spec n 0); lia. }
  assert (m = cpu_attached true (mac_mem_init k)) as ->.
  { unfold m, mac_mem_init. fold k. rewrite (proj2 (Z.eqb_neq k 0)) by lia. done. }
  unfold mac_mem_init. rewrite (proj2 (Z.eqb_neq k 0)) by lia. cbv zeta.
  split; cbn -[replicate]; try done.
  - rewrite length_replicate. lia.
  - by apply Forall_replicate.
  - split; cbn; try lia; [by apply forallb_byte|by vm_compute].
  - split; cbn; try lia. by apply (forallb_byte (replicate 256 0)).
  - split; [|done|by split]. by apply Forall_replicate.
  - split; [done|]. split; split; try done; by apply forallb_byte.
  - split; split; try done; try (by apply forallb_byte); try (by apply Forall_replicate, no_target_ok).
  - split; try done; [by apply forallb_byte|]. by apply Forall_replicate.
  - split; try done. intros d Hd. assert (d = 0 ∨ d = 1) as [-> | ->] by lia; done.
Qed.

(** 2 KB of RAM, past the overlay, with a CPU at rest. *)
Definition mac_example : mac :=
  mk_st cpu_zero (set_mem_overlay false (cpu_attached true (mac_mem_init 2048)))
    (replicate 64 (0, 0, 0)) 0.

Lemma mac_example_ok : st_ok_with (mac_inv (frame_of (bus mac_example))) mac_example.
Proof.
  split; try done; [by apply cpu_okb_spec|]. split; [|done].
  apply set_overlay_ok. by apply (mem_init_ok 2048).
Qed.

Lemma mac_example_mapped : ram_mapped mac_example.
Proof. by split_and!. Qed.

Lemma mac_byte_access_witness : ∃ s', mac_write8 0xEFE1FE 0x10 mac_example = Some (tt, s').
Proof.
  destruct (mac_byte_access _ mac_example 0xEFE1FE 0x10 mac_example_ok ltac:(by split))
    as [_ (s' & E & _)]. by exists s'.
Defined.

Lemma mac_read16_defined_witness : mac_read16 0x7FF mac_example = None.
Proof.
  apply (proj2 (mac_read16_defined _ mac_example 0x7FF mac_example_ok)).
  exists (InRam 0x7FF). split; reflexivity.
Defined.

Lemma ram_long_roundtrip_witness : ∃ s1 s2,
  mac_write32 0x100 0x12345678 mac_example = Some (tt, s1) ∧
  mac_read32 0x100 s1 = Some (0x12345678, s2).
Proof.
  destruct (ram_long_roundtrip mac_example 0x100 0x12345678 mac_example_mapped
    ltac:(apply Forall_replicate; by split) ltac:(lia) ltac:(unfold MAC_ROM_BASE; lia)
    ltac:(vm_compute; reflexivity) ltac:(unfold word32; lia)) as (s1 & E1 & _ & _ & s2 & E2 & _).
  by exists s1, s2.
Defined.
