(* ===== verification/MacTick.v ===== *)
(** * The periodic tick

    [mac_mem_tick] on a well-formed machine: the timers count exactly, however
    the run loop groups the cycles; the vertical-blank loop terminates; the
    interrupt line is right afterwards.  Then the order in which the keyboard
    delivers its events. *)

From Stdlib Require Import ZArith Lia.
From stdpp Require Import base tactics list numbers.
From S2P Require Import Prelude Cpu Rtc Iwm Scsi MacState Kbd Via Sony MacMem MacSafe MacBus.

(** ** The timers *)

Definition tick_via (v : via6522) (cycles : Z) : via6522 := fst (tick_timers cycles v).

(** Tick times that advance by less than the 32-bit remainder can hold. *)
Fixpoint ticks_from (last : Z) (cs : list Z) : Prop :=
  match cs with
  | [] => True
  | c :: cs => last ≤ c < 0x10000000000000000 ∧ c - last < 0xFFFFFF00 ∧ ticks_from c cs
  end.

(** The Phi2 clocks that pass between two cycle stamps. *)
Definition phi2 (rem from to : Z) : Z := (rem + (to - from)) / 10.

Lemma tick_clock_eq c v : via_ok v → 0 < via_last_cycle v → via_last_cycle v ≤ c < 0x10000000000000000 →
  c - via_last_cycle v < 0xFFFFFF00 →
  tick_clock c v = (phi2 (via_via_tick_rem v) (via_last_cycle v) c,
    set_via_via_tick_rem ((via_via_tick_rem v + (c - via_last_cycle v)) mod 10) (set_via_last_cycle c v)).
Proof.
  intros Hv H0 Hc Hd. destruct Hv as [_ _ _ _ _ Hr _]. unfold tick_clock, phi2.
  rewrite (proj2 (Z.eqb_neq _ _)) by lia.
  set (v1 := set_via_last_cycle c v).
  change (via_via_tick_rem (set_via_via_tick_rem ?x v1)) with (u32 x).
  change (via_via_tick_rem v1) with (via_via_tick_rem v).
  rewrite u64_small by lia. rewrite u32_small by lia. destruct v. reflexivity.
Qed.

Lemma tick_t1_keeps e v : let v' := (tick_t1 e v).1 in
  via_t2c v' = via_t2c v ∧ via_t2_irq_armed v' = via_t2_irq_armed v ∧
  via_last_cycle v' = via_last_cycle v ∧ via_via_tick_rem v' = via_via_tick_rem v ∧
  via_next_vbl v' = via_next_vbl v ∧ via_ier v' = via_ier v.
Proof. unfold tick_t1. repeat case_match; simplify_eq; done. Qed.

Lemma tick_t1_ok e v : via_ok v → via_ok (tick_t1 e v).1.
Proof. intros Hv. unfold tick_t1. repeat case_match; simplify_eq; cbn [fst]; auto 6 with mac. Qed.
Lemma tick_t2_ok e v : via_ok v → via_ok (tick_t2 e v).1.
Proof. intros Hv. unfold tick_t2. repeat case_match; simplify_eq; cbn [fst]; auto 6 with mac. Qed.

Lemma tick_t2_keeps e v : let v' := (tick_t2 e v).1 in
  via_last_cycle v' = via_last_cycle v ∧ via_via_tick_rem v' = via_via_tick_rem v ∧
  via_next_vbl v' = via_next_vbl v ∧ via_ier v' = via_ier v ∧
  via_t2c v' = u16 (via_t2c v - e) ∧
  via_t2_irq_armed v' = via_t2_irq_armed v && negb (via_t2c v <=? e).
Proof.
  unfold tick_t2. assert (∀ x, u16 (u32 x) = u16 x) as Hu.
  { intros x. apply Z.mod_mod_divide. by exists 0x10000. }
  destruct (via_t2_irq_armed v) eqn:Ea, (via_t2c v <=? e); cbn; by rewrite ?Hu, ?Ea.
Qed.

(** Without an interrupt the flags are untouched. *)
Lemma tick_t1_quiet e v : (tick_t1 e v).2 = false → via_ifr (tick_t1 e v).1 = via_ifr v.
Proof. unfold tick_t1. repeat case_match; simplify_eq; done. Qed.
Lemma tick_t2_quiet e v : (tick_t2 e v).2 = false → via_ifr (tick_t2 e v).1 = via_ifr v.
Proof. unfold tick_t2. repeat case_match; simplify_eq; done. Qed.

Lemma tick_clock_keeps c v : let v' := (tick_clock c v).2 in
  via_ifr v' = via_ifr v ∧ via_ier v' = via_ier v ∧ via_next_vbl v' = via_next_vbl v.
Proof. unfold tick_clock. case_match; done. Qed.

Lemma tick_clock_ok c v : via_ok v → via_ok (tick_clock c v).2.
Proof.
  intros Hv. unfold tick_clock. set (v1 := if _ =? 0 then _ else v).
  assert (via_ok v1) as [? ? ? ? ? ? ?] by (unfold v1; case_match; auto with mac).
  assert (∀ x, 0 ≤ u32 (x mod 10) < 10) as Hm.
  { intros x. pose proof (Z.mod_pos_bound x 10). rewrite u32_small; lia. }
  split; cbn; try done; first [apply u64_range | apply Hm].
Qed.

Lemma tick_timers_ok c v : via_ok v → via_ok (tick_via v c).
Proof.
  intros Hv. unfold tick_via, tick_timers. pose proof (tick_clock_ok c v Hv) as H1.
  destruct (tick_clock c v) as [e v1]. cbn [snd] in H1. case_match; [|done].
  pose proof (tick_t1_ok e v1 H1) as H2. destruct (tick_t1 e v1) as [v2 b1]. cbn [fst] in H2.
  pose proof (tick_t2_ok e v2 H2) as H3. by destruct (tick_t2 e v2) as [v3 b2].
Qed.

Lemma tick_timers_quiet c v : (tick_timers c v).2 = false → via_active (tick_via v c) = via_active v.
Proof.
  unfold tick_via, tick_timers. destruct (tick_clock_keeps c v) as (E1 & E2 & _).
  destruct (tick_clock c v) as [e v1]. cbn [snd] in *. unfold via_active. rewrite <- E1, <- E2.
  case_match; [|done].
  pose proof (tick_t1_quiet e v1) as Q1. destruct (tick_t1_keeps e v1) as (_ & _ & _ & _ & _ & I1).
  destruct (tick_t1 e v1) as [v2 b1]. cbn [fst snd] in *.
  pose proof (tick_t2_quiet e v2) as Q2. destruct (tick_t2_keeps e v2) as (_ & _ & _ & I2 & _ & _).
  destruct (tick_t2 e v2) as [v3 b2]. cbn [fst snd] in *.
  intros [-> ->]%orb_false_iff. rewrite Q2, Q1, I2, I1 by done. done.
Qed.

(** One tick: the clock, and timer 2. *)
Lemma tick_step c v : via_ok v → 0 < via_last_cycle v → via_last_cycle v ≤ c < 0x10000000000000000 →
  c - via_last_cycle v < 0xFFFFFF00 → let e := phi2 (via_via_tick_rem v) (via_last_cycle v) c in
  via_last_cycle (tick_via v c) = c ∧
  via_via_tick_rem (tick_via v c) = (via_via_tick_rem v + (c - via_last_cycle v)) mod 10 ∧
  via_t2c (tick_via v c) = u16 (via_t2c v - e) ∧
  via_t2_irq_armed (tick_via v c) = via_t2_irq_armed v && (negb (via_t2c v <=? e) || (e =? 0)).
Proof.
  intros Hv H0 Hc Hd e. unfold tick_via, tick_timers. rewrite tick_clock_eq by done. fold e.
  assert (0 ≤ e) as He.
  { unfold e, phi2. apply Z.div_pos; [|lia]. pose proof (vo_rem v Hv). lia. }
  set (v1 := set_via_via_tick_rem _ _).
  assert (via_last_cycle v1 = c) as L1 by (apply u64_small; lia).
  assert (via_via_tick_rem v1 = (via_via_tick_rem v + (c - via_last_cycle v)) mod 10) as R1.
  { apply u32_small. pose proof (Z.mod_pos_bound (via_via_tick_rem v + (c - via_last_cycle v)) 10). lia. }
  destruct (Z.ltb_spec 0 e) as [Hpos|Hz].
  - destruct (tick_t1_keeps e v1) as (T & A & L & R & _ & _).
    destruct (tick_t1 e v1) as [v2 b1]. cbn [fst] in *.
    destruct (tick_t2_keeps e v2) as (L' & R' & _ & _ & T' & A').
    destruct (tick_t2 e v2) as [v3 b2]. cbn [fst] in *.
    rewrite L', R', T', A', T, A, L, R, L1, R1. split_and!; try done.
    rewrite (proj2 (Z.eqb_neq e 0)) by lia. by rewrite orb_false_r.
  - assert (e = 0) as -> by lia. cbn [fst]. split_and!; try done.
    + rewrite Z.sub_0_r. rewrite u16_small; [done|apply Hv].
    + by rewrite orb_true_r, andb_true_r.
Qed.

Lemma phi2_split rem a b c : 0 ≤ rem < 10 → a ≤ b → b ≤ c →
  phi2 rem a c = phi2 rem a b + phi2 ((rem + (b - a)) mod 10) b c.
Proof.
  intros Hr Hab Hbc. unfold phi2. pose proof (Z.div_mod (rem + (b - a)) 10 ltac:(lia)) as E.
  set (q := (rem + (b - a)) / 10) in *. set (m := (rem + (b - a)) mod 10) in *.
  replace (rem + (c - a)) with ((m + (c - b)) + q * 10) by lia. rewrite Z.div_add by lia. lia.
Qed.

Lemma phi2_mono rem a b c : a ≤ b ≤ c → phi2 rem a b ≤ phi2 rem a c.
Proof. intros. unfold phi2. apply Z.div_le_mono; lia. Qed.

(** The stamp after a sequence of ticks. *)
Definition final (last : Z) (cs : list Z) : Z := fold_left (λ _ c, c) cs last.

Lemma final_ge last cs : ticks_from last cs → last ≤ final last cs.
Proof.
  revert last. induction cs as [|c cs IH]; intros last; [done|]. intros (Hc & _ & Hcs).
  specialize (IH c Hcs). unfold final in *. simpl. lia.
Qed.


(** C23.  Timer 2 is one-shot and exact: armed with a count of [n], it raises its
    interrupt at the first tick by which [n] Phi2 clocks have passed, and is
    then disarmed, for any grouping of the cycles into ticks. *)
Theorem timer2_fires cs v : via_ok v → 0 < via_last_cycle v → ticks_from (via_last_cycle v) cs →
  via_t2_irq_armed v = true → 0 < via_t2c v →
  via_t2_irq_armed (fold_left tick_via cs v) =
    (phi2 (via_via_tick_rem v) (via_last_cycle v) (final (via_last_cycle v) cs) <? via_t2c v).
Proof.
  intros Hv H0 Hcs Ha Hn.
  assert (∀ cs v, via_t2_irq_armed v = false → via_t2_irq_armed (fold_left tick_via cs v) = false) as Hoff.
  { clear. intros cs. induction cs as [|c cs IH]; intros v Hv; [done|]. apply IH.
    unfold tick_via, tick_timers. destruct (tick_clock c v) as [e v1] eqn:E.
    assert (via_t2_irq_armed v1 = false) as H1.
    { unfold tick_clock in E. simplify_eq. cbn. by case_match. }
    case_match; [|done]. destruct (tick_t1_keeps e v1) as (_ & A & _). rewrite H1 in A.
    destruct (tick_t1 e v1) as [v2 b1]. cbn [fst] in *.
    destruct (tick_t2_keeps e v2) as (_ & _ & _ & _ & _ & A'). destruct (tick_t2 e v2) as [v3 b2].
    cbn [fst] in *. by rewrite A', A. }
  revert v Hv H0 Hcs Ha Hn. induction cs as [|c cs IH]; intros v Hv H0 Hcs Ha Hn.
  - cbn. rewrite Ha. unfold phi2. pose proof (vo_rem v Hv). rewrite Z.sub_diag, Z.add_0_r.
    rewrite Z.div_small by lia. symmetry. by apply Z.ltb_lt.
  - destruct Hcs as (Hc & Hd & Hcs). destruct (tick_step c v Hv H0 Hc Hd) as (L & R & T & A).
    set (e := phi2 (via_via_tick_rem v) (via_last_cycle v) c) in *.
    pose proof (final_ge c cs Hcs) as Hf. pose proof (vo_rem v Hv) as Hr.
    pose proof (phi2_mono (via_via_tick_rem v) (via_last_cycle v) c (final c cs) ltac:(lia)) as Hm.
    assert (0 ≤ e) by (unfold e, phi2; apply Z.div_pos; lia). fold e in Hm.
    change (final (via_last_cycle v) (c :: cs)) with (final c cs). cbn [fold_left].
    rewrite Ha in A. destruct (Z.leb_spec (via_t2c v) e) as [Hle|Hgt].
    + rewrite Hoff.
      * symmetry. apply Z.ltb_ge. lia.
      * rewrite A. simpl. apply Z.eqb_neq. lia.
    + assert (via_t2c (tick_via v c) = via_t2c v - e) as T'.
      { rewrite T. apply u16_small. pose proof (vo_t2c v Hv). lia. }
      rewrite IH; [|by apply tick_timers_ok|lia|by rewrite L|done|lia].
      rewrite (phi2_split (via_via_tick_rem v) (via_last_cycle v) c (final c cs)) by lia. rewrite T', L, R. fold e. apply eqb_iff. rewrite !Z.ltb_lt. lia.
Qed.

(** Timer 1 reloaded as the 6522 reloads it: a timeout that comes [over] clocks
    late leaves the latch less the overshoot.  The code leaves the overshoot
    itself, so a timer with a latch of 1000 that is due now fires again one
    clock later. *)
Definition t1_example : via6522 :=
  mk_via 0 0 0 0 0 0 0x40 0 0 VIA_IRQ_T1 0 0 1000 1000 0 0 true false 1 0 1.

(** In free-running mode timer 1 does not keep its period: after an exact
    timeout the counter is left at 0 instead of the latch, so the next clock
    times out again, 999 clocks early. *)
Theorem timer1_period_lost :
  let '(v1, irq1) := tick_t1 1000 t1_example in
  let '(v2, irq2) := tick_t1 1 v1 in
  irq1 = true ∧ via_t1c v1 = 0 ∧ irq2 = true ∧ via_t1l v2 = 1000.
Proof. vm_compute. done. Qed.

(** ** The vertical blank *)

(** The sound buffer is read inside RAM. *)
Lemma snd_raw_ok {F} m raw : mem_ok F m → mac_snd_raw m = Some raw →
  ∃ l, mapM id raw = Some l ∧ length l = MAC_SND_SAMPLES_PER_VBL ∧ Forall byte l.
Proof.
  intros Hm E.
  assert (length raw = MAC_SND_SAMPLES_PER_VBL ∧
    Forall (λ o : option Z, ∃ v, o = Some v ∧ byte v) raw) as [Hlen Hraw].
  { unfold mac_snd_raw in E. revert E. generalize MAC_SND_SAMPLES_PER_VBL. intros n E.
    case_match; [done|].
    set (off := if nz (via_ora _ .& 8) then 0x0300 else 0x5F00) in E.
    destruct (_ <? off); injection E as <-.
    - split; [apply length_replicate|]. apply Forall_replicate. by exists 0x80.
    - split; [by rewrite length_fmap; unfold upto; rewrite length_fmap, length_seq|].
      apply Forall_fmap, Forall_true. intros i. cbn.
      set (a := u32 (_ + _)). assert (0 ≤ a) by apply u32_range.
      destruct (Z.ltb_spec a (mem_ram_size m)); [|by exists 0x80].
      pose proof (mo_ram_len _ Hm).
      destruct (lookup_lt_is_Some_2 (mem_ram m) (Z.to_nat a)) as [v Hv]; [lia|].
      exists v. split; [done|]. exact (Forall_lookup_1 _ _ _ _ (mo_ram _ Hm) Hv). }
  clear E. revert Hlen. generalize MAC_SND_SAMPLES_PER_VBL.
  induction Hraw as [|o raw (v & -> & Hv) _ IH].
  - intros n <-. by exists [].
  - intros n <-. destruct (IH _ eq_refl) as (l & E & Hl & Hb). exists (v :: l).
    simpl. rewrite E. simpl. split; [done|]. split; [by rewrite Hl|by constructor].
Qed.

Lemma emit_inv0 {F} b e s : st_ok_with (mac_inv0 F) s →
  ∃ s', emit b e s = Some (tt, s') ∧ st_ok_with (mac_inv0 F) s' ∧ same_core s s' ∧
    mem_via (bus s') = mem_via (bus s) ∧ mem_sony (bus s') = mem_sony (bus s).
Proof.
  intros Hs. destruct b; (eexists; split; [reflexivity|]); [|by split_and!].
  destruct Hs as [? Hm ? ?]. split_and!; try done. split; cbn; try done. destruct Hm. by split.
Qed.

(** One edge: the flag, the next deadline, the driver's countdown and a
    window of samples for the host. *)
Lemma vbl_edge_ok {F} s : st_ok_with (mac_inv0 F) s →
  ∃ s', vbl_edge s = Some (tt, s') ∧ st_ok_with (mac_inv0 F) s' ∧ same_core s s' ∧
    via_next_vbl (mem_via (bus s')) = u64 (via_next_vbl (mem_via (bus s)) + MAC_VBL_CYCLES) ∧
    mem_sony (bus s') = sony_tick (mem_sony (bus s)).
Proof.
  intros [Hc Hm Hl Hn]. unfold mac_inv0 in Hm.
  set (f := on_via (λ v, set_via_next_vbl (via_next_vbl v + MAC_VBL_CYCLES)
    (set_via_ifr (via_ifr v .| VIA_IRQ_CA1) v))).
  set (s1 := with_bus (on_sony sony_tick) (with_bus f s)).
  assert (mem_ok F (bus s1)) as Hm1.
  { apply on_sony_ok; [auto with mac|]. apply on_via_ok; auto with mac. }
  assert (st_ok_with (mac_inv0 F) s1) as Hs1 by (by split).
  unfold vbl_edge. rewrite (bind_Some (updm _) _ s tt (with_bus f s)) by done.
  rewrite (bind_Some (updm _) _ (with_bus f s) tt s1) by done.
  rewrite (bind_Some (getm id) _ s1 (bus s1) s1) by done.
  assert (∃ b e, when (mem_snd_sink (bus s1)) match mac_snd_raw (bus s1) with
    | None => emit true (EvSound (replicate MAC_SND_SAMPLES_PER_VBL 0x80))
    | Some raw => match mapM id raw with
                  | Some samples => emit true (EvSound samples)
                  | None => undefined_behaviour
                  end
    end = emit b e) as (b & e & ->).
  { destruct (mem_snd_sink (bus s1)); [|by exists false, (EvSerial 0)].
    destruct (mac_snd_raw (bus s1)) as [raw|] eqn:E; [|by eexists true, _].
    destruct (snd_raw_ok _ _ Hm1 E) as (l & -> & _). by eexists true, _. }
  destruct (emit_inv0 b e s1 Hs1) as (s' & E & Hs' & Hcore & Hv & HS).
  exists s'. rewrite Hv, HS. by split_and!.
Qed.

Lemma vbl_loop_ok {F} fuel cycles edge s : st_ok_with (mac_inv0 F) s →
  let next := via_next_vbl (mem_via (bus s)) in
  0 ≤ cycles → cycles + MAC_VBL_CYCLES < 0x10000000000000000 →
  cycles < next + MAC_VBL_CYCLES * Z.of_nat fuel →
  ∃ edge' s', vbl_loop fuel cycles edge s = Some (edge', s') ∧
    st_ok_with (mac_inv0 F) s' ∧ same_core s s' ∧ cycles < via_next_vbl (mem_via (bus s')) ∧
    (edge' = false → s' = s).
Proof.
  intros Hs next Hc0 Hc Hf. revert edge s Hs next Hf.
  induction fuel as [|fuel IH]; intros edge s Hs next Hf; cbn [vbl_loop];
    rewrite (bind_Some (getv _) _ s next s) by done; destruct (Z.ltb_spec cycles next).
  - by exists edge, s.
  - change (Z.of_nat 0) with 0 in Hf. lia.
  - by exists edge, s.
  - destruct (vbl_edge_ok s Hs) as (s1 & E1 & Hs1 & Hcore1 & Hnext & _).
    rewrite (bind_Some _ _ _ _ _ E1). fold next in Hnext.
    assert (0 ≤ next) as Hn0 by apply (vo_vbl _ (mo_via _ (st_bus_ok _ _ Hs))).
    change MAC_VBL_CYCLES with 130560 in *. rewrite u64_small in Hnext by lia.
    destruct (IH true s1 Hs1) as (e' & s2 & E2 & Hs2 & Hcore2 & Hlt & He); [lia|].
    exists e', s2. split; [done|]. split; [done|]. split; [by eapply same_core_trans|].
    split; [done|]. intros ->. exfalso. revert E2. clear. revert s1.
    induction fuel as [|fuel IH]; intros s1; cbn [vbl_loop]; unfold getv, getm, gets, mbind, M_bind;
      (destruct (_ <? _); [done|]); [done|]. destruct (vbl_edge s1) as [[? s2']|]; [|done]. apply IH.
Qed.

(** C24.  The periodic tick always terminates and is always defined: the
    vertical-blank loop passes the current cycle within its bound, the sound
    window it reads lies in RAM, and afterwards the next vertical blank is in
    the future and the CPU's interrupt input equals the VIA's summary again. *)
Theorem tick_ok (F : frame) (s : mac) cycles : st_ok_with (mac_inv F) s →
  0 ≤ cycles → cycles + MAC_VBL_CYCLES < 0x10000000000000000 →
  ∃ s', mac_mem_tick cycles s = Some (tt, s') ∧ st_ok_with (mac_inv F) s' ∧ same_core s s'.
Proof.
  intros Hs Hc0 Hc. unfold mac_mem_tick. set (v := mem_via (bus s)).
  assert (mem_ok F (bus s)) as Hm by apply Hs.
  rewrite (bind_Some (getm mem_via) _ s v s) by done.
  pose proof (tick_timers_ok cycles v (mo_via _ Hm)) as Hv'.
  pose proof (tick_timers_quiet cycles v) as Hq. unfold tick_via in Hv', Hq.
  destruct (tick_timers cycles v) as [v' irq]. cbn [fst snd] in *.
  set (s1 := with_bus (on_via (λ _, v')) s).
  rewrite (bind_Some (updm _) _ s tt s1) by done.
  assert (mem_ok F (bus s1)) as Hm1 by (by apply on_via_ok).
  assert (st_ok_with (mac_inv0 F) s1) as Hs1 by (by destruct Hs; split).
  set (fuel := vbl_fuel _ _).
  destruct (vbl_loop_ok fuel cycles false s1 Hs1 Hc0 Hc) as (edge & s2 & E2 & Hs2 & Hcore2 & Hlt & He).
  { change (via_next_vbl (mem_via (bus s1))) with (via_next_vbl v'). unfold fuel, vbl_fuel.
    pose proof (Z.div_mod (cycles - via_next_vbl v') MAC_VBL_CYCLES ltac:(done)) as Hd.
    pose proof (Z.mod_pos_bound (cycles - via_next_vbl v') MAC_VBL_CYCLES ltac:(done)).
    change MAC_VBL_CYCLES with 130560 in *. lia. }
  rewrite (bind_Some _ _ _ _ _ E2).
  assert (∃ s3, when (irq || edge) mac_via_recalc_irq s2 = Some (tt, s3) ∧
    st_ok_with (mac_inv F) s3 ∧ same_core s s3) as (s3 & E3 & Hs3 & Hcore3).
  { assert (same_core s s2) as Hc2 by (eapply same_core_trans; [apply same_core_bus|exact Hcore2]).
    destruct (irq || edge) eqn:Eie.
    - destruct (recalc_ok s2 Hs2) as (s3 & E3 & Hs3 & Hc3). exists s3. split; [done|].
      split; [done|]. by eapply same_core_trans.
    - apply orb_false_iff in Eie as [-> ->]. specialize (He eq_refl) as ->.
      exists s1. split; [done|]. split; [|done]. destruct Hs as [? [? Hi] ? ?].
      split; cbn; try done. split; [done|]. cbn. by rewrite Hq. }
  rewrite (bind_Some _ _ _ _ _ E3).
  pose proof (safe_from _ _ _ _ _ _ (safe_kbd_tick False cycles) Hs3 Hcore3) as Hk.
  destruct (mac_kbd_tick cycles s3) as [[[] s4]|]; [|done]. destruct Hk as (? & ? & _). by exists s4.
Qed.

(** ** The keyboard queue *)

(** The entries from head to tail: what the ring buffer stands for. *)
Definition queue_len (k : kbd) : nat := Z.to_nat ((K_kq_tail k - K_kq_head k) mod 64).
Definition queue_entry (k : kbd) (i : Z) : Z * bool :=
  let '(code, down) := nth (Z.to_nat ((K_kq_head k + i) mod 64)) (K_keyq k) (0, 0) in (code, nz down).
Definition queue (k : kbd) : list (Z * bool) := queue_entry k <$> upto (queue_len k).

Lemma land_63 x : x .& 63 = x mod 64.
Proof. by apply (land_ones_low x 63 6). Qed.

(** Reduction modulo 64 of the sums that occur, as a linear fact. *)
Lemma mod_64 x : 0 ≤ x < 128 → x mod 64 = if x <? 64 then x else x - 64.
Proof.
  intros Hx. destruct (Z.ltb_spec x 64); [apply Z.mod_small; lia|].
  symmetry. apply (Z.mod_unique_pos x 64 1); lia.
Qed.
Lemma sub_mod_64 a b : 0 ≤ a < 64 → 0 ≤ b < 64 → (a - b) mod 64 = if b <=? a then a - b else a - b + 64.
Proof.
  intros Ha Hb. destruct (Z.leb_spec b a); [apply Z.mod_small; lia|].
  symmetry. apply (Z.mod_unique_pos (a - b) 64 (-1)); lia.
Qed.

Lemma upto_S n : upto (S n) = upto n ++ [Z.of_nat n].
Proof. unfold upto. by rewrite seq_S, fmap_app. Qed.
Lemma upto_shift n : upto (S n) = 0 :: ((λ i, i + 1) <$> upto n).
Proof.
  unfold upto. cbn [seq fmap list_fmap]. f_equal. rewrite <- fmap_S_seq.
  rewrite <- !list_fmap_compose. apply list_fmap_ext. intros i x _. simpl. lia.
Qed.

Lemma queue_length k : length (queue k) = queue_len k.
Proof. unfold queue, upto. by rewrite !length_fmap, length_seq. Qed.

Lemma enqueue_fifo k code down : kbd_ok k →
  queue (mac_key_event code down k) =
    if (length (queue k) =? 63)%nat then queue k else queue k ++ [(code .& 0x7F, down)].
Proof.
  intros Hk. pose proof (ko_head k Hk) as Hh. pose proof (ko_tail k Hk) as Ht.
  pose proof (ko_len k Hk) as Hlen. clear Hk. pose proof (queue_length k) as Hq.
  rewrite Hq. unfold mac_key_event. rewrite land_63, mod_64 by lia.
  unfold queue_len at 1. rewrite sub_mod_64 by lia.
  set (next := if K_kq_tail k + 1 <? 64 then _ else _).
  destruct (Z.eqb_spec next (K_kq_head k)) as [E|Hne].
  + rewrite (proj2 (Nat.eqb_eq _ _)); [done|].
    unfold next in E. repeat case_match; lia.
  + rewrite (proj2 (Nat.eqb_neq _ _)) by (unfold next in Hne; repeat case_match; lia).
    set (k' := set_K_kq_tail _ _).
    assert (queue_len k' = S (queue_len k)) as El.
    { unfold queue_len. change (K_kq_tail k') with next. change (K_kq_head k') with (K_kq_head k).
      assert (0 ≤ next < 64) by (unfold next; case_match; lia).
      rewrite !sub_mod_64 by lia. unfold next in *. repeat case_match; lia. }
    unfold queue. rewrite El, upto_S, fmap_app. f_equal.
    * apply list_fmap_ext. intros i x Hx. unfold upto in Hx.
      rewrite list_lookup_fmap in Hx. apply fmap_Some in Hx as (j & Hj%lookup_seq & ->).
      destruct Hj as [-> Hj]. simpl. unfold queue_len in Hj. rewrite sub_mod_64 in Hj by lia.
      unfold queue_entry. change (K_kq_head k') with (K_kq_head k). cbn [k' K_keyq set_K_kq_tail set_K_keyq].
      rewrite mod_64 by (case_match; lia).
      rewrite !nth_lookup, list_lookup_insert_ne; [done|].
      repeat case_match; lia.
    * cbn. f_equal. unfold queue_entry. change (K_kq_head k') with (K_kq_head k).
      replace ((K_kq_head k + Z.of_nat (queue_len k)) mod 64) with (K_kq_tail k).
      2:{ unfold queue_len. rewrite sub_mod_64 by lia.
          destruct (Z.leb_spec (K_kq_head k) (K_kq_tail k)); rewrite Z2Nat.id, mod_64 by lia; case_match; lia. }
      cbn [k' K_keyq set_K_kq_tail set_K_keyq]. rewrite nth_lookup, list_lookup_insert_eq by lia.
      cbn. pose proof (land_range_r code 0x7F 128 ltac:(lia)). rewrite u8_small by lia.
      by destruct down.
Qed.

Lemma dequeue_fifo k : kbd_ok k →
  match queue k with
  | [] => find_key_event k = (None, k)
  | e :: q => (find_key_event k).1 = Some e ∧ queue (find_key_event k).2 = q
  end.
Proof.
  intros Hk. pose proof (ko_head k Hk) as Hh. pose proof (ko_tail k Hk) as Ht.
  clear Hk. pose proof (queue_length k) as Hq.
  unfold find_key_event. destruct (queue k) as [|e q] eqn:Eq.
  + simpl in Hq. rewrite (proj2 (Z.eqb_eq _ _)); [done|].
    unfold queue_len in Hq. rewrite sub_mod_64 in Hq by lia. case_match; lia.
  + rewrite (proj2 (Z.eqb_neq _ _)).
    2:{ intros E. unfold queue_len in Hq. rewrite E, Z.sub_diag in Hq. done. }
    destruct (queue_len k) as [|n] eqn:El; [done|].
    unfold queue in Eq. rewrite El, upto_shift in Eq. cbn [fmap list_fmap] in Eq.
    injection Eq as <- <-. set (k' := set_K_kq_head _ _).
    unfold queue_entry at 1. rewrite Z.add_0_r, Z.mod_small by lia.
    destruct (nth _ _ _) as [c d] eqn:En. split; [done|]. cbn [snd].
    unfold queue. assert (queue_len k' = n) as ->.
    { unfold queue_len in *. unfold k'. cbn. rewrite land_63, (mod_64 (K_kq_head k + 1)) by lia.
      rewrite sub_mod_64 in El by lia.
      destruct (Z.leb_spec (K_kq_head k) (K_kq_tail k)), (Z.ltb_spec (K_kq_head k + 1) 64);
        rewrite sub_mod_64 by lia; case_match; lia. }
    rewrite <- list_fmap_compose. apply list_fmap_ext. intros i x _. simpl.
    unfold queue_entry, k'. cbn. rewrite land_63. rewrite Zplus_mod_idemp_l.
    by replace (K_kq_head k + 1 + x) with (K_kq_head k + (x + 1)) by lia.
Qed.

(** C25.  The key-event ring is a FIFO of capacity 63: queueing an event appends
    it, or drops it when the queue is full; taking one removes the oldest, or
    reports an empty queue; and nothing else in the queue changes. *)
Theorem key_queue_fifo k code down : kbd_ok k →
  queue (mac_key_event code down k) =
    (if (length (queue k) =? 63)%nat then queue k else queue k ++ [(code .& 0x7F, down)]) ∧
  match queue k with
  | [] => find_key_event k = (None, k)
  | e :: q => (find_key_event k).1 = Some e ∧ queue (find_key_event k).2 = q
  end.
Proof. intros Hk. split; [by apply enqueue_fifo|by apply dequeue_fifo]. Qed.

(** ** The properties on concrete states *)

Lemma t1_example_ok : via_ok t1_example.
Proof. split; cbn; try lia. by apply forallb_byte. Qed.

(** Timer 2 armed for 100 clocks. *)
Definition t2_example : via6522 := set_via_t2c 100 (set_via_t2_irq_armed true t1_example).
Lemma t2_example_ok : via_ok t2_example.
Proof. split; cbn; try lia; [by apply forallb_byte|apply u16_range]. Qed.


Lemma timer2_fires_witness :
  via_t2_irq_armed (fold_left tick_via [8; 16; 1001] t2_example) = false.
Proof.
  assert (1 ≤ 8 < 0x10000000000000000) by lia.
  exact (timer2_fires [8; 16; 1001] t2_example t2_example_ok ltac:(cbn; lia)
    ltac:(cbn; split_and!; lia) eq_refl ltac:(vm_compute; reflexivity)).
Defined.

Lemma tick_ok_witness : ∃ s', mac_mem_tick 400000 mac_example = Some (tt, s').
Proof.
  destruct (tick_ok _ mac_example 400000 mac_example_ok ltac:(lia)
    ltac:(vm_compute; reflexivity)) as (s' & E & _). by exists s'.
Defined.

Lemma key_queue_fifo_witness : queue (mac_key_event 0x31 true mac_input_init) = [(0x31, true)].
Proof.
  assert (kbd_ok mac_input_init) as H by exact (mo_kbd _ (mem_init_ok 2048 ltac:(lia))).
  exact (proj1 (key_queue_fifo mac_input_init 0x31 true H)).
Defined.
