(* ===== verification/SonyDisk.v ===== *)
(** * Disk transfers of the .Sony driver

    [drive_transfer] of [core/sony.c] on the machine's own memory: what a read
    puts into RAM, what a write puts into the image, and every refusal. *)

From Stdlib Require Import ZArith Lia.
From stdpp Require Import base tactics list numbers.
From S2P Require Import Prelude Cpu Rtc Iwm Scsi MacState Kbd Via Sony MacMem MacSafe MacBus.

Definition drive_image (s : mac) (d : Z) : option (list Z) :=
  nth (Z.to_nat d) (S_image (mem_sony (bus s))) None.

(** The read loop, from the [k]-th byte on. *)
Lemma read_loop img d buf start n k s : ram_mapped s → drive_image s d = Some img →
  Forall byte img → 0 ≤ buf → 0 ≤ start → buf + Z.of_nat (k + n) ≤ MAC_ROM_BASE →
  ram_index_of s buf + Z.of_nat (k + n) ≤ mem_ram_size (bus s) →
  start + Z.of_nat (k + n) ≤ Z.of_nat (length img) → Z.of_nat (length img) < 0x100000000 →
  ∃ s', for_each (Z.of_nat <$> seq k n)
      (λ i, v ← image_get d (start + i); put8 mac_accessors (buf + i) v) s = Some (tt, s') ∧
    ram_only (list_inserts (Z.to_nat (ram_index_of s buf) + k)
      (take n (drop (Z.to_nat start + k) img)) (mem_ram (bus s))) s s'.
Proof.
  revert k s. induction n as [|n IH]; intros k s Hs Him Hb Hbuf Hst Hrom Hram Himg Hlim.
  - exists s. split; [done|]. rewrite take_0. by split_and!.
  - cbn [seq fmap list_fmap for_each].
    destruct (lookup_lt_is_Some_2 img (Z.to_nat start + k)) as [v Hv]; [lia|].
    assert (byte v) as Hvb by exact (Forall_lookup_1 _ _ _ _ Hb Hv).
    assert (image_get d (start + Z.of_nat k) s = Some (v, s)) as Eg.
    { unfold image_get. unfold drive_image in Him. rewrite Him.
      replace (Z.to_nat (start + Z.of_nat k)) with (Z.to_nat start + k)%nat by lia. by rewrite Hv. }
    destruct (write8_ram s (buf + Z.of_nat k) v Hs ltac:(lia)) as (s1 & E1 & H1).
    assert (0 ≤ ram_index_of s buf) as Hi0 by (apply Z.mod_pos_bound; apply Hs).
    rewrite ram_index_add in H1 by (lia || apply Hs).
    assert (put8 mac_accessors (buf + Z.of_nat k) v s = Some (tt, s1)) as Ep.
    { unfold put8. rewrite u32_small by (unfold MAC_ROM_BASE in *; lia).
      rewrite u8_small by done. exact E1. }
    assert ((v ← image_get d (start + Z.of_nat k); put8 mac_accessors (buf + Z.of_nat k) v) s = Some (tt, s1))
      as Eb by (by rewrite (bind_Some _ _ _ _ _ Eg)).
    rewrite (bind_Some _ _ _ _ _ Eb).
    assert (mem_ram_size (bus s1) = mem_ram_size (bus s)) as EN
      by exact (ram_only_field mem_ram_size _ _ _ ltac:(done) H1).
    destruct (IH (S k) s1) as (s2 & E2 & H2); rewrite ?(ram_index_only _ _ _ _ H1), ?EN; try done; try lia.
    { apply (ram_mapped_only _ _ _ H1); [apply zset_length|done]. }
    { unfold drive_image. by rewrite (ram_only_field mem_sony _ _ _ ltac:(done) H1). }
    exists s2. split; [done|]. apply (ram_only_trans _ _ _ _ _ H1). rewrite (drop_S _ _ _ Hv). cbn [take list_inserts].
    replace (mem_ram (bus s1)) with (zset (mem_ram (bus s)) (ram_index_of s buf + Z.of_nat k) v) in H2
      by (symmetry; apply H1).
    unfold zset in H2. rewrite (ram_index_only _ _ _ _ H1) in H2.
    replace (Z.to_nat (ram_index_of s buf + Z.of_nat k)) with (Z.to_nat (ram_index_of s buf) + k)%nat in H2 by lia.
    rewrite list_insert_inserts_lt by lia.
    replace (S (Z.to_nat (ram_index_of s buf) + k)) with (Z.to_nat (ram_index_of s buf) + S k)%nat by lia.
    by replace (S (Z.to_nat start + k)) with (Z.to_nat start + S k)%nat by lia.
Qed.

(** [s'] is [s] with [img] in drive [d] (and other counters and trace). *)
Definition image_only (d : Z) (img : list Z) (s s' : mac) : Prop :=
  cpu s' = cpu s ∧ exc_log s' = exc_log s ∧ exc_n s' = exc_n s ∧
  mem_ram (bus s') = mem_ram (bus s) ∧
  set_mem_sony sony_init (mem_rest (bus s')) = set_mem_sony sony_init (mem_rest (bus s)) ∧
  mem_sony (bus s') = set_S_image (<[Z.to_nat d := Some img]> (S_image (mem_sony (bus s))))
                        (mem_sony (bus s)).

Lemma image_only_trans d img1 img2 s s1 s2 :
  image_only d img1 s s1 → image_only d img2 s1 s2 → image_only d img2 s s2.
Proof.
  intros (? & ? & ? & ? & ? & HS1) (? & ? & ? & ? & ? & HS2). split_and!; try congruence.
  rewrite HS2, HS1. unfold set_S_image. cbn. by rewrite list_insert_insert_eq.
Qed.

Lemma image_only_field {A} (f : mac_mem → A) d img s s' :
  (∀ m, f (set_mem_sony sony_init (mem_rest m)) = f m) → image_only d img s s' → f (bus s') = f (bus s).
Proof. intros Hf (_ & _ & _ & _ & E & _). by rewrite <- (Hf (bus s')), E, Hf. Qed.

(** A read of RAM, then. *)
Lemma ram_then_image d img s s1 s2 : ram_only (mem_ram (bus s)) s s1 → image_only d img s1 s2 →
  image_only d img s s2.
Proof.
  intros H (? & ? & ? & ? & ? & HS2). pose proof (ram_only_field mem_sony _ _ _ ltac:(done) H) as ES.
  destruct H as (? & ? & ? & E & ?). split_and!; try congruence.
Qed.

(** The write loop. *)
Lemma write_loop d buf start n k s : ram_mapped s → ∀ img, drive_image s d = Some img →
  (Z.to_nat d < length (S_image (mem_sony (bus s))))%nat →
  Forall byte (mem_ram (bus s)) → 0 ≤ buf → 0 ≤ start → buf + Z.of_nat (k + n) ≤ MAC_ROM_BASE →
  ram_index_of s buf + Z.of_nat (k + n) ≤ mem_ram_size (bus s) →
  start + Z.of_nat (k + n) ≤ Z.of_nat (length img) →
  ∃ s', for_each (Z.of_nat <$> seq k n)
      (λ i, v ← get8 mac_accessors (buf + i); image_put d (start + i) v) s = Some (tt, s') ∧
    image_only d (list_inserts (Z.to_nat start + k)
      (take n (drop (Z.to_nat (ram_index_of s buf) + k) (mem_ram (bus s)))) img) s s'.
Proof.
  revert k s. induction n as [|n IH]; intros k s Hs img Him Hd Hb Hbuf Hst Hrom Hram Himg.
  - exists s. split; [done|]. rewrite take_0. cbn [list_inserts]. split_and!; try done.
    unfold drive_image in Him. rewrite nth_lookup in Him.
    destruct (S_image (mem_sony (bus s)) !! Z.to_nat d) as [o|] eqn:E; [|done]. simpl in Him. subst o.
    rewrite list_insert_id by done. by destruct (mem_sony (bus s)).
  - cbn [seq fmap list_fmap for_each].
    assert (0 ≤ ram_index_of s buf) as Hi0 by (apply Z.mod_pos_bound; apply Hs).
    destruct (lookup_lt_is_Some_2 (mem_ram (bus s)) (Z.to_nat (ram_index_of s buf) + k)) as [v Hv].
    { destruct Hs as (_ & _ & Hl). lia. }
    assert (byte v) as Hvb by exact (Forall_lookup_1 _ _ _ _ Hb Hv).
    destruct (read8_ram s (buf + Z.of_nat k) Hs ltac:(lia)) as (s1 & E1 & H1).
    rewrite ram_index_add in E1 by (lia || apply Hs).
    assert (znth (mem_ram (bus s)) (ram_index_of s buf + Z.of_nat k) = v) as Ev.
    { unfold znth. rewrite nth_lookup.
      replace (Z.to_nat (ram_index_of s buf + Z.of_nat k)) with (Z.to_nat (ram_index_of s buf) + k)%nat by lia.
      by rewrite Hv. }
    rewrite Ev in E1. set (img1 := zset img (start + Z.of_nat k) v).
    pose proof (ram_only_field mem_sony _ _ _ ltac:(done) H1) as ES.
    set (s2 := with_bus (on_sony (λ S, set_S_image (<[Z.to_nat d := Some img1]> (S_image S)) S)) s1).
    assert ((v ← get8 mac_accessors (buf + Z.of_nat k); image_put d (start + Z.of_nat k) v) s = Some (tt, s2)) as Eb.
    { assert (get8 mac_accessors (buf + Z.of_nat k) s = Some (v, s1)) as Eg.
      { unfold get8. rewrite u32_small by (unfold MAC_ROM_BASE in *; lia). exact E1. }
      rewrite (bind_Some _ _ _ _ _ Eg). unfold image_put. unfold drive_image in Him.
      rewrite ES, Him, (proj2 (Z.leb_gt _ _)) by lia. by rewrite u8_small. }
    rewrite (bind_Some _ _ _ _ _ Eb).
    assert (image_only d img1 s1 s2) as H2 by (by split_and!).
    pose proof (ram_then_image _ _ _ _ _ H1 H2) as H12.
    pose proof (image_only_field mem_ram_size _ _ _ _ ltac:(done) H12) as EN.
    assert (mem_ram (bus s2) = mem_ram (bus s)) as ER by apply H12.
    assert (ram_index_of s2 buf = ram_index_of s buf) as EI by (unfold ram_index_of; by rewrite EN).
    destruct (IH (S k) s2) with (img := img1) as (s3 & E3 & H3); rewrite ?EI, ?EN, ?ER; try done; try lia.
    { destruct Hs as (? & ? & ?). unfold ram_mapped. rewrite EN, ER.
      by rewrite (image_only_field mem_overlay _ _ _ _ ltac:(done) H12). }
    { unfold drive_image. cbn. rewrite nth_lookup, list_lookup_insert_eq; [done|]. by rewrite ES. }
    { cbn. rewrite length_insert. by rewrite ES. }
    { unfold img1. rewrite zset_length. lia. }
    exists s3. split; [done|]. eapply image_only_trans; [exact H12|].
    rewrite EI, ER in H3. rewrite (drop_S _ _ _ Hv). cbn [take list_inserts].
    unfold img1, zset in H3.
    replace (Z.to_nat (start + Z.of_nat k)) with (Z.to_nat start + k)%nat in H3 by lia.
    rewrite list_insert_inserts_lt by lia.
    replace (S (Z.to_nat start + k)) with (Z.to_nat start + S k)%nat by lia.
    by replace (S (Z.to_nat (ram_index_of s buf) + k)) with (Z.to_nat (ram_index_of s buf) + S k)%nat by lia.
Qed.

(** ** The properties *)

(** Drive [d] holds [img]. *)
Record holds (s : mac) (d : Z) (img : list Z) : Prop := {
  hd_range : 0 ≤ d < 2;
  hd_image : drive_image s d = Some img;
  hd_slots : length (S_image (mem_sony (bus s))) = 2%nat;
  hd_inserted : bnth (S_inserted (mem_sony (bus s))) d = true;
  hd_size : znth (S_size (mem_sony (bus s))) d = Z.of_nat (length img);
  hd_small : Z.of_nat (length img) < 0x100000000;
  hd_bytes : Forall byte img
}.

(** The buffer lies in RAM without wrapping around. *)
Definition buffer_in_ram (s : mac) (buf n : Z) : Prop :=
  0 ≤ buf ∧ buf + n ≤ MAC_ROM_BASE ∧ ram_index_of s buf + n ≤ mem_ram_size (bus s).

(** The bytes a transfer moves, and its result. *)
Definition moved (size start count : Z) : Z := Z.min count (size - start).
Definition transfer_result (size start count : Z) : Z :=
  if count <=? size - start then mnvm_noErr else mnvm_eofErr.

(** The common prefix: the checks, once they have passed. *)
Lemma transfer_checked (is_write : bool) buf d start count img s : holds s d img →
  is_write && bnth (S_wprot (mem_sony (bus s))) d = false → 0 ≤ start ≤ Z.of_nat (length img) → 0 ≤ count →
  drive_transfer mac_accessors is_write buf d start count s =
  (for_each (upto (Z.to_nat (moved (Z.of_nat (length img)) start count))) (λ i,
     if is_write then v ← get8 mac_accessors (buf + i); image_put d (start + i) v
     else v ← image_get d (start + i); put8 mac_accessors (buf + i) v) ;;
   mret (transfer_result (Z.of_nat (length img)) start count,
         moved (Z.of_nat (length img)) start count)) s.
Proof.
  intros [Hd _ _ Hins Hsz Hsm _] Hwp Hst Hc. unfold drive_transfer, check_drive.
  rewrite (bind_Some _ _ s mnvm_noErr s).
  2:{ rewrite (bind_Some (gets_sony S_inserted) _ s (S_inserted (mem_sony (bus s))) s) by done.
      rewrite Hins. unfold NUM_DRIVES. rewrite (proj2 (Z.ltb_ge d 0)), (proj2 (Z.leb_gt 2 d)) by lia. done. }
  rewrite Z.eqb_refl. cbn [negb].
  rewrite (bind_Some (gets_sony _) _ s (bnth (S_wprot (mem_sony (bus s))) d) s) by done. rewrite Hwp.
  rewrite (bind_Some (gets_sony _) _ s (znth (S_size (mem_sony (bus s))) d) s) by done. rewrite Hsz.
  rewrite (proj2 (Z.ltb_ge _ _)) by lia. rewrite u32_small by lia. unfold moved, transfer_result.
  destruct (Z.leb_spec count (Z.of_nat (length img) - start)).
  - rewrite Z.min_l by lia. done.
  - rewrite Z.min_r by lia. done.
Qed.

(** C26.  A read from an inserted disk puts exactly the requested bytes of the
    image into RAM at the buffer, shortened at the end of the disk with an
    end-of-file error, and changes nothing else. *)
Theorem sony_read s d img buf start count : ram_mapped s → holds s d img →
  0 ≤ start ≤ Z.of_nat (length img) → 0 ≤ count →
  let L := moved (Z.of_nat (length img)) start count in buffer_in_ram s buf L →
  ∃ s', drive_transfer mac_accessors false buf d start count s =
      Some (transfer_result (Z.of_nat (length img)) start count, L, s') ∧
    ram_only (list_inserts (Z.to_nat (ram_index_of s buf))
      (take (Z.to_nat L) (drop (Z.to_nat start) img)) (mem_ram (bus s))) s s'.
Proof.
  intros Hs Hd Hst Hc L (Hb & Hrom & Hram). rewrite (transfer_checked _ _ _ _ _ img) by done.
  fold L. assert (0 ≤ L ∧ start + L ≤ Z.of_nat (length img)) as [HL1 HL2] by (unfold L, moved; lia).
  destruct (read_loop img d buf start (Z.to_nat L) 0 s Hs (hd_image _ _ _ Hd) (hd_bytes _ _ _ Hd)
    Hb ltac:(lia) ltac:(lia) ltac:(lia) ltac:(lia) (hd_small _ _ _ Hd)) as (s' & E & H).
  unfold upto. rewrite (bind_Some _ _ _ _ _ E). exists s'. split; [done|].
  by rewrite !Nat.add_0_r in H.
Qed.

(** C27.  A write to an inserted, unlocked disk stores exactly the bytes of the
    buffer in the image at the given offset, shortened at the end of the disk,
    and leaves RAM, the other drive and every device alone. *)
Theorem sony_write s d img buf start count : ram_mapped s → holds s d img →
  Forall byte (mem_ram (bus s)) → bnth (S_wprot (mem_sony (bus s))) d = false →
  0 ≤ start ≤ Z.of_nat (length img) → 0 ≤ count →
  let L := moved (Z.of_nat (length img)) start count in buffer_in_ram s buf L →
  ∃ s', drive_transfer mac_accessors true buf d start count s =
      Some (transfer_result (Z.of_nat (length img)) start count, L, s') ∧
    image_only d (list_inserts (Z.to_nat start)
      (take (Z.to_nat L) (drop (Z.to_nat (ram_index_of s buf)) (mem_ram (bus s)))) img) s s'.
Proof.
  intros Hs Hd Hbytes Hwp Hst Hc L (Hb & Hrom & Hram). rewrite (transfer_checked _ _ _ _ _ img) by (done || by rewrite Hwp).
  fold L. assert (0 ≤ L ∧ start + L ≤ Z.of_nat (length img)) as [HL1 HL2] by (unfold L, moved; lia).
  pose proof (hd_range _ _ _ Hd) as Hdr.
  destruct (write_loop d buf start (Z.to_nat L) 0 s Hs img (hd_image _ _ _ Hd)
    ltac:(rewrite (hd_slots _ _ _ Hd); lia) Hbytes Hb ltac:(lia) ltac:(lia) ltac:(lia) ltac:(lia)) as (s' & E & H).
  unfold upto. rewrite (bind_Some _ _ _ _ _ E). exists s'. split; [done|].
  by rewrite !Nat.add_0_r in H.
Qed.

(** C28.  A transfer to or from an empty or nonexistent drive, a write to a
    locked disk and a transfer starting past the end of the disk are refused
    with the driver's error code, before any byte is moved. *)
Theorem sony_refused s w buf d start count :
  let S := mem_sony (bus s) in
  ((d < 0 ∨ 2 ≤ d ∨ bnth (S_inserted S) d = false) →
    drive_transfer mac_accessors w buf d start count s = Some (mnvm_nsDrvErr, 0, s)) ∧
  (0 ≤ d < 2 → bnth (S_inserted S) d = true → w = true → bnth (S_wprot S) d = true →
    drive_transfer mac_accessors w buf d start count s = Some (mnvm_wPrErr, 0, s)) ∧
  (0 ≤ d < 2 → bnth (S_inserted S) d = true → w && bnth (S_wprot S) d = false → znth (S_size S) d < start →
    drive_transfer mac_accessors w buf d start count s = Some (mnvm_eofErr, 0, s)).
Proof.
  intros S. assert (∀ b, (d <? 0) || (NUM_DRIVES <=? d) || negb (bnth (S_inserted S) d) = b →
    check_drive d s = Some (if b then mnvm_nsDrvErr else mnvm_noErr, s)) as Hck by (by intros b <-).
  unfold drive_transfer, NUM_DRIVES in *. split_and!.
  - intros Hd. rewrite (bind_Some _ _ _ _ _ (Hck true ltac:(destruct (bnth _ d); lia))). done.
  - intros Hd Hi -> Hw. rewrite (bind_Some _ _ _ _ _ (Hck false ltac:(rewrite Hi; lia))).
    cbn [negb]. rewrite Z.eqb_refl. cbn [negb].
    rewrite (bind_Some (gets_sony _) _ s (bnth (S_wprot S) d) s) by done. by rewrite Hw.
  - intros Hd Hi Hw Hlt. rewrite (bind_Some _ _ _ _ _ (Hck false ltac:(rewrite Hi; lia))).
    rewrite Z.eqb_refl. cbn [negb].
    rewrite (bind_Some (gets_sony _) _ s (bnth (S_wprot S) d) s) by done. rewrite Hw.
    rewrite (bind_Some (gets_sony _) _ s (znth (S_size S) d) s) by done.
    by rewrite (proj2 (Z.ltb_lt _ _)).
Qed.

(** ** The properties on a concrete disk *)

Definition disk_example : mac :=
  let img := replicate 512 0xA5 in
  with_bus (on_sony (λ S, (sony_insert_disk img 512 false S).2)) mac_example.

Lemma disk_example_holds : holds disk_example 0 (replicate 512 0xA5).
Proof. split; try done. by apply Forall_replicate. Qed.

Lemma disk_example_mapped : ram_mapped disk_example.
Proof. by split_and!. Qed.

Lemma sony_read_witness : ∃ s',
  drive_transfer mac_accessors false 0x100 0 384 256 disk_example = Some (mnvm_eofErr, 128, s').
Proof.
  destruct (sony_read disk_example 0 (replicate 512 0xA5) 0x100 384 256 disk_example_mapped
    disk_example_holds ltac:(vm_compute; split; congruence) ltac:(lia)
    ltac:(split_and!; vm_compute; congruence)) as (s' & E & _). by exists s'.
Defined.

Lemma sony_write_witness : ∃ s',
  drive_transfer mac_accessors true 0x100 0 256 256 disk_example = Some (mnvm_noErr, 256, s').
Proof.
  destruct (sony_write disk_example 0 (replicate 512 0xA5) 0x100 256 256 disk_example_mapped
    disk_example_holds ltac:(by apply Forall_replicate) ltac:(done)
    ltac:(vm_compute; split; congruence) ltac:(lia)
    ltac:(split_and!; vm_compute; congruence)) as (s' & E & _). by exists s'.
Defined.

Lemma sony_refused_witness :
  drive_transfer mac_accessors true 0x100 1 0 16 disk_example = Some (mnvm_nsDrvErr, 0, disk_example).
Proof.
  apply (sony_refused disk_example true 0x100 1 0 16). right. right. vm_compute. reflexivity.
Defined.
