(* ===== verification/Gui.v ===== *)
(** * The screen, sound and input link

    The wire protocol between the emulator and its window: packets and
    run-length coding ([gui/protocol.h]), the emulator's end of the link in
    [server_loop] ([port/host/main.c]) and the window's end
    ([gui/mac_gui.c]).  The socket is the list of the bytes written to it;
    reads take any part of it that fits the reader's buffer. *)

From Stdlib Require Import ZArith Lia.
From stdpp Require Import base tactics list numbers.
From S2P Require Import Prelude Cpu MacState Kbd Sony MacMem MacBus.

#[local] Ltac Zify.zify_post_hook ::= Z.to_euclidean_division_equations.

(** ** The protocol *)

Definition MACGUI_SCREEN_W : Z := 512.
Definition MACGUI_SCREEN_H : Z := 342.
Definition MACGUI_FB_BYTES : Z := MACGUI_SCREEN_W / 8 * MACGUI_SCREEN_H.
Definition MACGUI_PKT_HELLO : Z := 0x48.
Definition MACGUI_PKT_FRAME : Z := 0x46.
Definition MACGUI_PKT_AUDIO : Z := 0x41.
Definition MACGUI_PKT_MOUSE : Z := 0x4D.
Definition MACGUI_PKT_KEY : Z := 0x4B.
Definition MACGUI_PKT_SPEED : Z := 0x53.

(** How many of the first [limit] bytes of [l] are [v]. *)
Fixpoint run_length (limit : nat) (v : Z) (l : list Z) : nat :=
  match limit, l with
  | S limit, x :: l => if x =? v then S (run_length limit v l) else O
  | _, _ => O
  end.
(** [fuel] is the number of bytes left at most. *)
Fixpoint rle_encode_from (fuel : nat) (src : list Z) : list Z :=
  match fuel, src with
  | S fuel, v :: rest =>
      let more := run_length 254 v rest in
      u8 (1 + Z.of_nat more) :: v :: rle_encode_from fuel (drop more rest)
  | _, _ => []
  end.
Definition macgui_rle_encode (src : list Z) : list Z := rle_encode_from (length src) src.
(** The bytes stored into a destination of [cap] bytes. *)
Fixpoint macgui_rle_decode (src : list Z) (cap : nat) : list Z :=
  match src with
  | run :: v :: src =>
      match cap with
      | O => []
      | _ => let k := Nat.min (Z.to_nat run) cap in replicate k v ++ macgui_rle_decode src (cap - k)
      end
  | _ => []
  end.

(** A packet's type and payload, and its bytes on the wire. *)
Definition packet : Type := Z * list Z.
Definition send_packet (p : packet) : list Z :=
  let len := Z.of_nat (length p.2) in
  [u8 p.1; u8 len; u8 (len ≫ 8); u8 (len ≫ 16)] ++ p.2.
(** The complete packets at the front of a buffer, and what is left; [fuel]
    is the number of bytes at most. *)
Fixpoint packets_in (fuel : nat) (buf : list Z) : list packet * list Z :=
  match fuel, buf with
  | S fuel, t :: l0 :: l1 :: l2 :: rest =>
      let len := l0 .| (l1 ≪ 8) .| (l2 ≪ 16) in
      if Z.of_nat (length rest) <? len then ([], buf)
      else
        let '(ps, tail) := packets_in fuel (drop (Z.to_nat len) rest) in
        ((t, take (Z.to_nat len) rest) :: ps, tail)
  | _, _ => ([], buf)
  end.
Definition take_packets (buf : list Z) : list packet * list Z := packets_in (length buf) buf.

(** ** The emulator's end *)

Record server := mk_server {
  sv_inbuf : list Z;   (** [inbuf], up to [inlen] *)
  sv_prevfb : list Z;
  sv_snd : list Z;     (** [g_snd_buf], up to [g_snd_len] *)
  sv_speed_mult : Z
}.
Definition set_sv_inbuf (v : list Z) (s : server) : server := mk_server v (sv_prevfb s) (sv_snd s) (sv_speed_mult s).
Definition set_sv_prevfb (v : list Z) (s : server) : server := mk_server (sv_inbuf s) v (sv_snd s) (sv_speed_mult s).
Definition set_sv_snd (v : list Z) (s : server) : server := mk_server (sv_inbuf s) (sv_prevfb s) v (sv_speed_mult s).
Definition set_sv_speed_mult (v : Z) (s : server) : server := mk_server (sv_inbuf s) (sv_prevfb s) (sv_snd s) (u32 v).

Definition fb_size : nat := Z.to_nat MACGUI_FB_BYTES.
Definition SND_BUF : nat := (MAC_SND_SAMPLES_PER_VBL * 16)%nat.
Definition SERVER_INBUF : nat := 512.
Definition server_init : server := mk_server [] (replicate fb_size 0x55) [] 100.
Definition server_hello : list Z :=
  send_packet (MACGUI_PKT_HELLO, [u8 MACGUI_SCREEN_W; u8 (MACGUI_SCREEN_W ≫ 8); u8 MACGUI_SCREEN_H; u8 (MACGUI_SCREEN_H ≫ 8)]).

(** Drops the oldest samples when the buffer is full. *)
Definition server_snd_sink (samples : list Z) (s : server) : server :=
  set_sv_snd (drop (length (sv_snd s) + length samples - SND_BUF) (sv_snd s) ++ samples) s.

(** What a packet from the window does to the machine; returns the speed. *)
Definition server_apply_packet (speed : Z) (p : packet) : M mac Z :=
  let len := Z.of_nat (length p.2) in
  let b := znth p.2 in
  if (p.1 =? MACGUI_PKT_MOUSE) && (5 <=? len) then
    mac_set_mouse (i16 (u16 (b 0 .| (b 1 ≪ 8)))) (i16 (u16 (b 2 .| (b 3 ≪ 8)))) (nz (b 4)) ;; mret speed
  else if (p.1 =? MACGUI_PKT_KEY) && (2 <=? len) then
    updm (on_kbd (mac_key_event (b 0) (nz (b 1)))) ;; mret speed
  else if (p.1 =? MACGUI_PKT_SPEED) && (2 <=? len) then mret (u32 (b 0 .| (b 1 ≪ 8)))
  else mret speed.
Fixpoint server_apply (speed : Z) (ps : list packet) : M mac Z :=
  match ps with [] => mret speed | p :: ps => speed ← server_apply_packet speed p; server_apply speed ps end.
(** The input part of a round of [server_loop], on what [recv] returned. *)
Definition server_input (data : list Z) (s : server) : M mac server :=
  let '(ps, tail) := take_packets (sv_inbuf s ++ data) in
  speed ← server_apply (sv_speed_mult s) ps;
  mret (set_sv_speed_mult speed (set_sv_inbuf tail s)).

(** The frame buffer in RAM. *)
Definition fb_copy (m : mac_mem) : list Z :=
  (λ i, znth (mem_ram m) (u32 (mem_fb_base m + i) mod mem_ram_size m)) <$> upto fb_size.
(** The output part: a frame when [due] and changed, then the samples. *)
Definition server_frame (due : bool) (m : mac_mem) (s : server) : list Z * server :=
  let fb := fb_copy m in
  if (due : bool) && negb (bool_decide (fb = sv_prevfb s)) then
    (send_packet (MACGUI_PKT_FRAME, macgui_rle_encode fb), set_sv_prevfb fb s)
  else ([], s).
Definition server_sound (s : server) : list Z * server :=
  match sv_snd s with
  | [] => ([], s)
  | snd => (send_packet (MACGUI_PKT_AUDIO, snd), set_sv_snd [] s)
  end.

(** A round: the blocks of samples that running the machine produced, whether
    a frame is due, and the machine then. *)
Record round := mk_round { rd_blocks : list (list Z); rd_due : bool; rd_mem : mac_mem }.
Definition server_round (r : round) (s : server) : list Z * server :=
  let s := fold_left (λ s b, server_snd_sink b s) (rd_blocks r) s in
  let '(frame, s) := server_frame (rd_due r) (rd_mem r) s in
  let '(audio, s) := server_sound s in
  (frame ++ audio, s).
Fixpoint server_rounds (rs : list round) (s : server) : list Z * server :=
  match rs with
  | [] => ([], s)
  | r :: rs => let '(o1, s) := server_round r s in let '(o2, s) := server_rounds rs s in (o1 ++ o2, s)
  end.

(** ** The window's end *)

Record gui := mk_gui {
  gu_inbuf : list Z;    (** [g_inbuf], up to [g_inlen] *)
  gu_fb : list Z;       (** the decoded frame *)
  gu_pixels : list Z;
  gu_audio : list Z     (** the samples queued for the audio device *)
}.
Definition set_gu_inbuf (v : list Z) (g : gui) : gui := mk_gui v (gu_fb g) (gu_pixels g) (gu_audio g).
Definition GUI_INBUF : nat := (2 * fb_size + 1024)%nat.
(** Where the link starts: a grey window. *)
Definition gui_init : gui :=
  mk_gui [] (replicate fb_size 0) (replicate (Z.to_nat (MACGUI_SCREEN_W * MACGUI_SCREEN_H)) 0xFF888888) [].

Definition pixel (fb : list Z) (x y : Z) : Z :=
  let byte := znth fb (y * (MACGUI_SCREEN_W / 8) + (x ≫ 3)) in
  let bit := (byte ≫ (7 - (x .& 7))) .& 1 in
  if nz bit then 0xFF000000 else 0xFFFFFFFF.
Definition pixels (fb : list Z) : list Z :=
  upto (Z.to_nat MACGUI_SCREEN_H) ≫= λ y, (λ x, pixel fb x y) <$> upto (Z.to_nat MACGUI_SCREEN_W).
Definition frame_handler (rle : list Z) (g : gui) : gui :=
  let out := macgui_rle_decode rle fb_size in
  let fb := out ++ drop (length out) (gu_fb g) in
  mk_gui (gu_inbuf g) fb (pixels fb) (gu_audio g).
(** With the audio device open. *)
Definition audio_handler (samples : list Z) (g : gui) : gui :=
  mk_gui (gu_inbuf g) (gu_fb g) (gu_pixels g) (gu_audio g ++ samples).
Definition gui_packet (g : gui) (p : packet) : gui :=
  if p.1 =? MACGUI_PKT_FRAME then frame_handler p.2 g
  else if p.1 =? MACGUI_PKT_AUDIO then audio_handler p.2 g
  else g.
(** On the bytes that its reads returned. *)
Definition poll_backend (data : list Z) (g : gui) : gui :=
  let '(ps, tail) := take_packets (gu_inbuf g ++ data) in
  set_gu_inbuf tail (fold_left gui_packet ps g).

(** The window's input. *)
Definition gui_mouse (x y : Z) (down : bool) : list Z :=
  send_packet (MACGUI_PKT_MOUSE, [u8 x; u8 (x ≫ 8); u8 y; u8 (y ≫ 8); b2z down]).
Definition gui_key (mkc : Z) (down : bool) : list Z := send_packet (MACGUI_PKT_KEY, [u8 mkc; b2z down]).
Definition gui_speed (mult : Z) : list Z := send_packet (MACGUI_PKT_SPEED, [u8 mult; u8 (mult ≫ 8)]).

(** ** Delivery

    The window takes a stream in any pieces that fit its buffer. *)
Inductive delivers : gui → list Z → gui → Prop :=
  | delivered g : delivers g [] g
  | polled g data rest g' : (length (gu_inbuf g) + length data ≤ GUI_INBUF)%nat →
      delivers (poll_backend data g) rest g' → delivers g (data ++ rest) g'.

(** ** Keys *)

Definition MKC_A : Z := 0x00.
Definition MKC_B : Z := 0x0B.
Definition MKC_C : Z := 0x08.
Definition MKC_D : Z := 0x02.
Definition MKC_E : Z := 0x0E.
Definition MKC_F : Z := 0x03.
Definition MKC_G : Z := 0x05.
Definition MKC_H : Z := 0x04.
Definition MKC_I : Z := 0x22.
Definition MKC_J : Z := 0x26.
Definition MKC_K : Z := 0x28.
Definition MKC_L : Z := 0x25.
Definition MKC_M : Z := 0x2E.
Definition MKC_N : Z := 0x2D.
Definition MKC_O : Z := 0x1F.
Definition MKC_P : Z := 0x23.
Definition MKC_Q : Z := 0x0C.
Definition MKC_R : Z := 0x0F.
Definition MKC_S : Z := 0x01.
Definition MKC_T : Z := 0x11.
Definition MKC_U : Z := 0x20.
Definition MKC_V : Z := 0x09.
Definition MKC_W : Z := 0x0D.
Definition MKC_X : Z := 0x07.
Definition MKC_Y : Z := 0x10.
Definition MKC_Z : Z := 0x06.
Definition MKC_1 : Z := 0x12.
Definition MKC_2 : Z := 0x13.
Definition MKC_3 : Z := 0x14.
Definition MKC_4 : Z := 0x15.
Definition MKC_5 : Z := 0x17.
Definition MKC_6 : Z := 0x16.
Definition MKC_7 : Z := 0x1A.
Definition MKC_8 : Z := 0x1C.
Definition MKC_9 : Z := 0x19.
Definition MKC_0 : Z := 0x1D.
Definition MKC_Command : Z := 0x37.
Definition MKC_Shift : Z := 0x38.
Definition MKC_CapsLock : Z := 0x39.
Definition MKC_Option : Z := 0x3A.
Definition MKC_Space : Z := 0x31.
Definition MKC_Return : Z := 0x24.
Definition MKC_BackSpace : Z := 0x33.
Definition MKC_Tab : Z := 0x30.
Definition MKC_Left : Z := 0x7B.
Definition MKC_Right : Z := 0x7C.
Definition MKC_Down : Z := 0x7D.
Definition MKC_Up : Z := 0x7E.
Definition MKC_Minus : Z := 0x1B.
Definition MKC_Equal : Z := 0x18.
Definition MKC_BackSlash : Z := 0x2A.
Definition MKC_Comma : Z := 0x2B.
Definition MKC_Period : Z := 0x2F.
Definition MKC_Slash : Z := 0x2C.
Definition MKC_SemiColon : Z := 0x29.
Definition MKC_SingleQuote : Z := 0x27.
Definition MKC_LeftBracket : Z := 0x21.
Definition MKC_RightBracket : Z := 0x1E.
Definition MKC_Grave : Z := 0x32.
Definition MKC_Enter : Z := 0x4C.
Definition MKC_Escape : Z := 0x35.

(** The window library's scan codes, those that are mapped and the others. *)
Inductive SDL_Scancode :=
  | SDL_SCANCODE_A | SDL_SCANCODE_B | SDL_SCANCODE_C | SDL_SCANCODE_D | SDL_SCANCODE_E | SDL_SCANCODE_F
  | SDL_SCANCODE_G | SDL_SCANCODE_H | SDL_SCANCODE_I | SDL_SCANCODE_J | SDL_SCANCODE_K | SDL_SCANCODE_L
  | SDL_SCANCODE_M | SDL_SCANCODE_N | SDL_SCANCODE_O | SDL_SCANCODE_P | SDL_SCANCODE_Q | SDL_SCANCODE_R
  | SDL_SCANCODE_S | SDL_SCANCODE_T | SDL_SCANCODE_U | SDL_SCANCODE_V | SDL_SCANCODE_W | SDL_SCANCODE_X
  | SDL_SCANCODE_Y | SDL_SCANCODE_Z | SDL_SCANCODE_1 | SDL_SCANCODE_2 | SDL_SCANCODE_3 | SDL_SCANCODE_4
  | SDL_SCANCODE_5 | SDL_SCANCODE_6 | SDL_SCANCODE_7 | SDL_SCANCODE_8 | SDL_SCANCODE_9 | SDL_SCANCODE_0
  | SDL_SCANCODE_RETURN | SDL_SCANCODE_SPACE | SDL_SCANCODE_BACKSPACE | SDL_SCANCODE_TAB
  | SDL_SCANCODE_LSHIFT | SDL_SCANCODE_RSHIFT | SDL_SCANCODE_CAPSLOCK | SDL_SCANCODE_LALT | SDL_SCANCODE_RALT
  | SDL_SCANCODE_LGUI | SDL_SCANCODE_RGUI | SDL_SCANCODE_LCTRL | SDL_SCANCODE_RCTRL | SDL_SCANCODE_MINUS
  | SDL_SCANCODE_EQUALS | SDL_SCANCODE_LEFTBRACKET | SDL_SCANCODE_RIGHTBRACKET | SDL_SCANCODE_BACKSLASH
  | SDL_SCANCODE_SEMICOLON | SDL_SCANCODE_APOSTROPHE | SDL_SCANCODE_GRAVE | SDL_SCANCODE_COMMA
  | SDL_SCANCODE_PERIOD | SDL_SCANCODE_SLASH | SDL_SCANCODE_LEFT | SDL_SCANCODE_RIGHT | SDL_SCANCODE_UP
  | SDL_SCANCODE_DOWN | SDL_SCANCODE_OTHER.
Definition sdl_to_mkc (s : SDL_Scancode) : Z :=
  match s with
  | SDL_SCANCODE_A => MKC_A | SDL_SCANCODE_B => MKC_B | SDL_SCANCODE_C => MKC_C | SDL_SCANCODE_D => MKC_D
  | SDL_SCANCODE_E => MKC_E | SDL_SCANCODE_F => MKC_F | SDL_SCANCODE_G => MKC_G | SDL_SCANCODE_H => MKC_H
  | SDL_SCANCODE_I => MKC_I | SDL_SCANCODE_J => MKC_J | SDL_SCANCODE_K => MKC_K | SDL_SCANCODE_L => MKC_L
  | SDL_SCANCODE_M => MKC_M | SDL_SCANCODE_N => MKC_N | SDL_SCANCODE_O => MKC_O | SDL_SCANCODE_P => MKC_P
  | SDL_SCANCODE_Q => MKC_Q | SDL_SCANCODE_R => MKC_R | SDL_SCANCODE_S => MKC_S | SDL_SCANCODE_T => MKC_T
  | SDL_SCANCODE_U => MKC_U | SDL_SCANCODE_V => MKC_V | SDL_SCANCODE_W => MKC_W | SDL_SCANCODE_X => MKC_X
  | SDL_SCANCODE_Y => MKC_Y | SDL_SCANCODE_Z => MKC_Z | SDL_SCANCODE_1 => MKC_1 | SDL_SCANCODE_2 => MKC_2
  | SDL_SCANCODE_3 => MKC_3 | SDL_SCANCODE_4 => MKC_4 | SDL_SCANCODE_5 => MKC_5 | SDL_SCANCODE_6 => MKC_6
  | SDL_SCANCODE_7 => MKC_7 | SDL_SCANCODE_8 => MKC_8 | SDL_SCANCODE_9 => MKC_9 | SDL_SCANCODE_0 => MKC_0
  | SDL_SCANCODE_RETURN => MKC_Return | SDL_SCANCODE_SPACE => MKC_Space
  | SDL_SCANCODE_BACKSPACE => MKC_BackSpace | SDL_SCANCODE_TAB => MKC_Tab | SDL_SCANCODE_LSHIFT => MKC_Shift
  | SDL_SCANCODE_RSHIFT => MKC_Shift | SDL_SCANCODE_CAPSLOCK => MKC_CapsLock
  | SDL_SCANCODE_LALT => MKC_Option | SDL_SCANCODE_RALT => MKC_Option | SDL_SCANCODE_LGUI => MKC_Command
  | SDL_SCANCODE_RGUI => MKC_Command | SDL_SCANCODE_LCTRL => MKC_Command | SDL_SCANCODE_RCTRL => MKC_Command
  | SDL_SCANCODE_MINUS => MKC_Minus | SDL_SCANCODE_EQUALS => MKC_Equal
  | SDL_SCANCODE_LEFTBRACKET => MKC_LeftBracket | SDL_SCANCODE_RIGHTBRACKET => MKC_RightBracket
  | SDL_SCANCODE_BACKSLASH => MKC_BackSlash | SDL_SCANCODE_SEMICOLON => MKC_SemiColon
  | SDL_SCANCODE_APOSTROPHE => MKC_SingleQuote | SDL_SCANCODE_GRAVE => MKC_Grave
  | SDL_SCANCODE_COMMA => MKC_Comma | SDL_SCANCODE_PERIOD => MKC_Period | SDL_SCANCODE_SLASH => MKC_Slash
  | SDL_SCANCODE_LEFT => MKC_Left | SDL_SCANCODE_RIGHT => MKC_Right | SDL_SCANCODE_UP => MKC_Up
  | SDL_SCANCODE_DOWN => MKC_Down
  | SDL_SCANCODE_OTHER => -1
  end.
(** A key going down or up. *)
Definition gui_key_event (s : SDL_Scancode) (down : bool) : list Z :=
  let mkc := sdl_to_mkc s in if 0 <=? mkc then gui_key mkc down else [].

(** ** The window's events

    The on-screen keyboard's keys, row by row and then the arrows; their
    rectangles are computed in floating point, so a click comes with the key
    that it is in, if any. *)
Definition osk_keys : list Z :=
  [MKC_Grave; MKC_1; MKC_2; MKC_3; MKC_4; MKC_5; MKC_6; MKC_7; MKC_8; MKC_9; MKC_0; MKC_Minus; MKC_Equal; MKC_BackSpace] ++
  [MKC_Tab; MKC_Q; MKC_W; MKC_E; MKC_R; MKC_T; MKC_Y; MKC_U; MKC_I; MKC_O; MKC_P; MKC_LeftBracket; MKC_RightBracket; MKC_BackSlash] ++
  [MKC_CapsLock; MKC_A; MKC_S; MKC_D; MKC_F; MKC_G; MKC_H; MKC_J; MKC_K; MKC_L; MKC_SemiColon; MKC_SingleQuote; MKC_Return] ++
  [MKC_Shift; MKC_Z; MKC_X; MKC_C; MKC_V; MKC_B; MKC_N; MKC_M; MKC_Comma; MKC_Period; MKC_Slash; MKC_Shift] ++
  [MKC_Option; MKC_Command; MKC_Space; MKC_Command; MKC_Enter; MKC_Option] ++
  [MKC_Left; MKC_Down; MKC_Up; MKC_Right].
Definition MENU_BAR_PX : Z := 22.
Inductive menu_action := ACT_SCALE1 | ACT_SCALE2 | ACT_SCALE3 | ACT_SPEED | ACT_QUIT.
Definition menu : list menu_action := [ACT_SCALE1; ACT_SCALE2; ACT_SCALE3; ACT_SPEED; ACT_QUIT].
Definition SPEEDS : list Z := [100; 200; 400; 800; 0].
Definition N_SPEEDS : Z := Z.of_nat (length SPEEDS).
Record rect := mk_rect { rc_x : Z; rc_y : Z; rc_w : Z; rc_h : Z }.
Definition in_rect (x y : Z) (r : rect) : bool :=
  (rc_x r <=? x) && (x <? rc_x r + rc_w r) && (rc_y r <=? y) && (y <? rc_y r + rc_h r).
(** The buttons, for the widths of their rendered labels (0 for none). *)
Fixpoint menu_layout (mx : Z) (tw : list Z) : list rect :=
  match tw with
  | [] => []
  | t :: tw =>
      let btn_w := (if nz t then t else 48) + 16 in
      mk_rect mx (Z.quot (MENU_BAR_PX - 18) 2) btn_w 18 :: menu_layout (mx + btn_w + 4) tw
  end.

Record window := mk_window {
  wi_rects : list rect;      (** of the buttons of [menu] *)
  wi_mac_scale : Z;
  wi_pending_scale : Z;
  wi_mouse_btn : bool;
  wi_osk_key : Z;            (** the key held down with the mouse, or -1 *)
  wi_speed_idx : Z;
  wi_running : bool
}.
Definition set_wi_mac_scale (v : Z) (w : window) : window :=
  mk_window (wi_rects w) v (wi_pending_scale w) (wi_mouse_btn w) (wi_osk_key w) (wi_speed_idx w) (wi_running w).
Definition set_wi_pending_scale (v : Z) (w : window) : window :=
  mk_window (wi_rects w) (wi_mac_scale w) v (wi_mouse_btn w) (wi_osk_key w) (wi_speed_idx w) (wi_running w).
Definition set_wi_mouse_btn (v : bool) (w : window) : window :=
  mk_window (wi_rects w) (wi_mac_scale w) (wi_pending_scale w) v (wi_osk_key w) (wi_speed_idx w) (wi_running w).
Definition set_wi_osk_key (v : Z) (w : window) : window :=
  mk_window (wi_rects w) (wi_mac_scale w) (wi_pending_scale w) (wi_mouse_btn w) v (wi_speed_idx w) (wi_running w).
Definition set_wi_speed_idx (v : Z) (w : window) : window :=
  mk_window (wi_rects w) (wi_mac_scale w) (wi_pending_scale w) (wi_mouse_btn w) (wi_osk_key w) v (wi_running w).
Definition set_wi_running (v : bool) (w : window) : window :=
  mk_window (wi_rects w) (wi_mac_scale w) (wi_pending_scale w) (wi_mouse_btn w) (wi_osk_key w) (wi_speed_idx w) v.
Definition wi_sh (w : window) : Z := MACGUI_SCREEN_H * wi_mac_scale w.
(** The window as it opens, and the speed it tells the emulator. *)
Definition window_init (tw : list Z) (scale : Z) : window := mk_window (menu_layout 8 tw) scale scale false (-1) 0 true.
Definition window_hello (w : window) : list Z := gui_speed (znth SPEEDS (wi_speed_idx w)).

Inductive event :=
  | SDL_QUIT
  | SDL_MOUSEMOTION (x y : Z)
  | SDL_MOUSEBUTTON (down : bool) (x y : Z) (key : option nat)
  | SDL_KEY (s : SDL_Scancode) (down repeat : bool).
Definition send_mouse (x y : Z) (w : window) : list Z :=
  gui_mouse (Z.quot x (wi_mac_scale w)) (Z.quot (y - MENU_BAR_PX) (wi_mac_scale w)) (wi_mouse_btn w).
Definition menu_press (a : menu_action) (w : window) : list Z * window :=
  match a with
  | ACT_QUIT => ([], set_wi_running false w)
  | ACT_SCALE1 => ([], set_wi_pending_scale 1 w)
  | ACT_SCALE2 => ([], set_wi_pending_scale 2 w)
  | ACT_SCALE3 => ([], set_wi_pending_scale 3 w)
  | ACT_SPEED =>
      let w := set_wi_speed_idx (Z.rem (wi_speed_idx w + 1) N_SPEEDS) w in
      (gui_speed (znth SPEEDS (wi_speed_idx w)), w)
  end.
Definition mouse_button (down : bool) (x y : Z) (key : option nat) (w : window) : list Z * window :=
  if y <? MENU_BAR_PX then
    if (down : bool) then
      match list_find (λ r, in_rect x y r) (wi_rects w) with
      | Some (i, _) => match menu !! i with Some a => menu_press a w | None => ([], w) end
      | None => ([], w)
      end
    else ([], w)
  else if y <? MENU_BAR_PX + wi_sh w then
    let w := set_wi_mouse_btn down w in (send_mouse x y w, w)
  else if (down : bool) then
    match key with
    | Some i => (gui_key (nth i osk_keys 0) true, set_wi_osk_key (Z.of_nat i) w)
    | None => ([], w)
    end
  else if 0 <=? wi_osk_key w then (gui_key (znth osk_keys (wi_osk_key w)) false, set_wi_osk_key (-1) w)
  else ([], w).
Definition window_event (e : event) (w : window) : list Z * window :=
  match e with
  | SDL_QUIT => ([], set_wi_running false w)
  | SDL_MOUSEMOTION x y =>
      if (MENU_BAR_PX <=? y) && (y <? MENU_BAR_PX + wi_sh w) then (send_mouse x y w, w) else ([], w)
  | SDL_MOUSEBUTTON down x y key => mouse_button down x y key w
  | SDL_KEY s down repeat => (if (repeat : bool) then [] else gui_key_event s down, w)
  end.
(** A turn of the window's loop: a pending change of scale, then the events. *)
Fixpoint window_events (es : list event) (w : window) : list Z * window :=
  match es with
  | [] => ([], w)
  | e :: es => let '(o1, w) := window_event e w in let '(o2, w) := window_events es w in (o1 ++ o2, w)
  end.
Definition window_turn (es : list event) (w : window) : list Z * window :=
  window_events es (set_wi_mac_scale (wi_pending_scale w) w).

(** ** Screenshots

    The bytes of the BMP files that the two ends can write. *)
Definition int_bytes (v : Z) : list Z := [u8 v; u8 (v ≫ 8); u8 (v ≫ 16); u8 (v ≫ 24)].
Definition bmp_header (W H isz biSizeImage : Z) : list Z :=
  [0x42; 0x4D] ++ int_bytes (54 + 1024 + isz) ++ replicate 4 0 ++ int_bytes (54 + 1024) ++ int_bytes 40 ++
  int_bytes W ++ int_bytes H ++ [1; 0; 8; 0] ++ replicate 4 0 ++ int_bytes biSizeImage ++ replicate 16 0.
Definition bmp_palette : list Z := upto 256 ≫= λ i, [i; i; i; 0].
(** From the bottom row up, each padded to a multiple of four bytes. *)
Definition bmp_rows (W H row : Z) (bit : Z → Z → Z) : list Z :=
  reverse (upto (Z.to_nat H)) ≫= λ y,
    ((λ x, if nz (bit x y) then 0 else 255) <$> upto (Z.to_nat W)) ++ replicate (Z.to_nat (row - W)) 0.
Definition write_screen_bmp (m : mac_mem) : list Z :=
  let W := MACGUI_SCREEN_W in let H := MACGUI_SCREEN_H in
  let row := (W + 3) .& Z.lnot 3 in let isz := row * H in
  bmp_header W H isz isz ++ bmp_palette ++ bmp_rows W H row (λ x y,
    let a := u32 (mem_fb_base m + u32 (y * (W / 8)) + u32 (x ≫ 3)) in
    (znth (mem_ram m) (a mod mem_ram_size m) ≫ (7 - (x .& 7))) .& 1).
Definition dump_fb_bmp (fb : list Z) : list Z :=
  let W := MACGUI_SCREEN_W in let H := MACGUI_SCREEN_H in
  let row := (W + 3) .& Z.lnot 3 in
  bmp_header W H (row * H) 0 ++ bmp_palette ++ bmp_rows W H row (λ x y,
    (znth fb (y * (W / 8) + (x ≫ 3)) ≫ (7 - (x .& 7))) .& 1).

(** ** Run-length coding *)

Lemma run_length_bound limit v l : (run_length limit v l ≤ limit)%nat ∧ (run_length limit v l ≤ length l)%nat.
Proof.
  revert l. induction limit as [|limit IH]; intros [|x l]; cbn; try lia.
  destruct (x =? v); [|lia]. destruct (IH l). lia.
Qed.
Lemma run_length_run limit v l : take (run_length limit v l) l = replicate (run_length limit v l) v.
Proof.
  revert l. induction limit as [|limit IH]; intros [|x l]; cbn; try done.
  destruct (Z.eqb_spec x v) as [->|]; [|done]. cbn. by rewrite IH.
Qed.

Lemma rle_from_roundtrip fuel src cap : (length src ≤ fuel)%nat → (length src ≤ cap)%nat →
  macgui_rle_decode (rle_encode_from fuel src) cap = src.
Proof.
  revert src cap. induction fuel as [|fuel IH]; intros [|v rest] cap Hf Hc; cbn [length] in *; [done|lia|done|].
  cbn [rle_encode_from macgui_rle_decode]. set (more := run_length 254 v rest).
  destruct (run_length_bound 254 v rest) as [B1 B2]. fold more in B1, B2.
  destruct cap as [|cap]; [lia|]. rewrite u8_small by lia.
  replace (Z.to_nat (1 + Z.of_nat more) `min` S cap)%nat with (S more) by lia. cbn [replicate app].
  rewrite IH by (rewrite length_drop; lia). f_equal.
  rewrite <- (take_drop more rest) at 2. unfold more at 3. by rewrite run_length_run.
Qed.
Lemma rle_roundtrip src : macgui_rle_decode (macgui_rle_encode src) (length src) = src.
Proof. by apply rle_from_roundtrip. Qed.

(** No longer than twice its input. *)
Lemma rle_from_length fuel src : (length (rle_encode_from fuel src) ≤ 2 * length src)%nat.
Proof.
  revert src. induction fuel as [|fuel IH]; intros [|v rest]; cbn [rle_encode_from length]; try lia.
  pose proof (IH (drop (run_length 254 v rest) rest)) as H. rewrite length_drop in H. lia.
Qed.

(** ** Packets *)

Definition packet_ok (p : packet) : Prop := 0 ≤ p.1 < 0x100 ∧ (length p.2 ≤ 2 * fb_size)%nat.

Lemma fb_size_eq : Z.of_nat fb_size = 21888.
Proof. done. Qed.
#[local] Opaque fb_size.

Lemma packet_len n : 0 ≤ n < 0x1000000 → u8 n .| (u8 (n ≫ 8) ≪ 8) .| (u8 (n ≫ 16) ≪ 16) = n.
Proof.
  intros Hn. pose proof (join32 0 (u8 (n ≫ 16)) (u8 (n ≫ 8)) (u8 n) (u8_range _) (u8_range _) (u8_range _)) as H.
  rewrite Z.shiftl_0_l, Z.lor_0_l in H. rewrite (Z.lor_comm (u8 n)), (Z.lor_comm _ (u8 (n ≫ 16) ≪ 16)), Z.lor_assoc, H.
  rewrite !Z.shiftr_div_pow2 by lia. unfold u8. change (2 ^ 8) with 256. change (2 ^ 16) with 65536. lia.
Qed.

Lemma send_length p : length (send_packet p) = (4 + length p.2)%nat.
Proof. done. Qed.

(** A packet at the front of a buffer. *)
Lemma packets_in_one fuel p rest : packet_ok p → (length (send_packet p ++ rest) ≤ fuel)%nat →
  packets_in fuel (send_packet p ++ rest) =
    (p :: (packets_in (fuel - 1) rest).1, (packets_in (fuel - 1) rest).2).
Proof.
  intros [Ht Hl] Hf. rewrite length_app, send_length in Hf. pose proof fb_size_eq. destruct fuel as [|fuel]; [lia|].
  unfold send_packet. cbn [app packets_in]. rewrite packet_len by lia.
  rewrite (proj2 (Z.ltb_ge _ _)) by (rewrite length_app; lia). rewrite Nat2Z.id, drop_app_length, take_app_length.
  replace (S fuel - 1)%nat with fuel by lia. destruct (packets_in fuel rest) as [ps tail]. rewrite u8_small by done.
  by destruct p.
Qed.

(** A part of a packet. *)
Lemma packets_in_part fuel p X rest : packet_ok p → X ++ rest = send_packet p → rest ≠ [] → packets_in fuel X = ([], X).
Proof.
  intros [Ht Hl] E Hr. pose proof fb_size_eq. destruct fuel as [|fuel]; [done|].
  destruct X as [|t [|l0 [|l1 [|l2 X]]]]; try done. unfold send_packet in E. cbn [app] in E.
  injection E as -> -> -> -> E. cbn [packets_in]. rewrite packet_len by lia.
  rewrite (proj2 (Z.ltb_lt _ _)); [done|]. rewrite <- E, length_app. destruct rest; [done|cbn; lia].
Qed.

(** What a reader finds in a part [X] of a stream of packets. *)
Lemma packets_in_stream fuel ps X rest : Forall packet_ok ps → X ++ rest = ps ≫= send_packet → (length X ≤ fuel)%nat →
  ∃ ps1 ps2 tail, ps = ps1 ++ ps2 ∧ packets_in fuel X = (ps1, tail) ∧ tail ++ rest = ps2 ≫= send_packet ∧
    match ps2 with [] => tail = [] | p :: _ => (length tail < 4 + length p.2)%nat end.
Proof.
  revert fuel X. induction ps as [|p ps IH]; intros fuel X Hok E Hf.
  - apply app_eq_nil in E as [-> ->]. exists [], [], []. by destruct fuel.
  - apply Forall_cons_1 in Hok as [Hp Hok]. change ((p :: ps) ≫= send_packet) with (send_packet p ++ (ps ≫= send_packet)) in E.
    destruct (decide (length (send_packet p) ≤ length X)%nat) as [Hle|Hlt].
    + assert (X = send_packet p ++ drop (length (send_packet p)) X) as EX.
      { rewrite <- (take_drop (length (send_packet p)) X) at 1. f_equal.
        apply (f_equal (take (length (send_packet p)))) in E. rewrite take_app_le, take_app_length in E by done. done. }
      set (X' := drop _ X) in EX. rewrite EX, <- app_assoc in E. apply app_inv_head in E.
      rewrite EX in Hf. rewrite EX. rewrite packets_in_one by done.
      destruct (IH (fuel - 1)%nat X' Hok E) as (ps1 & ps2 & tail & -> & Ep & El & Hl).
      { rewrite length_app, send_length in Hf. lia. }
      exists (p :: ps1), ps2, tail. by rewrite Ep.
    + assert (X ++ drop (length X) (send_packet p) = send_packet p) as EX.
      { rewrite <- (take_drop (length X) (send_packet p)) at 2. f_equal.
        apply (f_equal (take (length X))) in E. rewrite take_app_length, take_app_le in E by lia. done. }
      exists [], (p :: ps), X. split; [done|]. split.
      { eapply packets_in_part; [done|exact EX|]. intros E0. apply (f_equal length) in E0. rewrite length_drop in E0. cbn [length] in E0. lia. }
      split; [exact E|]. rewrite send_length in Hlt. lia.
Qed.

(** ** The window on a stream of packets *)

Lemma gui_packet_inbuf v g p : gui_packet (set_gu_inbuf v g) p = set_gu_inbuf v (gui_packet g p).
Proof. unfold gui_packet. by repeat case_match. Qed.
Lemma gui_packets_inbuf v g ps : fold_left gui_packet ps (set_gu_inbuf v g) = set_gu_inbuf v (fold_left gui_packet ps g).
Proof. revert g. induction ps as [|p ps IH]; intros g; [done|]. cbn. by rewrite gui_packet_inbuf, IH. Qed.

(** [ps] are still to come: the part of them that has arrived, then [rest]. *)
Definition awaits (g : gui) (ps : list packet) (rest : list Z) : Prop :=
  Forall packet_ok ps ∧ gu_inbuf g ++ rest = ps ≫= send_packet ∧
  match ps with [] => gu_inbuf g = [] | p :: _ => (length (gu_inbuf g) < 4 + length p.2)%nat end.

Lemma awaits_poll g ps data rest : awaits g ps (data ++ rest) →
  ∃ ps1 ps2, ps = ps1 ++ ps2 ∧ awaits (poll_backend data g) ps2 rest ∧
    ∃ tail, poll_backend data g = set_gu_inbuf tail (fold_left gui_packet ps1 g).
Proof.
  intros (Hok & E & _). rewrite app_assoc in E.
  destruct (packets_in_stream (length (gu_inbuf g ++ data)) ps _ _ Hok E) as (ps1 & ps2 & tail & -> & Ep & El & Hl); [done|].
  apply Forall_app in Hok as [_ Hok]. exists ps1, ps2. split; [done|].
  assert (poll_backend data g = set_gu_inbuf tail (fold_left gui_packet ps1 g)) as -> by (unfold poll_backend, take_packets; by rewrite Ep).
  split; [|by eexists]. by split.
Qed.

Lemma delivers_all g ps rest g' : delivers g rest g' → awaits g ps rest →
  g' = set_gu_inbuf [] (fold_left gui_packet ps g).
Proof.
  intros Hd. revert ps. induction Hd as [g|g data rest g' _ Hd IH]; intros ps Ha.
  - destruct Ha as (_ & E & Hl). rewrite app_nil_r in E. destruct ps as [|p ps].
    + cbn. by destruct g; cbn in Hl; subst.
    + exfalso. apply (f_equal length) in E. change ((p :: ps) ≫= send_packet) with (send_packet p ++ (ps ≫= send_packet)) in E.
      rewrite length_app, send_length in E. lia.
  - apply awaits_poll in Ha as (ps1 & ps2 & -> & Ha & tail & Et). rewrite (IH _ Ha), Et, gui_packets_inbuf, fold_left_app. done.
Qed.

(** There is always room for more: every stream of packets gets through. *)
Lemma delivers_some g ps rest : awaits g ps rest → ∃ g', delivers g rest g'.
Proof.
  revert g ps. induction rest as [|b rest IH]; intros g ps Ha; [exists g; constructor|].
  change (b :: rest) with ([b] ++ rest) in *. pose proof Ha as Ha'.
  apply awaits_poll in Ha' as (ps1 & ps2 & -> & Ha' & _). destruct (IH _ _ Ha') as [g' Hg']. exists g'. constructor; [|done].
  destruct Ha as (Hok & E & Hl). destruct (ps1 ++ ps2) as [|p ps]; [by apply app_eq_nil in E as [_ ?]|].
  apply Forall_cons_1 in Hok as [[_ Hp] _]. unfold GUI_INBUF. cbn [length]. lia.
Qed.

(** ** What the emulator sends *)

Lemma one_packet_ok t l : 0 ≤ t < 0x100 → (length l ≤ 2 * fb_size)%nat → Forall packet_ok [(t, l)].
Proof. intros Ht Hl. apply Forall_cons_2; [by split|apply Forall_nil_2]. Qed.

Definition shows_fb (g : gui) (fb : list Z) : Prop := gu_fb g = fb ∧ gu_pixels g = pixels fb.
(** The samples of a round: the last that fit the buffer. *)
Definition round_audio (r : round) : list Z := let l := concat (rd_blocks r) in drop (length l - SND_BUF) l.
Definition round_ok (r : round) : Prop := Forall (λ b, length b ≤ SND_BUF)%nat (rd_blocks r).

Lemma SND_BUF_eq : Z.of_nat SND_BUF = 5920.
Proof. done. Qed.
#[local] Opaque SND_BUF.
Lemma sink_blocks blocks s : Forall (λ b, length b ≤ SND_BUF)%nat blocks → (length (sv_snd s) ≤ SND_BUF)%nat →
  let l := sv_snd s ++ concat blocks in
  fold_left (λ s b, server_snd_sink b s) blocks s = set_sv_snd (drop (length l - SND_BUF) l) s.
Proof.
  revert s. induction blocks as [|b blocks IH]; intros s Hb Hs; cbn [fold_left concat].
  - cbv zeta. rewrite app_nil_r. replace (length (sv_snd s) - SND_BUF)%nat with 0%nat by lia. by destruct s.
  - apply Forall_cons_1 in Hb as [Hb Hbs]. cbv zeta. rewrite IH; [|done|].
    + unfold server_snd_sink. cbn [sv_snd set_sv_snd]. unfold set_sv_snd. cbn. f_equal.
      set (k := (length (sv_snd s) + length b - SND_BUF)%nat). rewrite <- !app_assoc.
      rewrite !length_app, length_drop.
      replace (drop k (sv_snd s) ++ b ++ concat blocks) with (drop k (sv_snd s ++ b ++ concat blocks)) by (rewrite drop_app_le; [done|lia]).
      rewrite drop_drop. f_equal. lia.
    + unfold server_snd_sink. cbn. rewrite length_app, length_drop. lia.
Qed.

Lemma fb_copy_length m : length (fb_copy m) = fb_size.
Proof. unfold fb_copy. rewrite length_fmap. unfold upto. by rewrite length_fmap, length_seq. Qed.

Lemma frame_shows fb g : length fb = fb_size → length (gu_fb g) = fb_size → shows_fb (frame_handler (macgui_rle_encode fb) g) fb.
Proof.
  intros Hl Hg. unfold frame_handler. rewrite <- Hl, rle_roundtrip, drop_ge by lia. rewrite app_nil_r. by split.
Qed.

Lemma frame_sends due m s g : length (gu_fb g) = fb_size →
  let fb := if due : bool then fb_copy m else sv_prevfb s in
  ∃ ps, server_frame due m s = (ps ≫= send_packet, set_sv_prevfb fb s) ∧ Forall packet_ok ps ∧
    let g' := fold_left gui_packet ps g in
    gu_audio g' = gu_audio g ∧ length (gu_fb g') = fb_size ∧
    (shows_fb g (sv_prevfb s) ∨ (due = true ∧ fb_copy m ≠ sv_prevfb s) → shows_fb g' fb).
Proof.
  intros Hg fb. pose proof (fb_copy_length m) as Hm. unfold server_frame.
  destruct due; cbn [andb]; subst fb; [|exists []; split; [by destruct s|]; split; [by apply Forall_nil_2|]; split_and!; [done|done|by intros [?|[? _]]]].
  destruct (bool_decide_reflect (fb_copy m = sv_prevfb s)) as [E|E]; cbn [negb].
  - exists []. split; [rewrite E; destruct s; reflexivity|]. split; [by apply Forall_nil_2|]. split; [reflexivity|split; [exact Hg|]]. rewrite E. intros [H|[_ H]]; [exact H|by destruct H].
  - exists [(MACGUI_PKT_FRAME, macgui_rle_encode (fb_copy m))]. split; [cbn [mbind list_bind]; rewrite app_nil_r; reflexivity|]. split.
    { apply one_packet_ok; [unfold MACGUI_PKT_FRAME; lia|]. rewrite <- Hm. apply rle_from_length. }
    pose proof (frame_shows (fb_copy m) g Hm Hg) as Hs.
    cbn [fold_left]. change (gui_packet g _) with (frame_handler (macgui_rle_encode (fb_copy m)) g).
    split; [reflexivity|]. split; [|intros _; exact Hs]. destruct Hs as [-> _]. exact Hm.
Qed.

Lemma sound_sends s g : (length (sv_snd s) ≤ SND_BUF)%nat →
  ∃ ps, server_sound s = (ps ≫= send_packet, set_sv_snd [] s) ∧ Forall packet_ok ps ∧
    fold_left gui_packet ps g = audio_handler (sv_snd s) g.
Proof.
  intros Hs. unfold server_sound. destruct (sv_snd s) as [|b snd] eqn:E.
  - exists []. split; [f_equal; by destruct s; cbn in E; subst|]. split; [by apply Forall_nil_2|].
    unfold audio_handler. rewrite app_nil_r. by destruct g.
  - exists [(MACGUI_PKT_AUDIO, b :: snd)]. split; [cbn [mbind list_bind]; rewrite app_nil_r; reflexivity|]. split; [|reflexivity].
    apply one_packet_ok; [unfold MACGUI_PKT_AUDIO; lia|]. pose proof SND_BUF_eq. pose proof fb_size_eq. lia.
Qed.

(** A round. *)
Lemma round_sends r s g : round_ok r → sv_snd s = [] → length (gu_fb g) = fb_size →
  let fb := if rd_due r then fb_copy (rd_mem r) else sv_prevfb s in
  ∃ ps, server_round r s = (ps ≫= send_packet, set_sv_prevfb fb s) ∧ Forall packet_ok ps ∧
    let g' := fold_left gui_packet ps g in
    gu_audio g' = gu_audio g ++ round_audio r ∧ length (gu_fb g') = fb_size ∧
    (shows_fb g (sv_prevfb s) ∨ (rd_due r = true ∧ fb_copy (rd_mem r) ≠ sv_prevfb s) → shows_fb g' fb).
Proof.
  intros Hr Hs Hg fb. unfold server_round. rewrite sink_blocks by (done || rewrite Hs; cbn; lia). rewrite Hs. cbn [app].
  fold (round_audio r). set (s1 := set_sv_snd (round_audio r) s).
  assert (length (sv_snd s1) ≤ SND_BUF)%nat as Ha by (cbn; unfold round_audio; rewrite length_drop; lia).
  destruct (frame_sends (rd_due r) (rd_mem r) s1 g Hg) as (ps1 & -> & Hok1 & Ea & El & Hsh).
  destruct (sound_sends (set_sv_prevfb fb s1) (fold_left gui_packet ps1 g) Ha) as (ps2 & E2 & Hok2 & Eg).
  change (sv_prevfb s1) with (sv_prevfb s) in *. fold fb. rewrite E2. exists (ps1 ++ ps2).
  rewrite bind_app. split; [f_equal; unfold s1; destruct s; cbn in Hs; by subst|]. split; [by apply Forall_app_2|].
  cbv zeta. rewrite fold_left_app, Eg. split_and!; [cbn; by rewrite Ea|exact El|exact Hsh].
Qed.

(** The machine at the first and at the last round with a frame due. *)
Fixpoint first_due (rs : list round) : option mac_mem :=
  match rs with [] => None | r :: rs => if rd_due r then Some (rd_mem r) else first_due rs end.
Fixpoint last_due (rs : list round) : option mac_mem :=
  match rs with
  | [] => None
  | r :: rs => match last_due rs with Some m => Some m | None => if rd_due r then Some (rd_mem r) else None end
  end.
Definition sends_frame (rs : list round) (s : server) : Prop := ∃ m, first_due rs = Some m ∧ fb_copy m ≠ sv_prevfb s.

Lemma rounds_send rs s g : Forall round_ok rs → sv_snd s = [] → length (gu_fb g) = fb_size →
  let fb := match last_due rs with Some m => fb_copy m | None => sv_prevfb s end in
  ∃ ps, server_rounds rs s = (ps ≫= send_packet, set_sv_prevfb fb s) ∧ Forall packet_ok ps ∧
    let g' := fold_left gui_packet ps g in
    gu_audio g' = gu_audio g ++ (rs ≫= round_audio) ∧
    (shows_fb g (sv_prevfb s) ∨ sends_frame rs s → shows_fb g' fb).
Proof.
  intros Hok. revert s g. induction rs as [|r rs IH]; intros s g Hs Hg fb.
  - exists []. split; [by destruct s|]. split; [by apply Forall_nil_2|]. cbv zeta. split; [cbn; by rewrite app_nil_r|].
    intros [H|(m & ? & _)]; done.
  - apply Forall_cons_1 in Hok as [Hr Hok]. destruct (round_sends r s g Hr Hs Hg) as (ps1 & E1 & Hok1 & Ea & El & Hsh).
    set (fb1 := if rd_due r then _ else _) in *. set (g1 := fold_left gui_packet ps1 g) in *.
    destruct (IH Hok (set_sv_prevfb fb1 s) g1 Hs El) as (ps2 & E2 & Hok2 & Ea2 & Hsh2).
    exists (ps1 ++ ps2). cbn [server_rounds]. rewrite E1, E2, bind_app. split.
    { f_equal. unfold fb. cbn [last_due]. unfold fb1. destruct (last_due rs), (rd_due r); done. }
    split; [by apply Forall_app_2|]. cbv zeta. rewrite fold_left_app. fold g1. split.
    { rewrite Ea2, Ea, <- app_assoc. done. }
    intros H. assert (fb = match last_due rs with Some m => fb_copy m | None => fb1 end) as ->.
    { unfold fb, fb1. cbn [last_due]. by destruct (last_due rs), (rd_due r). }
    apply Hsh2. destruct H as [H|(m & Em & Hm)].
    + left. apply Hsh. by left.
    + cbn [first_due] in Em. destruct (rd_due r) eqn:Ed.
      * left. apply Hsh. right. injection Em as <-. done.
      * right. exists m. unfold fb1. done.
Qed.

(** ** The screen *)

Lemma concat_rows (rows : list (list Z)) w y x row : Forall (λ r, length r = w) rows → rows !! y = Some row → (x < w)%nat →
  concat rows !! (y * w + x)%nat = row !! x.
Proof.
  revert y. induction rows as [|r rows IH]; intros y Hw Hy Hx; [done|]. apply Forall_cons_1 in Hw as [Hr Hw]. cbn [concat].
  destruct y as [|y]; cbn in Hy.
  - injection Hy as ->. apply lookup_app_l. lia.
  - rewrite lookup_app_r by (rewrite Hr; lia). rewrite Hr. rewrite <- (IH y Hw Hy Hx). f_equal. lia.
Qed.
Lemma lookup_upto n i : (i < n)%nat → upto n !! i = Some (Z.of_nat i).
Proof. intros Hi. unfold upto. rewrite list_lookup_fmap, lookup_seq_lt by done. done. Qed.
Lemma bind_concat {A} (f : A → list Z) l : l ≫= f = concat (f <$> l).
Proof. induction l as [|a l IH]; [done|]. cbn. by rewrite <- IH. Qed.

Lemma pixels_at fb x y : 0 ≤ x < MACGUI_SCREEN_W → 0 ≤ y < MACGUI_SCREEN_H →
  znth (pixels fb) (y * MACGUI_SCREEN_W + x) = pixel fb x y.
Proof.
  unfold MACGUI_SCREEN_W, MACGUI_SCREEN_H. intros Hx Hy. unfold znth, pixels. rewrite bind_concat, nth_lookup.
  change MACGUI_SCREEN_W with 512. change MACGUI_SCREEN_H with 342.
  replace (Z.to_nat (y * 512 + x)) with (Z.to_nat y * 512 + Z.to_nat x)%nat by lia.
  rewrite (concat_rows _ 512 _ _ ((λ x, pixel fb x y) <$> upto 512)); [| |..|lia].
  - rewrite list_lookup_fmap, lookup_upto by lia. cbn. by rewrite Z2Nat.id by lia.
  - apply Forall_fmap, Forall_forall. intros r _. cbn. unfold upto. by rewrite !length_fmap, length_seq.
  - rewrite list_lookup_fmap, lookup_upto by lia. cbn. by rewrite Z2Nat.id by lia.
Qed.

Lemma fb_copy_at m i : 0 ≤ i < MACGUI_FB_BYTES → znth (fb_copy m) i = znth (mem_ram m) (u32 (mem_fb_base m + i) mod mem_ram_size m).
Proof.
  intros Hi. unfold fb_copy. unfold znth at 1. rewrite nth_lookup, list_lookup_fmap, lookup_upto.
  - cbn. by rewrite Z2Nat.id by lia.
  - change MACGUI_FB_BYTES with 21888 in Hi. pose proof fb_size_eq. lia.
Qed.

Lemma pixel_bit fb x y : 0 ≤ x < MACGUI_SCREEN_W → 
  pixel fb x y = if Z.testbit (znth fb (y * 64 + x / 8)) (7 - x mod 8) then 0xFF000000 else 0xFFFFFFFF.
Proof.
  intros Hx. unfold pixel. change (MACGUI_SCREEN_W / 8) with 64. rewrite (Z.shiftr_div_pow2 x 3) by lia.
  rewrite (land_ones_low x 7 3) by done. change (2 ^ 3) with 8.
  replace ((znth fb (y * 64 + x / 8) ≫ (7 - x mod 8)) .& 1) with (b2z (Z.testbit (znth fb (y * 64 + x / 8)) (7 - x mod 8))).
  - by destruct (Z.testbit _ _).
  - rewrite (land_ones_low _ 1 1) by done. change (2 ^ 1) with 2. rewrite Z.testbit_spec', <- Z.shiftr_div_pow2 by lia. done.
Qed.

(** C39. What the window shows is the Macintosh's screen.  Let the emulator run
    any rounds of its server loop, on any machine states, with up to 5920
    samples in a block, the first frame being another than the pattern that the
    server compares it with.  However the bytes it writes are cut into reads,
    they get through, and once they have, no byte is left over, the samples of every round (the last 5920,
    when there were more) have been queued in order, and the pixel at (x,y) is
    black when its bit in the frame buffer in RAM, at the last round with a
    frame due, is set, and white when it is clear. *)
Theorem screen_shown rs m : Forall round_ok rs → sends_frame rs server_init → last_due rs = Some m →
  let out := server_hello ++ (server_rounds rs server_init).1 in
  (∃ g, delivers gui_init out g) ∧
  ∀ g, delivers gui_init out g →
    gu_inbuf g = [] ∧ gu_audio g = rs ≫= round_audio ∧
    ∀ x y, 0 ≤ x < MACGUI_SCREEN_W → 0 ≤ y < MACGUI_SCREEN_H →
      znth (gu_pixels g) (y * MACGUI_SCREEN_W + x) =
        if Z.testbit (znth (mem_ram m) (u32 (mem_fb_base m + (y * 64 + x / 8)) mod mem_ram_size m)) (7 - x mod 8)
        then 0xFF000000 else 0xFFFFFFFF.
Proof.
  intros Hok Hs Hm out. assert (length (gu_fb gui_init) = fb_size) as Hg by apply length_replicate.
  destruct (rounds_send rs server_init gui_init Hok eq_refl Hg) as (ps & E & Hps & Ha & Hsh).
  set (hello := (MACGUI_PKT_HELLO, [u8 MACGUI_SCREEN_W; u8 (MACGUI_SCREEN_W ≫ 8); u8 MACGUI_SCREEN_H; u8 (MACGUI_SCREEN_H ≫ 8)])).
  assert (awaits gui_init (hello :: ps) out) as Haw.
  { split; [|split].
    - apply Forall_cons_2; [|exact Hps]. split; [unfold hello, MACGUI_PKT_HELLO; cbn [fst]; lia|]. pose proof fb_size_eq. change (length hello.2) with 4%nat. lia.
    - unfold out. rewrite E. reflexivity.
    - cbn [gui_init gu_inbuf length]. lia. }
  split; [by eapply delivers_some|]. intros g Hd. rewrite (delivers_all _ _ _ _ Hd Haw). cbn [fold_left].
  change (gui_packet gui_init hello) with gui_init. split; [reflexivity|]. split; [exact Ha|]. intros x y Hx Hy.
  destruct (Hsh (or_intror Hs)) as [_ Epix]. rewrite Hm in Epix.
  change (gu_pixels (set_gu_inbuf _ ?g)) with (gu_pixels g). rewrite Epix, pixels_at, pixel_bit, fb_copy_at; [done| |done..].
  unfold MACGUI_SCREEN_W, MACGUI_SCREEN_H in Hx, Hy. change MACGUI_FB_BYTES with 21888. lia.
Qed.

(** ** Input

    What the window asks for, and what the Macintosh is to do about it. *)
Inductive input := Mouse (x y : Z) (down : bool) | Key (mkc : Z) (down : bool) | Speed (mult : Z).
Definition input_ok (i : input) : Prop :=
  match i with
  | Mouse x y _ => -0x8000 ≤ x < 0x8000 ∧ -0x8000 ≤ y < 0x8000
  | Key mkc _ => 0 ≤ mkc < 0x80
  | Speed mult => 0 ≤ mult < 0x10000
  end.
Definition input_packet (i : input) : packet :=
  match i with
  | Mouse x y down => (MACGUI_PKT_MOUSE, [u8 x; u8 (x ≫ 8); u8 y; u8 (y ≫ 8); b2z down])
  | Key mkc down => (MACGUI_PKT_KEY, [u8 mkc; b2z down])
  | Speed mult => (MACGUI_PKT_SPEED, [u8 mult; u8 (mult ≫ 8)])
  end.
Definition do_input (speed : Z) (i : input) : M mac Z :=
  match i with
  | Mouse x y down => mac_set_mouse x y down ;; mret speed
  | Key mkc down => updm (on_kbd (mac_key_event mkc down)) ;; mret speed
  | Speed mult => mret mult
  end.
Fixpoint do_inputs (speed : Z) (l : list input) : M mac Z :=
  match l with [] => mret speed | i :: l => speed ← do_input speed i; do_inputs speed l end.
(** The rounds of the server that read [ds]. *)
Fixpoint server_reads (ds : list (list Z)) (s : server) : M mac server :=
  match ds with [] => mret s | d :: ds => s ← server_input d s; server_reads ds s end.

Lemma input_small i : packet_ok (input_packet i) ∧ (length (input_packet i).2 ≤ 5)%nat.
Proof.
  pose proof fb_size_eq. unfold input_packet, packet_ok, MACGUI_PKT_MOUSE, MACGUI_PKT_KEY, MACGUI_PKT_SPEED.
  destruct i; cbn [fst snd length]; (split; [split|]); lia.
Qed.
Lemma halves16 v : 0 ≤ v < 0x10000 → u8 v .| (u8 (v ≫ 8) ≪ 8) = v.
Proof.
  intros Hv. rewrite (Z.lor_comm (u8 v)), join16 by apply u8_range. rewrite Z.shiftr_div_pow2 by lia. unfold u8. change (2 ^ 8) with 256. lia.
Qed.
Lemma halves_i16 v : -0x8000 ≤ v < 0x8000 → i16 (u16 (u8 v .| (u8 (v ≫ 8) ≪ 8))) = v.
Proof.
  intros Hv. rewrite (Z.lor_comm (u8 v)), join16 by apply u8_range. rewrite Z.shiftr_div_pow2 by lia.
  unfold i16, u16, u8. change (2 ^ 8) with 256. cbv zeta. destruct (Z.ltb_spec ((v / 256) mod 256 * 256 + v mod 256) 0x8000); repeat case_match; lia.
Qed.

(** The server understands every packet of the window. *)
Lemma apply_input speed i m : input_ok i → server_apply_packet speed (input_packet i) m = do_input speed i m.
Proof.
  intros Hi. unfold server_apply_packet. destruct i as [x y down|mkc down|mult]; cbn [input_packet fst snd length do_input].
  - set (l := [u8 x; u8 (x ≫ 8); u8 y; u8 (y ≫ 8); b2z down]). destruct Hi as [Hx Hy].
    change ((MACGUI_PKT_MOUSE =? MACGUI_PKT_MOUSE) && (5 <=? Z.of_nat 5)) with true. cbv iota.
    change (znth l 0) with (u8 x). change (znth l 1) with (u8 (x ≫ 8)). change (znth l 2) with (u8 y).
    change (znth l 3) with (u8 (y ≫ 8)). change (znth l 4) with (b2z down). rewrite !halves_i16 by done. by destruct down.
  - change (znth [u8 mkc; b2z down] 0) with (u8 mkc). change (znth [u8 mkc; b2z down] 1) with (b2z down). cbn in Hi.
    rewrite u8_small by lia. by destruct down.
  - change (znth [u8 mult; u8 (mult ≫ 8)] 0) with (u8 mult). change (znth [u8 mult; u8 (mult ≫ 8)] 1) with (u8 (mult ≫ 8)). cbn in Hi.
    rewrite halves16 by done. rewrite u32_small by lia. done.
Qed.
Lemma apply_inputs speed l m : Forall input_ok l → server_apply speed (input_packet <$> l) m = do_inputs speed l m.
Proof.
  intros Hl. revert speed m. induction Hl as [|i l Hi Hl IH]; intros speed m; [done|]. cbn. unfold mbind, M_bind.
  rewrite apply_input by done. destruct (do_input speed i m) as [[v m']|]; [apply IH|done].
Qed.
Lemma server_apply_app ps1 ps2 speed m : server_apply speed (ps1 ++ ps2) m = (v ← server_apply speed ps1; server_apply v ps2) m.
Proof.
  revert speed m. induction ps1 as [|p ps IH]; intros speed m; [done|]. cbn. unfold mbind, M_bind in *.
  destruct (server_apply_packet speed p m) as [[v m']|]; [apply IH|done].
Qed.
Lemma server_apply_range ps speed m v m' : server_apply speed ps m = Some (v, m') → 0 ≤ speed < 0x100000000 → 0 ≤ v < 0x100000000.
Proof.
  revert speed m. induction ps as [|p ps IH]; intros speed m E Hs; [by injection E as <- <-|]. cbn in E. unfold mbind, M_bind in E.
  destruct (server_apply_packet speed p m) as [[w m1]|] eqn:Ep; [|done]. eapply IH; [exact E|]. unfold server_apply_packet in Ep.
  repeat case_match; unfold mbind, M_bind, mret, M_ret, updm, modify in Ep; repeat case_match; simplify_eq; try apply u32_range; exact Hs.
Qed.

(** The server's buffer, while the packets [ps] are still to come. *)
Definition sv_awaits (s : server) (ps : list packet) (rest : list Z) : Prop :=
  Forall packet_ok ps ∧ sv_inbuf s ++ rest = ps ≫= send_packet ∧
  match ps with [] => sv_inbuf s = [] | p :: _ => (length (sv_inbuf s) < 4 + length p.2)%nat end.
Lemma sv_awaits_read s ps data rest : sv_awaits s ps (data ++ rest) →
  ∃ ps1 ps2 tail, ps = ps1 ++ ps2 ∧ take_packets (sv_inbuf s ++ data) = (ps1, tail) ∧
    ∀ v, sv_awaits (set_sv_speed_mult v (set_sv_inbuf tail s)) ps2 rest.
Proof.
  intros (Hok & E & _). rewrite app_assoc in E.
  destruct (packets_in_stream (length (sv_inbuf s ++ data)) ps _ _ Hok E) as (ps1 & ps2 & tail & -> & Ep & El & Hl); [done|].
  apply Forall_app in Hok as [_ Hok]. by exists ps1, ps2, tail.
Qed.
Lemma sv_reads ds s ps rest m : sv_awaits s ps (concat ds ++ rest) → 0 ≤ sv_speed_mult s < 0x100000000 →
  ∃ ps1 ps2 tail, ps = ps1 ++ ps2 ∧ (∀ v, sv_awaits (set_sv_speed_mult v (set_sv_inbuf tail s)) ps2 rest) ∧
    server_reads ds s m = (v ← server_apply (sv_speed_mult s) ps1; mret (set_sv_speed_mult v (set_sv_inbuf tail s))) m.
Proof.
  revert s ps m. induction ds as [|d ds IH]; intros s ps m Ha Hs.
  - exists [], ps, (sv_inbuf s). destruct s as [i p n v]. split; [done|]. split; [by intros w|]. cbn in *. unfold mbind, M_bind, mret, M_ret.
    unfold set_sv_speed_mult, set_sv_inbuf. cbn. by rewrite u32_small.
  - cbn [concat] in Ha. rewrite <- app_assoc in Ha. apply sv_awaits_read in Ha as (ps1 & ps2 & tail & -> & Et & Ha).
    cbn [server_reads]. unfold server_input. rewrite Et. unfold mbind, M_bind.
    destruct (server_apply (sv_speed_mult s) ps1 m) as [[v m1]|] eqn:E1.
    + unfold mret at 1, M_ret at 1. pose proof (server_apply_range _ _ _ _ _ E1 Hs) as Hv.
      destruct (IH _ ps2 m1 (Ha v)) as (ps3 & ps4 & tail' & -> & Ha' & E); [cbn; rewrite u32_small by done; done|].
      exists (ps1 ++ ps3), ps4, tail'. split; [by rewrite app_assoc|]. split; [exact Ha'|]. rewrite E, server_apply_app. unfold mbind, M_bind. rewrite E1.
      cbn [sv_speed_mult set_sv_speed_mult set_sv_inbuf]. rewrite u32_small by done. reflexivity.
    + edestruct (IH (set_sv_speed_mult 0 (set_sv_inbuf tail s)) ps2 m (Ha 0)) as (ps3 & ps4 & tail' & -> & Ha' & E); [cbn; done|].
      exists (ps1 ++ ps3), ps4, tail'. split; [by rewrite app_assoc|]. split; [exact Ha'|].
      rewrite server_apply_app. unfold mbind, M_bind. by rewrite E1.
Qed.

(** Input arrives in order, however the bytes are cut into reads; the
    server's buffer always has room for more. *)
Lemma input_arrives l ds s m : Forall input_ok l → sv_inbuf s = [] → 0 ≤ sv_speed_mult s < 0x100000000 →
  concat ds = l ≫= (λ i, send_packet (input_packet i)) →
  server_reads ds s m = (v ← do_inputs (sv_speed_mult s) l; mret (set_sv_speed_mult v s)) m ∧
  ∀ ds1 ds2 s' m', ds = ds1 ++ ds2 → server_reads ds1 s m = Some (s', m') → (length (sv_inbuf s') + 504 ≤ SERVER_INBUF)%nat.
Proof.
  intros Hl Hs Hv E. assert (concat ds = (input_packet <$> l) ≫= send_packet) as E'.
  { rewrite E. clear. induction l as [|i l IH]; [done|]. change ((i :: l) ≫= λ i, send_packet (input_packet i)) with (send_packet (input_packet i) ++ (l ≫= λ i, send_packet (input_packet i))). by rewrite IH. }
  assert (Forall packet_ok (input_packet <$> l)) as Hok by (apply Forall_fmap, Forall_forall; intros i _; apply input_small).
  assert (∀ rest, concat ds = rest → sv_awaits s (input_packet <$> l) rest) as Ha.
  { intros rest <-. split; [done|]. split; [rewrite Hs; exact E'|].
    rewrite Hs. destruct (input_packet <$> l); [done|cbn; lia]. }
  split.
  - destruct (sv_reads ds s (input_packet <$> l) [] m) as (ps1 & ps2 & tail & Eps & Ha' & ->); [apply Ha; by rewrite app_nil_r|done|].
    destruct (Ha' 0) as (_ & Et & Hlen). cbn in Et, Hlen. rewrite app_nil_r in Et. destruct ps2 as [|p ps2].
    + rewrite app_nil_r in Eps. subst ps1 tail. unfold mbind, M_bind. rewrite apply_inputs by done.
      destruct (do_inputs _ l m) as [[v m']|]; [|done]. unfold mret, M_ret. do 2 f_equal. by destruct s; cbn in *; subst.
    + exfalso. apply (f_equal length) in Et. change ((p :: ps2) ≫= send_packet) with (send_packet p ++ (ps2 ≫= send_packet)) in Et.
      rewrite length_app, send_length in Et. lia.
  - intros ds1 ds2 s' m' -> Er. destruct (sv_reads ds1 s (input_packet <$> l) (concat ds2) m) as (ps1 & ps2 & tail & Eps & Ha' & E2);
      [apply Ha; apply concat_app|done|]. rewrite E2 in Er. unfold mbind, M_bind in Er.
    destruct (server_apply _ ps1 m) as [[v m1]|]; [|done]. injection Er as <- <-. destruct (Ha' v) as (_ & _ & Hlen). cbn in Hlen |- *.
    unfold SERVER_INBUF. destruct ps2 as [|p ps2]; [subst; cbn; lia|].
    assert (p ∈ input_packet <$> l) as Hp by (rewrite Eps; apply elem_of_app; right; left).
    apply list_elem_of_fmap in Hp as (i & -> & _). pose proof (proj2 (input_small i)). lia.
Qed.

(** *** What the window sends *)

Definition event_ok (e : event) : Prop :=
  match e with
  | SDL_MOUSEMOTION x y => -0x8000 ≤ x < 0x8000 ∧ -0x8000 ≤ y < 0x8000
  | SDL_MOUSEBUTTON _ x y key => -0x8000 ≤ x < 0x8000 ∧ -0x8000 ≤ y < 0x8000 ∧ match key with Some i => (i < length osk_keys)%nat | None => True end
  | _ => True
  end.
Definition window_ok (w : window) : Prop :=
  1 ≤ wi_mac_scale w ≤ 3 ∧ 1 ≤ wi_pending_scale w ≤ 3 ∧ -1 ≤ wi_osk_key w < Z.of_nat (length osk_keys) ∧ 0 ≤ wi_speed_idx w < N_SPEEDS.

Lemma sdl_to_mkc_range s : -1 ≤ sdl_to_mkc s < 0x80.
Proof. by destruct s. Qed.
Lemma osk_keys_range : Forall (λ k, 0 ≤ k < 0x80) osk_keys.
Proof. apply (bool_decide_unpack _). vm_compute. exact I. Qed.
Lemma SPEEDS_range : Forall (λ k, 0 ≤ k < 0x10000) SPEEDS.
Proof. apply (bool_decide_unpack _). vm_compute. exact I. Qed.
Lemma mouse_ok x y w : 1 ≤ wi_mac_scale w ≤ 3 → -0x8000 ≤ x < 0x8000 → MENU_BAR_PX ≤ y < 0x8000 →
  ∃ i, input_ok i ∧ send_mouse x y w = send_packet (input_packet i).
Proof.
  intros Hs Hx Hy. unfold MENU_BAR_PX in Hy. eexists (Mouse _ _ _). split; [|reflexivity]. unfold MENU_BAR_PX. cbn. assert (∀ v, -0x8000 ≤ v < 0x8000 → -0x8000 ≤ Z.quot v (wi_mac_scale w) < 0x8000) as Hq.
  { intros v Hv. assert (wi_mac_scale w = 1 ∨ wi_mac_scale w = 2 ∨ wi_mac_scale w = 3) as [->|[->| ->]] by lia; lia. }
  split; apply Hq; lia.
Qed.

(** Each event makes one input at most, and keeps the window well formed. *)
Lemma window_event_ok e w : window_ok w → event_ok e →
  window_ok (window_event e w).2 ∧
  ((window_event e w).1 = [] ∨ ∃ i, input_ok i ∧ (window_event e w).1 = send_packet (input_packet i)).
Proof.
  intros Hw He. pose proof Hw as (Hs & Hp & Ho & Hv). destruct e as [|x y|down x y key|s down rep]; cbn [window_event].
  - split; [done|by left].
  - destruct He as [Hx Hy]. case_match eqn:Hc; [|split; [done|by left]]. split; [done|]. right. apply mouse_ok; [lia..].
  - destruct He as (Hx & Hy & Hk). unfold mouse_button. destruct (Z.ltb_spec y MENU_BAR_PX) as [H1|H1].
    { destruct down; [|split; [done|by left]]. destruct (list_find _ _) as [[i r]|]; [|split; [done|by left]].
      assert (∀ k, 1 ≤ k ≤ 3 → window_ok (set_wi_pending_scale k w)) as Hk' by (intros k Hk'; exact (conj Hs (conj Hk' (conj Ho Hv)))).
      destruct (menu !! i) as [[]|]; cbn [menu_press];
        [split; [apply Hk'; lia|by left] .. | |split; [exact Hw|by left]|split; [exact Hw|by left]].
      assert (0 ≤ Z.rem (wi_speed_idx w + 1) N_SPEEDS < N_SPEEDS) as Hr by (change N_SPEEDS with 5 in *; lia).
      split; [exact (conj Hs (conj Hp (conj Ho Hr)))|]. right. exists (Speed (znth SPEEDS (Z.rem (wi_speed_idx w + 1) N_SPEEDS))). split; [|reflexivity].
      apply znth_Forall; [done|apply SPEEDS_range]. }
    destruct (Z.ltb_spec y (MENU_BAR_PX + wi_sh w)) as [H2|H2].
    { split; [exact Hw|]. right. apply mouse_ok; [cbn; lia..]. }
    destruct down.
    + destruct key as [i|]; [|split; [done|by left]].
      assert (-1 ≤ Z.of_nat i < Z.of_nat (length osk_keys)) as Ho' by lia. split; [exact (conj Hs (conj Hp (conj Ho' Hv)))|]. right. exists (Key (nth i osk_keys 0) true).
      split; [|reflexivity]. pose proof osk_keys_range as Hr. rewrite Forall_forall in Hr. apply Hr, nth_In. done.
    + destruct (Z.leb_spec 0 (wi_osk_key w)) as [H3|H3]; [|split; [done|by left]]. assert (-1 ≤ -1 < Z.of_nat (length osk_keys)) as Ho' by lia.
      split; [exact (conj Hs (conj Hp (conj Ho' Hv)))|]. right. exists (Key (znth osk_keys (wi_osk_key w)) false). split; [|reflexivity]. apply znth_Forall; [done|apply osk_keys_range].
  - split; [done|]. destruct rep; [by left|]. unfold gui_key_event. cbv zeta. destruct (Z.leb_spec 0 (sdl_to_mkc s)) as [H1|H1]; [|by left]. right.
    exists (Key (sdl_to_mkc s) down). split; [|reflexivity]. pose proof (sdl_to_mkc_range s). cbn. lia.
Qed.
Lemma window_events_ok es w : window_ok w → Forall event_ok es →
  window_ok (window_events es w).2 ∧
  ∃ l, Forall input_ok l ∧ (window_events es w).1 = l ≫= (λ i, send_packet (input_packet i)).
Proof.
  intros Hw He. revert w Hw. induction He as [|e es He Hes IH]; intros w Hw; [split; [done|by exists []]|].
  cbn [window_events]. destruct (window_event_ok e w Hw He) as [Hw1 H1]. destruct (window_event e w) as [o1 w1]. cbn [fst snd] in *.
  destruct (IH w1 Hw1) as [Hw2 (l & Hl & El)]. destruct (window_events es w1) as [o2 w2]. cbn [fst snd] in *. split; [done|].
  destruct H1 as [->|(i & Hi & ->)]; [by exists l|]. exists (i :: l). rewrite El. by split; [apply Forall_cons_2|].
Qed.

(** A button pressed on the screen and released on the menu bar stays down. *)
Lemma release_lost x y w : y < MENU_BAR_PX → mouse_button false x y None w = ([], w).
Proof. intros Hy. unfold mouse_button. by rewrite (proj2 (Z.ltb_lt _ _)). Qed.

(** Both ends write the same picture of a frame. *)
Lemma bmp_rows_ext W H row f g : (∀ x y, 0 ≤ x < W → 0 ≤ y < H → f x y = g x y) → bmp_rows W H row f = bmp_rows W H row g.
Proof.
  intros E. unfold bmp_rows. rewrite !bind_concat. f_equal. apply list_fmap_ext. intros i y Hy. f_equal.
  apply list_fmap_ext. intros k x Hx. assert (∀ n z, z ∈ upto n → 0 ≤ z < Z.of_nat n) as Hup.
  { intros n z Hz. unfold upto in Hz. apply list_elem_of_fmap in Hz as (p & -> & Hp). apply elem_of_seq in Hp. lia. }
  apply list_elem_of_lookup_2 in Hx, Hy. rewrite elem_of_reverse in Hy. apply Hup in Hx, Hy. rewrite E by lia. done.
Qed.
Lemma bmp_same_picture m : drop 54 (write_screen_bmp m) = drop 54 (dump_fb_bmp (fb_copy m)).
Proof.
  assert (∀ W H isz b t, drop 54 (bmp_header W H isz b ++ t) = t) as Hd by reflexivity.
  unfold write_screen_bmp, dump_fb_bmp. rewrite !Hd. apply (f_equal (app bmp_palette)). apply bmp_rows_ext. unfold MACGUI_SCREEN_W, MACGUI_SCREEN_H. intros x y Hx Hy.
  rewrite (Z.shiftr_div_pow2 x 3) by lia. change (512 / 8) with 64. change (2 ^ 3) with 8.
  rewrite fb_copy_at by (change MACGUI_FB_BYTES with 21888; lia). do 4 f_equal. unfold u32. lia.
Qed.

Lemma screen_shown_witness : let rs := [mk_round [[0x80; 0x90]] true (bus mac_example); mk_round [] false (bus mac_example)] in
  let out := server_hello ++ (server_rounds rs server_init).1 in
  (∃ g, delivers gui_init out g) ∧
  ∀ g, delivers gui_init out g → gu_inbuf g = [] ∧ gu_audio g = [0x80; 0x90] ∧
    ∀ x y, 0 ≤ x < MACGUI_SCREEN_W → 0 ≤ y < MACGUI_SCREEN_H →
      znth (gu_pixels g) (y * MACGUI_SCREEN_W + x) =
        if Z.testbit (znth (mem_ram (bus mac_example)) (u32 (mem_fb_base (bus mac_example) + (y * 64 + x / 8))
             mod mem_ram_size (bus mac_example))) (7 - x mod 8)
        then 0xFF000000 else 0xFFFFFFFF.
Proof.
  intros rs. apply (screen_shown rs (bus mac_example)).
  - apply Forall_cons_2; [|apply Forall_cons_2; [apply Forall_nil_2|apply Forall_nil_2]].
    apply Forall_cons_2; [pose proof SND_BUF_eq; cbn [length]; lia|apply Forall_nil_2].
  - exists (bus mac_example). split; [reflexivity|]. intros E. apply (f_equal (λ l, nth 0 l 0)) in E. vm_compute in E. discriminate.
  - reflexivity.
Defined.
