(* ===== verification/Asm.v ===== *)
(** * The assembler and the demo program

    The assembler in a header ([core/m68k_asm.h]), whose branches to labels are
    filled in at the end, and the program built with it
    ([core/demo_rom.c]).  What it assembles is what a two-pass assembler
    would, which knows the labels' addresses before it writes a byte. *)

From Stdlib Require Import ZArith Lia.
From stdpp Require Import base tactics list numbers.
From S2P Require Import Prelude.

#[local] Ltac Zify.zify_post_hook ::= Z.to_euclidean_division_equations.

(** ** The assembler *)

Definition M68A_MAX_LABELS : Z := 64.
Definition M68A_MAX_FIXUPS : Z := 256.

Record fixup := mk_fixup { fx_site : Z; fx_label : Z; fx_size : Z }.
Record m68a := mk_m68a {
  a_buf : list Z; a_cap : Z; a_len : Z; a_org : Z;
  a_label_pc : list (option Z);  (** [None] before the first store *)
  a_n_labels : Z;
  a_fixup : list fixup           (** the first [n_fixups] *)
}.
Definition set_a_buf (v : list Z) (a : m68a) : m68a :=
  mk_m68a v (a_cap a) (a_len a) (a_org a) (a_label_pc a) (a_n_labels a) (a_fixup a).
Definition set_a_len (v : Z) (a : m68a) : m68a :=
  mk_m68a (a_buf a) (a_cap a) (u32 v) (a_org a) (a_label_pc a) (a_n_labels a) (a_fixup a).
Definition set_a_label_pc (v : list (option Z)) (a : m68a) : m68a :=
  mk_m68a (a_buf a) (a_cap a) (a_len a) (a_org a) v (a_n_labels a) (a_fixup a).
Definition set_a_n_labels (v : Z) (a : m68a) : m68a :=
  mk_m68a (a_buf a) (a_cap a) (a_len a) (a_org a) (a_label_pc a) v (a_fixup a).
Definition set_a_fixup (v : list fixup) (a : m68a) : m68a :=
  mk_m68a (a_buf a) (a_cap a) (a_len a) (a_org a) (a_label_pc a) (a_n_labels a) v.
Definition a_n_fixups (a : m68a) : Z := Z.of_nat (length (a_fixup a)).

Definition m68a_init (buf : list Z) (cap org : Z) : m68a :=
  mk_m68a buf cap 0 org (replicate (Z.to_nat M68A_MAX_LABELS) None) 0 [].
Definition m68a_here (a : m68a) : Z := u32 (a_org a + a_len a).

(** A store past the buffer is undefined. *)
Definition store8 (off v : Z) : M m68a unit := λ a,
  if (0 <=? off) && (off <? Z.of_nat (length (a_buf a))) then Some (tt, set_a_buf (zset (a_buf a) off (u8 v)) a) else None.
Definition put8 (v : Z) : M m68a unit :=
  len ← gets a_len; store8 len v ;; modify (λ a, set_a_len (a_len a + 1) a).
Definition m68a_w16 (w : Z) : M m68a unit :=
  let w := u16 w in
  over ← gets (λ a, a_cap a <? u32 (a_len a + 2));
  if (over : bool) then mret tt else put8 (w ≫ 8) ;; put8 (w .& 0xFF).
Definition m68a_w32 (v : Z) : M m68a unit := m68a_w16 (v ≫ 16) ;; m68a_w16 (v .& 0xFFFF).

(** A label outside the table is undefined. *)
Definition set_label (id v : Z) : M m68a unit :=
  if (0 <=? id) && (id <? M68A_MAX_LABELS) then modify (λ a, set_a_label_pc (<[Z.to_nat id := Some v]> (a_label_pc a)) a)
  else undefined_behaviour.
Definition m68a_label : M m68a Z :=
  id ← gets a_n_labels;
  modify (λ a, set_a_n_labels (id + 1) a) ;; set_label id 0xFFFFFFFF ;; mret id.
Definition m68a_mark (id : Z) : M m68a unit := here ← gets m68a_here; set_label id here.
(** The fields of a fixup at the end of the code so far, while there is room. *)
Definition add_fixup (label size : Z) : M m68a unit :=
  modify (λ a, if a_n_fixups a <? M68A_MAX_FIXUPS then set_a_fixup (a_fixup a ++ [mk_fixup (a_len a) label size]) a else a).
Fixpoint put_string (s : list Z) : M m68a unit :=
  match s with
  | [] => mret tt
  | c :: s =>
      room ← gets (λ a, a_len a <? a_cap a);
      if (room : bool) then put8 c ;; put_string s else mret tt
  end.
(** A string without its terminator. *)
Definition m68a_string (s : list Z) : M m68a unit :=
  put_string s ;; put_string [0] ;;
  odd ← gets (λ a, nz (a_len a .& 1));
  if (odd : bool) then put_string [0] else mret tt.

Definition m68a_moveq (dn imm : Z) : M m68a unit := m68a_w16 (0x7000 .| (dn ≪ 9) .| (imm .& 0xFF)).
Definition m68a_move_l_imm (dn imm : Z) : M m68a unit := m68a_w16 (0x2000 .| (dn ≪ 9) .| 0x3C) ;; m68a_w32 imm.
Definition m68a_move_w_imm (dn imm : Z) : M m68a unit := m68a_w16 (0x3000 .| (dn ≪ 9) .| 0x3C) ;; m68a_w16 imm.
Definition m68a_lea_abs (an addr : Z) : M m68a unit := m68a_w16 (0x41C0 .| (an ≪ 9) .| 0x39) ;; m68a_w32 addr.
Definition m68a_movea_l_imm (an imm : Z) : M m68a unit := m68a_w16 (0x2040 .| (an ≪ 9) .| 0x3C) ;; m68a_w32 imm.
Definition m68a_add_l (dn dm : Z) : M m68a unit := m68a_w16 (0xD080 .| (dn ≪ 9) .| dm).
Definition m68a_and_l (dn dm : Z) : M m68a unit := m68a_w16 (0xC080 .| (dn ≪ 9) .| dm).
Definition m68a_eor_l (dn dm : Z) : M m68a unit := m68a_w16 (0xB180 .| (dn ≪ 9) .| dm).
Definition m68a_addq_l (imm dn : Z) : M m68a unit := m68a_w16 (0x5080 .| ((imm .& 7) ≪ 9) .| dn).
Definition m68a_subq_l (imm dn : Z) : M m68a unit := m68a_w16 (0x5180 .| ((imm .& 7) ≪ 9) .| dn).
Definition m68a_addq_w_an (imm an : Z) : M m68a unit := m68a_w16 (0x5048 .| ((imm .& 7) ≪ 9) .| an).
Definition m68a_cmp_l (dn dm : Z) : M m68a unit := m68a_w16 (0xB080 .| (dn ≪ 9) .| dm).
Definition m68a_tst_l (dn : Z) : M m68a unit := m68a_w16 (0x4A80 .| dn).
Definition m68a_asl_l (cnt dn : Z) : M m68a unit := m68a_w16 (0xE180 .| ((cnt .& 7) ≪ 9) .| dn).
Definition m68a_lsr_l (cnt dn : Z) : M m68a unit := m68a_w16 (0xE088 .| ((cnt .& 7) ≪ 9) .| dn).
Definition m68a_move_b_to_an (an dn : Z) : M m68a unit := m68a_w16 (0x1080 .| (an ≪ 9) .| dn).
Definition m68a_move_b_postinc (dn an : Z) : M m68a unit := m68a_w16 (0x1018 .| (dn ≪ 9) .| an).
Definition m68a_move_l_to_an (an dn : Z) : M m68a unit := m68a_w16 (0x2080 .| (an ≪ 9) .| dn).
Definition m68a_move_l_from_an (dn an : Z) : M m68a unit := m68a_w16 (0x2010 .| (dn ≪ 9) .| an).
Definition m68a_move_l_reg (dn dm : Z) : M m68a unit := m68a_w16 (0x2000 .| (dn ≪ 9) .| dm).
Definition m68a_nop : M m68a unit := m68a_w16 (0x4E71).
Definition m68a_rts : M m68a unit := m68a_w16 (0x4E75).
Definition m68a_stop (sr : Z) : M m68a unit := m68a_w16 (0x4E72) ;; m68a_w16 sr.
Definition m68a_lea_label (an label : Z) : M m68a unit := m68a_w16 (0x41C0 .| (an ≪ 9) .| 0x39) ;; add_fixup label 32 ;; m68a_w32 0.
Definition m68a_branch (cc label : Z) : M m68a unit := m68a_w16 (0x6000 .| (cc ≪ 8)) ;; add_fixup label 16 ;; m68a_w16 0.
Definition m68a_bsr (label : Z) : M m68a unit := m68a_w16 (0x6100) ;; add_fixup label 16 ;; m68a_w16 0.
Definition m68a_dbra (dn label : Z) : M m68a unit := m68a_w16 (0x51C8 .| dn) ;; add_fixup label 16 ;; m68a_w16 0.
Definition m68a_bra (l : Z) : M m68a unit := m68a_branch 0 l.
Definition m68a_bne (l : Z) : M m68a unit := m68a_branch 6 l.
Definition m68a_beq (l : Z) : M m68a unit := m68a_branch 7 l.
Definition m68a_bcs (l : Z) : M m68a unit := m68a_branch 5 l.
Definition m68a_bge (l : Z) : M m68a unit := m68a_branch 12 l.

(** Fills a field in.  A label that was never stored is undefined, and so is a
    distance outside the signed range. *)
Definition apply_fixup (f : fixup) : M m68a unit :=
  labels ← gets a_label_pc;
  org ← gets a_org;
  let site := fx_site f in
  if fx_label f <? 0 then undefined_behaviour
  else
    match mjoin (labels !! Z.to_nat (fx_label f)) with
    | None => undefined_behaviour
    | Some target =>
        if fx_size f =? 32 then
          store8 site (target ≫ 24) ;; store8 (site + 1) (target ≫ 16) ;; store8 (site + 2) (target ≫ 8) ;;
          store8 (site + 3) (target .& 0xFF)
        else
          let disp := i32 target - i32 (u32 (org + site)) in
          if (-0x80000000 <=? disp) && (disp <? 0x80000000) then
            store8 site (u32 disp ≫ 8) ;; store8 (site + 1) (u32 disp .& 0xFF)
          else undefined_behaviour
    end.
Fixpoint apply_fixups (fs : list fixup) : M m68a unit :=
  match fs with [] => mret tt | f :: fs => apply_fixup f ;; apply_fixups fs end.
Definition m68a_finish : M m68a unit := fs ← gets a_fixup; apply_fixups fs.

(** ** Programs

    The calls that a program is built with, each with what it stands for. *)
Inductive call :=
  | C_moveq (dn imm : Z)
  | C_move_l_imm (dn imm : Z)
  | C_move_w_imm (dn imm : Z)
  | C_lea_abs (an addr : Z)
  | C_movea_l_imm (an imm : Z)
  | C_add_l (dn dm : Z)
  | C_and_l (dn dm : Z)
  | C_eor_l (dn dm : Z)
  | C_addq_l (imm dn : Z)
  | C_subq_l (imm dn : Z)
  | C_addq_w_an (imm an : Z)
  | C_cmp_l (dn dm : Z)
  | C_tst_l (dn : Z)
  | C_asl_l (cnt dn : Z)
  | C_lsr_l (cnt dn : Z)
  | C_move_b_to_an (an dn : Z)
  | C_move_b_postinc (dn an : Z)
  | C_move_l_to_an (an dn : Z)
  | C_move_l_from_an (dn an : Z)
  | C_move_l_reg (dn dm : Z)
  | C_nop
  | C_rts
  | C_stop (sr : Z)
  | C_lea_label (an label : Z)
  | C_branch (cc label : Z)
  | C_bsr (label : Z)
  | C_dbra (dn label : Z)
  | C_string (s : list Z)
  | C_mark (l : Z)
  | C_w16 (w : Z)
  | C_w32 (v : Z).
Definition emit_call (c : call) : M m68a unit :=
  match c with
  | C_moveq dn imm => m68a_moveq dn imm
  | C_move_l_imm dn imm => m68a_move_l_imm dn imm
  | C_move_w_imm dn imm => m68a_move_w_imm dn imm
  | C_lea_abs an addr => m68a_lea_abs an addr
  | C_movea_l_imm an imm => m68a_movea_l_imm an imm
  | C_add_l dn dm => m68a_add_l dn dm
  | C_and_l dn dm => m68a_and_l dn dm
  | C_eor_l dn dm => m68a_eor_l dn dm
  | C_addq_l imm dn => m68a_addq_l imm dn
  | C_subq_l imm dn => m68a_subq_l imm dn
  | C_addq_w_an imm an => m68a_addq_w_an imm an
  | C_cmp_l dn dm => m68a_cmp_l dn dm
  | C_tst_l dn => m68a_tst_l dn
  | C_asl_l cnt dn => m68a_asl_l cnt dn
  | C_lsr_l cnt dn => m68a_lsr_l cnt dn
  | C_move_b_to_an an dn => m68a_move_b_to_an an dn
  | C_move_b_postinc dn an => m68a_move_b_postinc dn an
  | C_move_l_to_an an dn => m68a_move_l_to_an an dn
  | C_move_l_from_an dn an => m68a_move_l_from_an dn an
  | C_move_l_reg dn dm => m68a_move_l_reg dn dm
  | C_nop => m68a_nop
  | C_rts => m68a_rts
  | C_stop sr => m68a_stop sr
  | C_lea_label an label => m68a_lea_label an label
  | C_branch cc label => m68a_branch cc label
  | C_bsr label => m68a_bsr label
  | C_dbra dn label => m68a_dbra dn label
  | C_string s => m68a_string s
  | C_mark l => m68a_mark l
  | C_w16 w => m68a_w16 w
  | C_w32 v => m68a_w32 v
  end.
Fixpoint emit_calls (p : list call) : M m68a unit :=
  match p with [] => mret tt | c :: p => emit_call c ;; emit_calls p end.
Fixpoint new_labels (n : nat) : M m68a unit :=
  match n with O => mret tt | S n => m68a_label ;; new_labels n end.
Definition assemble (labels : nat) (p : list call) : M m68a unit := new_labels labels ;; emit_calls p ;; m68a_finish.

(** ** The reference: two passes *)

Inductive item := W16 (w : Z) | W32 (v : Z) | Fix16 (label : Z) | Fix32 (label : Z) | Str (s : list Z) | Mark (label : Z).
Definition call_items (c : call) : list item :=
  match c with
  | C_moveq dn imm => [W16 (0x7000 .| (dn ≪ 9) .| (imm .& 0xFF))]
  | C_move_l_imm dn imm => [W16 (0x2000 .| (dn ≪ 9) .| 0x3C); W32 imm]
  | C_move_w_imm dn imm => [W16 (0x3000 .| (dn ≪ 9) .| 0x3C); W16 imm]
  | C_lea_abs an addr => [W16 (0x41C0 .| (an ≪ 9) .| 0x39); W32 addr]
  | C_movea_l_imm an imm => [W16 (0x2040 .| (an ≪ 9) .| 0x3C); W32 imm]
  | C_add_l dn dm => [W16 (0xD080 .| (dn ≪ 9) .| dm)]
  | C_and_l dn dm => [W16 (0xC080 .| (dn ≪ 9) .| dm)]
  | C_eor_l dn dm => [W16 (0xB180 .| (dn ≪ 9) .| dm)]
  | C_addq_l imm dn => [W16 (0x5080 .| ((imm .& 7) ≪ 9) .| dn)]
  | C_subq_l imm dn => [W16 (0x5180 .| ((imm .& 7) ≪ 9) .| dn)]
  | C_addq_w_an imm an => [W16 (0x5048 .| ((imm .& 7) ≪ 9) .| an)]
  | C_cmp_l dn dm => [W16 (0xB080 .| (dn ≪ 9) .| dm)]
  | C_tst_l dn => [W16 (0x4A80 .| dn)]
  | C_asl_l cnt dn => [W16 (0xE180 .| ((cnt .& 7) ≪ 9) .| dn)]
  | C_lsr_l cnt dn => [W16 (0xE088 .| ((cnt .& 7) ≪ 9) .| dn)]
  | C_move_b_to_an an dn => [W16 (0x1080 .| (an ≪ 9) .| dn)]
  | C_move_b_postinc dn an => [W16 (0x1018 .| (dn ≪ 9) .| an)]
  | C_move_l_to_an an dn => [W16 (0x2080 .| (an ≪ 9) .| dn)]
  | C_move_l_from_an dn an => [W16 (0x2010 .| (dn ≪ 9) .| an)]
  | C_move_l_reg dn dm => [W16 (0x2000 .| (dn ≪ 9) .| dm)]
  | C_nop => [W16 (0x4E71)]
  | C_rts => [W16 (0x4E75)]
  | C_stop sr => [W16 (0x4E72); W16 sr]
  | C_lea_label an label => [W16 (0x41C0 .| (an ≪ 9) .| 0x39); Fix32 label]
  | C_branch cc label => [W16 (0x6000 .| (cc ≪ 8)); Fix16 label]
  | C_bsr label => [W16 (0x6100); Fix16 label]
  | C_dbra dn label => [W16 (0x51C8 .| dn); Fix16 label]
  | C_string s => [Str s]
  | C_mark l => [Mark l]
  | C_w16 w => [W16 w]
  | C_w32 v => [W32 v]
  end.
Definition word_be (w : Z) : list Z := [u8 (w ≫ 8); u8 w].
Definition long_be (v : Z) : list Z := word_be (v ≫ 16) ++ word_be v.
(** The bytes of an item at [pos], the labels being at [labels]: a branch's
    field is the distance from itself. *)
Definition item_bytes (org : Z) (labels : list Z) (pos : Z) (i : item) : list Z :=
  match i with
  | W16 w => word_be w
  | W32 v => long_be v
  | Fix16 l => word_be (znth labels l - (org + pos))
  | Fix32 l => long_be (znth labels l)
  | Str s => (u8 <$> s) ++ 0 :: if nz ((pos + Z.of_nat (length s) + 1) .& 1) then [0] else []
  | Mark _ => []
  end.
Definition item_size (pos : Z) (i : item) : Z := Z.of_nat (length (item_bytes 0 [] pos i)).
(** The first pass: where the labels are. *)
Fixpoint label_pass (org pos : Z) (its : list item) (labels : list Z) : list Z :=
  match its with
  | [] => labels
  | i :: its =>
      label_pass org (pos + item_size pos i) its
        match i with Mark l => zset labels l (u32 (org + pos)) | _ => labels end
  end.
(** The second pass. *)
Fixpoint code_pass (org : Z) (labels : list Z) (pos : Z) (its : list item) : list Z :=
  match its with
  | [] => []
  | i :: its => item_bytes org labels pos i ++ code_pass org labels (pos + item_size pos i) its
  end.
Definition two_pass (org : Z) (labels : nat) (p : list call) : list Z :=
  let its := p ≫= call_items in
  code_pass org (label_pass org 0 its (replicate labels 0xFFFFFFFF)) 0 its.

(** ** Emission

    Each call emits its items one after the other. *)
Definition emit_item (i : item) : M m68a unit :=
  match i with
  | W16 w => m68a_w16 w
  | W32 v => m68a_w32 v
  | Fix16 l => add_fixup l 16 ;; m68a_w16 0
  | Fix32 l => add_fixup l 32 ;; m68a_w32 0
  | Str s => m68a_string s
  | Mark l => m68a_mark l
  end.
Fixpoint emit_items (l : list item) : M m68a unit :=
  match l with [] => mret tt | i :: l => emit_item i ;; emit_items l end.

Lemma bind_unit {S} (m : M S unit) s : (m ;; mret tt) s = m s.
Proof. unfold mbind, M_bind. by destruct (m s) as [[[] ?]|]. Qed.
Lemma emit_items_app l1 l2 a : emit_items (l1 ++ l2) a = (emit_items l1 ;; emit_items l2) a.
Proof.
  revert a. induction l1 as [|i l IH]; intros a; [done|]. cbn [app emit_items]. rewrite bind_assoc.
  unfold mbind, M_bind in *. destruct (emit_item i a) as [[? ?]|]; [apply IH|done].
Qed.
Lemma emit_two i j a : emit_items [i; j] a = (emit_item i ;; emit_item j) a.
Proof. unfold mbind, M_bind. cbn [emit_items]. unfold mbind at 1, M_bind at 1. destruct (emit_item i a) as [[? ?]|]; [apply bind_unit|done]. Qed.
Lemma emit_call_items c a : emit_call c a = emit_items (call_items c) a.
Proof. by destruct c; cbn [emit_call call_items]; symmetry; (apply bind_unit || apply emit_two). Qed.
Lemma emit_calls_items p a : emit_calls p a = emit_items (p ≫= call_items) a.
Proof.
  revert a. induction p as [|c p IH]; intros a; [done|]. change ((c :: p) ≫= call_items) with (call_items c ++ (p ≫= call_items)).
  rewrite emit_items_app. cbn [emit_calls]. unfold mbind, M_bind. rewrite emit_call_items.
  destruct (emit_items (call_items c) a) as [[? ?]|]; [apply IH|done].
Qed.

(** *** Into a buffer with room

    A state of the assembler that has written [pre]; [rest] is the buffer's
    rest. *)
Section emission.
Context (cap org : Z) (Hcap : 0 ≤ cap) (Horg : 0 ≤ org) (Hspan : org + cap < 0x80000000).

Definition asm_at (pre rest : list Z) (L : list (option Z)) (n : Z) (F : list fixup) : m68a :=
  mk_m68a (pre ++ rest) cap (Z.of_nat (length pre)) org L n F.

Lemma store8_at pre x rest len L n F v off : off = Z.of_nat (length pre) →
  store8 off v (mk_m68a (pre ++ x :: rest) cap len org L n F) = Some (tt, mk_m68a (pre ++ u8 v :: rest) cap len org L n F).
Proof.
  intros ->. unfold store8. cbn [a_buf]. rewrite length_app. cbn [length].
  rewrite (proj2 (andb_true_iff _ _)) by (split; [apply Z.leb_le|apply Z.ltb_lt]; lia).
  unfold set_a_buf, zset. cbn. rewrite Nat2Z.id. by rewrite insert_app_r_alt, Nat.sub_diag by lia.
Qed.
Lemma put8_at pre x rest L n F v : Z.of_nat (length pre) < cap →
  put8 v (asm_at pre (x :: rest) L n F) = Some (tt, asm_at (pre ++ [u8 v]) rest L n F).
Proof.
  intros Hl. unfold put8, mbind, M_bind, gets. cbn [asm_at a_len]. unfold asm_at. rewrite store8_at by done.
  unfold modify, set_a_len. cbn [a_buf a_cap a_len a_org a_label_pc a_n_labels a_fixup]. rewrite <- app_assoc. cbn [app].
  rewrite length_app. cbn [length]. rewrite u32_small by lia. do 3 f_equal. lia.
Qed.
(** Any bytes, one after the other. *)
Fixpoint put_all (l : list Z) : M m68a unit := match l with [] => mret tt | v :: l => put8 v ;; put_all l end.
Lemma put_all_at l pre rest L n F : Z.of_nat (length pre + length l) ≤ cap → (length l ≤ length rest)%nat →
  put_all l (asm_at pre rest L n F) = Some (tt, asm_at (pre ++ (u8 <$> l)) (drop (length l) rest) L n F).
Proof.
  revert pre rest. induction l as [|v l IH]; intros pre rest Hc Hl; [by rewrite app_nil_r, drop_0|]. cbn [length] in *.
  destruct rest as [|x rest]; [cbn in Hl; lia|]. cbn [put_all]. unfold mbind, M_bind. rewrite put8_at by lia.
  rewrite IH; [|rewrite length_app; cbn; lia|cbn in Hl; lia]. cbn [fmap list_fmap drop]. by rewrite <- app_assoc.
Qed.
Lemma w16_at w pre rest L n F : Z.of_nat (length pre + 2) ≤ cap → (2 ≤ length rest)%nat →
  m68a_w16 w (asm_at pre rest L n F) = Some (tt, asm_at (pre ++ word_be w) (drop 2 rest) L n F).
Proof.
  intros Hc Hl. unfold m68a_w16. unfold mbind at 1, M_bind at 1, gets. cbn [asm_at a_cap a_len].
  rewrite u32_small by lia. rewrite (proj2 (Z.ltb_ge _ _)) by lia.
  transitivity (put_all [u16 w ≫ 8; u16 w .& 0xFF] (asm_at pre rest L n F)).
  { unfold put_all, mbind, M_bind. destruct (put8 (u16 w ≫ 8) _) as [[? ?]|]; [|done]. by destruct (put8 (u16 w .& 0xFF) _) as [[[] ?]|]. }
  rewrite put_all_at by (cbn [length]; lia). cbn [fmap list_fmap length].
  assert (u8 (u16 w ≫ 8) = u8 (w ≫ 8)) as -> by (rewrite !(Z.shiftr_div_pow2 _ 8) by lia; unfold u8, u16; change (2 ^ 8) with 256; lia).
  assert (u8 (u16 w .& 0xFF) = u8 w) as -> by (rewrite (Z.land_ones _ 8) by lia; unfold u8, u16; change (2 ^ 8) with 256; lia).
  reflexivity.
Qed.
Lemma w32_at v pre rest L n F : Z.of_nat (length pre + 4) ≤ cap → (4 ≤ length rest)%nat →
  m68a_w32 v (asm_at pre rest L n F) = Some (tt, asm_at (pre ++ long_be v) (drop 4 rest) L n F).
Proof.
  intros Hc Hl. unfold m68a_w32, mbind, M_bind. rewrite w16_at by lia.
  rewrite w16_at by (rewrite ?length_app, ?length_drop; cbn [length word_be]; lia). rewrite drop_drop, <- app_assoc. do 4 f_equal.
  unfold long_be. f_equal. unfold word_be. rewrite (Z.land_ones _ 16) by lia.
  assert (u8 ((v mod 2 ^ 16) ≫ 8) = u8 (v ≫ 8)) as -> by (rewrite !(Z.shiftr_div_pow2 _ 8) by lia; unfold u8; change (2 ^ 8) with 256; change (2 ^ 16) with 65536; lia).
  assert (u8 (v mod 2 ^ 16) = u8 v) as -> by (unfold u8; change (2 ^ 16) with 65536; lia). done.
Qed.
Lemma string_at s pre rest L n F : Z.of_nat (length pre + length s) ≤ cap → (length s ≤ length rest)%nat →
  put_string s (asm_at pre rest L n F) = Some (tt, asm_at (pre ++ (u8 <$> s)) (drop (length s) rest) L n F).
Proof.
  revert pre rest. induction s as [|c s IH]; intros pre rest Hc Hl; [by rewrite app_nil_r, drop_0|]. cbn [length] in *.
  destruct rest as [|x rest]; [cbn in Hl; lia|]. cbn [put_string]. unfold mbind, M_bind, gets. cbn [asm_at a_len a_cap].
  rewrite (proj2 (Z.ltb_lt _ _)) by lia. rewrite put8_at by lia. rewrite IH; [|rewrite length_app; cbn; lia|cbn in Hl; lia].
  cbn [fmap list_fmap drop]. by rewrite <- app_assoc.
Qed.

(** What an item leaves before its field is filled in. *)
Definition hole_bytes (pos : Z) (i : item) : list Z :=
  match i with Fix16 _ => [0; 0] | Fix32 _ => [0; 0; 0; 0] | _ => item_bytes 0 [] pos i end.
Definition item_labels (pos : Z) (i : item) (labels : list Z) : list Z :=
  match i with Mark l => zset labels l (u32 (org + pos)) | _ => labels end.
Definition item_fixups (pos : Z) (i : item) : list fixup :=
  match i with Fix16 l => [mk_fixup pos l 16] | Fix32 l => [mk_fixup pos l 32] | _ => [] end.
Definition item_ok (n : Z) (i : item) : Prop :=
  match i with Fix16 l | Fix32 l | Mark l => 0 ≤ l < n | _ => True end.
(** The table when the first labels are [labels]. *)
Definition label_table (labels : list Z) : list (option Z) := (Some <$> labels) ++ replicate (64 - length labels) None.

Lemma hole_length pos i : Z.of_nat (length (hole_bytes pos i)) = item_size pos i.
Proof. unfold item_size. by destruct i. Qed.
Lemma set_label_at labels l v pre rest n F : 0 ≤ l < Z.of_nat (length labels) → (length labels ≤ 64)%nat →
  set_label l v (asm_at pre rest (label_table labels) n F) = Some (tt, asm_at pre rest (label_table (zset labels l v)) n F).
Proof.
  intros Hl Hn. unfold set_label. rewrite (proj2 (andb_true_iff _ _)) by (unfold M68A_MAX_LABELS; split; [apply Z.leb_le|apply Z.ltb_lt]; lia).
  unfold modify, set_a_label_pc, asm_at, label_table. cbn. unfold zset. rewrite length_insert, list_fmap_insert.
  by rewrite insert_app_l by (rewrite length_fmap; lia).
Qed.
Lemma fixup_at l size pre rest L n F : (length F < 256)%nat →
  add_fixup l size (asm_at pre rest L n F) = Some (tt, asm_at pre rest L n (F ++ [mk_fixup (Z.of_nat (length pre)) l size])).
Proof.
  intros Hf. unfold add_fixup, modify, a_n_fixups. cbn [asm_at a_fixup]. rewrite (proj2 (Z.ltb_lt _ _)) by (unfold M68A_MAX_FIXUPS; lia). done.
Qed.
Lemma item_at i pre rest labels n F : let pos := Z.of_nat (length pre) in
  item_ok (Z.of_nat (length labels)) i → (length labels ≤ 64)%nat → (length (F ++ item_fixups pos i) ≤ 256)%nat →
  pos + item_size pos i ≤ cap → item_size pos i ≤ Z.of_nat (length rest) →
  emit_item i (asm_at pre rest (label_table labels) n F) =
    Some (tt, asm_at (pre ++ hole_bytes pos i) (drop (length (hole_bytes pos i)) rest) (label_table (item_labels pos i labels)) n (F ++ item_fixups pos i)).
Proof.
  intros pos Hi Hn Hf Hc Hr. rewrite <- hole_length in Hc, Hr. rewrite length_app in Hf. unfold pos in *.
  destruct i as [w|v|l|l|s|l]; cbn [emit_item item_labels item_fixups]; rewrite ?app_nil_r.
  - change (hole_bytes _ (W16 w)) with (word_be w) in *. cbn [length word_be] in Hc, Hr. by rewrite w16_at by lia.
  - change (hole_bytes _ (W32 v)) with (long_be v) in *. cbn [length long_be word_be app] in Hc, Hr. by rewrite w32_at by lia.
  - cbn [hole_bytes item_fixups length] in *. unfold mbind, M_bind. rewrite fixup_at by lia. by rewrite w16_at by lia.
  - cbn [hole_bytes item_fixups length] in *. unfold mbind, M_bind. rewrite fixup_at by lia. by rewrite w32_at by lia.
  - set (t := (0 :: if nz ((Z.of_nat (length pre) + Z.of_nat (length s) + 1) .& 1) then [0] else []) : list Z).
    change (hole_bytes _ (Str s)) with ((u8 <$> s) ++ t) in *. rewrite length_app, length_fmap in Hc, Hr.
    assert (1 ≤ length t)%nat as Ht by (cbn; lia). unfold m68a_string. unfold mbind at 1, M_bind at 1. rewrite string_at by lia.
    unfold mbind at 1, M_bind at 1. rewrite string_at by (rewrite ?length_app, ?length_fmap, ?length_drop; cbn [length]; lia).
    unfold mbind, M_bind, gets. cbn [asm_at a_len]. rewrite !length_app, !length_fmap. cbn [length fmap list_fmap]. rewrite <- (app_assoc pre).
    replace (Z.of_nat (length pre + length s + 1)) with (Z.of_nat (length pre) + Z.of_nat (length s) + 1) by lia.
    unfold t in *. case_match.
    + cbn [length] in *.
      rewrite string_at by (rewrite ?length_app, ?length_fmap, ?length_drop; cbn [length]; lia).
      rewrite !drop_drop. cbn [length]. replace (length s + 1 + 1)%nat with (length s + 2)%nat by lia. by rewrite <- !app_assoc.
    + cbn [length]. rewrite !drop_drop. by rewrite <- ?app_assoc.
  - cbn [hole_bytes item_bytes length app]. rewrite ?app_nil_r, ?drop_0. unfold m68a_mark, mbind, M_bind, gets, m68a_here. cbn [asm_at a_org a_len].
    by apply set_label_at.
Qed.

(** *** Lists of items *)
Fixpoint items_size (pos : Z) (its : list item) : Z :=
  match its with [] => 0 | i :: its => item_size pos i + items_size (pos + item_size pos i) its end.
Fixpoint holes (pos : Z) (its : list item) : list Z :=
  match its with [] => [] | i :: its => hole_bytes pos i ++ holes (pos + item_size pos i) its end.
Fixpoint fixups_of (pos : Z) (its : list item) : list fixup :=
  match its with [] => [] | i :: its => item_fixups pos i ++ fixups_of (pos + item_size pos i) its end.

Lemma item_size_nonneg pos i : 0 ≤ item_size pos i.
Proof. unfold item_size. lia. Qed.
Lemma items_size_nonneg pos its : 0 ≤ items_size pos its.
Proof. revert pos. induction its as [|i its IH]; intros pos; cbn [items_size]; [lia|]. pose proof (item_size_nonneg pos i). specialize (IH (pos + item_size pos i)). lia. Qed.
Lemma holes_length pos its : Z.of_nat (length (holes pos its)) = items_size pos its.
Proof. revert pos. induction its as [|i its IH]; intros pos; cbn [holes items_size]; [done|]. by rewrite length_app, Nat2Z.inj_add, hole_length, IH. Qed.
Lemma item_labels_length pos i labels : length (item_labels pos i labels) = length labels.
Proof. destruct i; cbn [item_labels]; [done..|apply zset_length]. Qed.

Lemma items_at its : ∀ pre rest labels n F, let pos := Z.of_nat (length pre) in
  Forall (item_ok (Z.of_nat (length labels))) its → (length labels ≤ 64)%nat → (length F + length (fixups_of pos its) ≤ 256)%nat →
  pos + items_size pos its ≤ cap → items_size pos its ≤ Z.of_nat (length rest) →
  emit_items its (asm_at pre rest (label_table labels) n F) =
    Some (tt, asm_at (pre ++ holes pos its) (drop (length (holes pos its)) rest)
                (label_table (label_pass org pos its labels)) n (F ++ fixups_of pos its)).
Proof.
  induction its as [|i its IH]; intros pre rest labels n F pos Hi Hn Hf Hc Hr.
  - cbn [holes fixups_of label_pass emit_items length]. by rewrite !app_nil_r, drop_0.
  - apply Forall_cons_1 in Hi as [Hi Hs]. cbn [items_size fixups_of] in *. rewrite length_app in Hf.
    pose proof (items_size_nonneg (pos + item_size pos i) its). pose proof (item_size_nonneg pos i).
    cbn [emit_items]. unfold mbind, M_bind. rewrite item_at by (rewrite ?length_app; fold pos; done || lia). fold pos.
    assert (Z.of_nat (length (pre ++ hole_bytes pos i)) = pos + item_size pos i) as Ep by (rewrite length_app, Nat2Z.inj_add, hole_length; done).
    rewrite IH; rewrite ?Ep, ?item_labels_length, ?length_app, ?length_drop; try done; try lia.
    + cbn [holes]. rewrite drop_drop, length_app, <- !app_assoc. do 4 f_equal.
    + pose proof (hole_length pos i). lia.
Qed.
Lemma label_pass_length pos its labels : length (label_pass org pos its labels) = length labels.
Proof.
  revert pos labels. induction its as [|i its IH]; intros pos labels; [done|]. cbn [label_pass]. rewrite IH. apply (item_labels_length pos i).
Qed.
Lemma new_labels_at k : ∀ done pre rest F, (done + k ≤ 64)%nat →
  new_labels k (asm_at pre rest (label_table (replicate done 0xFFFFFFFF)) (Z.of_nat done) F) =
    Some (tt, asm_at pre rest (label_table (replicate (done + k) 0xFFFFFFFF)) (Z.of_nat (done + k)) F).
Proof.
  induction k as [|k IH]; intros d pre rest F Hk; [by rewrite Nat.add_0_r|]. cbn [new_labels]. unfold mbind at 1, M_bind at 1. unfold m68a_label.
  unfold mbind, M_bind, gets, modify, set_label. cbn [asm_at a_n_labels set_a_n_labels].
  rewrite (proj2 (andb_true_iff _ _)) by (unfold M68A_MAX_LABELS; split; [apply Z.leb_le|apply Z.ltb_lt]; lia).
  unfold set_a_label_pc. cbn. unfold mret, M_ret.
  assert (<[Z.to_nat (Z.of_nat d) := Some 0xFFFFFFFF]> (label_table (replicate d 0xFFFFFFFF)) = label_table (replicate (S d) 0xFFFFFFFF)) as ->.
  { unfold label_table. rewrite Nat2Z.id, !length_replicate, insert_app_r_alt by (rewrite length_fmap, length_replicate; lia).
    rewrite length_fmap, length_replicate, Nat.sub_diag. replace (64 - d)%nat with (S (64 - S d)) by lia.
    rewrite (replicate_S_end d), fmap_app, <- app_assoc. reflexivity. }
  replace (Z.of_nat d + 1) with (Z.of_nat (S d)) by lia. pose proof (IH (S d) pre rest F ltac:(lia)) as E. unfold asm_at in E |- *. rewrite E. by replace (S d + k)%nat with (d + S k)%nat by lia.
Qed.

(** *** Filling the fields in *)
Definition label_fine (l : Z) : Prop := 0 ≤ l < 0x80000000 ∨ l = 0xFFFFFFFF.
Lemma label_pass_fine pos its labels : Forall label_fine labels → 0 ≤ pos → pos + items_size pos its ≤ cap →
  Forall label_fine (label_pass org pos its labels).
Proof.
  revert pos labels. induction its as [|i its IH]; intros pos labels Hl Hp Hc; [done|]. cbn [label_pass items_size] in *.
  pose proof (item_size_nonneg pos i). pose proof (items_size_nonneg (pos + item_size pos i) its). apply IH; [|lia..].
  destruct i; try done. apply zset_Forall; [|done]. left. rewrite u32_small; lia.
Qed.
Lemma u8_congr x y : x mod 0x100000000 = y mod 0x100000000 → u8 (u32 x ≫ 8) = u8 (y ≫ 8) ∧ u8 (u32 x .& 0xFF) = u8 y.
Proof. intros E. rewrite !(Z.shiftr_div_pow2 _ 8), (Z.land_ones _ 8) by lia. unfold u8, u32. change (2 ^ 8) with 256. lia. Qed.
Lemma distance_fine t x : label_fine t → 0 ≤ x < 0x80000000 →
  -0x80000000 ≤ i32 t - i32 (u32 x) < 0x80000000 ∧ (i32 t - i32 (u32 x)) mod 0x100000000 = (t - x) mod 0x100000000.
Proof.
  intros Ht Hx. rewrite u32_small by lia. unfold i32, u32. cbv zeta. rewrite !(Z.mod_small x) by lia.
  rewrite (proj2 (Z.ltb_lt x _)) by lia. destruct Ht as [Ht| ->].
  - rewrite (Z.mod_small t), (proj2 (Z.ltb_lt t _)) by lia. lia.
  - change (0xFFFFFFFF mod 0x100000000) with 0xFFFFFFFF. change (0xFFFFFFFF <? 0x80000000) with false. cbv iota. lia.
Qed.

Lemma item_patched i pre rest labels len n F : let pos := Z.of_nat (length pre) in
  item_ok (Z.of_nat (length labels)) i → Forall label_fine labels → pos < cap →
  apply_fixups (item_fixups pos i) (mk_m68a (pre ++ hole_bytes pos i ++ rest) cap len org (label_table labels) n F) =
    Some (tt, mk_m68a (pre ++ item_bytes org labels pos i ++ rest) cap len org (label_table labels) n F).
Proof.
  intros pos Hi Hl Hp. unfold pos in *.
  assert (∀ l, 0 ≤ l < Z.of_nat (length labels) → mjoin (label_table labels !! Z.to_nat l) = Some (znth labels l) ∧ label_fine (znth labels l)) as Hlook.
  { intros l H. unfold label_table. rewrite lookup_app_l by (rewrite length_fmap; lia). rewrite list_lookup_fmap.
    destruct (lookup_lt_is_Some_2 labels (Z.to_nat l)) as [t Et]; [lia|]. rewrite Et. cbn. unfold znth. rewrite (nth_lookup_Some _ _ _ _ Et).
    split; [done|]. rewrite Forall_lookup in Hl. by eapply Hl. }
  destruct i as [w|v|l|l|s|l]; try reflexivity; cbn [item_ok] in Hi; destruct (Hlook l Hi) as [El Hf]; clear Hlook;
    cbn [item_fixups apply_fixups hole_bytes app]; rewrite bind_unit; unfold apply_fixup, mbind, M_bind, gets;
    cbn [a_label_pc a_org fx_label fx_site fx_size]; rewrite (proj2 (Z.ltb_ge _ _)) by lia; change (mjoin ?o) with (mjoin (M := option) o); rewrite El.
  - change (16 =? 32) with false. cbv iota zeta.
    destruct (distance_fine (znth labels l) (org + Z.of_nat (length pre)) Hf) as [Hr Hm]; [lia|].
    rewrite (proj2 (andb_true_iff _ _)) by (split; [apply Z.leb_le|apply Z.ltb_lt]; lia).
    rewrite (store8_at pre) by done.
    change (pre ++ ?b :: 0 :: rest) with (pre ++ [b] ++ 0 :: rest). rewrite app_assoc, store8_at by (rewrite length_app; cbn; lia).
    destruct (u8_congr _ _ Hm) as [-> ->]. cbn [item_bytes word_be app]. by rewrite <- app_assoc.
  - change (32 =? 32) with true. cbv beta iota zeta. rewrite (store8_at pre) by done.
    change (pre ++ ?b :: 0 :: ?r) with (pre ++ [b] ++ 0 :: r). rewrite app_assoc, store8_at by (rewrite length_app; cbn; lia).
    change ((pre ++ ?c) ++ ?b :: 0 :: ?r) with ((pre ++ c) ++ [b] ++ 0 :: r). rewrite app_assoc, store8_at by (rewrite !length_app; cbn; lia).
    change (((pre ++ ?c) ++ ?d) ++ ?b :: 0 :: ?r) with (((pre ++ c) ++ d) ++ [b] ++ 0 :: r). rewrite app_assoc, store8_at by (rewrite !length_app; cbn; lia).
    cbn [item_bytes]. unfold long_be, word_be. rewrite <- !app_assoc. cbn [app]. rewrite Z.shiftr_shiftr by lia.
    rewrite (Z.land_ones _ 8) by lia. do 8 f_equal. unfold u8. change (2 ^ 8) with 256. lia.
Qed.
Lemma item_bytes_length pos i labels : Z.of_nat (length (item_bytes org labels pos i)) = item_size pos i.
Proof. unfold item_size. by destruct i. Qed.
Lemma code_length pos its labels : Z.of_nat (length (code_pass org labels pos its)) = items_size pos its.
Proof. revert pos. induction its as [|i its IH]; intros pos; cbn [code_pass items_size]; [done|]. by rewrite length_app, Nat2Z.inj_add, item_bytes_length, IH. Qed.
Lemma apply_fixups_app f1 f2 a : apply_fixups (f1 ++ f2) a = (apply_fixups f1 ;; apply_fixups f2) a.
Proof.
  revert a. induction f1 as [|f fs IH]; intros a; [done|]. cbn [app apply_fixups]. rewrite bind_assoc.
  unfold mbind, M_bind in *. destruct (apply_fixup f a) as [[? ?]|]; [apply IH|done].
Qed.
Lemma items_patched its : ∀ pre rest labels len n F, let pos := Z.of_nat (length pre) in
  Forall (item_ok (Z.of_nat (length labels))) its → Forall label_fine labels → pos + items_size pos its ≤ cap →
  apply_fixups (fixups_of pos its) (mk_m68a (pre ++ holes pos its ++ rest) cap len org (label_table labels) n F) =
    Some (tt, mk_m68a (pre ++ code_pass org labels pos its ++ rest) cap len org (label_table labels) n F).
Proof.
  induction its as [|i its IH]; intros pre rest labels len n F pos Hi Hl Hc; [done|]. apply Forall_cons_1 in Hi as [Hi Hs].
  cbn [items_size] in Hc. pose proof (items_size_nonneg (pos + item_size pos i) its). pose proof (item_size_nonneg pos i).
  cbn [fixups_of holes code_pass]. rewrite apply_fixups_app, <- !app_assoc. unfold mbind, M_bind.
  assert (apply_fixups (item_fixups pos i) (mk_m68a (pre ++ hole_bytes pos i ++ holes (pos + item_size pos i) its ++ rest) cap len org (label_table labels) n F) =
    Some (tt, mk_m68a (pre ++ item_bytes org labels pos i ++ holes (pos + item_size pos i) its ++ rest) cap len org (label_table labels) n F)) as ->.
  { destruct (decide (pos < cap)) as [Hlt|Hge]; [by apply item_patched|]. assert (item_size pos i = 0) as E0 by lia.
    destruct i; try reflexivity; unfold item_size in E0; cbn in E0; lia. }
  assert (Z.of_nat (length (pre ++ item_bytes org labels pos i)) = pos + item_size pos i) as Ep by (rewrite length_app, Nat2Z.inj_add, item_bytes_length; done).
  rewrite !(app_assoc pre), <- Ep. rewrite IH; rewrite ?Ep; [|done..|lia]. by rewrite <- !app_assoc.
Qed.

(** *** Whole programs *)
Definition call_ok (n : Z) (c : call) : Prop :=
  match c with C_lea_label _ l | C_branch _ l | C_bsr l | C_dbra _ l | C_mark l => 0 ≤ l < n | _ => True end.
Definition has_field (c : call) : bool := match c with C_lea_label _ _ | C_branch _ _ | C_bsr _ | C_dbra _ _ => true | _ => false end.
Definition fields (p : list call) : nat := length (filter has_field p).

Lemma calls_ok n p : Forall (call_ok n) p → Forall (item_ok n) (p ≫= call_items).
Proof.
  induction 1 as [|c p Hc Hp IH]; [constructor|]. change ((c :: p) ≫= call_items) with (call_items c ++ (p ≫= call_items)).
  apply Forall_app_2; [|done]. by destruct c; cbn [call_items]; repeat (apply Forall_cons_2; [exact Hc || exact I|]); apply Forall_nil_2.
Qed.
Lemma fixups_of_app pos l1 l2 : length (fixups_of pos (l1 ++ l2)) = (length (fixups_of pos l1) + length (fixups_of (pos + items_size pos l1) l2))%nat.
Proof.
  revert pos. induction l1 as [|i l IH]; intros pos; [cbn; by rewrite Z.add_0_r|]. cbn [app fixups_of items_size].
  rewrite !length_app, IH, Z.add_assoc. lia.
Qed.
Lemma calls_fields pos p : length (fixups_of pos (p ≫= call_items)) = fields p.
Proof.
  revert pos. induction p as [|c p IH]; intros pos; [done|]. change ((c :: p) ≫= call_items) with (call_items c ++ (p ≫= call_items)).
  rewrite fixups_of_app, IH. unfold fields. rewrite filter_cons. by destruct c.
Qed.
Lemma asm_program n p buf : (n ≤ 64)%nat → Forall (call_ok (Z.of_nat n)) p → (fields p ≤ 256)%nat →
  Z.of_nat (length (two_pass org n p)) ≤ cap → cap ≤ Z.of_nat (length buf) →
  ∃ a, assemble n p (m68a_init buf cap org) = Some (tt, a) ∧ a_len a = Z.of_nat (length (two_pass org n p)) ∧
    a_buf a = two_pass org n p ++ drop (length (two_pass org n p)) buf.
Proof.
  intros Hn Hp Hf Hc Hb. unfold assemble, two_pass in *. cbv zeta in *. set (its := p ≫= call_items) in *.
  set (start := replicate n 0xFFFFFFFF) in *. rewrite code_length in Hc. apply calls_ok in Hp. fold its in Hp.
  assert (length start = n) as Hs by apply length_replicate.
  unfold mbind at 1, M_bind at 1. pose proof (new_labels_at n 0 [] buf [] ltac:(lia)) as En. cbn [Nat.add] in En. fold start in En.
  change (m68a_init buf cap org) with (asm_at [] buf (label_table (replicate 0 0xFFFFFFFF)) (Z.of_nat 0) []). rewrite En.
  unfold mbind at 1, M_bind at 1.
  rewrite emit_calls_items. fold its.
  rewrite items_at; cbn [length]; change (Z.of_nat 0) with 0; rewrite ?Hs; [|done|lia|unfold its; rewrite calls_fields; cbn; lia|lia|lia].
  unfold m68a_finish, mbind, M_bind, gets. cbn [asm_at a_fixup app].
  set (labels := label_pass org 0 its start) in *. unfold asm_at. cbn [app].
  pose proof (items_patched its [] (drop (length (holes 0 its)) buf) labels (Z.of_nat (length (holes 0 its))) (Z.of_nat n) (fixups_of 0 its)) as Hpat.
  cbn [length app] in Hpat. change (Z.of_nat 0) with 0 in Hpat. rewrite Hpat; [|unfold labels; rewrite label_pass_length, Hs; done| |done].
  - eexists. split; [reflexivity|]. cbn [a_len a_buf]. rewrite holes_length, code_length. split; [done|].
    do 2 f_equal. apply Nat2Z.inj. by rewrite holes_length, code_length.
  - apply label_pass_fine; [|lia|done]. apply Forall_forall. intros x Hx. unfold start in Hx. rewrite <- list_elem_of_In, elem_of_replicate in Hx. right. tauto.
Qed.
End emission.

(** C40. The one-pass assembler with fixups does the work of a two-pass
    assembler.  For every program whose labels are reserved, with at most 64
    labels, 256 fields to fill in and room for its code below 0x80000000, the
    buffer afterwards starts with the code that the reference writes once it
    knows where every label is, its length is the code's, and the rest of the
    buffer is as it was. *)
Theorem assembled_code n p buf cap org : (n ≤ 64)%nat → Forall (call_ok (Z.of_nat n)) p → (fields p ≤ 256)%nat →
  0 ≤ org → org + cap < 0x80000000 → Z.of_nat (length (two_pass org n p)) ≤ cap → cap ≤ Z.of_nat (length buf) →
  ∃ a, assemble n p (m68a_init buf cap org) = Some (tt, a) ∧ a_len a = Z.of_nat (length (two_pass org n p)) ∧
    a_buf a = two_pass org n p ++ drop (length (two_pass org n p)) buf.
Proof. intros Hn Hp Hf Ho Hs Hc Hb. apply asm_program; done || lia. Qed.

(** A branch back and a reference forward. *)
Definition asm_example : list call :=
  [C_mark 0; C_moveq 3 (-1); C_lea_label 1 1; C_branch 6 0; C_rts; C_mark 1; C_string [0x68; 0x69]].
Lemma assembled_code_witness :
  two_pass 0x1000 2 asm_example = [0x76; 0xFF; 0x43; 0xF9; 0; 0; 0x10; 0x0E; 0x66; 0; 0xFF; 0xF6; 0x4E; 0x75; 0x68; 0x69; 0; 0] ∧
  ∃ a, assemble 2 asm_example (m68a_init (replicate 20 0xAA) 20 0x1000) = Some (tt, a) ∧
    a_len a = Z.of_nat (length (two_pass 0x1000 2 asm_example)) ∧
    a_buf a = two_pass 0x1000 2 asm_example ++ drop (length (two_pass 0x1000 2 asm_example)) (replicate 20 0xAA).
Proof.
  split; [vm_compute; reflexivity|]. apply (assembled_code 2 asm_example (replicate 20 0xAA) 20 0x1000); try (vm_compute; intuition discriminate).
  - vm_compute. lia.
  - repeat (apply Forall_cons_2; [vm_compute; intuition discriminate|]). apply Forall_nil_2.
  - vm_compute. lia.
Defined.
