(* ===== verification/DemoRom.v ===== *)
(** * The demo program

    The built-in guest program ([core/demo_rom.c]), the interpreter's run loop
    ([m68k_run_until] in [core/m68k_interp.c]), and what the one does when the
    other runs it. *)

From Stdlib Require Import ZArith Lia.
From stdpp Require Import base tactics list numbers strings.
From S2P Require Import Prelude Cpu Ea Step MacState Sony MacMem MacBus.
From S2P Require Import Asm.

(** ** The program *)

Definition DEMO_ROM_MAX : Z := 2048.
Definition DEMO_SSP : Z := 0x8000.
Definition DEMO_ENTRY : Z := 0x100.
Definition DBG_SERIAL : Z := MAC_DEBUG_BASE + MAC_DBG_SERIAL.
Definition DBG_EXIT : Z := MAC_DEBUG_BASE + MAC_DBG_EXIT.
Definition chars (s : string) : list Z := (λ c, Z.of_N (Ascii.N_of_ascii c)) <$> String.list_ascii_of_string s.
Definition newline : Z := 10.

Definition C_bne (l : Z) : call := C_branch 6 l.
Definition C_beq (l : Z) : call := C_branch 7 l.
Definition C_bra (l : Z) : call := C_branch 0 l.

Section program.
Context (fb_addr : Z).
(** The labels, in the order that they are reserved. *)
Definition l_sumloop : Z := 0.
Definition l_fbloop : Z := 1.
Definition l_prloop : Z := 2.
Definition l_prdone : Z := 3.
Definition l_flloop : Z := 4.
Definition l_fldone : Z := 5.
Definition l_dbl : Z := 6.
Definition l_fail : Z := 7.
Definition l_msg : Z := 8.
Definition l_failmsg : Z := 9.

Definition demo_calls : list call :=
  (* sum := 1 + 2 + ... + 100 *)
  [C_nop; C_moveq 0 0; C_move_l_imm 1 100; C_mark l_sumloop; C_add_l 0 1; C_subq_l 1 1; C_bne l_sumloop;
   C_move_l_imm 2 5050; C_cmp_l 0 2; C_bne l_fail] ++
  (* shift and logic *)
  [C_move_l_imm 3 0x12345678; C_lsr_l 4 3; C_asl_l 4 3; C_move_l_imm 4 0x0F0F0F0F; C_and_l 3 4;
   C_move_l_imm 5 0x02040600; C_cmp_l 3 5; C_bne l_fail] ++
  (* a subroutine *)
  [C_move_l_imm 6 21; C_bsr l_dbl; C_move_l_imm 7 42; C_cmp_l 6 7; C_bne l_fail] ++
  (* the frame buffer: 128 long words *)
  [C_movea_l_imm 2 fb_addr; C_move_l_imm 6 128; C_move_l_imm 7 0xA5A5A5A5; C_mark l_fbloop; C_move_l_to_an 2 7;
   C_addq_w_an 4 2; C_subq_l 1 6; C_bne l_fbloop] ++
  [C_movea_l_imm 2 fb_addr; C_move_l_from_an 0 2; C_cmp_l 0 7; C_bne l_fail] ++
  (* the success line *)
  [C_lea_label 0 l_msg; C_movea_l_imm 1 DBG_SERIAL; C_mark l_prloop; C_move_b_postinc 0 0; C_beq l_prdone;
   C_move_b_to_an 1 0; C_bra l_prloop; C_mark l_prdone; C_moveq 0 0; C_movea_l_imm 1 DBG_EXIT; C_move_b_to_an 1 0;
   C_stop 0x2700] ++
  [C_mark l_dbl; C_add_l 6 6; C_rts] ++
  (* the fail path *)
  [C_mark l_fail; C_lea_label 0 l_failmsg; C_movea_l_imm 1 DBG_SERIAL; C_mark l_flloop; C_move_b_postinc 0 0;
   C_beq l_fldone; C_move_b_to_an 1 0; C_bra l_flloop; C_mark l_fldone; C_moveq 1 1; C_movea_l_imm 1 DBG_EXIT;
   C_move_b_to_an 1 1; C_stop 0x2700] ++
  (* data *)
  [C_mark l_msg; C_string (chars "RESULT: PASS" ++ [newline]); C_mark l_failmsg;
   C_string (chars "RESULT: FAIL" ++ [newline])].

(** The reset vector's padding. *)
Fixpoint pad (fuel : nat) : M m68a unit :=
  match fuel with
  | O => undefined_behaviour
  | S fuel =>
      here ← gets m68a_here;
      if here <? DEMO_ENTRY then m68a_w16 0x4E71 ;; pad fuel else mret tt
  end.
Definition demo_rom_program : M m68a Z :=
  m68a_w32 DEMO_SSP ;; m68a_w32 DEMO_ENTRY ;; pad 128 ;;
  new_labels 10 ;; emit_calls demo_calls ;; m68a_finish ;; gets a_len.
(** The length of the image and the buffer with it. *)
Definition demo_rom_build (out : list Z) : option (Z * list Z) :=
  match demo_rom_program (m68a_init out DEMO_ROM_MAX 0) with Some (len, a) => Some (len, a_buf a) | None => None end.
End program.

(** ** The interpreter's run loop *)

(** One turn of the loop. *)
Definition run_turn : M mac unit :=
  cycles ← getc cpu_cycles;
  mac_mem_tick cycles ;;
  taken ← m68k_poll_interrupts;
  if taken : bool then mret tt else
  serviced ← sony_service mac_accessors;
  if serviced : bool then mret tt else
  stopped ← getc (λ c, nz (cpu_stopped c));
  if stopped : bool then add_cycles 64 else m68k_step.
(** [n] turns at most; whether the loop has ended. *)
Fixpoint m68k_run_until (n : nat) (until : Z) : M mac bool :=
  c ← getc id;
  if negb (cpu_cycles c <? until) || nz (cpu_halted c) then mret true
  else match n with O => mret false | S n => run_turn ;; m68k_run_until n until end.

(** The host's set-up with the built-in program: [ram_size] bytes of RAM, the
    image at address 0, the processor reset. *)
Definition demo_boot (ram_size : Z) : option mac :=
  let m := set_mem_serial_sink true (mac_mem_init ram_size) in
  match demo_rom_build (mem_fb_base m) (replicate (Z.to_nat DEMO_ROM_MAX) 0) with
  | None => None
  | Some (len, img) =>
      match mac_load_ram_image 0 img len m with
      | None => None
      | Some (_, m) => snd <$> m68k_reset (mk_st cpu_zero (set_mem_cpu true m) [] 0)
      end
  end.

(** ** The image *)

(** The whole program as the two-pass assembler takes it. *)
Definition demo_program (fb_addr : Z) : list call :=
  C_w32 DEMO_SSP :: C_w32 DEMO_ENTRY :: replicate 124 (C_w16 0x4E71) ++ demo_calls fb_addr.

Section image.
Context (cap org : Z) (Hcap : 0 ≤ cap) (Horg : 0 ≤ org) (Hspan : org + cap < 0x80000000).

Lemma pad_at k : ∀ fuel pre rest L n F, (k < fuel)%nat → org + Z.of_nat (length pre + 2 * k) = DEMO_ENTRY →
  Z.of_nat (length pre + 2 * k) ≤ cap → (2 * k ≤ length rest)%nat →
  pad fuel (asm_at cap org pre rest L n F) = emit_items (replicate k (W16 0x4E71)) (asm_at cap org pre rest L n F).
Proof.
  induction k as [|k IH]; intros fuel pre rest L n F Hf He Hc Hr; (destruct fuel as [|fuel]; [lia|]); cbn [pad];
    unfold mbind at 1, M_bind at 1, gets, m68a_here; cbn [asm_at a_org a_len]; unfold DEMO_ENTRY in *; rewrite u32_small by lia.
  - by rewrite (proj2 (Z.ltb_ge _ _)) by lia.
  - rewrite (proj2 (Z.ltb_lt _ _)) by lia. cbn [replicate emit_items emit_item]. unfold mbind, M_bind.
    rewrite w16_at by lia. apply IH; rewrite ?length_app, ?length_drop; cbn [length word_be]; lia.
Qed.
End image.

Lemma code_pass_app org labels pos l1 l2 :
  code_pass org labels pos (l1 ++ l2) = code_pass org labels pos l1 ++ code_pass org labels (pos + items_size pos l1) l2.
Proof.
  revert pos. induction l1 as [|i l IH]; intros pos; cbn [app code_pass items_size]; [by rewrite Z.add_0_r|]. by rewrite IH, Z.add_assoc, <- app_assoc.
Qed.

(** The reset vector and the padding, which need no label. *)
Definition demo_vector : list item := [W32 DEMO_SSP; W32 DEMO_ENTRY] ++ replicate 124 (W16 0x4E71).
(** Items without labels. *)
Lemma plain_passes org labels pos l l2 : Forall (item_ok 0) l →
  code_pass org labels pos l = holes pos l ∧ label_pass org pos (l ++ l2) labels = label_pass org (pos + items_size pos l) l2 labels.
Proof.
  intros H. revert pos. induction H as [|i l Hi Hl IH]; intros pos; cbn [app code_pass holes label_pass items_size]; [by rewrite Z.add_0_r|].
  destruct (IH (pos + item_size pos i)) as [-> Hp]. rewrite Z.add_assoc, <- Hp. destruct i; cbn in Hi; try lia; done.
Qed.
Lemma demo_vector_plain : Forall (item_ok 0) demo_vector.
Proof. apply Forall_app_2; [by repeat (apply Forall_cons_2; [exact I|]); apply Forall_nil_2|by apply Forall_replicate]. Qed.
Lemma demo_vector_at out : 256 ≤ Z.of_nat (length out) →
  (m68a_w32 DEMO_SSP ;; m68a_w32 DEMO_ENTRY ;; pad 128) (m68a_init out DEMO_ROM_MAX 0) =
    Some (tt, asm_at DEMO_ROM_MAX 0 (holes 0 demo_vector) (drop 256 out) (label_table []) 0 []).
Proof.
  intros Ho. change (m68a_init out DEMO_ROM_MAX 0) with (asm_at DEMO_ROM_MAX 0 [] out (label_table []) 0 []).
  transitivity (emit_items demo_vector (asm_at DEMO_ROM_MAX 0 [] out (label_table []) 0 [])).
  - unfold demo_vector, DEMO_ROM_MAX. cbn [app emit_items emit_item]. unfold mbind, M_bind.
    rewrite !w32_at by (rewrite ?length_app, ?length_drop; cbn [length long_be word_be app]; lia).
    apply pad_at; rewrite ?length_app, ?length_drop; cbn [length long_be word_be app]; unfold DEMO_ENTRY; lia.
  - unfold DEMO_ROM_MAX. rewrite items_at; cbn [length]; change (Z.of_nat 0) with 0; change (items_size 0 demo_vector) with 256; [reflexivity|try lia..].
    + apply demo_vector_plain.
    + change (length (fixups_of 0 demo_vector)) with 0%nat. lia.
Qed.

(** The code that the demo builder leaves in the buffer is the two-pass
    assembler's, for any frame buffer. *)
Lemma demo_rom_built fb out : DEMO_ROM_MAX ≤ Z.of_nat (length out) →
  let code := two_pass 0 10 (demo_program fb) in
  demo_rom_build fb out = Some (Z.of_nat (length code), code ++ drop (length code) out).
Proof.
  intros Ho code. set (its := demo_calls fb ≫= call_items). set (init := replicate 10 0xFFFFFFFF : list Z).
  set (labels := label_pass 0 256 its init).
  assert (code = holes 0 demo_vector ++ code_pass 0 labels 256 its) as Ec.
  { unfold code, two_pass. change (demo_program fb ≫= call_items) with (demo_vector ++ its). cbv zeta. fold init. rewrite code_pass_app.
    destruct (plain_passes 0 init 0 demo_vector its demo_vector_plain) as [_ ->]. change (0 + items_size 0 demo_vector) with 256. fold labels.
    by destruct (plain_passes 0 labels 0 demo_vector [] demo_vector_plain) as [-> _]. }
  assert (items_size 256 its = 232) as Esz by (vm_compute; reflexivity).
  assert (length (holes 0 demo_vector) = 256%nat) as Ev by reflexivity.
  pose proof (demo_vector_at out ltac:(unfold DEMO_ROM_MAX in Ho; lia)) as E1. unfold DEMO_ROM_MAX in *.
  pose proof (new_labels_at 2048 0 10 0 (holes 0 demo_vector) (drop 256 out) [] ltac:(lia)) as E2. change (0 + 10)%nat with 10%nat in E2. fold init in E2.
  assert (Forall (item_ok (Z.of_nat (length init))) its) as Hits.
  { apply (calls_ok 10). unfold demo_calls. repeat (apply Forall_cons_2; [(split; [by vm_compute|by vm_compute]) || exact I|]). apply Forall_nil_2. }
  pose proof (items_at 2048 0 ltac:(lia) ltac:(lia) its (holes 0 demo_vector) (drop 256 out) init 10 []) as E3.
  change (Z.of_nat (length (holes 0 demo_vector))) with 256 in E3. change (length init) with 10%nat in *. cbv zeta in E3.
  specialize (E3 Hits ltac:(lia) ltac:(unfold its; rewrite calls_fields; change (fields (demo_calls fb)) with 13%nat; cbn; lia) ltac:(lia) ltac:(rewrite length_drop; lia)).
  pose proof (items_patched 2048 0 ltac:(lia) ltac:(lia) its (holes 0 demo_vector) (drop (length (holes 256 its)) (drop 256 out)) labels
    (Z.of_nat (length (holes 0 demo_vector ++ holes 256 its))) 10 (fixups_of 256 its)) as E4.
  change (Z.of_nat (length (holes 0 demo_vector))) with 256 in E4. cbv zeta in E4.
  assert (length labels = 10%nat) as Hlab by (unfold labels; by rewrite label_pass_length).
  rewrite Hlab in E4. specialize (E4 Hits).
  assert (Forall label_fine labels) as Hfine.
  { apply (label_pass_fine 2048 0); [lia|lia| |lia|lia]. apply Forall_replicate. by right. }
  specialize (E4 Hfine ltac:(lia)). unfold demo_rom_build, demo_rom_program, DEMO_ROM_MAX. unfold mbind, M_bind in *.
  destruct (m68a_w32 DEMO_SSP _) as [[? s1]|]; [|discriminate E1]. destruct (m68a_w32 DEMO_ENTRY s1) as [[? s2]|]; [|discriminate E1].
  rewrite E1. change (Z.of_nat 0) with 0 in E2. change (replicate 0 0xFFFFFFFF) with (@nil Z) in E2. rewrite E2. change (Z.of_nat 10) with 10. rewrite emit_calls_items. change (demo_calls fb ≫= call_items) with its. rewrite E3. unfold m68a_finish, mbind, M_bind, gets.
  cbn [asm_at a_fixup app]. fold labels. unfold asm_at. rewrite <- app_assoc. rewrite E4. cbn [a_len a_buf]. f_equal.
  assert (length (holes 256 its) = 232%nat) as Eh by (apply Nat2Z.inj; by rewrite holes_length, Esz).
  assert (length (code_pass 0 labels 256 its) = 232%nat) as El by (apply Nat2Z.inj; by rewrite code_length, Esz).
  rewrite Ec, !length_app, Eh, El, Ev, drop_drop, app_assoc. done.
Qed.

(** ** Running it *)

Definition serial_out (m : mac_mem) : list Z :=
  omap (λ e, match e with EvSerial b => Some b | _ => None end) (reverse (mem_out m)).

(** On a machine with 32 KB of RAM the program ends by itself: after 899
    instructions it has printed its success line, filled the frame buffer's
    start and left exit code 0. *)
Lemma demo_passes :
  (s ← demo_boot 0x8000; r ← m68k_run_until 1000 50000 s;
   let '(ended, s') := r in
   mret (ended, cpu_halted (cpu s'), cpu_exit_code (cpu s'), cpu_instrs (cpu s'), serial_out (bus s'),
         take 8 (drop (Z.to_nat (mem_fb_base (bus s'))) (mem_ram (bus s')))))
  = Some (true, M68K_HALT_GUEST_EXIT, 0, 899, chars "RESULT: PASS" ++ [newline],
          [0xA5; 0xA5; 0xA5; 0xA5; 0xA5; 0xA5; 0xA5; 0xA5]).
Proof. vm_compute. reflexivity. Qed.
