(* ===== verification/XtEmit.v ===== *)
(** * The Xtensa encoder (jit/emit_xtensa.c)

    The release build: the [assert]s compile away, so an operand out of range
    is truncated and only the bounds check protects the buffer. *)

From Stdlib Require Import ZArith Lia.
From stdpp Require Import base tactics list numbers.
From S2P Require Import Prelude.

(** ** The emitter *)

Record xt_emit := mk_emit {
  em_buf : list Z;  (** [cap] bytes of memory, or more *)
  em_len : Z;
  em_cap : Z;
  em_overflow : bool;
  em_word_acc : Z
}.

Definition set_em_buf (v : list Z) (x : xt_emit) : xt_emit :=
  mk_emit v (em_len x) (em_cap x) (em_overflow x) (em_word_acc x).
Definition set_em_len (v : Z) (x : xt_emit) : xt_emit :=
  mk_emit (em_buf x) (u32 v) (em_cap x) (em_overflow x) (em_word_acc x).
Definition set_em_cap (v : Z) (x : xt_emit) : xt_emit :=
  mk_emit (em_buf x) (em_len x) (u32 v) (em_overflow x) (em_word_acc x).
Definition set_em_overflow (v : bool) (x : xt_emit) : xt_emit :=
  mk_emit (em_buf x) (em_len x) (em_cap x) v (em_word_acc x).
Definition set_em_word_acc (v : Z) (x : xt_emit) : xt_emit :=
  mk_emit (em_buf x) (em_len x) (em_cap x) (em_overflow x) (u32 v).

Definition xt_init (buf : list Z) (cap : Z) : xt_emit := mk_emit buf 0 cap false 0.

(** [*(u32 * )(e->buf + off) = w] on a little-endian host. *)
Definition bytes32 (w : Z) : list Z := [u8 w; u8 (w ≫ 8); u8 (w ≫ 16); u8 (w ≫ 24)].
Definition store32 (off w : Z) : M xt_emit unit := λ e,
  if Z.of_nat (length (em_buf e)) <? off + 4 then None
  else Some (tt, set_em_buf (list_inserts (Z.to_nat off) (bytes32 w) (em_buf e)) e).

Definition xt_flush_pending : M xt_emit unit :=
  e ← gets id;
  when (nz (em_len e .& 3)) (
    let word_off := em_len e .& not32 3 in
    store32 word_off (em_word_acc e)).

Definition emit_byte_packed (b : Z) : M xt_emit unit :=
  byte_in_word ← gets (λ e, em_len e .& 3);
  modify (λ e, set_em_word_acc (em_word_acc e .| u32 (b ≪ (byte_in_word * 8))) e) ;;
  modify (λ e, set_em_len (em_len e + 1) e) ;;
  e ← gets id;
  when (em_len e .& 3 =? 0) (
    store32 (u32 (em_len e - 4)) (em_word_acc e) ;;
    modify (set_em_word_acc 0)).

Definition emit24 (w : Z) : M xt_emit Z :=
  e ← gets id;
  if em_cap e <? u32 (em_len e + 3) then modify (set_em_overflow true) ;; mret 0
  else
    emit_byte_packed (u8 (w .& 0xFF)) ;;
    emit_byte_packed (u8 ((w ≫ 8) .& 0xFF)) ;;
    emit_byte_packed (u8 ((w ≫ 16) .& 0xFF)) ;;
    mret 3.

(** [e->buf[off] = b] *)
Definition store8 (off b : Z) : M xt_emit unit := λ e,
  if Z.of_nat (length (em_buf e)) <=? off then None
  else Some (tt, set_em_buf (zset (em_buf e) off (u8 b)) e).

Definition xt_raw32 (word : Z) : M xt_emit Z :=
  e ← gets id;
  if em_cap e <? u32 (em_len e + 4) then modify (set_em_overflow true) ;; mret 0
  else
    store8 (u32 (em_len e + 0)) (word .& 0xFF) ;;
    store8 (u32 (em_len e + 1)) ((word ≫ 8) .& 0xFF) ;;
    store8 (u32 (em_len e + 2)) ((word ≫ 16) .& 0xFF) ;;
    store8 (u32 (em_len e + 3)) ((word ≫ 24) .& 0xFF) ;;
    modify (set_em_len (em_len e + 4)) ;;
    mret 4.

(** ** Instruction formats *)

Definition enc_rrr (op2 op1 r s t : Z) : Z :=
  ((op2 .& 0xF) ≪ 20) .| ((op1 .& 0xF) ≪ 16) .| ((r .& 0xF) ≪ 12) .| ((s .& 0xF) ≪ 8)
  .| ((t .& 0xF) ≪ 4) .| 0x0.

Definition enc_rri8 (r s t imm8 : Z) : Z :=
  (imm8 ≪ 16) .| ((r .& 0xF) ≪ 12) .| ((s .& 0xF) ≪ 8) .| ((t .& 0xF) ≪ 4) .| 0x2.

Definition enc_bxxz (sel_t as_ rel : Z) : Z :=
  let off := rel - 4 in
  let imm12 := u32 off .& 0xFFF in
  u32 (imm12 ≪ 12) .| ((as_ .& 0xF) ≪ 8) .| ((sel_t .& 0xF) ≪ 4) .| 0x6.

(** ** The instructions *)

Definition xt_and (ar as_ at_ : Z) : M xt_emit Z := emit24 (enc_rrr 0x1 0 ar as_ at_).
Definition xt_or (ar as_ at_ : Z) : M xt_emit Z := emit24 (enc_rrr 0x2 0 ar as_ at_).
Definition xt_xor (ar as_ at_ : Z) : M xt_emit Z := emit24 (enc_rrr 0x3 0 ar as_ at_).
Definition xt_add (ar as_ at_ : Z) : M xt_emit Z := emit24 (enc_rrr 0x8 0 ar as_ at_).
Definition xt_addx2 (ar as_ at_ : Z) : M xt_emit Z := emit24 (enc_rrr 0x9 0 ar as_ at_).
Definition xt_addx4 (ar as_ at_ : Z) : M xt_emit Z := emit24 (enc_rrr 0xA 0 ar as_ at_).
Definition xt_sub (ar as_ at_ : Z) : M xt_emit Z := emit24 (enc_rrr 0xC 0 ar as_ at_).
Definition xt_mov (ar as_ : Z) : M xt_emit Z := xt_or ar as_ as_.
Definition xt_mull (ar as_ at_ : Z) : M xt_emit Z := emit24 (enc_rrr 0x8 0x2 ar as_ at_).

Definition xt_addi (at_ as_ imm : Z) : M xt_emit Z := emit24 (enc_rri8 0xC as_ at_ (u8 imm)).
Definition xt_movi (at_ imm : Z) : M xt_emit Z :=
  let v := u32 imm .& 0xFFF in
  emit24 (enc_rri8 0xA (u8 ((v ≫ 8) .& 0xF)) at_ (u8 (v .& 0xFF))).
Definition xt_l8ui (at_ as_ off : Z) : M xt_emit Z := emit24 (enc_rri8 0x0 as_ at_ (u8 off)).
Definition xt_s8i (at_ as_ off : Z) : M xt_emit Z := emit24 (enc_rri8 0x4 as_ at_ (u8 off)).
Definition xt_l16ui (at_ as_ off : Z) : M xt_emit Z := emit24 (enc_rri8 0x1 as_ at_ (u8 (off ≫ 1))).
Definition xt_s16i (at_ as_ off : Z) : M xt_emit Z := emit24 (enc_rri8 0x5 as_ at_ (u8 (off ≫ 1))).
Definition xt_l32i (at_ as_ off : Z) : M xt_emit Z := emit24 (enc_rri8 0x2 as_ at_ (u8 (off ≫ 2))).
Definition xt_s32i (at_ as_ off : Z) : M xt_emit Z := emit24 (enc_rri8 0x6 as_ at_ (u8 (off ≫ 2))).

Definition xt_l32r (at_ lit_offset : Z) : M xt_emit Z :=
  let imm16 := u16 lit_offset in
  emit24 ((imm16 ≪ 8) .| ((at_ .& 0xF) ≪ 4) .| 0x1).

Definition xt_beqz (as_ rel : Z) : M xt_emit Z := emit24 (enc_bxxz 0x1 as_ rel).
Definition xt_bnez (as_ rel : Z) : M xt_emit Z := emit24 (enc_bxxz 0x5 as_ rel).

(** Not implemented in the source: the [assert] gone, they emit nothing. *)
Definition xt_beqi (as_ imm rel : Z) : M xt_emit Z := mret 0.
Definition xt_bnei (as_ imm rel : Z) : M xt_emit Z := mret 0.

Definition xt_j (rel : Z) : M xt_emit Z :=
  let off := rel - 4 in
  let imm18 := u32 off .& 0x3FFFF in
  emit24 ((imm18 ≪ 6) .| 0x06).
Definition xt_call0 (rel : Z) : M xt_emit Z :=
  let off := rel - 4 in
  let off := off ≫ 2 in
  let imm18 := u32 off .& 0x3FFFF in
  emit24 ((imm18 ≪ 6) .| 0x05).
Definition xt_jx (as_ : Z) : M xt_emit Z := emit24 (((as_ .& 0xF) ≪ 8) .| (0xA ≪ 4) .| 0x0).
Definition xt_callx0 (as_ : Z) : M xt_emit Z := emit24 (((as_ .& 0xF) ≪ 8) .| (0xC ≪ 4) .| 0x0).
Definition xt_ret : M xt_emit Z := emit24 0x000080.

Definition xt_extui (ar at_ shiftimm maskimm : Z) : M xt_emit Z :=
  let sh_lo4 := u8 (shiftimm .& 0xF) in
  let sh_hi1 := u8 ((shiftimm ≫ 4) .& 1) in
  emit24 (enc_rrr (u8 (maskimm .& 0xF)) (u8 (0x4 .| sh_hi1)) ar sh_lo4 at_).

Definition xt_slli (ar as_ sa : Z) : M xt_emit Z :=
  let sa1 := u8 (32 - sa) in
  let op2 := u8 ((sa1 ≫ 4) .& 1) in
  emit24 (enc_rrr op2 0x1 ar as_ (u8 (sa1 .& 0xF))).
Definition xt_srli (ar as_ sa : Z) : M xt_emit Z :=
  if sa <=? 15 then emit24 (enc_rrr 0x4 0x1 ar sa as_)
  else xt_extui ar as_ sa (u8 (31 - sa)).
Definition xt_srai (ar as_ sa : Z) : M xt_emit Z :=
  let op2 := u8 (0x2 .| ((sa ≫ 4) .& 1)) in
  emit24 (enc_rrr op2 0x1 ar (u8 (sa .& 0xF)) as_).

(** ** The instructions as data *)

(** One constructor per encoder function, with its arguments. *)
Inductive xt_instr :=
  | And (r s t : Z) | Or (r s t : Z) | Xor (r s t : Z)
  | Add (r s t : Z) | Addx2 (r s t : Z) | Addx4 (r s t : Z) | Sub (r s t : Z) | Mull (r s t : Z)
  | Addi (t s imm : Z) | Movi (t imm : Z)
  | L8ui (t s off : Z) | S8i (t s off : Z) | L16ui (t s off : Z) | S16i (t s off : Z)
  | L32i (t s off : Z) | S32i (t s off : Z)
  | L32r (t imm16 : Z)
  | Beqz (s rel : Z) | Bnez (s rel : Z) | J (rel : Z) | Call0 (rel : Z)
  | Jx (s : Z) | Callx0 (s : Z) | Ret
  | Slli (r s sa : Z) | Srli (r s sa : Z) | Srai (r s sa : Z)
  | Extui (r t shiftimm maskimm : Z).

Definition xt_emit_instr (i : xt_instr) : M xt_emit Z :=
  match i with
  | And r s t => xt_and r s t | Or r s t => xt_or r s t | Xor r s t => xt_xor r s t
  | Add r s t => xt_add r s t | Addx2 r s t => xt_addx2 r s t | Addx4 r s t => xt_addx4 r s t
  | Sub r s t => xt_sub r s t | Mull r s t => xt_mull r s t
  | Addi t s imm => xt_addi t s imm | Movi t imm => xt_movi t imm
  | L8ui t s off => xt_l8ui t s off | S8i t s off => xt_s8i t s off
  | L16ui t s off => xt_l16ui t s off | S16i t s off => xt_s16i t s off
  | L32i t s off => xt_l32i t s off | S32i t s off => xt_s32i t s off
  | L32r t imm16 => xt_l32r t imm16
  | Beqz s rel => xt_beqz s rel | Bnez s rel => xt_bnez s rel | J rel => xt_j rel
  | Call0 rel => xt_call0 rel | Jx s => xt_jx s | Callx0 s => xt_callx0 s | Ret => xt_ret
  | Slli r s sa => xt_slli r s sa | Srli r s sa => xt_srli r s sa | Srai r s sa => xt_srai r s sa
  | Extui r t sh mask => xt_extui r t sh mask
  end.

(** The operands the encoder asserts. *)
Definition reg_ok (r : Z) : bool := (0 <=? r) && (r <? 16).
Definition within (lo hi x : Z) : bool := (lo <=? x) && (x <=? hi).
Definition instr_ok (i : xt_instr) : bool :=
  match i with
  | And r s t | Or r s t | Xor r s t | Add r s t | Addx2 r s t | Addx4 r s t | Sub r s t
  | Mull r s t => reg_ok r && reg_ok s && reg_ok t
  | Addi t s imm => reg_ok t && reg_ok s && within (-128) 127 imm
  | Movi t imm => reg_ok t && within (-2048) 2047 imm
  | L8ui t s off | S8i t s off => reg_ok t && reg_ok s && within 0 255 off
  | L16ui t s off | S16i t s off => reg_ok t && reg_ok s && within 0 510 off && (off .& 1 =? 0)
  | L32i t s off | S32i t s off => reg_ok t && reg_ok s && within 0 1020 off && (off .& 3 =? 0)
  | L32r t imm16 => reg_ok t && within 0 0xFFFF imm16
  | Beqz s rel | Bnez s rel => reg_ok s && within (-2048) 2047 (rel - 4)
  | J rel => within (-0x20000) 0x1FFFF (rel - 4)
  | Call0 rel => (rel .& 3 =? 0) && within (-0x20000) 0x1FFFF ((rel - 4) ≫ 2)
  | Jx s | Callx0 s => reg_ok s
  | Ret => true
  | Slli r s sa => reg_ok r && reg_ok s && within 1 31 sa
  | Srli r s sa | Srai r s sa => reg_ok r && reg_ok s && within 0 31 sa
  | Extui r t sh mask => reg_ok r && reg_ok t && within 0 31 sh && within 0 15 mask
  end.

(** ** The word-packing buffer *)

(** The value of up to four bytes, least significant first. *)
Fixpoint le (bs : list Z) : Z := match bs with [] => 0 | b :: bs => b + 0x100 * le bs end.

Lemma le_range bs : Forall byte bs → 0 ≤ le bs < 256 ^ Z.of_nat (length bs).
Proof.
  induction 1 as [|b bs Hb _ IH]; [simpl; lia|]. cbn [le length]. unfold byte in Hb.
  rewrite Nat2Z.inj_succ, Z.pow_succ_r by lia. lia.
Qed.

Lemma le_app bs cs : le (bs ++ cs) = le bs + 256 ^ Z.of_nat (length bs) * le cs.
Proof.
  induction bs as [|b bs IH]; [change (256 ^ Z.of_nat (length (@nil Z))) with 1; simpl; lia|].
  cbn [le length app]. rewrite IH, Nat2Z.inj_succ, Z.pow_succ_r by lia. lia.
Qed.

Lemma le_u8 b bs : byte b → u8 (le (b :: bs)) = b.
Proof.
  intros. cbn [le]. unfold u8. rewrite Z.mul_comm, Z.mod_add by lia. by apply Z.mod_small.
Qed.

Lemma le_shift b bs : byte b → le (b :: bs) ≫ 8 = le bs.
Proof.
  unfold byte. intros. cbn [le]. rewrite Z.shiftr_div_pow2 by lia. change (2 ^ 8) with 256.
  rewrite Z.mul_comm, Z.div_add, Z.div_small by lia. lia.
Qed.

Lemma bytes32_le b0 b1 b2 b3 : byte b0 → byte b1 → byte b2 → byte b3 →
  bytes32 (le [b0; b1; b2; b3]) = [b0; b1; b2; b3].
Proof.
  intros. unfold bytes32.
  change 24 with (8 + (8 + 8)). change 16 with (8 + 8). rewrite <- !Z.shiftr_shiftr by lia.
  by rewrite !le_shift, !le_u8 by done.
Qed.

(** [bs] has been emitted since [xt_init buf0 cap]: the whole words are in the
    buffer, the bytes of the word in progress in the accumulator. *)
Record emitted (buf0 : list Z) (cap : Z) (bs : list Z) (e : xt_emit) : Prop := {
  et_cap : em_cap e = cap;
  et_len : em_len e = Z.of_nat (length bs);
  et_words : ∃ ws tl n, bs = ws ++ tl ∧ length ws = (4 * n)%nat ∧ (length tl < 4)%nat ∧
    em_buf e = ws ++ drop (length ws) buf0 ∧ em_word_acc e = le tl ∧ Forall byte tl
}.

Lemma xt_init_emitted buf cap : emitted buf cap [] (xt_init buf cap).
Proof. split; try done. exists [], [], 0%nat. split_and!; try done. simpl. lia. Qed.

Lemma inserts_at (ws l : list Z) (vs : list Z) : (length vs ≤ length l)%nat →
  list_inserts (length ws) vs (ws ++ l) = ws ++ vs ++ drop (length vs) l.
Proof.
  revert ws l. induction vs as [|v vs IH]; intros ws l Hl; [simpl; by rewrite drop_0|].
  destruct l as [|x l]; [simpl in Hl; lia|]. cbn [list_inserts].
  replace (S (length ws)) with (length (ws ++ [x])) by (rewrite length_app; simpl; lia).
  replace (ws ++ x :: l) with ((ws ++ [x]) ++ l) by (by rewrite <- app_assoc).
  rewrite IH by (simpl in Hl; lia). rewrite <- app_assoc. cbn [app length drop].
  rewrite insert_app_r_alt by lia. by rewrite Nat.sub_diag.
Qed.

Lemma acc_push tl b : (length tl < 4)%nat → Forall byte tl → byte b →
  le tl .| u32 (b ≪ (Z.of_nat (length tl) * 8)) = le (tl ++ [b]).
Proof.
  intros Hl Htl Hb. rewrite le_app. cbn [le]. pose proof (le_range _ Htl) as Hr.
  rewrite Z.mul_0_r, Z.add_0_r. unfold byte in Hb.
  replace (256 ^ Z.of_nat (length tl)) with (2 ^ (Z.of_nat (length tl) * 8)) in *
    by (rewrite Z.mul_comm, Z.pow_mul_r by lia; done).
  assert (2 ^ (Z.of_nat (length tl) * 8) * 0x100 ≤ 0x100000000) as Hp.
  { rewrite <- (Z.pow_add_r 2 _ 8) by lia. change 0x100000000 with (2 ^ 32).
    apply Z.pow_le_mono_r; lia. }
  rewrite u32_small by (rewrite Z.shiftl_mul_pow2 by lia; nia).
  rewrite Z.lor_comm, lor_shiftl_add by lia. lia.
Qed.

Lemma len_in_word bs (ws tl : list Z) n : bs = ws ++ tl → length ws = (4 * n)%nat →
  (length tl < 4)%nat → Z.of_nat (length bs) .& 3 = Z.of_nat (length tl).
Proof.
  intros -> Hw Ht. rewrite (land_ones_low _ 3 2) by done. change (2 ^ 2) with 4.
  rewrite length_app, Hw. replace (Z.of_nat (4 * n + length tl)) with (Z.of_nat (length tl) + Z.of_nat n * 4) by lia.
  rewrite Z.mod_add by lia. by apply Z.mod_small; lia.
Qed.

Lemma emit_byte_spec buf0 cap bs e b : emitted buf0 cap bs e → byte b →
  Z.of_nat (length bs) < cap → cap ≤ Z.of_nat (length buf0) → cap < 0x100000000 →
  ∃ e', emit_byte_packed b e = Some (tt, e') ∧ emitted buf0 cap (bs ++ [b]) e' ∧
    em_overflow e' = em_overflow e.
Proof.
  intros [Hcap Hlen (ws & tl & n & -> & Hw & Ht & Hbuf & Hacc & Htb)] Hb Hlt Hcb Hc32.
  unfold emit_byte_packed. rewrite length_app in Hlen, Hlt.
  rewrite (bind_Some (gets _) _ e (Z.of_nat (length tl)) e).
  2:{ unfold gets. rewrite Hlen, <- length_app. by rewrite (len_in_word _ ws tl n). }
  set (e1 := set_em_len (em_len e + 1) (set_em_word_acc (em_word_acc e .| u32 (b ≪ (Z.of_nat (length tl) * 8))) e)).
  enough (∃ e', when (em_len e1 .& 3 =? 0)
      (store32 (u32 (em_len e1 - 4)) (em_word_acc e1) ;; modify (set_em_word_acc 0)) e1 = Some (tt, e') ∧
    emitted buf0 cap ((ws ++ tl) ++ [b]) e' ∧ em_overflow e' = em_overflow e) as H by exact H.
  assert (em_len e1 = Z.of_nat (length (ws ++ tl ++ [b]))) as Hlen1.
  { cbn. rewrite Hlen, u32_small, !length_app by lia. simpl. lia. }
  assert (em_word_acc e1 = le (tl ++ [b])) as Hacc1.
  { cbn. rewrite Hacc, acc_push by done. apply u32_small.
    pose proof (le_range (tl ++ [b]) ltac:(apply Forall_app_2; auto)) as Hr.
    rewrite length_app in Hr. simpl in Hr.
    assert (256 ^ Z.of_nat (length tl + 1) ≤ 256 ^ 4) by (apply Z.pow_le_mono_r; lia). lia. }
  assert (Forall byte (tl ++ [b])) as Htb' by (apply Forall_app_2; auto).
  destruct (decide (length tl = 3)%nat) as [H3|H3].
  - destruct tl as [|b0 [|b1 [|b2 [|]]]]; try (simpl in H3; lia). cbn [app] in *.
    assert ((em_len e1 .& 3 =? 0) = true) as ->.
    { by rewrite Hlen1, (len_in_word _ (ws ++ [b0; b1; b2; b]) [] (S n))
        by (rewrite ?app_nil_r, ?length_app; simpl; lia || done). }
    cbn [when].
    set (buf1 := (ws ++ [b0; b1; b2; b]) ++ drop (length ws + 4) buf0).
    assert (store32 (u32 (em_len e1 - 4)) (em_word_acc e1) e1 = Some (tt, set_em_buf buf1 e1)) as Es.
    { unfold store32. change (em_buf e1) with (em_buf e). rewrite Hbuf, Hlen1, Hacc1.
      assert (length (ws ++ [b0; b1; b2; b]) = (4 * n + 4)%nat) as -> by (rewrite length_app, Hw; done).
      rewrite Hw in *. cbn [length] in Hlt. rewrite u32_small by lia.
      replace (Z.of_nat (4 * n + 4) - 4) with (Z.of_nat (4 * n)) by lia.
      rewrite length_app, length_drop.
      rewrite (proj2 (Z.ltb_ge _ _)) by lia. rewrite Nat2Z.id.
      inversion Htb' as [|? ? B0 Q]; inversion Q as [|? ? B1 Q1]; inversion Q1 as [|? ? B2 Q2]; subst.
      rewrite bytes32_le by done. rewrite <- Hw.
      rewrite inserts_at by (rewrite length_drop, Hw; cbn [length]; lia).
      unfold buf1. by rewrite <- app_assoc, drop_drop, Hw. }
    rewrite (bind_Some _ _ _ _ _ Es). eexists. split; [reflexivity|].
    split; [|done]. split; [done| |].
    + change (em_len e1 = Z.of_nat (length ((ws ++ [b0; b1; b2]) ++ [b]))). by rewrite <- app_assoc.
    + exists (ws ++ [b0; b1; b2; b]), [], (S n). split_and!; [by rewrite app_nil_r, <- app_assoc| |simpl; lia| |done|done].
      * rewrite length_app. simpl. lia.
      * cbn. unfold buf1. by rewrite length_app.
  - assert ((em_len e1 .& 3 =? 0) = false) as ->.
    { rewrite Hlen1, (len_in_word _ ws (tl ++ [b]) n) by (done || rewrite length_app; simpl; lia).
      rewrite length_app. apply Z.eqb_neq. simpl. lia. }
    exists e1. split; [done|]. split; [|done]. split; [done|by rewrite <- app_assoc|].
    exists ws, (tl ++ [b]), n. split_and!; try done; [by rewrite app_assoc|rewrite length_app; simpl; lia].
Qed.

(** ** Emission of instructions *)

(** The three bytes of an instruction word. *)
Definition word_bytes (w : Z) : list Z := [u8 w; u8 (w ≫ 8); u8 (w ≫ 16)].

Lemma word_bytes_ok w : Forall byte (word_bytes w).
Proof. repeat apply Forall_cons_2; try apply u8_range. apply Forall_nil_2. Qed.

Lemma u8_land x : u8 (x .& 0xFF) = u8 x.
Proof.
  rewrite (land_ones_low _ 0xFF 8) by done. unfold u8. by rewrite Z.mod_mod.
Qed.

(** Room for three more bytes, tested without wrapping. *)
Lemma emit24_spec buf0 cap bs e w : emitted buf0 cap bs e →
  Z.of_nat (length bs) ≤ cap → cap ≤ Z.of_nat (length buf0) → cap ≤ 0xFFFFFFFC →
  if Z.of_nat (length bs) + 3 <=? cap then
    ∃ e', emit24 w e = Some (3, e') ∧ emitted buf0 cap (bs ++ word_bytes w) e' ∧
      em_overflow e' = em_overflow e
  else emit24 w e = Some (0, set_em_overflow true e).
Proof.
  intros He Hle Hcb Hc32. unfold emit24.
  pose proof (et_len _ _ _ _ He) as Hlen. pose proof (et_cap _ _ _ _ He) as Hcap.
  rewrite (bind_Some (gets _) _ e e e) by done. rewrite Hlen, Hcap.
  rewrite u32_small by lia. rewrite Z.ltb_antisym. destruct (Z.leb_spec (Z.of_nat (length bs) + 3) cap); [|done].
  cbn [negb]. rewrite !u8_land. pose proof (word_bytes_ok w) as Hw.
  inversion Hw as [|? ? B0 Q]; inversion Q as [|? ? B1 Q1]; inversion Q1 as [|? ? B2 Q2]; subst.
  destruct (emit_byte_spec buf0 (em_cap e) bs e (u8 w) He B0) as (e1 & E1 & H1 & O1); [lia..|].
  destruct (emit_byte_spec _ _ _ e1 (u8 (w ≫ 8)) H1 B1) as (e2 & E2 & H2 & O2);
    [rewrite length_app; simpl; lia|lia..|].
  destruct (emit_byte_spec _ _ _ e2 (u8 (w ≫ 16)) H2 B2) as (e3 & E3 & H3 & O3);
    [rewrite !length_app; simpl; lia|lia..|].
  rewrite (bind_Some _ _ _ _ _ E1), (bind_Some _ _ _ _ _ E2), (bind_Some _ _ _ _ _ E3).
  exists e3. split; [done|]. split; [by rewrite <- !app_assoc in H3|congruence].
Qed.

(** The instruction word: what one emission leaves in the accumulator. *)
Definition encode (i : xt_instr) : Z :=
  match xt_emit_instr i (xt_init [0; 0; 0; 0] 4) with Some (_, e) => em_word_acc e | None => 0 end.

Lemma word_bytes_le a b c : byte a → byte b → byte c → word_bytes (le [a; b; c]) = [a; b; c].
Proof.
  intros. unfold word_bytes. change 16 with (8 + 8). rewrite <- (Z.shiftr_shiftr _ 8 8) by lia.
  by rewrite !le_shift, !le_u8 by done.
Qed.

Lemma le_word_bytes w : word_bytes (le (word_bytes w)) = word_bytes w.
Proof. apply word_bytes_le; apply u8_range. Qed.

Lemma emit_instr_word i : ∃ w, xt_emit_instr i = emit24 w.
Proof.
  destruct i; try (eexists; reflexivity). cbn [xt_emit_instr]. unfold xt_srli, xt_extui.
  case_match; eexists; reflexivity.
Qed.

Lemma encode_of i w : xt_emit_instr i = emit24 w → encode i = le (word_bytes w).
Proof.
  intros E. unfold encode. rewrite E.
  destruct (emit24_spec [0; 0; 0; 0] 4 [] (xt_init [0; 0; 0; 0] 4) w (xt_init_emitted _ _))
    as (e' & -> & He & _); [cbn; lia..|].
  destruct (et_words _ _ _ _ He) as (ws & tl & n & E3 & Hw & Ht & _ & -> & _).
  f_equal. pose proof (f_equal length E3) as El. rewrite !length_app, Hw in El. cbn in El.
  destruct ws as [|x ws]; [by symmetry|]. cbn in Hw. lia.
Qed.

Lemma emit24_bytes w w' : word_bytes w = word_bytes w' → emit24 w = emit24 w'.
Proof. intros [= E0 E1 E2]. unfold emit24. by rewrite !u8_land, E0, E1, E2. Qed.

Lemma emit_instr_encode i : xt_emit_instr i = emit24 (encode i).
Proof.
  destruct (emit_instr_word i) as [w E]. rewrite (encode_of i w E), E.
  apply emit24_bytes. by rewrite le_word_bytes.
Qed.

(** *** A program *)

Fixpoint emit_all (prog : list xt_instr) : M xt_emit unit :=
  match prog with [] => mret tt | i :: prog => xt_emit_instr i ;; emit_all prog end.

Definition code_bytes (prog : list xt_instr) : list Z := prog ≫= λ i, word_bytes (encode i).

Lemma code_bytes_cons i prog : code_bytes (i :: prog) = word_bytes (encode i) ++ code_bytes prog.
Proof. done. Qed.

Lemma code_bytes_length prog : length (code_bytes prog) = (3 * length prog)%nat.
Proof.
  induction prog as [|i prog IH]; [done|].
  rewrite code_bytes_cons, length_app, IH. cbn [length word_bytes]. lia.
Qed.

Lemma code_bytes_ok prog : Forall byte (code_bytes prog).
Proof.
  induction prog as [|i prog IH]; [apply Forall_nil_2|]. apply Forall_app_2; [apply word_bytes_ok|done].
Qed.

(** How many instructions fit. *)
Definition fitting (cap : Z) (prog : list xt_instr) : nat := Nat.min (length prog) (Z.to_nat (cap / 3)).

Lemma emit_all_full prog e : em_cap e < em_len e + 3 →
  0 ≤ em_len e → em_cap e ≤ 0xFFFFFFFC → em_len e ≤ em_cap e →
  emit_all prog e = Some (tt, match prog with [] => e | _ => set_em_overflow true e end).
Proof.
  revert e. induction prog as [|i prog IH]; intros e H1 H2 H3 H4; [done|].
  cbn [emit_all]. rewrite emit_instr_encode.
  assert (emit24 (encode i) e = Some (0, set_em_overflow true e)) as E.
  { unfold emit24. rewrite (bind_Some (gets _) _ e e e) by done. rewrite u32_small by lia.
    by rewrite (proj2 (Z.ltb_lt _ _)). }
  rewrite (bind_Some _ _ _ _ _ E), IH by done. by destruct prog.
Qed.

Lemma emit_all_spec buf0 cap prog bs e : emitted buf0 cap bs e →
  Z.of_nat (length bs) ≤ cap → cap ≤ Z.of_nat (length buf0) → cap ≤ 0xFFFFFFFC →
  let n := fitting (cap - Z.of_nat (length bs)) prog in
  ∃ e', emit_all prog e = Some (tt, e') ∧ emitted buf0 cap (bs ++ code_bytes (take n prog)) e' ∧
    em_overflow e' = em_overflow e || negb (n =? length prog)%nat.
Proof.
  revert bs e. induction prog as [|i prog IH]; intros bs e He Hle Hcb Hc32 n.
  { exists e. split; [done|]. unfold n, fitting. cbn. rewrite app_nil_r, orb_false_r. done. }
  pose proof (emit24_spec buf0 cap bs e (encode i) He Hle Hcb Hc32) as H.
  destruct (Z.leb_spec (Z.of_nat (length bs) + 3) cap) as [Hfit|Hfull].
  - destruct H as (e1 & E1 & H1 & O1). cbn [emit_all]. rewrite emit_instr_encode, (bind_Some _ _ _ _ _ E1).
    assert (Z.of_nat (length (bs ++ word_bytes (encode i))) = Z.of_nat (length bs) + 3) as El
      by (rewrite length_app; simpl; lia).
    destruct (IH _ _ H1 ltac:(lia) Hcb Hc32) as (e2 & E2 & H2 & O2). exists e2. split; [done|].
    assert (n = S (fitting (cap - Z.of_nat (length (bs ++ word_bytes (encode i)))) prog)) as ->.
    { unfold n, fitting. rewrite El. cbn [length].
      replace (cap - Z.of_nat (length bs)) with (cap - (Z.of_nat (length bs) + 3) + 1 * 3) by lia.
      rewrite Z.div_add by lia. assert (0 ≤ (cap - (Z.of_nat (length bs) + 3)) / 3) by (apply Z.div_pos; lia).
      lia. }
    split; [|by rewrite O2, O1]. cbn [take]. rewrite code_bytes_cons.
    by rewrite <- app_assoc in H2.
  - assert (n = 0%nat) as ->.
    { unfold n, fitting. rewrite (Z.div_small (cap - _)) by lia. lia. }
    pose proof (et_cap _ _ _ _ He). pose proof (et_len _ _ _ _ He). rewrite emit_all_full by lia.
    eexists. split; [done|]. cbn. rewrite app_nil_r, orb_true_r. split; [|done].
    destruct He as [? ? W]. by split.
Qed.

(** The bytes of [bs] and the zeros that complete its last word. *)
Definition padding (bs : list Z) : nat := (Z.to_nat ((- Z.of_nat (length bs)) mod 4)).
Definition padded (bs : list Z) : list Z := bs ++ replicate (padding bs) 0.

Lemma padding_tail ws tl n : length ws = (4 * n)%nat → (length tl < 4)%nat →
  padding (ws ++ tl) = match length tl with O => O | k => (4 - k)%nat end.
Proof.
  intros Hw Ht. unfold padding. rewrite length_app, Hw.
  replace (- Z.of_nat (4 * n + length tl)) with (- Z.of_nat (length tl) + (- Z.of_nat n) * 4) by lia.
  rewrite Z.mod_add by lia. by destruct tl as [|? [|? [|? [|]]]]; simpl in Ht; try lia.
Qed.

Lemma land_not3 x : 0 ≤ x < 0x100000000 → x .& not32 3 = x - x mod 4.
Proof. by apply (land_not_low 2). Qed.

Lemma bytes32_tail tl : (0 < length tl < 4)%nat → Forall byte tl →
  bytes32 (le tl) = tl ++ replicate (4 - length tl) 0.
Proof.
  intros Hl Ht. assert (byte 0) by done.
  destruct tl as [|a [|b [|c [|]]]]; simpl in Hl; try lia; decompose_Forall_hyps.
  - by rewrite <- (bytes32_le a 0 0 0).
  - by rewrite <- (bytes32_le a b 0 0).
  - by rewrite <- (bytes32_le a b c 0).
Qed.

Lemma flush_spec buf0 cap bs e : emitted buf0 cap bs e →
  Z.of_nat (length bs) ≤ cap → cap ≤ Z.of_nat (length buf0) → cap .& 3 = 0 → cap ≤ 0xFFFFFFFC →
  ∃ e', xt_flush_pending e = Some (tt, e') ∧
    em_buf e' = padded bs ++ drop (length (padded bs)) buf0 ∧
    em_len e' = em_len e ∧ em_cap e' = em_cap e ∧ em_overflow e' = em_overflow e.
Proof.
  intros [Hcap Hlen (ws & tl & n & -> & Hw & Ht & Hbuf & Hacc & Htb)] Hle Hcb Hc4 Hc32.
  unfold xt_flush_pending. rewrite (bind_Some (gets _) _ e e e) by done.
  assert (em_len e .& 3 = Z.of_nat (length tl)) as El by (by rewrite Hlen, (len_in_word _ ws tl n)).
  rewrite El. pose proof (padding_tail ws tl n Hw Ht) as Hp.
  destruct (decide (tl = [])) as [->|Hne].
  { exists e. unfold padded. rewrite Hp. simpl. rewrite !app_nil_r in *. by split_and!. }
  assert (0 < length tl)%nat as Ht0 by (destruct tl; [done|simpl; lia]).
  assert (nz (Z.of_nat (length tl)) = true) as -> by (apply negb_true_iff, Z.eqb_neq; lia).
  cbn [when]. rewrite (land_ones_low _ 3 2) in El by done. rewrite (land_ones_low _ 3 2) in Hc4 by done. change (2 ^ 2) with 4 in *.
  rewrite length_app, Hw in Hlen, Hle.
  rewrite land_not3, El, Hlen by lia.
  replace (Z.of_nat (4 * n + length tl) - Z.of_nat (length tl)) with (Z.of_nat (4 * n)) by lia.
  assert (Z.of_nat (4 * n) + 4 ≤ cap) as H4 by (pose proof (Z.div_mod cap 4); lia).
  unfold store32. rewrite Hbuf, Hacc, length_app, length_drop, Hw, Nat2Z.id.
  rewrite (proj2 (Z.ltb_ge _ _)) by lia. eexists. split; [done|]. cbn [em_buf em_len em_cap em_overflow set_em_buf]. split; [|done].
  rewrite bytes32_tail by done. rewrite <- Hw.
  assert (length (tl ++ replicate (4 - length tl) 0) = 4%nat) as E4
    by (rewrite length_app, length_replicate; lia).
  rewrite inserts_at by (rewrite E4, length_drop; lia).
  unfold padded. rewrite Hp, drop_drop, E4.
  replace (match length tl with 0%nat => 0%nat | _ => _ end) with (4 - length tl)%nat by (destruct tl; [done|simpl; lia]).
  rewrite <- !app_assoc.
  replace (length (ws ++ tl ++ replicate (4 - length tl) 0)) with (length ws + 4)%nat by (rewrite length_app; lia).
  done.
Qed.

Lemma emit_stream_spec buf cap prog : 0 ≤ cap ≤ 0xFFFFFFFC → cap .& 3 = 0 →
  cap ≤ Z.of_nat (length buf) →
  let code := code_bytes (take (fitting cap prog) prog) in
  ∃ e, (emit_all prog ;; xt_flush_pending) (xt_init buf cap) = Some (tt, e) ∧
    em_buf e = padded code ++ drop (length (padded code)) buf ∧
    em_len e = 3 * Z.of_nat (fitting cap prog) ∧
    em_overflow e = (cap <? 3 * Z.of_nat (length prog)).
Proof.
  intros Hc Hc4 Hb code.
  destruct (emit_all_spec buf cap prog [] _ (xt_init_emitted buf cap)) as (e1 & E1 & H1 & O1); [simpl; lia..|].
  rewrite Z.sub_0_r in *. rewrite (bind_Some _ _ _ _ _ E1).
  assert (Z.of_nat (fitting cap prog) ≤ cap / 3) as Hf by (unfold fitting; assert (0 ≤ cap / 3) by (apply Z.div_pos; lia); lia).
  assert (3 * (cap / 3) ≤ cap) as H3 by (apply Z.mul_div_le; lia).
  assert (length (take (fitting cap prog) prog) = fitting cap prog) as El
    by (rewrite length_take; unfold fitting; lia).
  assert (Z.of_nat (length code) ≤ cap) as Hlen by (unfold code; rewrite code_bytes_length, El; lia).
  destruct (flush_spec buf cap code e1 H1 Hlen Hb Hc4) as (e2 & E2 & B2 & L2 & C2 & O2); [lia|].
  exists e2. split_and!; [done|done| |].
  - rewrite L2, (et_len _ _ _ _ H1). cbn [app]. rewrite code_bytes_length, El. lia.
  - rewrite O2, O1. cbn [em_overflow xt_init orb]. apply eqb_iff.
    rewrite negb_true_iff, Nat.eqb_neq, Z.ltb_lt. unfold fitting.
    assert (0 ≤ cap / 3) by (apply Z.div_pos; lia). pose proof (Z.div_mod cap 3).
    pose proof (Z.mod_pos_bound cap 3). lia.
Qed.

(** C31.  Emitting a program into a fresh buffer and flushing it leaves, from
    the start of the buffer, the three little-endian bytes of each instruction,
    the last word completed with zeros and the rest of memory as it was; when
    the program does not fit, exactly the instructions that fit are there and
    the overflow flag is set.  The buffer holds [cap] bytes, a whole number of
    words. *)
Theorem emit_stream buf cap prog : 0 ≤ cap ≤ 0xFFFFFFFC → cap .& 3 = 0 →
  cap ≤ Z.of_nat (length buf) →
  let code := code_bytes (take (fitting cap prog) prog) in
  ∃ e, (emit_all prog ;; xt_flush_pending) (xt_init buf cap) = Some (tt, e) ∧
    em_buf e = padded code ++ drop (length (padded code)) buf ∧
    em_len e = 3 * Z.of_nat (fitting cap prog) ∧
    em_overflow e = (cap <? 3 * Z.of_nat (length prog)).
Proof. apply emit_stream_spec. Qed.

Lemma emit_stream_witness : ∃ e,
  (emit_all [Movi 3 5; Ret; Ret] ;; xt_flush_pending) (xt_init (replicate 8 0xEE) 8) = Some (tt, e) ∧
  em_buf e = [0x32; 0xA0; 0x05; 0x80; 0; 0; 0; 0] ∧ em_overflow e = true.
Proof.
  destruct (emit_stream (replicate 8 0xEE) 8 [Movi 3 5; Ret; Ret]) as (e & E & B & _ & O); [done|done|done|].
  exists e. split; [exact E|]. split; [rewrite B; reflexivity|rewrite O; reflexivity].
Defined.
