(* ===== verification/XtSim.v ===== *)
(** * The Xtensa simulator (jit/xtensa_sim.c)

    The host build runs generated code through this interpreter.  What its
    callbacks reach is the host, a state of its own: [translate] gives the host
    address behind an address of the code, [host_peek] and [host_poke] are the
    byte accesses through that pointer (undefined outside an object). *)

From Stdlib Require Import ZArith Lia.
From stdpp Require Import base tactics list numbers.
From S2P Require Import Prelude XtEmit.

(** ** The simulator *)

Inductive sim_status := XT_SIM_RUN | XT_SIM_RETURNED | XT_SIM_BAD_OPCODE | XT_SIM_OUT_OF_RANGE.
#[export] Instance sim_status_eq_dec : EqDecision sim_status.
Proof. solve_decision. Defined.

Record xt_sim (H : Type) := mk_sim {
  sim_a : list Z;
  sim_code : list Z;
  sim_code_size : Z;
  sim_pc : Z;
  sim_instr_count : Z;
  sim_user : H;
  sim_st : sim_status
}.
Arguments mk_sim {H}.
Arguments sim_a {H}.
Arguments sim_code {H}.
Arguments sim_code_size {H}.
Arguments sim_pc {H}.
Arguments sim_instr_count {H}.
Arguments sim_user {H}.
Arguments sim_st {H}.

(** The callbacks; [None] is a null pointer. *)
Class SimHost (H : Type) := {
  call_thunk : option (Z → M (xt_sim H) unit);
  read_literal : option (xt_sim H → Z → Z);
  translate : option (xt_sim H → Z → option Z);
  host_peek : H → Z → option Z;
  host_poke : H → Z → Z → option H
}.

Section sim.
Context {H : Type} `{SimHost H}.

Definition set_sim_a (v : list Z) (s : xt_sim H) : xt_sim H :=
  mk_sim v (sim_code s) (sim_code_size s) (sim_pc s) (sim_instr_count s) (sim_user s) (sim_st s).
Definition set_sim_pc (v : Z) (s : xt_sim H) : xt_sim H :=
  mk_sim (sim_a s) (sim_code s) (sim_code_size s) (u32 v) (sim_instr_count s) (sim_user s) (sim_st s).
Definition set_sim_count (v : Z) (s : xt_sim H) : xt_sim H :=
  mk_sim (sim_a s) (sim_code s) (sim_code_size s) (sim_pc s) (u64 v) (sim_user s) (sim_st s).
Definition set_sim_user (v : H) (s : xt_sim H) : xt_sim H :=
  mk_sim (sim_a s) (sim_code s) (sim_code_size s) (sim_pc s) (sim_instr_count s) v (sim_st s).
Definition set_sim_st (v : sim_status) (s : xt_sim H) : xt_sim H :=
  mk_sim (sim_a s) (sim_code s) (sim_code_size s) (sim_pc s) (sim_instr_count s) (sim_user s) v.

(** [s->a[r]] and [s->a[r] = v]. *)
Definition ar (s : xt_sim H) (r : Z) : Z := znth (sim_a s) r.
Definition set_ar (r v : Z) (s : xt_sim H) : xt_sim H := set_sim_a (zset (sim_a s) r (u32 v)) s.

Definition xt_sim_init (code : list Z) (code_size : Z) (user : H) : xt_sim H :=
  mk_sim (replicate 16 0) code code_size 0 0 user XT_SIM_RUN.

Definition SENTINEL_RET : Z := 0.

(** [s->code[i]] *)
Definition code_at (s : xt_sim H) (i : Z) : option Z :=
  if i <? 0 then None else sim_code s !! Z.to_nat i.

Definition fetch24 : M (xt_sim H) Z := λ s,
  if sim_code_size s <? u32 (sim_pc s + 3) then Some (0, set_sim_st XT_SIM_OUT_OF_RANGE s)
  else
    match code_at s (sim_pc s), code_at s (u32 (sim_pc s + 1)), code_at s (u32 (sim_pc s + 2)) with
    | Some b0, Some b1, Some b2 => Some (b0 .| (b1 ≪ 8) .| (b2 ≪ 16), set_sim_pc (sim_pc s + 3) s)
    | _, _, _ => None
    end.

Definition sign_extend (v bits : Z) : Z :=
  let mask := 1 ≪ (bits - 1) in u32 ((v .^ mask) - mask).

Definition fld_op0 (w : Z) : Z := w .& 0xF.
Definition fld_t (w : Z) : Z := (w ≫ 4) .& 0xF.
Definition fld_s (w : Z) : Z := (w ≫ 8) .& 0xF.
Definition fld_r (w : Z) : Z := (w ≫ 12) .& 0xF.
Definition fld_op1 (w : Z) : Z := (w ≫ 16) .& 0xF.
Definition fld_op2 (w : Z) : Z := (w ≫ 20) .& 0xF.
Definition fld_imm8 (w : Z) : Z := (w ≫ 16) .& 0xFF.
Definition fld_imm16 (w : Z) : Z := (w ≫ 8) .& 0xFFFF.

(** The pointer for an address, null when the callback is missing. *)
Definition host_ptr (addr : Z) : M (xt_sim H) (option Z) :=
  gets (λ s, translate ≫= λ f, f s addr).
(** [p[k]] and [p[k] = v]. *)
Definition peek (p k : Z) : M (xt_sim H) Z := λ s,
  (λ v, (v, s)) <$> host_peek (sim_user s) (p + k).
Definition poke (p k v : Z) : M (xt_sim H) unit := λ s,
  (λ h, (tt, set_sim_user h s)) <$> host_poke (sim_user s) (p + k) (u8 v).

(** [p ? e(p) : 0] into [a[t]]. *)
Definition load_into (t addr : Z) (e : Z → M (xt_sim H) Z) : M (xt_sim H) unit :=
  p ← host_ptr addr;
  v ← match p with Some p => e p | None => mret 0 end;
  modify (set_ar t v).
(** [if (p) { ... }] *)
Definition store_at (addr : Z) (e : Z → M (xt_sim H) unit) : M (xt_sim H) unit :=
  p ← host_ptr addr;
  match p with Some p => e p | None => mret tt end.

(** The load/store and immediate group, by the [r] field. *)
Definition step_rri8 (w : Z) : M (xt_sim H) unit :=
  let t := fld_t w in let sr := fld_s w in let imm := fld_imm8 w in
  s ← gets id;
  match fld_r w with
  | 0x0 => load_into t (u32 (ar s sr + imm)) (λ p, peek p 0)
  | 0x4 => store_at (u32 (ar s sr + imm)) (λ p, poke p 0 (ar s t .& 0xFF))
  | 0x1 => load_into t (u32 (ar s sr + (imm ≪ 1))) (λ p,
             p0 ← peek p 0; p1 ← peek p 1; mret (p0 .| (p1 ≪ 8)))
  | 0x5 => store_at (u32 (ar s sr + (imm ≪ 1))) (λ p,
             poke p 0 (ar s t .& 0xFF) ;; poke p 1 ((ar s t ≫ 8) .& 0xFF))
  | 0x2 => load_into t (u32 (ar s sr + (imm ≪ 2))) (λ p,
             p0 ← peek p 0; p1 ← peek p 1; p2 ← peek p 2; p3 ← peek p 3;
             mret (p0 .| (p1 ≪ 8) .| (p2 ≪ 16) .| (p3 ≪ 24)))
  | 0x6 => store_at (u32 (ar s sr + (imm ≪ 2))) (λ p,
             poke p 0 (ar s t .& 0xFF) ;; poke p 1 ((ar s t ≫ 8) .& 0xFF) ;;
             poke p 2 ((ar s t ≫ 16) .& 0xFF) ;; poke p 3 ((ar s t ≫ 24) .& 0xFF))
  | 0xC => modify (set_ar t (ar s sr + i32 (sign_extend imm 8)))
  | 0xA => let imm12 := (sr ≪ 8) .| imm in modify (set_ar t (sign_extend imm12 12))
  | _ => modify (set_sim_st XT_SIM_BAD_OPCODE)
  end.

(** JX, CALLX0 and RET; [None] falls through to the arithmetic. *)
Definition step_jump (t sr : Z) : option (M (xt_sim H) unit) :=
  match t with
  | 0xA => Some (
      s ← gets id;
      let target := ar s sr in
      if (sr =? 0) && (target =? SENTINEL_RET) then modify (set_sim_st XT_SIM_RETURNED)
      else modify (set_sim_pc target))
  | 0xC => Some (
      s ← gets id;
      let fn_token := ar s sr in
      modify (set_ar 0 (sim_pc s)) ;;
      match call_thunk with Some f => f fn_token | None => mret tt end)
  | 0x8 => Some (
      s ← gets id;
      if ar s 0 =? SENTINEL_RET then modify (set_sim_st XT_SIM_RETURNED)
      else modify (set_sim_pc (ar s 0)))
  | _ => None
  end.

(** Arithmetic and logic of [op1 = 0]. *)
Definition alu (op2 x y : Z) : option Z :=
  match op2 with
  | 0x1 => Some (x .& y)
  | 0x2 => Some (x .| y)
  | 0x3 => Some (x .^ y)
  | 0x8 => Some (x + y)
  | 0x9 => Some (u32 (x ≪ 1) + y)
  | 0xA => Some (u32 (x ≪ 2) + y)
  | 0xC => Some (x - y)
  | _ => None
  end.

Definition step_arith (op2 op1 r sr t : Z) : M (xt_sim H) unit :=
  s ← gets id;
  match (if op1 =? 0 then alu op2 (ar s sr) (ar s t) else None) with
  | Some v => modify (set_ar r v)
  | None =>
      if (op1 =? 0x2) && (op2 =? 0x8) then modify (set_ar r (ar s sr * ar s t))
      else if (op1 =? 0x1) && ((op2 =? 0x0) || (op2 =? 0x1)) then
        let sa1 := (op2 ≪ 4) .| t in
        let sa := u32 (32 - sa1) in
        modify (set_ar r (if 32 <=? sa then 0 else ar s sr ≪ sa))
      else if (op1 =? 0x1) && ((op2 =? 0x2) || (op2 =? 0x3)) then
        let sa := ((op2 .& 1) ≪ 4) .| sr in
        let v := i32 (ar s t) in
        modify (set_ar r (if 32 <=? sa then v ≫ 31 else v ≫ sa))
      else if (op1 =? 0x1) && (op2 =? 0x4) then modify (set_ar r (ar s t ≫ sr))
      else if op1 .& 0xE =? 0x4 then
        let sh_hi1 := op1 .& 1 in
        let shift := (sh_hi1 ≪ 4) .| sr in
        let width := op2 + 1 in
        let mask := if width =? 32 then 0xFFFFFFFF else u32 ((1 ≪ width) - 1) in
        modify (set_ar r ((ar s t ≫ shift) .& mask))
      else modify (set_sim_st XT_SIM_BAD_OPCODE)
  end.

Definition step_rrr (w : Z) : M (xt_sim H) unit :=
  let op2 := fld_op2 w in let op1 := fld_op1 w in
  let r := fld_r w in let sr := fld_s w in let t := fld_t w in
  match (if (op1 =? 0) && (op2 =? 0) && (r =? 0) then step_jump t sr else None) with
  | Some m => m
  | None => step_arith op2 op1 r sr t
  end.

(** BEQZ and BNEZ. *)
Definition step_branch (pc_start w : Z) : M (xt_sim H) unit :=
  let sel := fld_t w in let sr := fld_s w in
  let off := i32 (sign_extend ((w ≫ 12) .& 0xFFF) 12) in
  let target := u32 (pc_start + 4 + off) in
  s ← gets id;
  if sel =? 0x1 then when (ar s sr =? 0) (modify (set_sim_pc target))
  else if sel =? 0x5 then when (negb (ar s sr =? 0)) (modify (set_sim_pc target))
  else modify (set_sim_st XT_SIM_BAD_OPCODE).

(** L32R: the literal at [(pc + 3) & ~3] plus four times the signed offset. *)
Definition step_l32r (pc_start w : Z) : M (xt_sim H) unit :=
  let at_ := fld_t w in
  let rel := i32 (sign_extend (fld_imm16 w) 16) in
  let target_off := i32 (i32 (u32 (pc_start + 3) .& not32 3) + (rel ≪ 2)) in
  s ← gets id;
  let val := match read_literal with Some f => f s (u32 target_off) | None => 0 end in
  modify (set_ar at_ val).

(** The instruction [w] fetched at [pc_start], the program counter past it. *)
Definition step_word (pc_start w : Z) : M (xt_sim H) unit :=
  let op0 := fld_op0 w in
  if op0 =? 0x1 then step_l32r pc_start w
  else if op0 =? 0x2 then step_rri8 w
  else if w .& 0x3F =? 0x05 then
    let off := i32 (sign_extend ((w ≫ 6) .& 0x3FFFF) 18) in
    let target := u32 ((pc_start .& not32 3) + 4 + (off ≪ 2)) in
    s ← gets id;
    modify (set_ar 0 (sim_pc s)) ;; modify (set_sim_pc target)
  else if w .& 0x3F =? 0x06 then
    let off := i32 (sign_extend ((w ≫ 6) .& 0x3FFFF) 18) in
    modify (set_sim_pc (pc_start + 4 + off))
  else if op0 =? 0x6 then step_branch pc_start w
  else if op0 =? 0x0 then step_rrr w
  else modify (set_sim_st XT_SIM_BAD_OPCODE).

Definition step : M (xt_sim H) unit :=
  pc_start ← gets sim_pc;
  w ← fetch24;
  st ← gets sim_st;
  if decide (st = XT_SIM_RUN) then step_word pc_start w else mret tt.

(** [max_steps] iterations at most, while the status is [XT_SIM_RUN]. *)
Fixpoint xt_sim_run (max_steps : nat) : M (xt_sim H) unit :=
  st ← gets sim_st;
  match max_steps with
  | O => mret tt
  | S n =>
      if decide (st = XT_SIM_RUN) then
        step ;; modify (λ s, set_sim_count (sim_instr_count s + 1) s) ;; xt_sim_run n
      else mret tt
  end.
End sim.
