(* ===== verification/XtExec.v ===== *)
(** * Generated code runs as documented

    The meaning of each instruction as [jit/emit_xtensa.h] documents it, and
    the agreement of the encoder and the simulator on it: the two are written
    independently in the source, so that neither can hide a fault of the
    other. *)

From Stdlib Require Import ZArith Lia Btauto.
From stdpp Require Import base tactics list numbers.
From S2P Require Import Prelude XtEmit XtSim.

(** ** The documented meaning *)

Section sem.
Context {H : Type} `{SimHost H}.

Definition set_next (pc : Z) (s : xt_sim H) : xt_sim H := set_sim_pc (pc + 3) s.

(** [ar = v], and on to the next instruction. *)
Definition sem_set (r : Z) (v : xt_sim H → Z) : M (xt_sim H) unit :=
  modify (λ s, set_ar r (v s) (set_next (sim_pc s) s)).

Definition sem_load (t s off : Z) (e : Z → M (xt_sim H) Z) : M (xt_sim H) unit :=
  modify (λ x, set_next (sim_pc x) x) ;;
  x ← gets id;
  load_into t (u32 (ar x s + off)) e.
Definition sem_store (t s off : Z) (e : Z → Z → M (xt_sim H) unit) : M (xt_sim H) unit :=
  modify (λ x, set_next (sim_pc x) x) ;;
  x ← gets id;
  store_at (u32 (ar x s + off)) (λ p, e p (ar x t)).

(** Bytes behind a pointer, least significant first. *)
Fixpoint peek_le (n : nat) (p k : Z) : M (xt_sim H) Z :=
  match n with
  | O => mret 0
  | S n => b ← peek p k; v ← peek_le n p (k + 1); mret (b + 0x100 * v)
  end.
Fixpoint poke_le (n : nat) (p k v : Z) : M (xt_sim H) unit :=
  match n with
  | O => mret tt
  | S n => poke p k (u8 v) ;; poke_le n p (k + 1) (v / 0x100)
  end.

Definition sem_jump (target : Z) (is_ret : bool) : M (xt_sim H) unit :=
  modify (if is_ret then set_sim_st XT_SIM_RETURNED else set_sim_pc target).

Definition sem (i : xt_instr) : M (xt_sim H) unit :=
  x ← gets id;
  let pc := sim_pc x in
  match i with
  | And r s t => sem_set r (λ x, ar x s .& ar x t)
  | Or r s t => sem_set r (λ x, ar x s .| ar x t)
  | Xor r s t => sem_set r (λ x, ar x s .^ ar x t)
  | Add r s t => sem_set r (λ x, ar x s + ar x t)
  | Addx2 r s t => sem_set r (λ x, 2 * ar x s + ar x t)
  | Addx4 r s t => sem_set r (λ x, 4 * ar x s + ar x t)
  | Sub r s t => sem_set r (λ x, ar x s - ar x t)
  | Mull r s t => sem_set r (λ x, ar x s * ar x t)
  | Addi t s imm => sem_set t (λ x, ar x s + imm)
  | Movi t imm => sem_set t (λ _, imm)
  | L8ui t s off => sem_load t s off (λ p, peek_le 1 p 0)
  | L16ui t s off => sem_load t s off (λ p, peek_le 2 p 0)
  | L32i t s off => sem_load t s off (λ p, peek_le 4 p 0)
  | S8i t s off => sem_store t s off (λ p v, poke_le 1 p 0 v)
  | S16i t s off => sem_store t s off (λ p v, poke_le 2 p 0 v)
  | S32i t s off => sem_store t s off (λ p v, poke_le 4 p 0 v)
  | L32r t imm16 =>
      let target := u32 (4 * ((pc + 3) / 4) + 4 * i16 imm16) in
      modify (set_next pc) ;;
      x ← gets id;
      modify (set_ar t (match read_literal with Some f => f x target | None => 0 end))
  | Beqz s rel => modify (set_sim_pc (if ar x s =? 0 then pc + rel else pc + 3))
  | Bnez s rel => modify (set_sim_pc (if ar x s =? 0 then pc + 3 else pc + rel))
  | J rel => modify (set_sim_pc (pc + rel))
  | Call0 rel => modify (set_ar 0 (pc + 3)) ;; modify (set_sim_pc (4 * (pc / 4) + rel))
  | Jx s => modify (set_next pc) ;; sem_jump (ar x s) ((s =? 0) && (ar x s =? 0))
  | Callx0 s =>
      modify (set_next pc) ;; modify (set_ar 0 (pc + 3)) ;;
      match call_thunk with Some f => f (ar x s) | None => mret tt end
  | Ret => modify (set_next pc) ;; sem_jump (ar x 0) (ar x 0 =? 0)
  | Slli r s sa => sem_set r (λ x, ar x s * 2 ^ sa)
  | Srli r s sa => sem_set r (λ x, ar x s / 2 ^ sa)
  | Srai r s sa => sem_set r (λ x, i32 (ar x s) / 2 ^ sa)
  | Extui r t sh mask => sem_set r (λ x, (ar x t / 2 ^ sh) mod 2 ^ (mask + 1))
  end.

(** The registers hold words, and the simulator runs. *)
Record running (s : xt_sim H) : Prop := {
  rn_len : length (sim_a s) = 16%nat;
  rn_regs : Forall (λ x, 0 ≤ x < 0x100000000) (sim_a s);
  rn_pc : 0 ≤ sim_pc s < 0xFFFFFFF0;
  rn_run : sim_st s = XT_SIM_RUN
}.

Lemma ar_range s r : running s → 0 ≤ ar s r < 0x100000000.
Proof. intros [_ Hr _ _]. apply (znth_Forall (λ x, 0 ≤ x < 0x100000000)); [lia|done]. Qed.

End sem.

(** ** The fields of an instruction word *)

#[local] Ltac Zify.zify_post_hook ::= Z.to_euclidean_division_equations.

Definition nib (x : Z) : Prop := 0 ≤ x < 16.

(** Six nibbles, the opcode first. *)
Definition word6 (n0 n1 n2 n3 n4 n5 : Z) : Z :=
  n0 + 16 * (n1 + 16 * (n2 + 16 * (n3 + 16 * (n4 + 16 * n5)))).

Lemma nib_land x : nib x → x .& 0xF = x.
Proof. unfold nib. intros. rewrite (land_ones_low _ 0xF 4) by done. by apply Z.mod_small. Qed.

Lemma enc_rrr_word op2 op1 r s t : nib op2 → nib op1 → nib r → nib s → nib t →
  enc_rrr op2 op1 r s t = word6 0 t s r op1 op2.
Proof.
  intros. unfold enc_rrr. rewrite !nib_land, Z.lor_0_r by done. unfold nib in *.
  rewrite <- !Z.lor_assoc. rewrite (Z.shiftl_mul_pow2 t) by lia.
  rewrite (lor_shiftl_add 8 s), (lor_shiftl_add 12 r), (lor_shiftl_add 16 op1),
    (lor_shiftl_add 20 op2) by lia. unfold word6. lia.
Qed.

Lemma enc_rri8_word r s t imm8 : nib r → nib s → nib t → byte imm8 →
  enc_rri8 r s t imm8 = word6 2 t s r (imm8 mod 16) (imm8 / 16).
Proof.
  intros. unfold enc_rri8. rewrite !nib_land by done. unfold nib, byte in *.
  rewrite <- !Z.lor_assoc.
  rewrite (lor_shiftl_add 4 t), (lor_shiftl_add 8 s), (lor_shiftl_add 12 r),
    (lor_shiftl_add 16 imm8) by lia. unfold word6. lia.
Qed.

Lemma enc_bxxz_word sel s rel : nib sel → nib s → -2048 ≤ rel - 4 ≤ 2047 →
  let imm := (rel - 4) mod 0x1000 in
  enc_bxxz sel s rel = word6 6 sel s (imm mod 16) (imm / 16 mod 16) (imm / 256).
Proof.
  intros. unfold enc_bxxz. rewrite !nib_land by done. unfold nib in *.
  rewrite (land_ones_low _ 0xFFF 12) by done.
  assert (u32 (rel - 4) mod 2 ^ 12 = imm) as -> by (unfold imm, u32; lia).
  assert (0 ≤ imm < 0x1000) by (unfold imm; lia).
  rewrite u32_small by (rewrite Z.shiftl_mul_pow2 by lia; lia).
  rewrite <- !Z.lor_assoc.
  rewrite (lor_shiftl_add 4 sel), (lor_shiftl_add 8 s), (lor_shiftl_add 12 imm) by lia.
  unfold word6. clearbody imm. lia.
Qed.

Lemma shiftr_land x k m : 0 ≤ k → 0 ≤ m → (x ≫ k) .& (2 ^ m - 1) = (x / 2 ^ k) mod 2 ^ m.
Proof. intros. rewrite <- Z.shiftr_div_pow2 by done. apply (land_ones_low _ (2 ^ m - 1) m); done. Qed.

Section fields.
Context (n0 n1 n2 n3 n4 n5 : Z).
Context (H0 : nib n0) (H1 : nib n1) (H2 : nib n2) (H3 : nib n3) (H4 : nib n4) (H5 : nib n5).

Lemma word6_range : 0 ≤ word6 n0 n1 n2 n3 n4 n5 < 0x1000000.
Proof using H0 H1 H2 H3 H4 H5. unfold word6, nib in *. lia. Qed.

#[local] Ltac field k m := rewrite (shiftr_land _ k m) by lia; unfold word6, nib in *; lia.

Lemma fld_op0_word : fld_op0 (word6 n0 n1 n2 n3 n4 n5) = n0.
Proof using H0 H1 H2 H3 H4 H5. unfold fld_op0. rewrite (land_ones_low _ 0xF 4) by done. unfold word6, nib in *. lia. Qed.
Lemma fld_t_word : fld_t (word6 n0 n1 n2 n3 n4 n5) = n1.
Proof using H0 H1 H2 H3 H4 H5. unfold fld_t. field 4 4. Qed.
Lemma fld_s_word : fld_s (word6 n0 n1 n2 n3 n4 n5) = n2.
Proof using H0 H1 H2 H3 H4 H5. unfold fld_s. field 8 4. Qed.
Lemma fld_r_word : fld_r (word6 n0 n1 n2 n3 n4 n5) = n3.
Proof using H0 H1 H2 H3 H4 H5. unfold fld_r. field 12 4. Qed.
Lemma fld_op1_word : fld_op1 (word6 n0 n1 n2 n3 n4 n5) = n4.
Proof using H0 H1 H2 H3 H4 H5. unfold fld_op1. field 16 4. Qed.
Lemma fld_op2_word : fld_op2 (word6 n0 n1 n2 n3 n4 n5) = n5.
Proof using H0 H1 H2 H3 H4 H5. unfold fld_op2. field 20 4. Qed.
Lemma fld_imm8_word : fld_imm8 (word6 n0 n1 n2 n3 n4 n5) = n4 + 16 * n5.
Proof using H0 H1 H2 H3 H4 H5. unfold fld_imm8. field 16 8. Qed.
Lemma fld_imm16_word : fld_imm16 (word6 n0 n1 n2 n3 n4 n5) = n2 + 16 * (n3 + 16 * (n4 + 16 * n5)).
Proof using H0 H1 H2 H3 H4 H5. unfold fld_imm16. field 8 16. Qed.
Lemma imm12_word : (word6 n0 n1 n2 n3 n4 n5 ≫ 12) .& 0xFFF = n3 + 16 * (n4 + 16 * n5).
Proof using H0 H1 H2 H3 H4 H5. field 12 12. Qed.
Lemma low6_word : word6 n0 n1 n2 n3 n4 n5 .& 0x3F = n0 + 16 * (n1 mod 4).
Proof using H0 H1 H2 H3 H4 H5. rewrite (land_ones_low _ 0x3F 6) by done. unfold word6, nib in *. lia. Qed.
Lemma imm18_word :
  (word6 n0 n1 n2 n3 n4 n5 ≫ 6) .& 0x3FFFF = n1 / 4 + 4 * (n2 + 16 * (n3 + 16 * (n4 + 16 * n5))).
Proof using H0 H1 H2 H3 H4 H5. field 6 18. Qed.
End fields.

Lemma sign_extend_spec v n : 0 < n < 32 → 0 ≤ v < 2 ^ n →
  sign_extend v n = u32 (if v <? 2 ^ (n - 1) then v else v - 2 ^ n).
Proof.
  intros Hn Hv. unfold sign_extend. rewrite Z.shiftl_mul_pow2, Z.mul_1_l by lia. f_equal.
  assert (2 ^ n = 2 * 2 ^ (n - 1)) as E by (rewrite <- Z.pow_succ_r by lia; f_equal; lia).
  assert (0 < 2 ^ (n - 1)) by lia.
  destruct (Z.ltb_spec v (2 ^ (n - 1))).
  - assert (v .& 2 ^ (n - 1) = 0) as Hd.
    { zbits i. destruct (decide (i = n - 1)) as [->|].
      - rewrite (testbit_high (n - 1) v) by lia. done.
      - by rewrite Z.pow2_bits_false, andb_false_r by congruence. }
    rewrite <- Z.add_nocarry_lxor by done. lia.
  - assert (∃ x, v = x + 2 ^ (n - 1) ∧ 0 ≤ x < 2 ^ (n - 1)) as (x & -> & Hx)
      by (exists (v - 2 ^ (n - 1)); lia).
    assert (x .& 2 ^ (n - 1) = 0) as Hd.
    { zbits i. destruct (decide (i = n - 1)) as [->|].
      - rewrite (testbit_high (n - 1) x) by lia. done.
      - by rewrite Z.pow2_bits_false, andb_false_r by congruence. }
    rewrite (Z.add_nocarry_lxor x) by done.
    rewrite Z.lxor_assoc, Z.lxor_nilpotent, Z.lxor_0_r. rewrite <- Z.add_nocarry_lxor by done. lia.
Qed.

(** ** The words of the encoder *)

(** The fields each instruction is encoded with. *)
Definition word_of (i : xt_instr) : Z :=
  let rrr op2 op1 r s t := word6 0 t s r op1 op2 in
  let rri8 r s t imm8 := word6 2 t s r (imm8 mod 16) (imm8 / 16) in
  let bz sel s rel := let imm := (rel - 4) mod 0x1000 in
    word6 6 sel s (imm mod 16) (imm / 16 mod 16) (imm / 256) in
  let jmp op imm := let v := imm mod 0x40000 in
    word6 op (4 * (v mod 4)) (v / 4 mod 16) (v / 64 mod 16) (v / 1024 mod 16) (v / 16384) in
  match i with
  | And r s t => rrr 0x1 0 r s t | Or r s t => rrr 0x2 0 r s t | Xor r s t => rrr 0x3 0 r s t
  | Add r s t => rrr 0x8 0 r s t | Addx2 r s t => rrr 0x9 0 r s t | Addx4 r s t => rrr 0xA 0 r s t
  | Sub r s t => rrr 0xC 0 r s t | Mull r s t => rrr 0x8 0x2 r s t
  | Addi t s imm => rri8 0xC s t (imm mod 256)
  | Movi t imm => let v := imm mod 0x1000 in rri8 0xA (v / 256) t (v mod 256)
  | L8ui t s off => rri8 0x0 s t off | S8i t s off => rri8 0x4 s t off
  | L16ui t s off => rri8 0x1 s t (off / 2) | S16i t s off => rri8 0x5 s t (off / 2)
  | L32i t s off => rri8 0x2 s t (off / 4) | S32i t s off => rri8 0x6 s t (off / 4)
  | L32r t imm16 => word6 1 t (imm16 mod 16) (imm16 / 16 mod 16) (imm16 / 256 mod 16) (imm16 / 4096)
  | Beqz s rel => bz 1 s rel | Bnez s rel => bz 5 s rel
  | J rel => jmp 6 (rel - 4) | Call0 rel => jmp 5 ((rel - 4) / 4)
  | Jx s => rrr 0 0 0 s 0xA | Callx0 s => rrr 0 0 0 s 0xC | Ret => rrr 0 0 0 0 8
  | Slli r s sa => rrr ((32 - sa) / 16) 0x1 r s ((32 - sa) mod 16)
  | Srli r s sa => if sa <=? 15 then rrr 0x4 0x1 r sa s
                   else rrr (31 - sa) 0x5 r (sa - 16) s
  | Srai r s sa => rrr (2 + sa / 16) 0x1 r (sa mod 16) s
  | Extui r t sh mask => rrr mask (4 + sh / 16) r (sh mod 16) t
  end.

Lemma le_word_bytes_mod w : le (word_bytes w) = w mod 0x1000000.
Proof.
  unfold word_bytes, u8. cbn [le]. rewrite !Z.shiftr_div_pow2 by lia.
  change (2 ^ 8) with 256. change (2 ^ 16) with 65536. lia.
Qed.

Lemma encode_emit24 i w : xt_emit_instr i = emit24 w → 0 ≤ w < 0x1000000 → encode i = w.
Proof. intros E Hw. rewrite (encode_of i w E), le_word_bytes_mod. by apply Z.mod_small. Qed.

Lemma reg_ok_nib r : reg_ok r = true → nib r.
Proof. unfold reg_ok, nib. lia. Qed.
Lemma within_spec lo hi x : within lo hi x = true → lo ≤ x ≤ hi.
Proof. unfold within. lia. Qed.

#[local] Ltac nibs := first [assumption | unfold nib, byte in *; lia].

(** Splits the operand check of an instruction into its parts. *)
#[local] Ltac operands H :=
  cbn [instr_ok] in H; rewrite ?andb_true_iff in H;
  repeat match goal with
    | H : _ ∧ _ |- _ => destruct H
    | H : reg_ok _ = true |- _ => apply reg_ok_nib in H
    | H : within _ _ _ = true |- _ => apply within_spec in H
    | H : (_ =? _) = true |- _ => apply Z.eqb_eq in H
    end.

Lemma encode_rrr i op2 op1 r s t : xt_emit_instr i = emit24 (enc_rrr op2 op1 r s t) →
  nib op2 → nib op1 → nib r → nib s → nib t → encode i = word6 0 t s r op1 op2.
Proof.
  intros E. intros. rewrite <- enc_rrr_word by done. apply encode_emit24; [done|].
  rewrite enc_rrr_word by done. apply word6_range; nibs.
Qed.

Lemma encode_rri8 i r s t imm8 v : xt_emit_instr i = emit24 (enc_rri8 r s t imm8) →
  imm8 = v → nib r → nib s → nib t → byte v →
  encode i = word6 2 t s r (v mod 16) (v / 16).
Proof.
  intros E <-. intros. rewrite <- enc_rri8_word by done. apply encode_emit24; [done|].
  rewrite enc_rri8_word by done. apply word6_range; nibs.
Qed.

Lemma encode_bxxz i sel s rel : xt_emit_instr i = emit24 (enc_bxxz sel s rel) →
  nib sel → nib s → -2048 ≤ rel - 4 ≤ 2047 →
  encode i = let imm := (rel - 4) mod 0x1000 in
    word6 6 sel s (imm mod 16) (imm / 16 mod 16) (imm / 256).
Proof.
  intros E. intros. pose proof (enc_bxxz_word sel s rel) as Ew. cbv zeta in Ew |- *.
  rewrite <- Ew by done. apply encode_emit24; [done|].
  rewrite Ew by done. apply word6_range; nibs.
Qed.

Lemma encode_jump i op imm : xt_emit_instr i = emit24 (((u32 imm .& 0x3FFFF) ≪ 6) .| op) →
  0 ≤ op < 16 →
  encode i = let v := imm mod 0x40000 in
    word6 op (4 * (v mod 4)) (v / 4 mod 16) (v / 64 mod 16) (v / 1024 mod 16) (v / 16384).
Proof.
  intros E. intros. rewrite (land_ones_low _ 0x3FFFF 18) in E by done.
  assert (u32 imm mod 2 ^ 18 = imm mod 0x40000) as Ei by (unfold u32; lia). rewrite Ei in E.
  cbv zeta. set (v := imm mod 0x40000) in *. assert (0 ≤ v < 0x40000) by (unfold v; lia). clearbody v.
  rewrite lor_shiftl_add in E by lia. rewrite (encode_emit24 i _ E) by lia. unfold word6. lia.
Qed.

Lemma encode_flat i b c : xt_emit_instr i = emit24 (((b .& 0xF) ≪ 8) .| (c ≪ 4) .| 0x0) →
  nib b → nib c → encode i = word6 0 c b 0 0 0.
Proof.
  intros E ? ?. rewrite nib_land, Z.lor_0_r, lor_shiftl_add, Z.shiftl_mul_pow2 in E
    by (nibs || rewrite ?Z.shiftl_mul_pow2 by lia; nibs).
  rewrite (encode_emit24 i _ E) by nibs. unfold word6. lia.
Qed.

Lemma u8_shiftr off k : 0 ≤ k → 0 ≤ off < 2 ^ k * 256 → u8 (off ≫ k) = off / 2 ^ k.
Proof. intros. rewrite Z.shiftr_div_pow2 by done. apply u8_small. apply div_bound; lia. Qed.

(** The two halves of a five-bit shift amount. *)
Lemma hi5 x : 0 ≤ x < 32 → (x ≫ 4) .& 1 = x / 16.
Proof. intros. rewrite (shiftr_land _ 4 1) by lia. lia. Qed.
Lemma lo5 x : x .& 0xF = x mod 16.
Proof. by apply (land_ones_low _ 0xF 4). Qed.
Lemma lor_low_bit c h : c mod 2 = 0 → 0 ≤ h < 2 → c .| h = c + h.
Proof.
  intros. replace c with ((c / 2) ≪ 1) at 1 by (rewrite Z.shiftl_mul_pow2; lia).
  rewrite lor_shiftl_add by lia. lia.
Qed.

Lemma encode_extui i r t sh mask : xt_emit_instr i = xt_extui r t sh mask →
  nib r → nib t → 0 ≤ sh ≤ 31 → nib mask →
  encode i = word6 0 t (sh mod 16) r (4 + sh / 16) mask.
Proof.
  unfold xt_extui, nib. intros E ? ? ? ?. rewrite (lo5 sh), hi5, (nib_land mask) in E by nibs.
  rewrite (u8_small (sh / 16)) in E by lia.
  rewrite lor_low_bit, !u8_small in E by lia.
  apply encode_rrr; nibs.
Qed.

Lemma encode_word i : instr_ok i = true → encode i = word_of i.
Proof.
  intros Hi. assert (nib 0) by done.
  destruct i; operands Hi; cbn [word_of].
  - apply encode_rrr; [reflexivity|nibs..].
  - apply encode_rrr; [reflexivity|nibs..].
  - apply encode_rrr; [reflexivity|nibs..].
  - apply encode_rrr; [reflexivity|nibs..].
  - apply encode_rrr; [reflexivity|nibs..].
  - apply encode_rrr; [reflexivity|nibs..].
  - apply encode_rrr; [reflexivity|nibs..].
  - apply encode_rrr; [reflexivity|nibs..].
  - apply (encode_rri8 _ _ _ _ (u8 imm)); [reflexivity|done|nibs..].
  - assert (u8 ((u32 imm .& 0xFFF) ≫ 8 .& 0xF) = imm mod 4096 / 256) as Es.
    { rewrite (land_ones_low _ 0xFFF 12) by done. rewrite (shiftr_land _ 8 4) by lia. unfold u8, u32. lia. }
    rewrite <- Es. apply (encode_rri8 _ _ _ _ (u8 ((u32 imm .& 0xFFF) .& 0xFF)));
      [reflexivity| |by nibs|rewrite Es; nibs|by nibs|nibs].
    rewrite (land_ones_low _ 0xFFF 12), (land_ones_low _ 0xFF 8) by done. unfold u8, u32. lia.
  - apply (encode_rri8 _ _ _ _ (u8 off)); [reflexivity|apply u8_small; lia|nibs..].
  - apply (encode_rri8 _ _ _ _ (u8 off)); [reflexivity|apply u8_small; lia|nibs..].
  - apply (encode_rri8 _ _ _ _ (u8 (off ≫ 1))); [reflexivity|apply u8_shiftr; lia|nibs..].
  - apply (encode_rri8 _ _ _ _ (u8 (off ≫ 1))); [reflexivity|apply u8_shiftr; lia|nibs..].
  - apply (encode_rri8 _ _ _ _ (u8 (off ≫ 2))); [reflexivity|apply u8_shiftr; lia|nibs..].
  - apply (encode_rri8 _ _ _ _ (u8 (off ≫ 2))); [reflexivity|apply u8_shiftr; lia|nibs..].
  - cbn. rewrite (encode_emit24 _ ((u16 imm16 ≪ 8) .| ((t .& 0xF) ≪ 4) .| 0x1)); [|reflexivity|];
      rewrite nib_land, u16_small, <- Z.lor_assoc, (lor_shiftl_add 4 t), lor_shiftl_add by nibs;
      unfold word6, nib in *; lia.
  - apply encode_bxxz; [reflexivity|nibs..].
  - apply encode_bxxz; [reflexivity|nibs..].
  - apply encode_jump; [reflexivity|lia].
  - rewrite <- (Z.shiftr_div_pow2 _ 2) by lia. apply encode_jump; [reflexivity|lia].
  - apply encode_flat; [reflexivity|nibs..].
  - apply encode_flat; [reflexivity|nibs..].
  - done.
  - assert (u8 (32 - sa) = 32 - sa) as E by (apply u8_small; lia).
    apply encode_rrr; [|nibs..]. cbn [xt_emit_instr]. unfold xt_slli.
    rewrite E, hi5, lo5, !u8_small by lia. done.
  - destruct (Z.leb_spec sa 15).
    + apply encode_rrr; [|nibs..]. cbn [xt_emit_instr]. unfold xt_srli.
      by rewrite (proj2 (Z.leb_le _ _)).
    + rewrite (encode_extui _ r s sa (31 - sa)); [f_equal; lia| |nibs..].
      cbn [xt_emit_instr]. unfold xt_srli. rewrite (proj2 (Z.leb_gt _ _)), u8_small by lia. done.
  - apply encode_rrr; [|nibs..]. cbn [xt_emit_instr]. unfold xt_srai.
    rewrite hi5, lo5, lor_low_bit, !u8_small by lia. done.
  - apply encode_extui; [done|nibs..].
Qed.

(** ** Execution of an encoded instruction *)

(** What a C pointer reads is a byte. *)
Class SimHostBytes (H : Type) `{SimHost H} :=
  host_byte : ∀ h p v, host_peek h p = Some v → byte v.

Lemma set_ar_u32 {H} r v v' (s : xt_sim H) : u32 v = u32 v' → set_ar r v s = set_ar r v' s.
Proof. unfold set_ar. by intros ->. Qed.
Lemma set_sim_pc_u32 {H} v v' (s : xt_sim H) : u32 v = u32 v' → set_sim_pc v s = set_sim_pc v' s.
Proof. unfold set_sim_pc. by intros ->. Qed.

Section exec.
Context {H : Type} `{SimHostBytes H}.
Implicit Types x : xt_sim H.

Lemma step_word_rrr pc op2 op1 r s t : nib op2 → nib op1 → nib r → nib s → nib t →
  step_word pc (word6 0 t s r op1 op2) =
    match (if (op1 =? 0) && (op2 =? 0) && (r =? 0) then step_jump t s else None) with
    | Some m => m
    | None => step_arith op2 op1 r s t
    end.
Proof.
  intros. assert (nib 0) by done. unfold step_word.
  rewrite fld_op0_word, low6_word by done. cbn [Z.eqb].
  assert ((0 + 16 * (t mod 4) =? 5) = false) as -> by lia.
  assert ((0 + 16 * (t mod 4) =? 6) = false) as -> by lia.
  unfold step_rrr. by rewrite fld_op1_word, fld_op2_word, fld_r_word, fld_s_word, fld_t_word by done.
Qed.

Lemma step_word_rri8 pc r s t v : nib r → nib s → nib t → byte v →
  step_word pc (word6 2 t s r (v mod 16) (v / 16)) = step_rri8 (word6 2 t s r (v mod 16) (v / 16)).
Proof.
  intros. unfold step_word. by rewrite fld_op0_word by nibs.
Qed.

Lemma rri8_fields r s t v : nib r → nib s → nib t → byte v →
  let w := word6 2 t s r (v mod 16) (v / 16) in
  fld_r w = r ∧ fld_s w = s ∧ fld_t w = t ∧ fld_imm8 w = v.
Proof.
  intros. unfold w. rewrite fld_r_word, fld_s_word, fld_t_word, fld_imm8_word by nibs.
  split_and!; try done. lia.
Qed.

Lemma i32_sign_extend v n : 0 < n < 32 → - 2 ^ (n - 1) ≤ v < 2 ^ (n - 1) →
  i32 (sign_extend (v mod 2 ^ n) n) = v.
Proof.
  intros Hn Hv. assert (2 ^ n = 2 * 2 ^ (n - 1)) as E by (rewrite <- Z.pow_succ_r by lia; f_equal; lia).
  assert (2 ^ (n - 1) ≤ 2 ^ 30) as Hp by (apply Z.pow_le_mono_r; lia).
  assert (0 < 2 ^ (n - 1)) as Hp0 by lia.
  rewrite sign_extend_spec by (try apply Z.mod_pos_bound; lia). rewrite E.
  set (p := 2 ^ (n - 1)) in *. clearbody p. change (2 ^ 30) with 0x40000000 in Hp.
  assert (v mod (2 * p) = if v <? 0 then v + 2 * p else v) as ->.
  { destruct (Z.ltb_spec v 0); symmetry;
      [apply (Z.mod_unique_pos _ _ (-1))|apply (Z.mod_unique_pos _ _ 0)]; lia. }
  unfold i32. rewrite u32_idemp. clear E.
  destruct (Z.ltb_spec v 0).
  - rewrite (proj2 (Z.ltb_ge (v + 2 * p) p)) by lia. unfold u32.
    rewrite <- (Z.mod_unique_pos (v + 2 * p - 2 * p) 0x100000000 (-1) (v + 0x100000000)) by lia.
    rewrite (proj2 (Z.ltb_ge _ _)) by lia. lia.
  - rewrite (proj2 (Z.ltb_lt v p)), u32_small by lia.
    by rewrite (proj2 (Z.ltb_lt _ _)) by lia.
Qed.

Lemma load_into_ext t a e e' x : (∀ p x', e p x' = e' p x') → load_into t a e x = load_into t a e' x.
Proof.
  intros E. unfold load_into, mbind, M_bind. destruct (host_ptr a x) as [[[p|] x']|]; [|done|done].
  by rewrite E.
Qed.
Lemma store_at_ext a e e' x : (∀ p x', e p x' = e' p x') → store_at a e x = store_at a e' x.
Proof.
  intros E. unfold store_at, mbind, M_bind. by destruct (host_ptr a x) as [[[p|] x']|].
Qed.

Lemma peek_byte p k x v x' : peek p k x = Some (v, x') → byte v ∧ x' = x.
Proof.
  unfold peek. destruct (host_peek (sim_user x) (p + k)) eqn:E; [|done].
  intros [= <- <-]. by apply host_byte in E.
Qed.

Lemma peek_le_range n p k x v x' : peek_le n p k x = Some (v, x') →
  0 ≤ v < 256 ^ Z.of_nat n ∧ x' = x.
Proof.
  revert k v x'. induction n as [|n IH]; intros k v x'; [by intros [= <- <-]|].
  cbn [peek_le]. unfold mbind, M_bind. destruct (peek p k x) as [[b x1]|] eqn:E1; [|done].
  apply peek_byte in E1 as [Hb ->]. destruct (peek_le n p (k + 1) x) as [[r x2]|] eqn:E2; [|done].
  apply IH in E2 as [Hr ->]. intros [= <- <-]. split; [|done].
  rewrite Nat2Z.inj_succ, Z.pow_succ_r by lia. unfold byte in Hb. lia.
Qed.

Lemma peek2 p x : (p0 ← peek p 0; p1 ← peek p 1; mret (p0 .| (p1 ≪ 8))) x = peek_le 2 p 0 x.
Proof.
  cbn [peek_le]. change (0 + 1) with 1. change (1 + 1) with 2. change (2 + 1) with 3.
  unfold mbind, M_bind. destruct (peek p 0 x) as [[b0 x0]|] eqn:E0; [|done].
  apply peek_byte in E0 as [B0 ->]. destruct (peek p 1 x) as [[b1 x1]|] eqn:E1; [|done].
  apply peek_byte in E1 as [B1 ->]. unfold mret, M_ret. do 2 f_equal.
  rewrite Z.lor_comm, join16 by done. lia.
Qed.

Lemma peek4 p x :
  (p0 ← peek p 0; p1 ← peek p 1; p2 ← peek p 2; p3 ← peek p 3;
   mret (p0 .| (p1 ≪ 8) .| (p2 ≪ 16) .| (p3 ≪ 24))) x = peek_le 4 p 0 x.
Proof.
  cbn [peek_le]. change (0 + 1) with 1. change (1 + 1) with 2. change (2 + 1) with 3.
  unfold mbind, M_bind. destruct (peek p 0 x) as [[b0 x0]|] eqn:E0; [|done].
  apply peek_byte in E0 as [B0 ->]. destruct (peek p 1 x) as [[b1 x1]|] eqn:E1; [|done].
  apply peek_byte in E1 as [B1 ->]. destruct (peek p 2 x) as [[b2 x2]|] eqn:E2; [|done].
  apply peek_byte in E2 as [B2 ->]. destruct (peek p 3 x) as [[b3 x3]|] eqn:E3; [|done].
  apply peek_byte in E3 as [B3 ->]. unfold mret, M_ret. do 2 f_equal.
  replace (b0 .| (b1 ≪ 8) .| (b2 ≪ 16) .| (b3 ≪ 24)) with ((b3 ≪ 24) .| (b2 ≪ 16) .| (b1 ≪ 8) .| b0)
    by (zbits i; btauto).
  rewrite join32 by done. lia.
Qed.

Lemma land_u8 v : v .& 0xFF = u8 v.
Proof. by apply (land_ones_low _ 0xFF 8). Qed.
Lemma shiftr_u8 v k : 0 ≤ k → (v ≫ k) .& 0xFF = u8 (v / 2 ^ k).
Proof. intros. by rewrite land_u8, Z.shiftr_div_pow2. Qed.

Lemma poke_ret p k v x : (poke p k v ;; mret tt) x = poke p k v x.
Proof. unfold mbind, M_bind. by destruct (poke p k v x) as [[[] ?]|]. Qed.

Lemma bind_ext {S A B} (m : M S A) (f g : A → M S B) s : (∀ a s', f a s' = g a s') →
  (a ← m; f a) s = (a ← m; g a) s.
Proof. intros E. unfold mbind, M_bind. destruct (m s) as [[a s']|]; [apply E|done]. Qed.

Lemma poke1 p v x : poke p 0 (v .& 0xFF) x = poke_le 1 p 0 v x.
Proof. cbn [poke_le]. rewrite land_u8. symmetry. apply poke_ret. Qed.
Lemma poke2 p v x :
  (poke p 0 (v .& 0xFF) ;; poke p 1 ((v ≫ 8) .& 0xFF)) x = poke_le 2 p 0 v x.
Proof.
  cbn [poke_le]. change (0 + 1) with 1. change (1 + 1) with 2. change (2 + 1) with 3.
  rewrite (land_u8 v). apply bind_ext. intros _ x'. rewrite shiftr_u8 by done. symmetry. apply poke_ret.
Qed.
Lemma poke4 p v x :
  (poke p 0 (v .& 0xFF) ;; poke p 1 ((v ≫ 8) .& 0xFF) ;;
   poke p 2 ((v ≫ 16) .& 0xFF) ;; poke p 3 ((v ≫ 24) .& 0xFF)) x = poke_le 4 p 0 v x.
Proof.
  cbn [poke_le]. change (0 + 1) with 1. change (1 + 1) with 2. change (2 + 1) with 3.
  rewrite (land_u8 v), !shiftr_u8, !Zdiv_Zdiv by done.
  apply bind_ext. intros _ x1. apply bind_ext. intros _ x2. apply bind_ext. intros _ x3.
  symmetry. apply poke_ret.
Qed.


Lemma join5 h l : 0 ≤ l < 16 → (h ≪ 4) .| l = 16 * h + l.
Proof. intros. rewrite (lor_shiftl_add 4) by lia. lia. Qed.

(** The arithmetic that [op1] and [op2] select. *)
Lemma step_word_alu pc op2 r s t v x : nib op2 → nib r → nib s → nib t →
  alu op2 (ar x s) (ar x t) = Some v →
  step_word pc (word6 0 t s r 0 op2) x = Some (tt, set_ar r v x).
Proof.
  intros. rewrite step_word_rrr by nibs.
  destruct ((0 =? 0) && (op2 =? 0) && (r =? 0)) eqn:E.
  - rewrite !andb_true_iff, !Z.eqb_eq in E. by destruct E as [[_ ->] _].
  - unfold step_arith. rewrite (bind_Some (gets _) _ x x x) by done. cbn [Z.eqb].
    by match goal with Ha : alu _ _ _ = _ |- _ => rewrite Ha end.
Qed.

Lemma step_word_shift pc op2 op1 r s t x : nib op2 → nib r → nib s → nib t → 0 < op1 < 16 →
  step_word pc (word6 0 t s r op1 op2) x = step_arith op2 op1 r s t x.
Proof.
  intros. rewrite step_word_rrr by nibs. by assert ((op1 =? 0) = false) as -> by lia.
Qed.

Lemma exec_slli pc r s sa x : nib r → nib s → 1 ≤ sa ≤ 31 →
  step_word pc (word_of (Slli r s sa)) x = Some (tt, set_ar r (ar x s * 2 ^ sa) x).
Proof.
  intros. cbn [word_of]. rewrite step_word_shift by nibs. unfold step_arith.
  rewrite (bind_Some (gets _) _ x x x) by done.
  assert (((32 - sa) / 16 =? 0) || ((32 - sa) / 16 =? 1) = true) as -> by lia.
  rewrite join5 by lia. replace (32 - (16 * ((32 - sa) / 16) + (32 - sa) mod 16)) with sa by lia.
  rewrite u32_small by lia. cbn [Z.eqb Pos.eqb andb].
  rewrite (proj2 (Z.leb_gt 32 sa)) by lia. by rewrite Z.shiftl_mul_pow2 by lia.
Qed.

Lemma exec_srai pc r s sa x : nib r → nib s → 0 ≤ sa ≤ 31 →
  step_word pc (word_of (Srai r s sa)) x = Some (tt, set_ar r (i32 (ar x s) / 2 ^ sa) x).
Proof.
  intros. cbn [word_of]. rewrite step_word_shift by nibs. unfold step_arith.
  rewrite (bind_Some (gets _) _ x x x) by done.
  assert ((2 + sa / 16 =? 0) || (2 + sa / 16 =? 1) = false) as -> by lia.
  assert ((2 + sa / 16 =? 2) || (2 + sa / 16 =? 3) = true) as -> by lia.
  cbn [Z.eqb Pos.eqb andb].
  rewrite (land_ones_low _ 1 1), join5 by (done || lia).
  replace (16 * ((2 + sa / 16) mod 2 ^ 1) + sa mod 16) with sa by lia.
  rewrite (proj2 (Z.leb_gt 32 sa)) by lia. by rewrite Z.shiftr_div_pow2 by lia.
Qed.

Lemma exec_extui pc r t sh mask x : nib r → nib t → 0 ≤ sh ≤ 31 → nib mask →
  step_word pc (word_of (Extui r t sh mask)) x
  = Some (tt, set_ar r ((ar x t / 2 ^ sh) mod 2 ^ (mask + 1)) x).
Proof.
  intros. cbn [word_of]. rewrite step_word_shift by nibs. unfold step_arith.
  rewrite (bind_Some (gets _) _ x x x) by done.
  assert ((4 + sh / 16 =? 0) = false) as -> by lia.
  assert ((4 + sh / 16 =? 1) = false) as -> by lia.
  assert ((4 + sh / 16 =? 2) = false) as -> by lia. cbn [andb].
  assert (((4 + sh / 16) .& 0xE =? 4) = true) as ->.
  { assert (4 + sh / 16 = 4 ∨ 4 + sh / 16 = 5) as [-> | ->] by lia; done. }
  rewrite (land_ones_low _ 1 1), join5 by (done || lia).
  replace (16 * ((4 + sh / 16) mod 2 ^ 1) + sh mod 16) with sh by lia.
  rewrite (proj2 (Z.eqb_neq (mask + 1) 32)) by nibs.
  assert (1 < 2 ^ (mask + 1) ≤ 2 ^ 16) as Hm.
  { split; [apply Z.pow_gt_1; nibs|apply Z.pow_le_mono_r; nibs]. }
  change (2 ^ 16) with 65536 in Hm.
  rewrite (Z.shiftl_mul_pow2 1) by nibs. rewrite Z.mul_1_l, u32_small by lia.
  by rewrite shiftr_land by nibs.
Qed.

Lemma exec_srli pc r s sa x : nib r → nib s → 0 ≤ sa ≤ 31 → 0 ≤ ar x s < 0x100000000 →
  step_word pc (word_of (Srli r s sa)) x = Some (tt, set_ar r (ar x s / 2 ^ sa) x).
Proof.
  intros ? ? ? Hx. destruct (Z.leb_spec sa 15).
  - cbn [word_of]. rewrite (proj2 (Z.leb_le _ _)) by lia. rewrite step_word_shift by nibs.
    unfold step_arith. rewrite (bind_Some (gets _) _ x x x) by done. cbn.
    by rewrite Z.shiftr_div_pow2 by lia.
  - assert (word_of (Srli r s sa) = word_of (Extui r s sa (31 - sa))) as ->.
    { cbn [word_of]. rewrite (proj2 (Z.leb_gt _ _)) by lia. f_equal; lia. }
    rewrite exec_extui by nibs. do 3 f_equal. apply Z.mod_small.
    split; [apply Z.div_pos; lia|]. apply Z.div_lt_upper_bound; [lia|].
    rewrite <- Z.pow_add_r by lia. replace (sa + (31 - sa + 1)) with 32 by lia. apply Hx.
Qed.

Lemma step_next_set pc i r (v : xt_sim H → Z) x y :
  step_word pc (word_of i) y = Some (tt, set_ar r (v x) y) → y = set_next (sim_pc x) x →
  step_word pc (word_of i) y = sem_set r v x.
Proof. intros -> ->. done. Qed.

Lemma rri8_load pc r s t v off e e' x : nib r → nib s → nib t → byte v →
  (∀ y, step_rri8 (word6 2 t s r (v mod 16) (v / 16)) y = load_into t (u32 (ar y s + off)) e' y) →
  (∀ p y, e' p y = e p y) →
  step_word pc (word6 2 t s r (v mod 16) (v / 16)) (set_next (sim_pc x) x) = sem_load t s off e x.
Proof.
  intros ???? E Ee. rewrite step_word_rri8, E by done. by apply load_into_ext.
Qed.

Lemma rri8_store pc r s t v off e e' x : nib r → nib s → nib t → byte v →
  (∀ y, step_rri8 (word6 2 t s r (v mod 16) (v / 16)) y
    = store_at (u32 (ar y s + off)) (λ p, e' p (ar y t)) y) →
  (∀ p z y, e' p z y = e p z y) →
  step_word pc (word6 2 t s r (v mod 16) (v / 16)) (set_next (sim_pc x) x) = sem_store t s off e x.
Proof.
  intros ???? E Ee. rewrite step_word_rri8, E by done. apply store_at_ext. by intros p y.
Qed.

Lemma step_rri8_eq r s t v : nib r → nib s → nib t → byte v →
  step_rri8 (word6 2 t s r (v mod 16) (v / 16)) =
  (x ← gets id;
  match r with
  | 0x0 => load_into t (u32 (ar x s + v)) (λ p, peek p 0)
  | 0x4 => store_at (u32 (ar x s + v)) (λ p, poke p 0 (ar x t .& 0xFF))
  | 0x1 => load_into t (u32 (ar x s + (v ≪ 1))) (λ p,
             p0 ← peek p 0; p1 ← peek p 1; mret (p0 .| (p1 ≪ 8)))
  | 0x5 => store_at (u32 (ar x s + (v ≪ 1))) (λ p,
             poke p 0 (ar x t .& 0xFF) ;; poke p 1 ((ar x t ≫ 8) .& 0xFF))
  | 0x2 => load_into t (u32 (ar x s + (v ≪ 2))) (λ p,
             p0 ← peek p 0; p1 ← peek p 1; p2 ← peek p 2; p3 ← peek p 3;
             mret (p0 .| (p1 ≪ 8) .| (p2 ≪ 16) .| (p3 ≪ 24)))
  | 0x6 => store_at (u32 (ar x s + (v ≪ 2))) (λ p,
             poke p 0 (ar x t .& 0xFF) ;; poke p 1 ((ar x t ≫ 8) .& 0xFF) ;;
             poke p 2 ((ar x t ≫ 16) .& 0xFF) ;; poke p 3 ((ar x t ≫ 24) .& 0xFF))
  | 0xC => modify (set_ar t (ar x s + i32 (sign_extend v 8)))
  | 0xA => modify (set_ar t (sign_extend ((s ≪ 8) .| v) 12))
  | _ => modify (set_sim_st XT_SIM_BAD_OPCODE)
  end).
Proof.
  intros Hr Hs Ht Hv. unfold step_rri8. destruct (rri8_fields r s t v) as (-> & -> & -> & ->); done.
Qed.

Lemma scale off k : 0 ≤ k → off .& (2 ^ k - 1) = 0 → 0 ≤ off → (off / 2 ^ k) ≪ k = off.
Proof.
  intros Hk H0' Hoff. rewrite (land_ones_low _ _ k) in H0' by done.
  rewrite Z.shiftl_mul_pow2 by done. pose proof (Z.div_mod off (2 ^ k)). lia.
Qed.

Lemma sem_bind_id (f : xt_sim H → M (xt_sim H) unit) x : (y ← gets id; f y) x = f x x.
Proof. done. Qed.

Lemma peek1 p x : peek p 0 x = peek_le 1 p 0 x.
Proof.
  cbn [peek_le]. unfold mbind, M_bind. destruct (peek p 0 x) as [[b0 x0]|] eqn:E0; [|done].
  apply peek_byte in E0 as [B0 ->]. unfold mret, M_ret. by rewrite Z.mul_0_r, Z.add_0_r.
Qed.

Lemma u32_i32 v : u32 (i32 v) = u32 v.
Proof. unfold i32, u32. case_match; lia. Qed.

Lemma movi_value imm : -2048 ≤ imm ≤ 2047 →
  u32 (sign_extend (((imm mod 0x1000 / 256) ≪ 8) .| (imm mod 0x1000 mod 256)) 12) = u32 imm.
Proof.
  intros. rewrite (lor_shiftl_add 8) by lia.
  replace (imm mod 0x1000 / 256 * 2 ^ 8 + imm mod 0x1000 mod 256) with (imm mod 2 ^ 12) by lia.
  by rewrite <- u32_i32, i32_sign_extend by (simpl; lia).
Qed.

Lemma step_word_bxxz pc sel s rel : nib s → sel = 1 ∨ sel = 5 → -2048 ≤ rel - 4 ≤ 2047 →
  let imm := (rel - 4) mod 0x1000 in
  step_word pc (word6 6 sel s (imm mod 16) (imm / 16 mod 16) (imm / 256)) =
  (x ← gets id;
   when (if sel =? 1 then ar x s =? 0 else negb (ar x s =? 0)) (modify (set_sim_pc (u32 (pc + 4 + (rel - 4)))))).
Proof.
  intros Hs Hsel Hrel imm. assert (0 ≤ imm < 0x1000) by (unfold imm; lia).
  assert (nib sel) by (unfold nib; lia). assert (nib 6) by done.
  unfold step_word. rewrite fld_op0_word, low6_word by nibs.
  assert ((6 + 16 * (sel mod 4) =? 5) = false) as -> by lia.
  assert ((6 + 16 * (sel mod 4) =? 6) = false) as -> by lia.
  unfold step_branch. rewrite fld_t_word, fld_s_word, imm12_word by nibs.
  replace (imm mod 16 + 16 * (imm / 16 mod 16 + 16 * (imm / 256))) with imm by lia.
  unfold imm. rewrite (i32_sign_extend _ 12) by (simpl; lia).
  by destruct Hsel as [-> | ->].
Qed.

Lemma step_word_jmp pc op imm : -0x20000 ≤ imm ≤ 0x1FFFF → op = 5 ∨ op = 6 →
  let v := imm mod 0x40000 in
  step_word pc (word6 op (4 * (v mod 4)) (v / 4 mod 16) (v / 64 mod 16) (v / 1024 mod 16) (v / 16384)) =
  if op =? 5 then
    x ← gets id; modify (set_ar 0 (sim_pc x)) ;; modify (set_sim_pc (u32 ((pc .& not32 3) + 4 + (imm ≪ 2))))
  else modify (set_sim_pc (pc + 4 + imm)).
Proof.
  intros Himm Hop v. assert (0 ≤ v < 0x40000) by (unfold v; lia).
  assert (nib op) by (unfold nib; lia). assert (nib (4 * (v mod 4))) by nibs.
  unfold step_word. rewrite fld_op0_word, low6_word, imm18_word by nibs.
  replace (op + 16 * ((4 * (v mod 4)) mod 4)) with op by lia.
  replace (4 * (v mod 4) / 4 + 4 * (v / 4 mod 16 + 16 * (v / 64 mod 16 + 16 * (v / 1024 mod 16 + 16 * (v / 16384)))))
    with v by lia.
  unfold v. rewrite (i32_sign_extend _ 18) by (simpl; lia).
  by destruct Hop as [-> | ->].
Qed.

Lemma step_word_l32r pc t imm16 : nib t → 0 ≤ imm16 < 0x10000 → 0 ≤ pc < 0xFFFFFFF0 →
  step_word pc (word_of (L32r t imm16)) =
  (x ← gets id;
   modify (set_ar t (match read_literal with
                     | Some f => f x (u32 (4 * ((pc + 3) / 4) + 4 * i16 imm16)) | None => 0 end))).
Proof.
  intros Ht Hi Hpc. cbn [word_of]. unfold step_word. rewrite fld_op0_word by nibs. cbn [Z.eqb Pos.eqb].
  unfold step_l32r. rewrite fld_t_word, fld_imm16_word by nibs.
  replace (imm16 mod 16 + 16 * (imm16 / 16 mod 16 + 16 * (imm16 / 256 mod 16 + 16 * (imm16 / 4096))))
    with imm16 by lia.
  assert (i32 (sign_extend imm16 16) = i16 imm16) as ->.
  { rewrite sign_extend_spec by (simpl; lia). unfold i16, i32. rewrite u32_idemp, u16_small by lia.
    change (2 ^ (16 - 1)) with 0x8000. change (2 ^ 16) with 0x10000.
    destruct (Z.ltb_spec imm16 0x8000); unfold u32; case_match; lia. }
  assert (u32 (i32 (i32 (u32 (pc + 3) .& not32 3) + i16 imm16 ≪ 2)) = u32 (4 * ((pc + 3) / 4) + 4 * i16 imm16)) as ->;
    [|done].
  rewrite u32_i32, <- u32_add_l, u32_i32, u32_add_l, Z.shiftl_mul_pow2 by lia.
  rewrite (u32_small (pc + 3)), land_not3 by lia. f_equal. lia.
Qed.

Lemma sem_jump_if (b : bool) (f g : xt_sim H → xt_sim H) x :
  modify (if b then f else g) x = (if b then modify f else modify g) x.
Proof. by destruct b. Qed.

(** An instruction the encoder accepts, fetched by the simulator, does what
    the interface documents. *)
Lemma step_word_sem i x : running x → instr_ok i = true →
  step_word (sim_pc x) (word_of i) (set_next (sim_pc x) x) = sem i x.
Proof.
  intros Hx Hi. pose proof (rn_pc _ Hx) as Hpc.
  destruct i; pose proof Hi as Hj; operands Hj; unfold sem; rewrite sem_bind_id.
  1-7: apply step_next_set; [|done].
  - by apply step_word_alu.
  - by apply step_word_alu.
  - by apply step_word_alu.
  - by apply step_word_alu.
  - rewrite (set_ar_u32 _ _ (u32 (ar x s ≪ 1) + ar x t));
      [by apply step_word_alu|rewrite u32_add_l, Z.shiftl_mul_pow2 by lia; f_equal; lia].
  - rewrite (set_ar_u32 _ _ (u32 (ar x s ≪ 2) + ar x t));
      [by apply step_word_alu|rewrite u32_add_l, Z.shiftl_mul_pow2 by lia; f_equal; lia].
  - by apply step_word_alu.
  - cbn [word_of]. rewrite step_word_shift by nibs. done.
  - cbn [word_of]. rewrite step_word_rri8, step_rri8_eq by nibs.
    rewrite (i32_sign_extend _ 8) by (simpl; lia). done.
  - cbn [word_of]. rewrite step_word_rri8, step_rri8_eq by nibs.
    rewrite (bind_Some (gets _) _ _ _ _ eq_refl). unfold sem_set, modify.
    by rewrite (set_ar_u32 _ _ imm) by (by apply movi_value).
  - apply (rri8_load _ 0 s t off off _ (λ p, peek p 0)); try nibs; [by intros; rewrite step_rri8_eq by nibs|].
    apply peek1.
  - apply (rri8_store _ 4 s t off off _ (λ p v, poke p 0 (v .& 0xFF))); try nibs;
      [by intros; rewrite step_rri8_eq by nibs|]. apply poke1.
  - assert ((off / 2) ≪ 1 = off) as E by (apply (scale off 1); lia || done).
    eapply (rri8_load _ 1 s t (off / 2) off); try nibs; [|apply peek2].
    intros y. by rewrite step_rri8_eq, sem_bind_id, E by nibs.
  - assert ((off / 2) ≪ 1 = off) as E by (apply (scale off 1); lia || done).
    eapply (rri8_store _ 5 s t (off / 2) off); try nibs; [|apply poke2].
    intros y. by rewrite step_rri8_eq, sem_bind_id, E by nibs.
  - assert ((off / 4) ≪ 2 = off) as E by (apply (scale off 2); lia || done).
    eapply (rri8_load _ 2 s t (off / 4) off); try nibs; [|apply peek4].
    intros y. by rewrite step_rri8_eq, sem_bind_id, E by nibs.
  - assert ((off / 4) ≪ 2 = off) as E by (apply (scale off 2); lia || done).
    eapply (rri8_store _ 6 s t (off / 4) off); try nibs; [|apply poke4].
    intros y. by rewrite step_rri8_eq, sem_bind_id, E by nibs.
  - by rewrite step_word_l32r by nibs.
  - cbn [word_of]. rewrite step_word_bxxz by (nibs || tauto). rewrite sem_bind_id. cbn [Z.eqb Pos.eqb].
    unfold when. change (ar (set_next (sim_pc x) x) s) with (ar x s).
    destruct (ar x s =? 0); [|done]. unfold modify. do 2 f_equal. apply (set_sim_pc_u32 _ _ x).
    rewrite u32_idemp. f_equal. lia.
  - cbn [word_of]. rewrite step_word_bxxz by (nibs || tauto). rewrite sem_bind_id. cbn [Z.eqb Pos.eqb].
    unfold when. change (ar (set_next (sim_pc x) x) s) with (ar x s).
    destruct (ar x s =? 0); [done|]. cbn [negb]. unfold modify. do 2 f_equal. apply (set_sim_pc_u32 _ _ x).
    rewrite u32_idemp. f_equal. lia.
  - cbn [word_of]. rewrite step_word_jmp by (nibs || tauto). cbn [Z.eqb Pos.eqb].
    unfold modify. do 2 f_equal. apply (set_sim_pc_u32 _ _ x). f_equal. lia.
  - cbn [word_of]. rewrite Z.shiftr_div_pow2 in * by done.
    match goal with Ha : _ .& 3 = 0 |- _ => rewrite (land_ones_low _ 3 2) in Ha by done end.
    change (2 ^ 2) with 4 in *. rewrite step_word_jmp by (lia || tauto).
    cbn [Z.eqb Pos.eqb]. rewrite sem_bind_id, land_not3, Z.shiftl_mul_pow2 by lia.
    unfold mbind, M_bind, modify. do 2 f_equal.
    transitivity (set_ar 0 (sim_pc x + 3) (set_sim_pc (4 * (sim_pc x / 4) + rel) x)); [|done].
    unfold set_next. rewrite (set_ar_u32 0 (sim_pc _) (sim_pc x + 3)) by (cbn; apply u32_idemp).
    apply (set_sim_pc_u32 _ _ (set_ar 0 (sim_pc x + 3) x)). rewrite u32_idemp. f_equal. lia.
  - cbn [word_of]. rewrite step_word_rrr by nibs. unfold sem_jump.
    rewrite (bind_Some (modify _) _ x tt (set_next (sim_pc x) x)), sem_jump_if by done. done.
  - cbn [word_of]. rewrite step_word_rrr by nibs. cbn [Z.eqb Pos.eqb andb step_jump].
    rewrite sem_bind_id. unfold mbind, M_bind, modify.
    by rewrite (set_ar_u32 0 (sim_pc _) (sim_pc x + 3)) by (cbn; apply u32_idemp).
  - cbn [word_of]. rewrite step_word_rrr by nibs. unfold sem_jump.
    rewrite (bind_Some (modify _) _ x tt (set_next (sim_pc x) x)), sem_jump_if by done. done.
  - by rewrite exec_slli by nibs.
  - rewrite exec_srli; try done. by apply (ar_range x).
  - by rewrite exec_srai by nibs.
  - by rewrite exec_extui by nibs.
Qed.
End exec.

(** ** Fetching emitted code *)

Lemma code_bytes_lookup prog k i j : prog !! k = Some i → (j < 3)%nat →
  code_bytes prog !! (3 * k + j)%nat = word_bytes (encode i) !! j.
Proof.
  revert k. induction prog as [|i' prog IH]; intros k Hk Hj; [done|]. rewrite code_bytes_cons.
  destruct k as [|k]; cbn in Hk.
  - injection Hk as <-. rewrite lookup_app_l by (cbn [word_bytes length]; lia). by replace (3 * 0 + j)%nat with j by lia.
  - rewrite lookup_app_r by (cbn [word_bytes length]; lia).
    rewrite <- (IH k Hk Hj). f_equal. cbn [word_bytes length]. lia.
Qed.

(** A program that fits is in the buffer, byte for byte. *)
Lemma emit_program buf cap prog : 0 ≤ cap ≤ 0xFFFFFFFC → cap .& 3 = 0 →
  cap ≤ Z.of_nat (length buf) → 3 * Z.of_nat (length prog) ≤ cap →
  ∃ e, (emit_all prog ;; xt_flush_pending) (xt_init buf cap) = Some (tt, e) ∧
    em_overflow e = false ∧ em_len e = 3 * Z.of_nat (length prog) ∧
    ∀ n, (n < 3 * length prog)%nat → em_buf e !! n = code_bytes prog !! n.
Proof.
  intros Hc Hc4 Hb Hfit.
  destruct (emit_all_spec buf cap prog [] _ (xt_init_emitted buf cap)) as (e1 & E1 & H1 & O1); [simpl; lia..|].
  assert (fitting (cap - Z.of_nat (@length Z [])) prog = length prog) as Ef by (unfold fitting; cbn [length]; lia).
  rewrite Ef, take_ge in H1 by lia. rewrite Ef, Nat.eqb_refl in O1.
  rewrite (bind_Some _ _ _ _ _ E1). cbn [app] in H1.
  assert (Z.of_nat (length (code_bytes prog)) = 3 * Z.of_nat (length prog)) as El by (rewrite code_bytes_length; lia).
  destruct (flush_spec buf cap _ e1 H1 ltac:(lia) Hb Hc4) as (e2 & E2 & B2 & L2 & C2 & O2); [lia|].
  exists e2. split_and!; [done|by rewrite O2, O1| |].
  - rewrite L2, (et_len _ _ _ _ H1). lia.
  - intros n Hn. rewrite B2. unfold padded. rewrite <- app_assoc, lookup_app_l by (rewrite code_bytes_length; lia). done.
Qed.

Section fetch.
Context {H : Type} `{SimHostBytes H}.

Lemma join_word_bytes w : 0 ≤ w < 0x1000000 → u8 w .| (u8 (w ≫ 8) ≪ 8) .| (u8 (w ≫ 16) ≪ 16) = w.
Proof.
  intros. rewrite (Z.lor_comm (u8 w)), join16 by apply u8_range. rewrite Z.lor_comm.
  assert (byte (u8 (w ≫ 8))) as B1 by apply u8_range. assert (byte (u8 w)) as B0 by apply u8_range.
  unfold byte in *. rewrite lor_shiftl_add by lia.
  unfold u8. rewrite !Z.shiftr_div_pow2 by lia. change (2 ^ 8) with 256. change (2 ^ 16) with 65536. lia.
Qed.

Lemma encode_range i : 0 ≤ encode i < 0x1000000.
Proof.
  destruct (emit_instr_word i) as [w E]. rewrite (encode_of i w E), le_word_bytes_mod. lia.
Qed.

Lemma fetch_word (x : xt_sim H) i : running x → 
  sim_pc x + 3 ≤ sim_code_size x →
  (∀ j, (j < 3)%nat → code_at x (sim_pc x + Z.of_nat j) = word_bytes (encode i) !! j) →
  fetch24 x = Some (encode i, set_next (sim_pc x) x).
Proof.
  intros Hx Hsz Hj. pose proof (rn_pc _ Hx). unfold fetch24. rewrite !u32_small by lia.
  rewrite (proj2 (Z.ltb_ge _ _)) by lia.
  pose proof (Hj 0%nat ltac:(lia)) as E0. pose proof (Hj 1%nat ltac:(lia)) as E1. pose proof (Hj 2%nat ltac:(lia)) as E2.
  change (Z.of_nat 0) with 0 in E0. rewrite Z.add_0_r in E0. change (Z.of_nat 1) with 1 in E1.
  change (Z.of_nat 2) with 2 in E2. rewrite E0, E1, E2. cbn [word_bytes lookup list_lookup].
  by rewrite join_word_bytes by apply encode_range.
Qed.

Lemma step_fetched (x : xt_sim H) i : running x → instr_ok i = true →
  fetch24 x = Some (encode i, set_next (sim_pc x) x) → step x = sem i x.
Proof.
  intros Hx Hi Hf. unfold step. rewrite (bind_Some (gets _) _ x (sim_pc x) x), (bind_Some _ _ _ _ _ Hf) by done.
  rewrite (bind_Some (gets _) _ _ XT_SIM_RUN (set_next (sim_pc x) x)) by (unfold gets; cbn; by rewrite (rn_run _ Hx)).
  rewrite decide_True by done. rewrite encode_word by done. by apply step_word_sem.
Qed.

(** C29.  Encoder and simulator agree.  A program of instructions with operands
    in the encoder's range, emitted into a buffer it fits, is executed by the
    simulator with each instruction's documented meaning: in any running state
    over that buffer whose program counter is at instruction [k], one step does
    what [sem] gives for it (registers, program counter, loads, stores,
    branches, calls and returns). *)
Theorem emitted_step buf cap prog : 0 ≤ cap ≤ 0xFFFFFFF0 → cap .& 3 = 0 →
  cap ≤ Z.of_nat (length buf) → 3 * Z.of_nat (length prog) ≤ cap →
  forallb instr_ok prog = true →
  ∃ e, (emit_all prog ;; xt_flush_pending) (xt_init buf cap) = Some (tt, e) ∧
    em_overflow e = false ∧
    ∀ (x : xt_sim H) k i, running x → sim_code x = em_buf e → sim_code_size x = em_len e →
      sim_pc x = 3 * Z.of_nat k → prog !! k = Some i → step x = sem i x.
Proof.
  intros Hc Hc4 Hb Hfit Hok.
  destruct (emit_program buf cap prog) as (e & E & O & L & B); [lia|done..|].
  exists e. split_and!; [done..|]. intros x k i Hx Ecode Esize Epc Hk.
  assert (k < length prog)%nat as Hkl by (by apply lookup_lt_Some in Hk).
  assert (instr_ok i = true) as Hi.
  { rewrite forallb_forall in Hok. apply Hok, list_elem_of_In. by eapply list_elem_of_lookup_2. }
  apply step_fetched; [done..|]. apply fetch_word; [done|lia|]. intros j Hj.
  unfold code_at. rewrite (proj2 (Z.ltb_ge _ _)) by lia. rewrite Ecode.
  replace (Z.to_nat (sim_pc x + Z.of_nat j)) with (3 * k + j)%nat by lia.
  rewrite B by lia. by apply code_bytes_lookup.
Qed.
End fetch.

(** ** Running straight-line code *)

Definition straight (i : xt_instr) : bool :=
  match i with
  | Beqz _ _ | Bnez _ _ | J _ | Call0 _ | Jx _ | Callx0 _ | Ret => false
  | _ => true
  end.

Section run.
Context {H : Type} `{SimHostBytes H}.
Implicit Types x y : xt_sim H.

(** The instructions one after the other, each counted. *)
Fixpoint exec (prog : list xt_instr) : M (xt_sim H) unit :=
  match prog with
  | [] => mret tt
  | i :: prog => sem i ;; modify (λ x, set_sim_count (sim_instr_count x + 1) x) ;; exec prog
  end.

(** What a straight-line instruction leaves alone. *)
Record follows x y : Prop := {
  fo_len : length (sim_a y) = length (sim_a x);
  fo_regs : Forall (λ v, 0 ≤ v < 0x100000000) (sim_a x) → Forall (λ v, 0 ≤ v < 0x100000000) (sim_a y);
  fo_code : sim_code y = sim_code x;
  fo_size : sim_code_size y = sim_code_size x;
  fo_pc : sim_pc y = sim_pc x;
  fo_st : sim_st y = sim_st x
}.

#[export] Instance follows_refl : Reflexive follows.
Proof using. by intros x. Qed.
#[export] Instance follows_trans : Transitive follows.
Proof using. intros x y z [] []. split; try congruence. auto. Qed.

Lemma follows_set_ar r v x : follows x (set_ar r v x).
Proof using. split; try done; [by apply zset_length|]. intros. apply zset_Forall; [apply u32_range|done]. Qed.

Lemma follows_user h x : follows x (set_sim_user h x).
Proof using. by split. Qed.

Lemma load_into_follows t a n x y : load_into t a (λ p, peek_le n p 0) x = Some (tt, y) → follows x y.
Proof.
  unfold load_into. rewrite (bind_Some (host_ptr a) _ x (translate ≫= λ f, f x a) x) by done.
  destruct (translate ≫= _) as [p|]; [|intros [= <-]; apply follows_set_ar].
  unfold mbind, M_bind.
  destruct (peek_le n p 0 x) as [[v z]|] eqn:E; [|done]. apply peek_le_range in E as [_ ->].
  intros [= <-]. apply follows_set_ar.
Qed.

Lemma poke_le_follows n p k v x y : poke_le n p k v x = Some (tt, y) → follows x y.
Proof using.
  revert k v x. induction n as [|n IH]; intros k v x; cbn [poke_le]; [by intros [= <-]|].
  unfold mbind, M_bind, poke. destruct (host_poke _ _ _) as [h|]; [|done]. cbn [fmap option_fmap option_map].
  intros E. apply IH in E. etrans; [apply (follows_user h)|done].
Qed.

Lemma store_at_follows n a v x y : store_at a (λ p, poke_le n p 0 v) x = Some (tt, y) → follows x y.
Proof using.
  unfold store_at. rewrite (bind_Some (host_ptr a) _ x (translate ≫= λ f, f x a) x) by done.
  destruct (translate ≫= _) as [p|]; [apply poke_le_follows|by intros [= <-]].
Qed.

Lemma sem_follows i x y : straight i = true → sem i x = Some (tt, y) →
  follows (set_next (sim_pc x) x) y.
Proof.
  intros Hs. destruct i; try done; unfold sem; rewrite sem_bind_id;
    unfold sem_set, modify; try (intros [= <-]; apply follows_set_ar);
    unfold sem_load, sem_store; rewrite (bind_Some (modify _) _ x tt (set_next (sim_pc x) x)) by done;
    rewrite sem_bind_id; first [apply load_into_follows|apply store_at_follows].
Qed.

Lemma running_next x y : running x → sim_pc x + 3 < 0xFFFFFFF0 → follows (set_next (sim_pc x) x) y →
  running y ∧ sim_pc y = sim_pc x + 3 ∧ sim_code y = sim_code x ∧ sim_code_size y = sim_code_size x.
Proof using.
  intros [Hl Hr Hp Hst] Hlt [F1 F2 F3 F4 F5 F6]. cbn in *. rewrite u32_small in F5 by lia.
  split_and!; try done. split; [congruence|auto|lia|congruence].
Qed.

(** The code of [prog] is at [x]'s program counter. *)
Definition at_pc x (prog : list xt_instr) : Prop :=
  sim_pc x + 3 * Z.of_nat (length prog) ≤ sim_code_size x ∧
  ∀ n, (n < 3 * length prog)%nat → code_at x (sim_pc x + Z.of_nat n) = code_bytes prog !! n.

Lemma at_pc_step x i prog : running x → instr_ok i = true → at_pc x (i :: prog) → step x = sem i x.
Proof.
  intros Hx Hi [Hsz Hat]. cbn [length] in *. apply step_fetched; [done..|].
  apply fetch_word; [done|lia|]. intros j Hj. rewrite Hat by lia.
  rewrite code_bytes_cons. apply lookup_app_l. cbn [word_bytes length]. lia.
Qed.

Lemma at_pc_app x p q : at_pc x (p ++ q) → at_pc x p ∧
  (∀ y, sim_pc y = sim_pc x + 3 * Z.of_nat (length p) → sim_code y = sim_code x →
    sim_code_size y = sim_code_size x → at_pc y q).
Proof using.
  intros [Hsz Hat]. rewrite length_app in Hsz, Hat. pose proof (code_bytes_length p) as El.
  assert (code_bytes (p ++ q) = code_bytes p ++ code_bytes q) as Ea by apply bind_app.
  split; [split; [lia|]|].
  - intros n Hn. rewrite Hat, Ea by lia. by apply lookup_app_l; lia.
  - intros y Ep Ec Es. split; [lia|]. intros n Hn.
    pose proof (Hat (3 * length p + n)%nat ltac:(lia)) as E1.
    rewrite Ea, lookup_app_r, El in E1 by lia.
    replace (3 * length p + n - 3 * length p)%nat with n in E1 by lia. rewrite <- E1.
    unfold code_at. rewrite Ec, Ep.
    by replace (sim_pc x + 3 * Z.of_nat (length p) + Z.of_nat n)
      with (sim_pc x + Z.of_nat (3 * length p + n)) by lia.
Qed.

Lemma run_straight prog m x y : running x → sim_code_size x < 0xFFFFFFF0 → forallb instr_ok prog = true →
  forallb straight prog = true → at_pc x prog → exec prog x = Some (tt, y) →
  xt_sim_run (length prog + m) x = xt_sim_run m y ∧
  running y ∧ sim_pc y = sim_pc x + 3 * Z.of_nat (length prog) ∧
  sim_code y = sim_code x ∧ sim_code_size y = sim_code_size x.
Proof.
  revert x. induction prog as [|i prog IH]; intros x Hx Hsz Hok Hst Hat E.
  { injection E as <-. split_and!; [done..| |done|done]. simpl. lia. }
  cbn [forallb] in Hok, Hst. apply andb_true_iff in Hok as [Hi Hok]. apply andb_true_iff in Hst as [Hsi Hst].
  cbn [exec] in E. unfold mbind at 1, M_bind at 1 in E. destruct (sem i x) as [[[] x1]|] eqn:Es; [|done].
  rewrite (bind_Some (modify _) _ x1 tt (set_sim_count (sim_instr_count x1 + 1) x1)) in E by done.
  set (x2 := set_sim_count (sim_instr_count x1 + 1) x1) in *.
  pose proof Hat as [Hfit _]. cbn [length] in Hfit.
  destruct (running_next x x1) as (Hx1 & Hp1 & Hc1 & Hs1); [done|lia|by apply sem_follows in Es|].
  assert (running x2) as Hx2 by (by destruct Hx1).
  destruct (IH x2) as (Er & Hy & Hpy & Hcy & Hsy); try done.
  { cbn. by rewrite Hs1. }
  { destruct (at_pc_app x [i] prog Hat) as [_ F]. by apply F. }
  split_and!; [|done| | |].
  - rewrite <- Er. cbn [length Nat.add xt_sim_run].
    rewrite (bind_Some (gets _) _ x XT_SIM_RUN x) by (unfold gets; by rewrite (rn_run _ Hx)).
    rewrite decide_True by done.
    rewrite (bind_Some step _ x tt x1) by (rewrite <- Es; by apply (at_pc_step x i prog)).
    by rewrite (bind_Some (modify _) _ x1 tt x2) by done.
  - rewrite Hpy. cbn [length]. change (sim_pc x2) with (sim_pc x1). lia.
  - by rewrite Hcy.
  - by rewrite Hsy.
Qed.
End run.

(** C30.  Generated code returns.  A straight-line body followed by [RET],
    emitted into a buffer it fits and run from its start, reaches the
    simulator's end state within one step per instruction, provided the body
    (executed by the documented meaning of its instructions) reads nothing
    undefined and leaves the return address at the sentinel; the registers and
    the host are the ones the body leaves. *)
Theorem emitted_returns {H : Type} `{SimHostBytes H} buf cap body m :
  0 ≤ cap < 0xFFFFFFF0 → cap .& 3 = 0 →
  cap ≤ Z.of_nat (length buf) → 3 * (Z.of_nat (length body) + 1) ≤ cap →
  forallb instr_ok body = true → forallb straight body = true →
  ∃ e, (emit_all (body ++ [Ret]) ;; xt_flush_pending) (xt_init buf cap) = Some (tt, e) ∧
    ∀ x y : xt_sim H, running x → sim_code x = em_buf e → sim_code_size x = em_len e → sim_pc x = 0 →
      exec body x = Some (tt, y) → ar y 0 = SENTINEL_RET →
      ∃ z, xt_sim_run (length body + S m) x = Some (tt, z) ∧
        sim_st z = XT_SIM_RETURNED ∧ sim_a z = sim_a y ∧ sim_user z = sim_user y.
Proof.
  intros Hc Hc4 Hb Hfit Hok Hst.
  destruct (emit_program buf cap (body ++ [Ret])) as (e & E & O & L & B);
    [lia|done..|rewrite length_app; cbn [length]; lia|].
  rewrite length_app in L, B. cbn [length] in L, B.
  exists e. split; [done|]. intros x y Hx Ecode Esize Epc Ex Ea0.
  assert (at_pc x (body ++ [Ret])) as Hat.
  { split; [rewrite length_app; cbn [length]; lia|]. rewrite length_app. cbn [length]. intros n Hn.
    unfold code_at. rewrite (proj2 (Z.ltb_ge _ _)), Epc, Ecode by lia.
    replace (Z.to_nat (0 + Z.of_nat n)) with n by lia. by apply B. }
  destruct (at_pc_app _ _ _ Hat) as [Hbody Hret].
  destruct (run_straight body (S m) x y) as (Er & Hy & Hpy & Hcy & Hsy); [done|lia|done..|].
  specialize (Hret y Hpy Hcy Hsy).
  rewrite Er. cbn [xt_sim_run].
  rewrite (bind_Some (gets _) _ y XT_SIM_RUN y) by (unfold gets; by rewrite (rn_run _ Hy)).
  rewrite decide_True by done.
  set (z := set_sim_st XT_SIM_RETURNED (set_next (sim_pc y) y)).
  assert (step y = Some (tt, z)) as Estep.
  { rewrite (at_pc_step y Ret []) by done. unfold sem. rewrite sem_bind_id. unfold sem_jump.
    rewrite Ea0. done. }
  rewrite (bind_Some step _ y tt z) by done.
  eexists. split; [rewrite (bind_Some (modify _) _ z tt _) by done; by destruct m|done].
Qed.

(** ** Concrete runs *)

(** A host of bytes at addresses from 0. *)
Definition list_peek (h : list Z) (p : Z) : option Z :=
  v ← h !! Z.to_nat p; if decide (byte v) then Some v else None.
Definition list_poke (h : list Z) (p v : Z) : option (list Z) :=
  if decide (Z.to_nat p < length h)%nat then Some (zset h p v) else None.
Definition list_translate (s : xt_sim (list Z)) (a : Z) : option Z :=
  if a <? Z.of_nat (length (sim_user s)) then Some a else None.
#[export] Instance list_host : SimHost (list Z) :=
  {| call_thunk := None; read_literal := None; translate := Some list_translate;
     host_peek := list_peek; host_poke := list_poke |}.
#[export] Instance list_host_bytes : SimHostBytes (list Z).
Proof.
  intros h p v. cbn. unfold list_peek. destruct (h !! Z.to_nat p); [|done]. cbn.
  destruct (decide _); [|done]. by intros [= <-].
Qed.

(** [a3 = 5; a3 -= 3; mem[1] = a3], then the return. *)
Definition sample_body : list xt_instr := [Movi 3 5; Addi 3 3 (-3); S8i 3 2 1].
Definition sample_start (code : list Z) (size pc : Z) : xt_sim (list Z) :=
  mk_sim (replicate 16 0) code size pc 0 [0xAA; 0xBB] XT_SIM_RUN.

Lemma sample_running code size pc : 0 ≤ pc < 0xFFFFFFF0 → running (sample_start code size pc).
Proof. intros. split; try done. by apply Forall_replicate. Qed.

Lemma emitted_step_witness : ∃ e,
  (emit_all sample_body ;; xt_flush_pending) (xt_init (replicate 12 0) 12) = Some (tt, e) ∧
  step (sample_start (em_buf e) (em_len e) 6) = sem (S8i 3 2 1) (sample_start (em_buf e) (em_len e) 6).
Proof.
  destruct (emitted_step (H := list Z) (replicate 12 0) 12 sample_body) as (e & E & _ & F);
    [done|done|done|done|reflexivity|].
  exists e. split; [exact E|]. apply (F _ 2%nat (S8i 3 2 1)); try done. by apply sample_running.
Defined.

Lemma emitted_returns_witness : ∃ e z,
  (emit_all (sample_body ++ [Ret]) ;; xt_flush_pending) (xt_init (replicate 12 0) 12) = Some (tt, e) ∧
  xt_sim_run 10 (sample_start (em_buf e) (em_len e) 0) = Some (tt, z) ∧
  sim_st z = XT_SIM_RETURNED ∧ ar z 3 = 2 ∧ sim_user z = [0xAA; 2].
Proof.
  destruct (emitted_returns (H := list Z) (replicate 12 0) 12 sample_body 6) as (e & E & F);
    [done|done|done|done|reflexivity|reflexivity|].
  destruct (F (sample_start (em_buf e) (em_len e) 0)
    (mk_sim (zset (replicate 16 0) 3 2) (em_buf e) (em_len e) 9 3 [0xAA; 2] XT_SIM_RUN))
    as (z & R & S & A & U); [by apply sample_running|done|done|done|reflexivity|reflexivity|].
  exists e, z. split; [exact E|]. split; [exact R|]. split; [exact S|]. split; [|exact U].
  unfold ar. rewrite A. reflexivity.
Defined.
