(* ===== verification/CodeCache.v ===== *)
(** * The code cache's allocators (jit/codecache.c)

    The arena is memory of 32-bit words; a block's address is its offset from
    the arena's base.  A header word outside the arena, or at an address that
    is not a multiple of 4, is undefined behaviour.  The eviction callbacks
    work on the cache's owner, a state the cache is a part of. *)

From Stdlib Require Import ZArith Lia.
From stdpp Require Import base tactics numbers list.
From S2P Require Import Prelude.

Definition CC_NIL : Z := 0xFFFFFFFF.
Definition CC_ALIGN : Z := 8.
Definition cc_align (v : Z) : Z := u32 (v + (CC_ALIGN - 1)) .& not32 (CC_ALIGN - 1).
(** [sizeof(cc_free_hdr)]: the words [size] and [next]. *)
Definition sizeof_cc_free_hdr : Z := 8.

Definition CC_MODE_BUMP : Z := 0.
Definition CC_MODE_LRU : Z := 1.
Definition CC_MODE_FIFO : Z := 2.
Definition CC_MODE_RANDOM : Z := 3.

Record codecache := mk_cc {
  cc_base : list Z;
  cc_used : Z;
  cc_cap : Z;
  cc_mode : Z;
  cc_free_head : Z
}.
Definition set_cc_base (v : list Z) (c : codecache) : codecache :=
  mk_cc v (cc_used c) (cc_cap c) (cc_mode c) (cc_free_head c).
Definition set_cc_used (v : Z) (c : codecache) : codecache :=
  mk_cc (cc_base c) (u32 v) (cc_cap c) (cc_mode c) (cc_free_head c).
Definition set_cc_free_head (v : Z) (c : codecache) : codecache :=
  mk_cc (cc_base c) (cc_used c) (cc_cap c) (cc_mode c) (u32 v).

(** ** Headers of free spans *)

(** The word at a byte offset of the arena. *)
Definition word_index (mem : list Z) (off : Z) : option nat :=
  if (0 <=? off) && (off mod 4 =? 0) && (off / 4 <? Z.of_nat (length mem))
  then Some (Z.to_nat (off / 4)) else None.
Definition load_word (off : Z) : M codecache Z := λ c,
  i ← word_index (cc_base c) off; v ← cc_base c !! i; Some (v, c).
Definition store_word (off v : Z) : M codecache unit := λ c,
  i ← word_index (cc_base c) off; Some (tt, set_cc_base (<[i := u32 v]> (cc_base c)) c).

Definition hdr_size (off : Z) : M codecache Z := load_word off.
Definition hdr_next (off : Z) : M codecache Z := load_word (off + 4).
Definition set_hdr_size (off v : Z) : M codecache unit := store_word off v.
Definition set_hdr_next (off v : Z) : M codecache unit := store_word (off + 4) v.
(** [prev]'s link, or the list's head. *)
Definition set_link (prev v : Z) : M codecache unit :=
  if prev =? CC_NIL then modify (set_cc_free_head v) else set_hdr_next prev v.

Definition whole_arena : M codecache unit :=
  c ← gets id;
  when ((cc_mode c =? CC_MODE_LRU) && (sizeof_cc_free_hdr <=? cc_cap c)) (
    set_hdr_size 0 (cc_cap c) ;; set_hdr_next 0 CC_NIL ;; modify (set_cc_free_head 0)).

Definition codecache_init (base : list Z) (cap mode : Z) : option (unit * codecache) :=
  whole_arena (mk_cc base 0 (cap .& not32 (CC_ALIGN - 1)) mode CC_NIL).

(** ** The free-list allocator *)

(** The size a request takes. *)
Definition lru_size (size : Z) : Z :=
  let size := cc_align size in
  if size <? sizeof_cc_free_hdr then sizeof_cc_free_hdr else size.

(** The span at [cur] is given out: its tail stays free, or it is unlinked. *)
Definition lru_carve (size prev cur : Z) : M codecache unit :=
  sz ← hdr_size cur;
  next ← hdr_next cur;
  let leftover := u32 (sz - size) in
  if sizeof_cc_free_hdr <=? leftover then
    let toff := u32 (cur + size) in
    set_hdr_size toff leftover ;; set_hdr_next toff next ;; set_link prev toff
  else set_link prev next.

(** First fit, from [cur] on. *)
Fixpoint lru_walk (fuel : nat) (size prev cur : Z) : M codecache (option Z) :=
  match fuel with
  | O => undefined_behaviour
  | S fuel =>
      if cur =? CC_NIL then mret None
      else
        sz ← hdr_size cur;
        if size <=? sz then lru_carve size prev cur ;; mret (Some cur)
        else next ← hdr_next cur; lru_walk fuel size cur next
  end.

(** A free span is at least one header long. *)
Definition walk_fuel (c : codecache) : nat := S (Z.to_nat (cc_cap c / sizeof_cc_free_hdr)).

Definition lru_find (size : Z) : M codecache (option Z) :=
  c ← gets id; lru_walk (walk_fuel c) size CC_NIL (cc_free_head c).

(** The first span at or after [offset], and the one before it. *)
Fixpoint lru_seek (fuel : nat) (offset prev cur : Z) : M codecache (Z * Z) :=
  match fuel with
  | O => undefined_behaviour
  | S fuel =>
      if negb (cur =? CC_NIL) && (cur <? offset) then
        next ← hdr_next cur; lru_seek fuel offset cur next
      else mret (prev, cur)
  end.

(** Merge the span at [offset] with the one at [cur] if they touch. *)
Definition coalesce_after (offset cur : Z) : M codecache unit :=
  nsize ← hdr_size offset;
  when (negb (cur =? CC_NIL) && (u32 (offset + nsize) =? cur)) (
    csize ← hdr_size cur; set_hdr_size offset (nsize + csize) ;;
    cnext ← hdr_next cur; set_hdr_next offset cnext).
Definition coalesce_before (offset prev : Z) : M codecache unit :=
  when (negb (prev =? CC_NIL)) (
    psize ← hdr_size prev;
    when (u32 (prev + psize) =? offset) (
      nsize ← hdr_size offset; set_hdr_size prev (psize + nsize) ;;
      nnext ← hdr_next offset; set_hdr_next prev nnext)).

Definition lru_free (offset size : Z) : M codecache unit :=
  let size := lru_size size in
  c ← gets id;
  pc ← lru_seek (walk_fuel c) offset CC_NIL (cc_free_head c);
  set_hdr_size offset size ;; set_hdr_next offset (snd pc) ;;
  set_link (fst pc) offset ;;
  coalesce_after offset (snd pc) ;;
  coalesce_before offset (fst pc).

(** ** The public interface *)

(** The owner of a cache, with its callbacks as they are set in it. *)
Class CacheOwner (W : Type) := {
  own_cc : W → codecache;
  own_set_cc : codecache → W → W;
  cc_evict : W → option (M W Z);
  cc_evict_range : W → option (Z → Z → M W unit)
}.

Section owner.
Context {W : Type} `{CacheOwner W}.

Definition on_cc {A} (m : M codecache A) : M W A := λ w,
  match m (own_cc w) with Some (a, c) => Some (a, own_set_cc c w) | None => None end.

(** [evictions] bounds how often the loop can go round. *)
Fixpoint lru_alloc_loop (evictions : nat) (size : Z) : M W (option Z) :=
  match evictions with
  | O => undefined_behaviour
  | S n =>
      r ← on_cc (lru_find size);
      match r with
      | Some off => mret (Some off)
      | None =>
          w ← gets id;
          match cc_evict w with
          | None => mret None
          | Some evict =>
              freed ← evict;
              if freed =? 0 then mret None else lru_alloc_loop n size
          end
      end
  end.

Definition lru_alloc (evictions : nat) (size : Z) : M W (option Z) :=
  let size := lru_size size in
  cap ← gets (λ w, cc_cap (own_cc w));
  if cap <? size then mret None else lru_alloc_loop evictions size.

Definition fifo_alloc (size : Z) : M W (option Z) :=
  let size := cc_align size in
  cap ← gets (λ w, cc_cap (own_cc w));
  if cap <? size then mret None
  else
    used ← gets (λ w, cc_used (own_cc w));
    when (cap <? u32 (used + size)) (on_cc (modify (set_cc_used 0))) ;;
    start ← gets (λ w, cc_used (own_cc w));
    w ← gets id;
    match cc_evict_range w with Some evict_range => evict_range start (u32 (start + size)) | None => mret tt end ;;
    on_cc (modify (λ c, set_cc_used (cc_used c + size) c)) ;;
    mret (Some start).

Definition bump_alloc (size : Z) : M codecache (option Z) :=
  modify (λ c, set_cc_used (cc_align (cc_used c)) c) ;;
  c ← gets id;
  if cc_cap c <? u32 (cc_used c + size) then mret None
  else modify (set_cc_used (cc_used c + size)) ;; mret (Some (cc_used c)).

Definition codecache_alloc (evictions : nat) (size : Z) : M W (option Z) :=
  mode ← gets (λ w, cc_mode (own_cc w));
  if mode =? CC_MODE_LRU then lru_alloc evictions size
  else if mode =? CC_MODE_FIFO then fifo_alloc size
  else on_cc (bump_alloc size).
End owner.

Definition codecache_free (offset size : Z) : M codecache unit :=
  c ← gets id; when (cc_mode c =? CC_MODE_LRU) (lru_free offset size).

Definition codecache_reset : M codecache unit :=
  modify (set_cc_used 0) ;; modify (set_cc_free_head CC_NIL) ;; whole_arena.

Definition codecache_trim (block actual reserved : Z) : M codecache unit :=
  let actual := cc_align actual in
  c ← gets id;
  if cc_mode c =? CC_MODE_LRU then
    let reserved := cc_align reserved in
    when (actual <? reserved) (lru_free (u32 (block + actual)) (u32 (reserved - actual)))
  else modify (set_cc_used (block + actual)).

(** ** Free lists as sequences of spans *)

#[local] Ltac Zify.zify_post_hook ::= Z.to_euclidean_division_equations.


(** Address order, alignment, and a gap between neighbours: two free spans
    that touch have been merged. *)
Fixpoint spans (lo cap : Z) (l : list (Z * Z)) : Prop :=
  match l with
  | [] => True
  | (o, s) :: l => lo ≤ o ∧ o mod 8 = 0 ∧ 8 ≤ s ∧ s mod 8 = 0 ∧ o + s ≤ cap ∧ spans (o + s + 1) cap l
  end.

(** How many of the spans contain [x]. *)
Fixpoint hits (l : list (Z * Z)) (x : Z) : Z :=
  match l with
  | [] => 0
  | (o, s) :: l => b2z ((o <=? x) && (x <? o + s)) + hits l x
  end.

Fixpoint first_fit (size : Z) (l : list (Z * Z)) : option (Z * list (Z * Z)) :=
  match l with
  | [] => None
  | (o, s) :: l =>
      if size <=? s then Some (o, if 8 <=? s - size then (o + size, s - size) :: l else l)
      else match first_fit size l with Some (p, l') => Some (p, (o, s) :: l') | None => None end
  end.

(** The span [(off, size)] at the front of the spans after it. *)
Definition join_after (off size : Z) (l : list (Z * Z)) : list (Z * Z) :=
  match l with
  | (o, s) :: l' => if off + size =? o then (off, size + s) :: l' else (off, size) :: l
  | [] => [(off, size)]
  end.

Fixpoint add_span (off size : Z) (l : list (Z * Z)) : list (Z * Z) :=
  match l with
  | (o, s) :: l' =>
      if o <? off then
        match l' with
        | (o', _) :: _ =>
            if o' <? off then (o, s) :: add_span off size l'
            else if o + s =? off then
              match join_after off size l' with (_, s') :: l'' => (o, s + s') :: l'' | [] => [] end
            else (o, s) :: join_after off size l'
        | [] => if o + s =? off then [(o, s + size)] else [(o, s); (off, size)]
        end
      else join_after off size l
  | [] => [(off, size)]
  end.

Lemma hits_app l l' x : hits (l ++ l') x = hits l x + hits l' x.
Proof. induction l as [|[o s] l IH]; [done|]. cbn [hits app]. rewrite IH. lia. Qed.

Lemma hits_nonneg l x : 0 ≤ hits l x.
Proof. induction l as [|[o s] l IH]; cbn [hits]; [lia|]. unfold b2z. case_match; lia. Qed.

Lemma spans_weaken lo lo' cap l : lo' ≤ lo → spans lo cap l → spans lo' cap l.
Proof. destruct l as [|[o s] l]; [done|]. cbn. intuition lia. Qed.

Lemma spans_app lo cap l l' : spans lo cap (l ++ l') → spans lo cap l ∧ ∃ lo', lo ≤ lo' ∧ spans lo' cap l'.
Proof.
  revert lo. induction l as [|[o s] l IH]; intros lo Hs; [by split; [|exists lo]|].
  cbn in *. destruct Hs as (? & ? & ? & ? & ? & Hs). destruct (IH _ Hs) as [? (lo' & ? & ?)].
  split; [done|]. exists lo'. split; [lia|done].
Qed.

(** No address below the bound is free. *)
Lemma hits_below lo cap l x : spans lo cap l → x < lo → hits l x = 0.
Proof.
  revert lo. induction l as [|[o s] l IH]; intros lo Hs Hx; [done|].
  cbn in *. destruct Hs as (? & ? & ? & ? & ? & Hs). rewrite (IH _ Hs) by lia.
  rewrite (proj2 (Z.leb_gt _ _)) by lia. done.
Qed.

Lemma hits_above lo cap l x : spans lo cap l → cap ≤ x → hits l x = 0.
Proof.
  revert lo. induction l as [|[o s] l IH]; intros lo Hs Hx; [done|].
  cbn in *. destruct Hs as (? & ? & ? & ? & ? & Hs). rewrite (IH _ Hs) by lia.
  rewrite (proj2 (Z.ltb_ge _ _)), andb_false_r by lia. done.
Qed.

Lemma hits_le_1 lo cap l x : spans lo cap l → hits l x ≤ 1.
Proof.
  revert lo. induction l as [|[o s] l IH]; intros lo Hs; [done|].
  cbn in *. destruct Hs as (? & ? & ? & ? & ? & Hs). pose proof (IH _ Hs).
  unfold b2z. destruct ((o <=? x) && (x <? o + s)) eqn:E; [|lia].
  rewrite (hits_below _ _ _ _ Hs) by lia. lia.
Qed.

(** *** First fit *)

Lemma first_fit_spec lo cap size l p l' : spans lo cap l → 8 ≤ size → size mod 8 = 0 →
  first_fit size l = Some (p, l') →
  spans lo cap l' ∧ lo ≤ p ∧ p mod 8 = 0 ∧ p + size ≤ cap ∧
  ∀ x, hits l x = hits l' x + b2z ((p <=? x) && (x <? p + size)).
Proof.
  revert lo p l'. induction l as [|[o s] l IH]; intros lo p l' Hs Hz Hm; [done|].
  cbn [first_fit]. cbn [spans] in Hs. destruct Hs as (? & ? & ? & ? & ? & Hs).
  destruct (Z.leb_spec size s).
  - intros [= <- <-]. destruct (Z.leb_spec 8 (s - size)).
    + split_and!; [cbn [spans]; split_and!; try lia; by replace (o + size + (s - size) + 1) with (o + s + 1) by lia
        |lia..|]. intros x. cbn [hits]. unfold b2z. repeat case_match; lia.
    + assert (s = size) as -> by lia.
      split_and!; [by apply (spans_weaken (o + size + 1)); [lia|]|lia..|].
      intros x. cbn [hits]. lia.
  - destruct (first_fit size l) as [[q l2]|] eqn:E; [|done]. intros [= <- <-].
    destruct (IH _ _ _ Hs Hz Hm eq_refl) as (S2 & ? & ? & ? & Hh).
    split_and!; [by cbn [spans]; split_and!|lia..|]. intros x. cbn [hits]. rewrite Hh. lia.
Qed.

Lemma first_fit_none size l : first_fit size l = None ↔ Forall (λ '(_, s), s < size) l.
Proof.
  induction l as [|[o s] l IH]; [done|]. cbn [first_fit]. rewrite Forall_cons_iff.
  destruct (Z.leb_spec size s); [split; [done|intros [? _]; lia]|].
  destruct (first_fit size l) as [[]|]; [|tauto]. split; [done|]. intros [_ Hl]. by apply IH in Hl.
Qed.

(** *** Coalescing insertion *)

Definition clear (l : list (Z * Z)) (off size : Z) : Prop := ∀ x, off ≤ x < off + size → hits l x = 0.

Lemma clear_cons o s l off size : clear ((o, s) :: l) off size → 0 < size → 0 < s →
  (o + s ≤ off ∨ off + size ≤ o) ∧ clear l off size.
Proof.
  intros Hc Hz Hs. split.
  - destruct (Z_le_gt_dec (o + s) off); [by left|]. right.
    destruct (Z_le_gt_dec (off + size) o); [done|]. exfalso.
    pose proof (Hc (Z.max o off) ltac:(lia)) as Hx. cbn [hits] in Hx.
    pose proof (hits_nonneg l (Z.max o off)).
    rewrite (proj2 (Z.leb_le _ _)), (proj2 (Z.ltb_lt _ _)) in Hx by lia. cbn in Hx. lia.
  - intros x Hx. specialize (Hc x Hx). cbn [hits] in Hc. pose proof (hits_nonneg l x).
    unfold b2z in Hc. case_match; lia.
Qed.

Lemma join_after_spec lo cap off size l : spans (off + 1) cap l → clear l off size →
  lo ≤ off → off mod 8 = 0 → 8 ≤ size → size mod 8 = 0 → off + size ≤ cap →
  spans lo cap (join_after off size l) ∧
  (∀ x, hits (join_after off size l) x = hits l x + b2z ((off <=? x) && (x <? off + size))) ∧
  ∃ s' l', join_after off size l = (off, s') :: l' ∧ size ≤ s'.
Proof.
  intros Hs Hc ? ? ? ? ?. destruct l as [|[o s] l].
  { split_and!; [cbn; split_and!; done|intros x; cbn; lia|by exists size, []]. }
  cbn [spans] in Hs. destruct Hs as (? & ? & ? & ? & ? & Hs).
  destruct (clear_cons _ _ _ _ _ Hc) as [Hd _]; [lia..|]. cbn [join_after].
  destruct (Z.eqb_spec (off + size) o) as [<-|].
  - split_and!; [|intros x; cbn [hits]; unfold b2z; repeat case_match; lia|by eexists _, _; split; [done|lia]].
    cbn [spans]. split_and!; try lia. by replace (off + (size + s) + 1) with (off + size + s + 1) by lia.
  - split_and!; [|intros x; cbn [hits]; lia|by eexists _, _].
    cbn [spans]. split_and!; try lia. done.
Qed.

(** Insertion between the span at [o] and the spans [l] after [off]. *)
Lemma add_span_between o s off size cap l s1 l1 : o < off → l ≠ [] → spans (off + 1) cap l →
  join_after off size l = (off, s1) :: l1 →
  add_span off size ((o, s) :: l) = if o + s =? off then (o, s + s1) :: l1 else (o, s) :: (off, s1) :: l1.
Proof.
  intros Ho Hne Hs E. destruct l as [|[o' s'] l']; [done|]. cbn [spans] in Hs.
  cbn [add_span]. rewrite (proj2 (Z.ltb_lt o off)), (proj2 (Z.ltb_ge o' off)) by lia. by rewrite E.
Qed.

Lemma add_span_skip o s o' s' l off size : o < off → o' < off →
  add_span off size ((o, s) :: (o', s') :: l) = (o, s) :: add_span off size ((o', s') :: l).
Proof.
  intros. change (add_span off size ((o, s) :: (o', s') :: l)) with
    (if o <? off then if o' <? off then (o, s) :: add_span off size ((o', s') :: l)
       else if o + s =? off then
         match join_after off size ((o', s') :: l) with (_, s'') :: l'' => (o, s + s'') :: l'' | [] => [] end
       else (o, s) :: join_after off size ((o', s') :: l)
     else join_after off size ((o, s) :: (o', s') :: l)).
  by rewrite (proj2 (Z.ltb_lt o off)), (proj2 (Z.ltb_lt o' off)) by done.
Qed.

Lemma add_span_spec lo cap off size l : spans lo cap l → clear l off size →
  lo ≤ off → off mod 8 = 0 → 8 ≤ size → size mod 8 = 0 → off + size ≤ cap →
  spans lo cap (add_span off size l) ∧
  ∀ x, hits (add_span off size l) x = hits l x + b2z ((off <=? x) && (x <? off + size)).
Proof.
  revert lo. induction l as [|[o s] l IH]; intros lo Hs Hc ? ? ? ? ?.
  { split; [cbn; split_and!; done|]. intros x. cbn. lia. }
  cbn [spans] in Hs. destruct Hs as (? & ? & ? & ? & ? & Hs).
  destruct (clear_cons _ _ _ _ _ Hc) as [Hd Hc']; [lia..|].
  destruct (Z.lt_ge_cases o off).
  2:{ cbn [add_span]. rewrite (proj2 (Z.ltb_ge o off)) by done.
      destruct (join_after_spec lo cap off size ((o, s) :: l)) as (S1 & Hh1 & _); try done.
      cbn [spans]. split_and!; try done. lia. }
  assert (l = [] ∨ (∃ o' s' l', l = (o', s') :: l' ∧ o' < off) ∨ (l ≠ [] ∧ spans (off + 1) cap l)) as Hl.
  { destruct l as [|[o' s'] l']; [by left|right].
    destruct (Z_lt_le_dec o' off); [left; by eexists _, _, _|right].
    split; [done|]. destruct (clear_cons _ _ _ _ _ Hc') as [Hd' _]; cbn [spans] in *; [lia..|].
    intuition lia. }
  destruct Hl as [-> |[(o' & s' & l' & -> & Hlt)|[Hne Hs']]].
  - cbn [add_span]. rewrite (proj2 (Z.ltb_lt o off)) by done. destruct (Z.eqb_spec (o + s) off) as [<-|].
    + split; [cbn [spans]; split_and!; try done; lia|]. intros x. cbn [hits]. unfold b2z. repeat case_match; lia.
    + split; [cbn [spans]; split_and!; try done; lia|]. intros x. cbn [hits]. lia.
  - rewrite add_span_skip by done.
    assert (o + s + 1 ≤ off) by (cbn [spans] in Hs; lia).
    destruct (IH _ Hs Hc') as [S1 Hh1]; try done.
    split; [by split_and!|]. intros x. change (hits ((o, s) :: ?k) x) with (b2z ((o <=? x) && (x <? o + s)) + hits k x).
    rewrite Hh1. cbn [hits]. lia.
  - assert (o + s ≤ off) by lia.
    destruct (join_after_spec off cap off size l) as (S1 & Hh1 & s1 & l1 & E & ?); try done.
    rewrite (add_span_between o s off size cap l s1 l1) by done.
    rewrite E in S1, Hh1. cbn [spans] in S1. destruct S1 as (? & ? & ? & ? & ? & S1).
    destruct (Z.eqb_spec (o + s) off) as [<-|].
    + split.
      { cbn [spans]. split_and!; try lia. by replace (o + (s + s1) + 1) with (o + s + s1 + 1) by lia. }
      intros x. specialize (Hh1 x). cbn [hits] in *. unfold b2z in *. repeat case_match; lia.
    + split; [cbn [spans]; split_and!; try done; lia|].
      intros x. specialize (Hh1 x). cbn [hits] in *. lia.
Qed.

(** Freeing what first fit gave out restores the list. *)
Lemma first_fit_add_span lo cap size l p l' : spans lo cap l → 8 ≤ size → size mod 8 = 0 →
  first_fit size l = Some (p, l') → add_span p size l' = l.
Proof.
  revert lo p l'. induction l as [|[o s] l IH]; intros lo p l' Hs Hz Hm; [done|].
  cbn [first_fit]. cbn [spans] in Hs. destruct Hs as (? & ? & ? & ? & ? & Hs).
  destruct (Z.leb_spec size s).
  - intros [= <- <-]. destruct (Z.leb_spec 8 (s - size)).
    + cbn [add_span]. rewrite (proj2 (Z.ltb_ge _ _)) by lia. cbn [join_after].
      rewrite (proj2 (Z.eqb_eq _ _)) by done. by replace (size + (s - size)) with s by lia.
    + assert (s = size) as -> by lia. destruct l as [|[o' s'] l]; [done|]. cbn [spans] in Hs.
      cbn [add_span]. rewrite (proj2 (Z.ltb_ge _ _)) by lia. cbn [join_after].
      by rewrite (proj2 (Z.eqb_neq _ _)) by lia.
  - destruct (first_fit size l) as [[q l2]|] eqn:E; [|done]. intros [= <- <-].
    pose proof (first_fit_spec _ _ _ _ _ _ Hs Hz Hm E) as (S2 & Hq & _ & _ & Hh).
    specialize (IH _ _ _ Hs Hz Hm eq_refl). cbn [add_span].
    rewrite (proj2 (Z.ltb_lt _ _)) by lia. destruct l2 as [|[o2 s2] l2].
    + rewrite (proj2 (Z.eqb_neq _ _)) by lia. cbn [add_span] in IH. by rewrite <- IH.
    + destruct (Z.ltb_spec o2 q); [by rewrite IH|].
      rewrite (proj2 (Z.eqb_neq _ _)) by lia. rewrite <- IH. cbn [add_span].
      by rewrite (proj2 (Z.ltb_ge _ _)) by lia.
Qed.

(** ** The free list in the arena *)

Definition mword (mem : list Z) (off : Z) : option Z := word_index mem off ≫= λ i, mem !! i.

(** The spans of [l], each header linking to the next, from [head] to [tail]. *)
Fixpoint seg (mem : list Z) (head : Z) (l : list (Z * Z)) (tail : Z) : Prop :=
  match l with
  | [] => head = tail
  | (o, s) :: l => head = o ∧ mword mem o = Some s ∧ ∃ n, mword mem (o + 4) = Some n ∧ seg mem n l tail
  end.

(** [c] is a free-list cache whose free spans are [l]. *)
Record rep (c : codecache) (l : list (Z * Z)) : Prop := {
  rep_seg : seg (cc_base c) (cc_free_head c) l CC_NIL;
  rep_spans : spans 0 (cc_cap c) l;
  rep_cap : 0 ≤ cc_cap c ≤ 0xFFFFFFF8;
  rep_mem : cc_cap c ≤ 4 * Z.of_nat (length (cc_base c))
}.

(** The same cache, its words changed at most where [ok] holds. *)
Record keeps (ok : Z → Prop) (c c' : codecache) : Prop := {
  ke_used : cc_used c' = cc_used c;
  ke_cap : cc_cap c' = cc_cap c;
  ke_mode : cc_mode c' = cc_mode c;
  ke_len : length (cc_base c') = length (cc_base c);
  ke_word : ∀ o, ¬ ok o → mword (cc_base c') o = mword (cc_base c) o
}.

Lemma keeps_refl ok c : keeps ok c c.
Proof. by split. Qed.

Lemma keeps_trans ok c1 c2 c3 : keeps ok c1 c2 → keeps ok c2 c3 → keeps ok c1 c3.
Proof. intros [] []. split; try congruence. intros o Ho. rewrite ke_word1 by done. auto. Qed.

Lemma keeps_mono (ok ok' : Z → Prop) c c' : (∀ o, ok o → ok' o) → keeps ok c c' → keeps ok' c c'.
Proof. intros Hi []. split; auto. Qed.

Lemma mword_lt mem off : 0 ≤ off → off mod 4 = 0 → off + 4 ≤ 4 * Z.of_nat (length mem) →
  word_index mem off = Some (Z.to_nat (off / 4)).
Proof.
  intros. unfold word_index. rewrite (proj2 (Z.leb_le _ _)), (proj2 (Z.eqb_eq _ _)), (proj2 (Z.ltb_lt _ _)) by lia.
  done.
Qed.

Lemma load_word_spec off c v : mword (cc_base c) off = Some v → load_word off c = Some (v, c).
Proof. unfold mword, load_word. destruct (word_index _ _); [|done]. cbn. by intros ->. Qed.

Lemma store_word_spec off v c : 0 ≤ off → off mod 4 = 0 → off + 4 ≤ 4 * Z.of_nat (length (cc_base c)) →
  0 ≤ v < 0x100000000 →
  ∃ c', store_word off v c = Some (tt, c') ∧ keeps (λ o, o = off) c c' ∧
    cc_free_head c' = cc_free_head c ∧ mword (cc_base c') off = Some v.
Proof.
  intros H1 H2 H3 Hv. unfold store_word. rewrite mword_lt by done. cbn. rewrite u32_small by done.
  eexists. split; [done|]. split_and!; [|done|].
  - split; try done; cbn; [by rewrite length_insert|]. intros o Ho. unfold mword, word_index.
    rewrite length_insert. destruct ((0 <=? o) && _ && _) eqn:E; [|done]. cbn.
    apply list_lookup_insert_ne. lia.
  - unfold mword. rewrite mword_lt by (cbn; rewrite ?length_insert; done). cbn.
    apply list_lookup_insert_eq. lia.
Qed.

(** *** Segments *)

Definition headers (l : list (Z * Z)) (o : Z) : Prop := ∃ p s, (p, s) ∈ l ∧ (o = p ∨ o = p + 4).

Lemma seg_frame ok c c' head l tail : keeps ok c c' → (∀ o, headers l o → ¬ ok o) →
  seg (cc_base c) head l tail → seg (cc_base c') head l tail.
Proof.
  intros Hk. revert head. induction l as [|[o s] l IH]; intros head Hl; [done|].
  cbn [seg]. intros (-> & Hs & n & Hn & Hseg). split; [done|].
  rewrite !(ke_word _ _ _ Hk) by (apply Hl; exists o, s; split; [left|]; lia || by auto).
  split; [done|]. exists n. split; [done|]. apply IH; [|done]. intros x (p & s' & ? & ?).
  apply Hl. exists p, s'. split; [by right|done].
Qed.

Lemma seg_app mem head l l' tail : seg mem head (l ++ l') tail ↔ ∃ x, seg mem head l x ∧ seg mem x l' tail.
Proof.
  revert head. induction l as [|[o s] l IH]; intros head; cbn [seg app].
  { split; [intros; by exists head|by intros (? & -> & ?)]. }
  split.
  - intros (-> & ? & n & ? & Hs). apply IH in Hs as (x & ? & ?). exists x. split; [|done].
    split_and!; [done..|]. by exists n.
  - intros (x & (-> & ? & n & ? & ?) & ?). split_and!; [done..|]. exists n. split; [done|].
    apply IH. by exists x.
Qed.

(** The value links to [l] carry: its first span, or the end. *)
Definition head_off (l : list (Z * Z)) : Z := match l with (o, _) :: _ => o | [] => CC_NIL end.
Fixpoint last_off (l : list (Z * Z)) : Z :=
  match l with [] => CC_NIL | [(o, _)] => o | _ :: l => last_off l end.

Lemma seg_head mem head l : seg mem head l CC_NIL → head = head_off l.
Proof. destruct l as [|[o s] l]; cbn; [done|by intros [-> _]]. Qed.

Lemma spans_in lo cap l o s : spans lo cap l → (o, s) ∈ l →
  lo ≤ o ∧ o mod 8 = 0 ∧ 8 ≤ s ∧ s mod 8 = 0 ∧ o + s ≤ cap.
Proof.
  revert lo. induction l as [|[o' s'] l IH]; intros lo Hs Hin; [by apply not_elem_of_nil in Hin|].
  cbn [spans] in Hs. destruct Hs as (? & ? & ? & ? & ? & Hs).
  apply elem_of_cons in Hin as [[= -> ->]|Hin]; [by split_and!|].
  destruct (IH _ Hs Hin) as (? & ? & ? & ? & ?). split_and!; lia.
Qed.

(** A header lies in its span. *)
Lemma headers_hit lo cap l o : spans lo cap l → headers l o → 0 < hits l o ∧ lo ≤ o ∧ o + 4 ≤ cap ∧ o mod 4 = 0.
Proof.
  intros Hs (p & s & Hin & Ho). destruct (spans_in _ _ _ _ _ Hs Hin) as (? & ? & ? & ? & ?).
  split; [|lia]. apply list_elem_of_split in Hin as (l1 & l2 & ->). rewrite hits_app. cbn [hits].
  pose proof (hits_nonneg l1 o). pose proof (hits_nonneg l2 o).
  rewrite (proj2 (Z.leb_le p o)), (proj2 (Z.ltb_lt o (p + s))) by lia. cbn. lia.
Qed.

Lemma headers_app l l' o : headers (l ++ l') o ↔ headers l o ∨ headers l' o.
Proof.
  unfold headers. split.
  - intros (p & s & Hin & ?). apply elem_of_app in Hin as [?|?]; [left|right]; by exists p, s.
  - intros [(p & s & ? & ?)|(p & s & ? & ?)]; exists p, s; (split; [apply elem_of_app|done]); tauto.
Qed.

(** Spans before and after a point do not share header words. *)
Lemma headers_apart lo cap l l' o o' : spans lo cap (l ++ l') → headers l o → headers l' o' → o + 8 ≤ o' + 4.
Proof.
  revert lo. induction l as [|[p s] l IH]; intros lo Hs.
  { intros (? & ? & Hin & _). by apply not_elem_of_nil in Hin. }
  cbn [app spans] in Hs. destruct Hs as (? & ? & ? & ? & ? & Hs). intros (q & t & Hin & Ho) Ho'.
  apply elem_of_cons in Hin as [[= -> ->]|Hin].
  - assert (headers (l ++ l') o') as Hh by (apply headers_app; by right).
    destruct (headers_hit _ _ _ _ Hs Hh) as (_ & ? & _ & ?). lia.
  - eapply IH; [done|by exists q, t|done].
Qed.

Lemma last_off_snoc l o s : last_off (l ++ [(o, s)]) = o.
Proof.
  induction l as [|[p t] l IH]; [done|]. cbn [app last_off]. rewrite IH. by destruct l.
Qed.

(** Redirecting the link after [l]. *)
Lemma set_link_spec c l x v lo : seg (cc_base c) (cc_free_head c) l x → spans lo (cc_cap c) l →
  0 ≤ lo → 0 ≤ cc_cap c ≤ 0xFFFFFFF8 → cc_cap c ≤ 4 * Z.of_nat (length (cc_base c)) → 0 ≤ v < 0x100000000 →
  ∃ c', set_link (last_off l) v c = Some (tt, c') ∧ seg (cc_base c') (cc_free_head c') l v ∧
    keeps (λ o, headers l o) c c'.
Proof.
  intros Hs Hsp Hlo Hc Hm Hv. induction l as [|[o s] l0 _] using rev_ind.
  { unfold set_link. cbn. eexists. split; [done|]. split; [by apply u32_small|]. by split. }
  rewrite last_off_snoc. destruct (spans_in _ _ _ o s Hsp) as (? & ? & ? & ? & ?);
    [apply elem_of_app; right; by left|].
  unfold set_link. rewrite (proj2 (Z.eqb_neq o CC_NIL)) by (unfold CC_NIL; lia).
  destruct (store_word_spec (o + 4) v c) as (c' & E & Hk & Eh & Ew); [lia..|].
  exists c'. split; [exact E|]. split.
  - rewrite Eh. apply seg_app in Hs as (y & Hs0 & -> & Hw & _). apply seg_app. exists o. split.
    + eapply seg_frame; [exact Hk| |exact Hs0]. intros q Hq ->.
      assert (headers [(o, s)] o) as Ho by (exists o, s; split; [by left|by left]).
      pose proof (headers_apart _ _ _ _ _ _ Hsp Hq Ho). lia.
    + cbn [seg]. split_and!; [done|by rewrite (ke_word _ _ _ Hk) by lia|]. by exists v.
  - eapply keeps_mono; [|exact Hk]. intros q ->. apply headers_app. right. exists o, s. split; [by left|by right].
Qed.

(** *** Reading the list *)

Lemma rep_here c l1 o s l2 : rep c (l1 ++ (o, s) :: l2) →
  hdr_size o c = Some (s, c) ∧ hdr_next o c = Some (head_off l2, c) ∧
  seg (cc_base c) (cc_free_head c) l1 o ∧ seg (cc_base c) (head_off l2) l2 CC_NIL ∧
  0 ≤ o ∧ o mod 8 = 0 ∧ 8 ≤ s ∧ s mod 8 = 0 ∧ o + s ≤ cc_cap c.
Proof.
  intros [Hseg Hsp Hc Hm]. apply seg_app in Hseg as (x & H1 & -> & Hs & n & Hn & H2).
  pose proof (seg_head _ _ _ H2) as ->.
  destruct (spans_in _ _ _ o s Hsp) as (? & ? & ? & ? & ?); [apply elem_of_app; right; by left|].
  split_and!; try done; by apply load_word_spec.
Qed.

Lemma span_count lo cap l : spans lo cap l → 0 ≤ lo → 8 * Z.of_nat (length l) ≤ Z.max 0 (cap - lo).
Proof.
  revert lo. induction l as [|[o s] l IH]; intros lo Hs Hlo; [simpl; lia|].
  cbn [spans] in Hs. destruct Hs as (? & ? & ? & ? & ? & Hs).
  pose proof (IH _ Hs ltac:(lia)). cbn [length].
  destruct l as [|[o' s'] l']; [simpl; lia|]. cbn [spans length] in *. lia.
Qed.

Lemma walk_fuel_enough c l : rep c l → (length l < walk_fuel c)%nat.
Proof.
  intros [_ Hs Hc _]. pose proof (span_count _ _ _ Hs). unfold walk_fuel, sizeof_cc_free_hdr. lia.
Qed.

(** Storing a header at the front of [l]. *)
Lemma store_header_spec o s n c : 0 ≤ o → o mod 8 = 0 → o + 8 ≤ cc_cap c → cc_cap c ≤ 4 * Z.of_nat (length (cc_base c)) →
  0 ≤ s < 0x100000000 → 0 ≤ n < 0x100000000 →
  ∃ c', (set_hdr_size o s ;; set_hdr_next o n) c = Some (tt, c') ∧
    keeps (λ q, q = o ∨ q = o + 4) c c' ∧ cc_free_head c' = cc_free_head c ∧
    mword (cc_base c') o = Some s ∧ mword (cc_base c') (o + 4) = Some n.
Proof.
  intros. destruct (store_word_spec o s c) as (c1 & E1 & K1 & F1 & W1); [lia..|].
  pose proof (ke_len _ _ _ K1) as L1.
  destruct (store_word_spec (o + 4) n c1) as (c2 & E2 & K2 & F2 & W2); [lia..|].
  exists c2. unfold set_hdr_size, set_hdr_next. rewrite (bind_Some _ _ _ _ _ E1). split; [exact E2|].
  split_and!; [|congruence|by rewrite (ke_word _ _ _ K2) by lia|done].
  eapply keeps_trans; (eapply keeps_mono; [|eassumption]); simpl; tauto.
Qed.

Definition free_word (l : list (Z * Z)) (o : Z) : Prop := 0 < hits l o.

Lemma headers_free lo cap l o : spans lo cap l → headers l o → free_word l o.
Proof. intros Hs Ho. by destruct (headers_hit _ _ _ _ Hs Ho). Qed.

Lemma head_off_range lo cap l : spans lo cap l → 0 ≤ lo → cap ≤ 0xFFFFFFF8 → 0 ≤ head_off l < 0x100000000.
Proof. destruct l as [|[o s] l]; cbn; unfold CC_NIL; lia. Qed.

(** *** First fit *)

Lemma seq_Some {S A} (m n : M S unit) (k : M S A) s s' : (m ;; n) s = Some (tt, s') → (m ;; n ;; k) s = k s'.
Proof.
  unfold mbind, M_bind. destruct (m s) as [[[] s1]|]; [|done]. by intros ->.
Qed.

(** Replacing the spans from [o] on. *)
Lemma spans_put lo cap l1 o s l2 l' : spans lo cap (l1 ++ (o, s) :: l2) → spans o cap l' → spans lo cap (l1 ++ l').
Proof.
  intros Hsp Hl'. revert lo Hsp. induction l1 as [|[p t] l IH]; intros lo Hs; cbn in *.
  - by eapply spans_weaken; [|done]; lia.
  - intuition auto.
Qed.

Lemma headers_before lo cap l1 o s l2 q : spans lo cap (l1 ++ (o, s) :: l2) → headers l1 q → q + 4 ≤ o.
Proof.
  intros Hsp Hq. assert (headers ((o, s) :: l2) o) as Ho by (exists o, s; split; [left|]; tauto).
  pose proof (headers_apart _ _ _ _ _ _ Hsp Hq Ho). lia.
Qed.

Lemma headers_after lo cap l1 o s l2 q : spans lo cap (l1 ++ (o, s) :: l2) → headers l2 q → o + s < q.
Proof.
  intros Hsp Hq. apply spans_app in Hsp as [_ (lo' & _ & Hsp)]. cbn [spans] in Hsp.
  destruct Hsp as (_ & _ & _ & _ & _ & Hsp). destruct (headers_hit _ _ _ _ Hsp Hq) as (_ & ? & _). lia.
Qed.

(** The tail of a span that stays free. *)
Lemma carve_tail c l1 o s l2 size : rep c (l1 ++ (o, s) :: l2) → 8 ≤ size → size mod 8 = 0 → size + 8 ≤ s →
  s mod 8 = 0 → ∃ c', (set_hdr_size (o + size) (s - size) ;; set_hdr_next (o + size) (head_off l2) ;;
      set_link (last_off l1) (o + size)) c = Some (tt, c') ∧
    rep c' (l1 ++ (o + size, s - size) :: l2) ∧ keeps (free_word (l1 ++ (o, s) :: l2)) c c'.
Proof.
  intros Hr Hz Hm Hle Hs8. pose proof Hr as [Hseg Hsp Hc Hmem].
  destruct (rep_here _ _ _ _ _ Hr) as (_ & _ & S1 & S2 & ? & ? & ? & ? & ?).
  destruct (spans_app _ _ _ _ Hsp) as [Hsp1 (lo' & ? & ? & ? & ? & ? & ? & Hsp3)].
  pose proof (head_off_range _ _ _ Hsp3) as Hh.
  destruct (store_header_spec (o + size) (s - size) (head_off l2) c) as (c1 & E1 & K1 & F1 & W1 & W2); [lia..|].
  pose proof (ke_cap _ _ _ K1) as Ec1. pose proof (ke_len _ _ _ K1) as El1.
  destruct (set_link_spec c1 l1 o (o + size) 0) as (c2 & E2 & S2' & K2); [|by rewrite Ec1|lia..|].
  { rewrite F1. apply (seg_frame _ _ _ _ _ _ K1); [|done]. intros q Hq.
    pose proof (headers_before _ _ _ _ _ _ _ Hsp Hq). lia. }
  pose proof (ke_cap _ _ _ K2) as Ec2. pose proof (ke_len _ _ _ K2) as El2.
  exists c2. split; [by rewrite (seq_Some _ _ _ _ _ E1)|]. split.
  - split; [|rewrite Ec2, Ec1|lia|lia].
    + apply seg_app. exists (o + size). split; [done|]. split; [done|].
      rewrite !(ke_word _ _ _ K2) by (intros Hq; pose proof (headers_before _ _ _ _ _ _ _ Hsp Hq); lia).
      split; [done|]. exists (head_off l2). split; [done|].
      apply (seg_frame _ _ _ _ _ _ K2); [|apply (seg_frame _ _ _ _ _ _ K1); [|done]];
        intros q Hq; pose proof (headers_after _ _ _ _ _ _ _ Hsp Hq); [|lia].
      intros Hq'. pose proof (headers_before _ _ _ _ _ _ _ Hsp Hq'). lia.
    + apply (spans_put _ _ _ _ _ _ _ Hsp). cbn [spans]. split_and!; try lia.
      by replace (o + size + (s - size) + 1) with (o + s + 1) by lia.
  - apply (keeps_trans _ c c1 c2); [eapply keeps_mono; [|exact K1]|eapply keeps_mono; [|exact K2]]; intros q Hq.
    + cbn beta in Hq. unfold free_word. rewrite hits_app. cbn [hits]. pose proof (hits_nonneg l1 q). pose proof (hits_nonneg l2 q).
      rewrite (proj2 (Z.leb_le o q)), (proj2 (Z.ltb_lt q (o + s))) by lia. cbn. lia.
    + apply (headers_free _ _ _ _ Hsp). apply headers_app. by left.
Qed.

(** A span that is unlinked. *)
Lemma carve_whole c l1 o s l2 : rep c (l1 ++ (o, s) :: l2) →
  ∃ c', set_link (last_off l1) (head_off l2) c = Some (tt, c') ∧
    rep c' (l1 ++ l2) ∧ keeps (free_word (l1 ++ (o, s) :: l2)) c c'.
Proof.
  intros Hr. pose proof Hr as [Hseg Hsp Hc Hmem].
  destruct (rep_here _ _ _ _ _ Hr) as (_ & _ & S1 & S2 & ? & ? & ? & ? & ?).
  destruct (spans_app _ _ _ _ Hsp) as [Hsp1 (lo' & ? & ? & ? & ? & ? & ? & Hsp3)].
  pose proof (head_off_range _ _ _ Hsp3) as Hh.
  destruct (set_link_spec c l1 o (head_off l2) 0) as (c2 & E2 & S2' & K2); [done..|lia|lia|lia|].
  pose proof (ke_cap _ _ _ K2) as Ec2. pose proof (ke_len _ _ _ K2) as El2.
  exists c2. split; [done|]. split.
  - split; [|rewrite Ec2|lia|lia].
    + apply seg_app. exists (head_off l2). split; [done|]. apply (seg_frame _ _ _ _ _ _ K2); [|done].
      intros q Hq Hq'. pose proof (headers_after _ _ _ _ _ _ _ Hsp Hq).
      pose proof (headers_before _ _ _ _ _ _ _ Hsp Hq'). lia.
    + apply (spans_put _ _ _ _ _ _ _ Hsp). by eapply spans_weaken; [|done]; lia.
  - eapply keeps_mono; [|exact K2]. intros q Hq. apply (headers_free _ _ _ _ Hsp). apply headers_app. by left.
Qed.

Lemma lru_carve_spec c l1 o s l2 size : rep c (l1 ++ (o, s) :: l2) → 8 ≤ size → size mod 8 = 0 → size ≤ s →
  ∃ c', lru_carve size (last_off l1) o c = Some (tt, c') ∧
    rep c' (l1 ++ if 8 <=? s - size then (o + size, s - size) :: l2 else l2) ∧
    keeps (free_word (l1 ++ (o, s) :: l2)) c c'.
Proof.
  intros Hr Hz Hm Hle. pose proof Hr as [_ _ Hc _].
  destruct (rep_here _ _ _ _ _ Hr) as (Es & En & _ & _ & ? & ? & ? & ? & ?).
  unfold lru_carve. rewrite (bind_Some _ _ _ _ _ Es), (bind_Some _ _ _ _ _ En), u32_small by lia.
  unfold sizeof_cc_free_hdr. destruct (Z.leb_spec 8 (s - size)).
  - rewrite u32_small by lia. apply carve_tail; (done || lia).
  - apply (carve_whole _ _ _ _ _ Hr).
Qed.

Lemma lru_walk_spec l2 : ∀ l1 fuel c size, rep c (l1 ++ l2) → (length l2 < fuel)%nat → 8 ≤ size → size mod 8 = 0 →
  match first_fit size l2 with
  | None => lru_walk fuel size (last_off l1) (head_off l2) c = Some (None, c)
  | Some (p, l') => ∃ c', lru_walk fuel size (last_off l1) (head_off l2) c = Some (Some p, c') ∧
      rep c' (l1 ++ l') ∧ keeps (free_word (l1 ++ l2)) c c'
  end.
Proof.
  induction l2 as [|[o s] l2 IH]; intros l1 fuel c size Hr Hf Hz Hm; (destruct fuel as [|fuel]; [simpl in Hf; lia|]).
  { done. }
  destruct (rep_here _ _ _ _ _ Hr) as (Es & En & _ & _ & ? & ? & ? & ? & ?). pose proof (rep_cap _ _ Hr).
  cbn [first_fit lru_walk head_off]. rewrite (proj2 (Z.eqb_neq o CC_NIL)) by (unfold CC_NIL; lia).
  rewrite (bind_Some _ _ _ _ _ Es). destruct (Z.leb_spec size s).
  - destruct (lru_carve_spec c l1 o s l2 size) as (c' & E & Hr' & Hk); [done..|].
    exists c'. rewrite (bind_Some _ _ _ _ _ E). done.
  - rewrite (bind_Some _ _ _ _ _ En).
    replace (l1 ++ (o, s) :: l2) with ((l1 ++ [(o, s)]) ++ l2) in * by (by rewrite <- app_assoc).
    pose proof (IH (l1 ++ [(o, s)]) fuel c size Hr ltac:(simpl in Hf; lia) Hz Hm) as Hi.
    rewrite last_off_snoc in Hi. destruct (first_fit size l2) as [[p l']|]; [|done].
    by rewrite <- app_assoc in Hi.
Qed.

Lemma lru_find_spec c l size : rep c l → 8 ≤ size → size mod 8 = 0 →
  match first_fit size l with
  | None => lru_find size c = Some (None, c)
  | Some (p, l') => ∃ c', lru_find size c = Some (Some p, c') ∧ rep c' l' ∧ keeps (free_word l) c c'
  end.
Proof.
  intros Hr Hz Hm. unfold lru_find. rewrite (bind_Some (gets _) _ c c c) by done.
  rewrite (seg_head _ _ _ (rep_seg _ _ Hr)). apply (lru_walk_spec l [] _ c size); [done|by apply walk_fuel_enough|done..].
Qed.

(** *** Freeing *)

(** The free list, split where a span at [off] belongs. *)
Record split_at (l l1 l2 : list (Z * Z)) (off : Z) : Prop := {
  sa_list : l = l1 ++ l2;
  sa_before : Forall (λ '(o, _), o < off) l1;
  sa_after : match l2 with (o, _) :: _ => off ≤ o | [] => True end
}.

Lemma lru_seek_spec l2 : ∀ l1 fuel c off, rep c (l1 ++ l2) → (length l2 < fuel)%nat →
  Forall (λ '(o, _), o < off) l1 → ∃ m1 m2, split_at (l1 ++ l2) m1 m2 off ∧
  lru_seek fuel off (last_off l1) (head_off l2) c = Some ((last_off m1, head_off m2), c).
Proof.
  induction l2 as [|[o s] l2 IH]; intros l1 fuel c off Hr Hf Hb; (destruct fuel as [|fuel]; [simpl in Hf; lia|]).
  { exists l1, []. by split. }
  destruct (rep_here _ _ _ _ _ Hr) as (_ & En & _ & _ & ? & ? & ? & ? & ?). pose proof (rep_cap _ _ Hr).
  cbn [lru_seek head_off]. rewrite (proj2 (Z.eqb_neq o CC_NIL)) by (unfold CC_NIL; lia). cbn [negb andb].
  destruct (Z.ltb_spec o off).
  - rewrite (bind_Some _ _ _ _ _ En).
    replace (l1 ++ (o, s) :: l2) with ((l1 ++ [(o, s)]) ++ l2) in * by (by rewrite <- app_assoc).
    destruct (IH (l1 ++ [(o, s)]) fuel c off Hr ltac:(simpl in Hf; lia)) as (m1 & m2 & Hm & E).
    { apply Forall_app_2; [done|]. by apply Forall_cons_2; [|apply Forall_nil_2]. }
    rewrite last_off_snoc in E. by exists m1, m2.
  - exists l1, ((o, s) :: l2). by split.
Qed.

Lemma clear_app l l' off size : clear (l ++ l') off size → clear l off size ∧ clear l' off size.
Proof.
  intros Hc. split; intros x Hx; specialize (Hc x Hx); rewrite hits_app in Hc;
    pose proof (hits_nonneg l x); pose proof (hits_nonneg l' x); lia.
Qed.

(** The region [off, off + size) lies between the two parts. *)
Lemma split_region l l1 l2 off size cap : split_at l l1 l2 off → spans 0 cap l → clear l off size → 8 ≤ size →
  spans 0 cap l1 ∧ Forall (λ '(o, s), o + s ≤ off) l1 ∧ spans (off + size) cap l2.
Proof.
  intros [-> Hb Ha] Hs Hc Hz. destruct (clear_app _ _ _ _ Hc) as [Hc1 Hc2].
  destruct (spans_app _ _ _ _ Hs) as [Hs1 (lo' & _ & Hs2)]. split; [done|]. split.
  - apply Forall_forall. intros [o s] Hin. rewrite Forall_forall in Hb. specialize (Hb _ Hin). cbn in Hb.
    destruct (spans_in _ _ _ _ _ Hs1 Hin) as (? & ? & ? & ? & ?).
    apply list_elem_of_split in Hin as (k1 & k2 & ->). destruct (clear_app _ _ _ _ Hc1) as [_ Hc3].
    destruct (clear_cons _ _ _ _ _ Hc3) as [Hd _]; lia.
  - destruct l2 as [|[o s] l2]; [done|]. cbn [spans] in *. destruct Hs2 as (? & ? & ? & ? & ? & ?).
    destruct (clear_cons _ _ _ _ _ Hc2) as [Hd _]; [lia..|]. split_and!; (done || lia).
Qed.

(** The span [(off, size)] between [l1] and [l2], merged with the last of [l1]
    if they touch. *)
Fixpoint join_before (l1 : list (Z * Z)) (off size : Z) (l2 : list (Z * Z)) : list (Z * Z) :=
  match l1 with
  | [] => (off, size) :: l2
  | [(p, t)] => if p + t =? off then (p, t + size) :: l2 else (p, t) :: (off, size) :: l2
  | x :: l1 => x :: join_before l1 off size l2
  end.

Lemma join_before_snoc l0 p t off size l2 : join_before (l0 ++ [(p, t)]) off size l2 =
  l0 ++ (if p + t =? off then (p, t + size) :: l2 else (p, t) :: (off, size) :: l2).
Proof.
  induction l0 as [|[o s] l0 IH]; [done|]. cbn [app]. rewrite <- IH. by destruct l0 as [|[o' s'] l0].
Qed.

Lemma add_span_split lo cap l1 l2 off size s1 l1' : spans lo cap (l1 ++ l2) →
  Forall (λ '(o, s), o + s ≤ off) l1 → spans (off + 1) cap l2 →
  join_after off size l2 = (off, s1) :: l1' →
  add_span off size (l1 ++ l2) = join_before l1 off s1 l1'.
Proof.
  revert lo. induction l1 as [|[o s] l1 IH]; intros lo Hs Hb Ha Hj.
  - cbn [app join_before]. rewrite <- Hj. destruct l2 as [|[o s] l2]; [done|]. cbn [add_span spans] in *.
    by rewrite (proj2 (Z.ltb_ge o off)) by lia.
  - cbn [app spans] in Hs. destruct Hs as (? & ? & ? & ? & ? & Hs).
    apply Forall_cons_iff in Hb as [Ho Hb]. pose proof (IH _ Hs Hb Ha Hj) as IH'.
    destruct l1 as [|[o' s'] l1]; cbn [app] in *.
    + cbn [join_before]. destruct l2 as [|[o' s'] l2].
      * cbn in Hj. injection Hj as <- <-. cbn [add_span]. rewrite (proj2 (Z.ltb_lt o off)) by lia. done.
      * by apply (add_span_between _ _ _ _ cap); [lia| | |].
    + apply Forall_cons_iff in Hb as [? _]. cbn [spans] in Hs. rewrite add_span_skip, IH' by lia. done.
Qed.

(** The new span is linked in, its neighbours not merged yet. *)
Record linked (c : codecache) (l1 : list (Z * Z)) (off size : Z) (l2 : list (Z * Z)) : Prop := {
  li_before : seg (cc_base c) (cc_free_head c) l1 off;
  li_size : mword (cc_base c) off = Some size;
  li_next : mword (cc_base c) (off + 4) = Some (head_off l2);
  li_after : seg (cc_base c) (head_off l2) l2 CC_NIL;
  li_cap : 0 ≤ cc_cap c ≤ 0xFFFFFFF8;
  li_mem : cc_cap c ≤ 4 * Z.of_nat (length (cc_base c));
  li_spans1 : spans 0 (cc_cap c) l1;
  li_below : Forall (λ '(o, s), o + s ≤ off) l1;
  li_spans2 : spans (off + size) (cc_cap c) l2;
  li_span : 0 ≤ off ∧ off mod 8 = 0 ∧ 8 ≤ size ∧ size mod 8 = 0 ∧ off + size ≤ cc_cap c
}.


Lemma linked_below c l1 off size l2 q : linked c l1 off size l2 → headers l1 q → q + 4 ≤ off.
Proof.
  intros [] (p & s & Hin & Ho). rewrite Forall_forall in li_below0. specialize (li_below0 _ Hin).
  destruct (spans_in _ _ _ _ _ li_spans3 Hin). cbn in *. lia.
Qed.

Lemma linked_after c l1 off size l2 q : linked c l1 off size l2 → headers l2 q → off + size ≤ q.
Proof. intros [] Hq. by destruct (headers_hit _ _ _ _ li_spans4 Hq) as (_ & ? & _). Qed.

(** What one of the following stores may change. *)
Definition region (l : list (Z * Z)) (off size : Z) (q : Z) : Prop := free_word l q ∨ off ≤ q < off + size.

Lemma link_span c l l1 l2 off size : rep c l → split_at l l1 l2 off → clear l off size →
  0 ≤ off → off mod 8 = 0 → 8 ≤ size → size mod 8 = 0 → off + size ≤ cc_cap c →
  ∃ c', (set_hdr_size off size ;; set_hdr_next off (head_off l2) ;; set_link (last_off l1) off) c = Some (tt, c') ∧
    linked c' l1 off size l2 ∧ keeps (region l off size) c c'.
Proof.
  intros [Hseg Hsp Hc Hmem] Hsa Hcl ? ? ? ? ?.
  destruct (split_region _ _ _ _ _ _ Hsa Hsp Hcl) as (Hs1 & Hb & Hs2); [done|].
  pose proof (sa_list _ _ _ _ Hsa) as El. rewrite El in Hseg. apply seg_app in Hseg as (x & S1 & S2).
  pose proof (seg_head _ _ _ S2) as ->.
  pose proof (head_off_range _ _ _ Hs2) as Hh.
  destruct (store_header_spec off size (head_off l2) c) as (c1 & E1 & K1 & F1 & W1 & W2); [lia..|].
  pose proof (ke_cap _ _ _ K1) as Ec1. pose proof (ke_len _ _ _ K1) as El1.
  assert (∀ q, headers l1 q → q + 4 ≤ off) as Hq1.
  { intros q (p & s & Hin & Hq). rewrite Forall_forall in Hb. specialize (Hb _ Hin).
    destruct (spans_in _ _ _ _ _ Hs1 Hin). cbn in *. lia. }
  assert (∀ q, headers l2 q → off + size ≤ q) as Hq2.
  { intros q Hq. by destruct (headers_hit _ _ _ _ Hs2 Hq) as (_ & ? & _). }
  destruct (set_link_spec c1 l1 (head_off l2) off 0) as (c2 & E2 & S2' & K2); [|by rewrite Ec1|lia..|].
  { rewrite F1. apply (seg_frame _ _ _ _ _ _ K1); [|done]. intros q Hq. specialize (Hq1 q Hq). lia. }
  pose proof (ke_cap _ _ _ K2) as Ec2. pose proof (ke_len _ _ _ K2) as El2.
  exists c2. split; [by rewrite (seq_Some _ _ _ _ _ E1)|]. split.
  - split; try done; rewrite ?Ec2, ?Ec1, ?El2, ?El1; try done.
    + rewrite (ke_word _ _ _ K2); [done|]. intros Hq. specialize (Hq1 _ Hq). lia.
    + rewrite (ke_word _ _ _ K2); [done|]. intros Hq. specialize (Hq1 _ Hq). lia.
    + apply (seg_frame _ _ _ _ _ _ K2); [|apply (seg_frame _ _ _ _ _ _ K1); [|done]];
        intros q Hq; specialize (Hq2 q Hq); [intros Hq'; specialize (Hq1 q Hq')|]; lia.
  - apply (keeps_trans _ c c1 c2); [eapply keeps_mono; [|exact K1]|eapply keeps_mono; [|exact K2]]; intros q Hq.
    + right. cbn beta in Hq. lia.
    + left. apply (headers_free _ _ _ _ Hsp). rewrite El. apply headers_app. by left.
Qed.

Lemma coalesce_after_spec c l1 off size l2 s1 l1' : linked c l1 off size l2 →
  join_after off size l2 = (off, s1) :: l1' →
  ∃ c', coalesce_after off (head_off l2) c = Some (tt, c') ∧ linked c' l1 off s1 l1' ∧
    spans (off + s1 + 1) (cc_cap c') l1' ∧ keeps (λ q, off ≤ q < off + size) c c'.
Proof.
  intros Hl Hj. pose proof Hl as [S1 Ws Wn S2 Hc Hm Hs1 Hb Hs2 (? & ? & ? & ? & ?)].
  unfold coalesce_after. rewrite (bind_Some _ _ _ _ _ (load_word_spec _ _ _ Ws)).
  destruct l2 as [|[o s] l2].
  { cbn in Hj. injection Hj as <- <-. exists c. split; [done|]. split; [done|]. split; [done|]. apply keeps_refl. }
  cbn [spans] in Hs2. destruct Hs2 as (? & ? & ? & ? & ? & Hs2). cbn [seg] in S2.
  destruct S2 as (_ & Wos & n & Won & S2). pose proof (seg_head _ _ _ S2) as ->.
  cbn [head_off join_after] in *. rewrite (proj2 (Z.eqb_neq o CC_NIL)), u32_small by (unfold CC_NIL; lia).
  cbn [negb andb]. destruct (Z.eqb_spec (off + size) o) as [<-|].
  2:{ injection Hj as <- <-. exists c. split; [done|]. split; [|split; [cbn [spans]; split_and!; (done || lia)|apply keeps_refl]].
      split; try done; cbn [head_off spans seg]; split_and!; try done; lia || by exists (head_off l2). }
  injection Hj as <- <-. cbn [when].
  rewrite (bind_Some _ _ _ _ _ (load_word_spec _ _ _ Wos)).
  pose proof (head_off_range _ _ _ Hs2) as Hh.
  destruct (store_word_spec off (size + s) c) as (c1 & E1 & K1 & F1 & W1); [lia..|].
  pose proof (ke_len _ _ _ K1) as L1. pose proof (ke_cap _ _ _ K1) as C1.
  destruct (store_word_spec (off + 4) (head_off l2) c1) as (c2 & E2 & K2 & F2 & W2); [lia..|].
  pose proof (ke_len _ _ _ K2) as L2. pose proof (ke_cap _ _ _ K2) as C2.
  exists c2. unfold set_hdr_size. rewrite (bind_Some _ _ _ _ _ E1).
  rewrite (bind_Some (hdr_next _) _ c1 (head_off l2) c1)
    by (apply load_word_spec; rewrite (ke_word _ _ _ K1) by lia; done).
  split; [exact E2|]. split.
  - assert (∀ q, headers l1 q → q + 4 ≤ off) as Hq1 by (intros q; apply (linked_below _ _ _ _ _ _ Hl)).
    split; rewrite ?F2, ?F1, ?C2, ?C1, ?L2, ?L1; try done; try lia.
    + apply (seg_frame _ _ _ _ _ _ K2); [|apply (seg_frame _ _ _ _ _ _ K1); [|done]]; intros q Hq; specialize (Hq1 q Hq); lia.
    + by rewrite (ke_word _ _ _ K2) by lia.
    + apply (seg_frame _ _ _ _ _ _ K2); [|apply (seg_frame _ _ _ _ _ _ K1); [|done]]; intros q Hq;
        destruct (headers_hit _ _ _ _ Hs2 Hq) as (_ & ? & _); lia.
    + eapply spans_weaken; [|exact Hs2]. lia.
  - split; [rewrite C2, C1; by replace (off + (size + s) + 1) with (off + size + s + 1) by lia|].
    apply (keeps_trans _ c c1 c2); [eapply keeps_mono; [|exact K1]|eapply keeps_mono; [|exact K2]]; simpl; intros q ->; lia.
Qed.

Lemma spans_glue lo cap l off size l' : spans lo cap l → Forall (λ '(o, s), o + s + 1 ≤ off) l →
  0 ≤ lo → lo ≤ off → off mod 8 = 0 → 8 ≤ size → size mod 8 = 0 → off + size ≤ cap → spans (off + size + 1) cap l' →
  spans lo cap (l ++ (off, size) :: l').
Proof.
  revert lo. induction l as [|[o s] l IH]; intros lo Hs Hb ? ? ? ? ? ? Hl'; cbn [app spans] in *.
  - split_and!; done.
  - destruct Hs as (? & ? & ? & ? & ? & Hs). apply Forall_cons_iff in Hb as [? Hb]. split_and!; try done.
    apply IH; (done || lia).
Qed.

(** Merging the span at the end of [l0] with the one after it. *)
Lemma merge_last c l0 p t size l2 : linked c (l0 ++ [(p, t)]) (p + t) size l2 →
  spans (p + t + size + 1) (cc_cap c) l2 →
  ∃ c', (set_hdr_size p (t + size) ;; set_hdr_next p (head_off l2)) c = Some (tt, c') ∧
    rep c' (l0 ++ (p, t + size) :: l2) ∧ keeps (headers (l0 ++ [(p, t)])) c c'.
Proof.
  intros [S1 Ws Wn S2 Hc Hm Hs1 Hb Hs2 (? & ? & ? & ? & ?)] Hgap.
  destruct (spans_in _ _ _ p t Hs1) as (? & ? & ? & ? & ?); [apply elem_of_app; right; by left|].
  apply seg_app in S1 as (x & S0 & -> & Wp & _).
  pose proof (head_off_range _ _ _ Hgap) as Hh.
  destruct (store_header_spec p (t + size) (head_off l2) c) as (c1 & E1 & K1 & F1 & W1 & W2); [lia..|].
  pose proof (ke_cap _ _ _ K1) as C1. pose proof (ke_len _ _ _ K1) as L1.
  exists c1. split; [done|]. split.
  - split; rewrite ?F1, ?C1, ?L1; try done.
    + apply seg_app. exists p. split.
      * apply (seg_frame _ _ _ _ _ _ K1); [|done]. intros q Hq.
        pose proof (headers_before _ _ _ _ _ _ _ Hs1 Hq). lia.
      * split_and!; [done..|]. exists (head_off l2). split; [done|].
        apply (seg_frame _ _ _ _ _ _ K1); [|done]. intros q Hq.
        destruct (headers_hit _ _ _ _ Hgap Hq) as (_ & ? & _). lia.
    + apply (spans_put _ _ _ p t [] _ Hs1). cbn [spans]. split_and!; try lia.
      by replace (p + (t + size) + 1) with (p + t + size + 1) by lia.
  - eapply keeps_mono; [|exact K1]. intros q Hq. exists p, t. split; [apply elem_of_app; right; by left|done].
Qed.

Lemma spans_order lo cap l0 p t l2 o s : spans lo cap (l0 ++ (p, t) :: l2) → (o, s) ∈ l0 → o + s < p.
Proof.
  revert lo. induction l0 as [|[o' s'] l0 IH]; intros lo Hs Hin; [by apply not_elem_of_nil in Hin|].
  cbn [app spans] in Hs. destruct Hs as (? & ? & ? & ? & ? & Hs).
  apply elem_of_cons in Hin as [[= -> ->]|Hin]; [|by eapply IH].
  destruct (spans_in _ _ _ p t Hs); [apply elem_of_app; right; by left|lia].
Qed.

Lemma coalesce_before_spec c l1 off size l2 : linked c l1 off size l2 → spans (off + size + 1) (cc_cap c) l2 →
  ∃ c', coalesce_before off (last_off l1) c = Some (tt, c') ∧ rep c' (join_before l1 off size l2) ∧
    keeps (headers l1) c c'.
Proof.
  intros Hl Hgap. pose proof Hl as [S1 Ws Wn S2 Hc Hm Hs1 Hb Hs2 (? & ? & ? & ? & ?)].
  assert (Hnode : seg (cc_base c) off ((off, size) :: l2) CC_NIL).
  { cbn [seg]. split_and!; try done. by exists (head_off l2). }
  unfold coalesce_before. induction l1 as [|[p t] l0 _] using rev_ind.
  { exists c. split; [done|]. split; [|apply keeps_refl]. cbn in S1.
    split; [by rewrite S1|cbn [join_before spans]; by split_and!|done..]. }
  rewrite last_off_snoc, join_before_snoc. destruct (spans_in _ _ _ p t Hs1) as (? & ? & ? & ? & ?);
    [apply elem_of_app; right; by left|].
  pose proof S1 as S1'. apply seg_app in S1' as (x & S0 & -> & Wp & n & Wpn & ->).
  assert (p + t ≤ off) as Hpt.
  { apply Forall_app in Hb as [_ Hb]. by apply Forall_cons_iff in Hb as [? _]. }
  rewrite (proj2 (Z.eqb_neq p CC_NIL)) by (unfold CC_NIL; lia). cbn [negb when].
  rewrite (bind_Some _ _ _ _ _ (load_word_spec _ _ _ Wp)), u32_small by lia.
  destruct (Z.eqb_spec (p + t) off) as [E|Hne]; cbn [when].
  - subst off. rewrite (bind_Some _ _ _ _ _ (load_word_spec _ _ _ Ws)).
    destruct (merge_last c l0 p t size l2 Hl Hgap) as (c1 & E1 & R1 & K1). exists c1. split; [|done].
    rewrite <- E1. unfold mbind at 1 3, M_bind. destruct (set_hdr_size p (t + size) c) as [[[] c2]|] eqn:E2; [|done].
    assert (mword (cc_base c2) (p + t + 4) = Some (head_off l2)) as W2.
    { destruct (store_word_spec p (t + size) c) as (c2' & E2' & K2 & _); [lia..|].
      unfold set_hdr_size in E2. rewrite E2 in E2'. injection E2' as <-. by rewrite (ke_word _ _ _ K2) by lia. }
    by rewrite (bind_Some _ _ _ _ _ (load_word_spec _ _ _ W2)).
  - exists c. split; [done|]. split; [|apply keeps_refl].
    change ((p, t) :: (off, size) :: l2) with ([(p, t)] ++ (off, size) :: l2). rewrite app_assoc.
    split; try done; [apply seg_app; by exists off|].
    apply spans_glue; try done; try lia.
    apply Forall_forall. intros [o s] Hin. rewrite Forall_forall in Hb. pose proof (Hb _ Hin) as Hos. cbn in Hos.
    destruct (spans_in _ _ _ o s Hs1 Hin) as (? & ? & ? & ? & ?). cbn.
    destruct (decide (o + s = off)) as [Eo|]; [|lia]. exfalso.
    apply elem_of_app in Hin as [Hin|Hin].
    + pose proof (spans_order _ _ _ _ _ _ _ _ Hs1 Hin). lia.
    + apply list_elem_of_singleton in Hin as [= -> ->]. lia.
Qed.


Lemma cc_align_spec v : 0 ≤ v ≤ 0xFFFFFFF8 → cc_align v = (v + 7) / 8 * 8.
Proof.
  intros. unfold cc_align, CC_ALIGN. rewrite u32_small by lia.
  rewrite (land_not_low 3) by lia. change (2 ^ 3) with 8. lia.
Qed.

(** The space a request of [size] bytes takes: whole units of 8, one at least. *)
Definition rounded (size : Z) : Z := Z.max 8 ((size + 7) / 8 * 8).

Lemma lru_size_spec size : 0 ≤ size ≤ 0xFFFFFFF8 → lru_size size = rounded size.
Proof.
  intros. unfold lru_size, rounded, sizeof_cc_free_hdr. rewrite cc_align_spec by done.
  destruct (Z.ltb_spec ((size + 7) / 8 * 8) 8); lia.
Qed.

Lemma rounded_ok size : 0 ≤ size → 8 ≤ rounded size ∧ rounded size mod 8 = 0.
Proof. unfold rounded. lia. Qed.

Lemma lru_free_spec c l off size : rep c l → 0 ≤ size ≤ 0xFFFFFFF8 → 0 ≤ off → off mod 8 = 0 →
  off + rounded size ≤ cc_cap c → clear l off (rounded size) →
  ∃ c', lru_free off size c = Some (tt, c') ∧ rep c' (add_span off (rounded size) l) ∧
    keeps (region l off (rounded size)) c c'.
Proof.
  intros Hr Hsz Hoff Hoff8 Hfit Hcl. destruct (rounded_ok size) as [H8 Hm8]; [lia|].
  unfold lru_free. rewrite lru_size_spec by done. set (sz := rounded size) in *. clearbody sz.
  rewrite (bind_Some (gets _) _ c c c) by done. rewrite (seg_head _ _ _ (rep_seg _ _ Hr)).
  destruct (lru_seek_spec l [] (walk_fuel c) c off Hr) as (l1 & l2 & Hsa & E0);
    [by apply walk_fuel_enough|apply Forall_nil_2|]. cbn [app last_off] in *.
  rewrite (bind_Some _ _ _ _ _ E0). cbn [fst snd].
  destruct (link_span c l l1 l2 off sz) as (c1 & E1 & L1 & K1); [done..|].
  assert (∀ k : M codecache unit, (set_hdr_size off sz ;; set_hdr_next off (head_off l2) ;; set_link (last_off l1) off ;; k) c
    = k c1) as ->.
  { intros k. rewrite <- (seq_Some (set_hdr_size off sz ;; set_hdr_next off (head_off l2)) (set_link (last_off l1) off) k c c1).
    - unfold mbind, M_bind. by destruct (set_hdr_size off sz c) as [[]|].
    - rewrite <- E1. unfold mbind, M_bind. by destruct (set_hdr_size off sz c) as [[]|]. }
  destruct (split_region _ _ _ _ _ _ Hsa (rep_spans _ _ Hr) Hcl H8) as (Hs1 & Hb & Hs2).
  pose proof (li_cap _ _ _ _ _ L1).
  destruct (join_after_spec 0 (cc_cap c) off sz l2) as (_ & _ & s1 & l1' & Ej & _); try done.
  { eapply spans_weaken; [|exact Hs2]. lia. }
  { rewrite (sa_list _ _ _ _ Hsa) in Hcl. by apply clear_app in Hcl as [_ ?]. }
  destruct (coalesce_after_spec c1 l1 off sz l2 s1 l1' L1 Ej) as (c2 & E2 & L2 & G2 & K2).
  rewrite (bind_Some _ _ _ _ _ E2).
  destruct (coalesce_before_spec c2 l1 off s1 l1' L2 G2) as (c3 & E3 & R3 & K3).
  exists c3. split; [done|]. split.
  - pose proof (rep_spans _ _ Hr) as Hsp. rewrite (sa_list _ _ _ _ Hsa) in Hsp |- *.
    rewrite (add_span_split _ _ _ _ _ _ s1 l1' Hsp Hb); [done| |done].
    eapply spans_weaken; [|exact Hs2]. lia.
  - apply (keeps_trans _ c c1 c3); [done|]. apply (keeps_trans _ c1 c2 c3).
    + eapply keeps_mono; [|exact K2]. intros q Hq. by right.
    + eapply keeps_mono; [|exact K3]. intros q Hq. left. rewrite (sa_list _ _ _ _ Hsa).
      unfold free_word. rewrite hits_app. pose proof (hits_nonneg l2 q).
      destruct (headers_hit _ _ _ _ Hs1 Hq). lia.
Qed.
