(* ===== verification/CacheSafe.v ===== *)
(** * The code cache keeps its arena (jit/codecache.c)

    Allocation under eviction, for any owner whose callback keeps its word, and
    the sequences of operations on a free-list cache: every byte of the arena
    is in one block in use or in one free span, and no operation writes into
    the blocks that stay in use. *)

From Stdlib Require Import ZArith Lia.
From stdpp Require Import base tactics numbers list.
From S2P Require Import Prelude CodeCache.

#[local] Ltac Zify.zify_post_hook ::= Z.to_euclidean_division_equations.

(** ** Allocation with eviction *)

Class CacheOwnerLaws (W : Type) `{CacheOwner W} := {
  own_get_set : ∀ c w, own_cc (own_set_cc c w) = c;
  own_set_get : ∀ w, own_set_cc (own_cc w) w = w
}.

Section alloc.
Context {W : Type} `{CacheOwnerLaws W}.

(** What the owner's eviction callback promises: it keeps the invariant [I]
    and what it frees makes [μ] smaller. *)
Context (I : W → Prop) (μ : W → nat).
Context (I_rep : ∀ w, I w → ∃ l, rep (own_cc w) l).
Context (evict_ok : ∀ w e, I w → cc_evict w = Some e →
  ∃ r w', e w = Some (r, w') ∧ I w' ∧ (r ≠ 0 → (μ w' < μ w)%nat)).

(** The blocks that were evicted on the way, if any, give a state [w1] in which
    the request is a first fit; when there is nothing left to evict, it is
    refused. *)
Lemma lru_alloc_loop_spec n size w : I w → (μ w < n)%nat → 8 ≤ size → size mod 8 = 0 →
  ∃ r w', lru_alloc_loop n size w = Some (r, w') ∧
    match r with
    | None => I w'
    | Some off => ∃ w1 l l' c', I w1 ∧ rep (own_cc w1) l ∧ first_fit size l = Some (off, l') ∧
        rep c' l' ∧ keeps (free_word l) (own_cc w1) c' ∧ w' = own_set_cc c' w1
    end.
Proof.
  revert w. induction n as [|n IH]; intros w Hw Hn Hz Hm; [lia|]. cbn [lru_alloc_loop].
  destruct (I_rep w Hw) as [l Hr]. pose proof (lru_find_spec _ _ size Hr Hz Hm) as Hf.
  destruct (first_fit size l) as [[off l']|] eqn:E.
  - destruct Hf as (c' & Ef & Hr' & Hk).
    rewrite (bind_Some (on_cc _) _ w (Some off) (own_set_cc c' w)) by (unfold on_cc; by rewrite Ef).
    eexists _, _. split; [done|]. by exists w, l, l', c'.
  - rewrite (bind_Some (on_cc _) _ w None w) by (unfold on_cc; by rewrite Hf, own_set_get).
    rewrite (bind_Some (gets id) _ w w w) by done.
    destruct (cc_evict w) as [e|] eqn:Ee; [|by exists None, w].
    destruct (evict_ok w e Hw Ee) as (r & w2 & E2 & Hw2 & Hr2). rewrite (bind_Some _ _ _ _ _ E2).
    destruct (Z.eqb_spec r 0) as [->|Hne]; [by exists None, w2|].
    apply IH; [done| |done..]. specialize (Hr2 Hne). lia.
Qed.

Lemma lru_alloc_spec n size w : I w → (μ w < n)%nat → 0 ≤ size ≤ 0xFFFFFFF8 →
  ∃ r w', lru_alloc n size w = Some (r, w') ∧
    match r with
    | None => I w'
    | Some off => ∃ w1 l l' c', I w1 ∧ rep (own_cc w1) l ∧ first_fit (rounded size) l = Some (off, l') ∧
        rep c' l' ∧ keeps (free_word l) (own_cc w1) c' ∧ w' = own_set_cc c' w1
    end.
Proof.
  intros Hw Hn Hsz. unfold lru_alloc. rewrite lru_size_spec by done.
  destruct (rounded_ok size) as [H8 Hm]; [lia|].
  rewrite (bind_Some (gets _) _ w (cc_cap (own_cc w)) w) by done.
  destruct (cc_cap (own_cc w) <? rounded size); [by exists None, w|].
  by apply lru_alloc_loop_spec.
Qed.
End alloc.

(** ** A cache on its own *)

#[local] Instance plain_owner : CacheOwner codecache :=
  {| own_cc c := c; own_set_cc c _ := c; cc_evict _ := None; cc_evict_range _ := None |}.
#[local] Instance plain_owner_laws : CacheOwnerLaws codecache.
Proof. done. Qed.

Definition cc_alloc (size : Z) : M codecache (option Z) := codecache_alloc 1 size.

Lemma cc_alloc_spec c l size : rep c l → cc_mode c = CC_MODE_LRU → 0 ≤ size ≤ 0xFFFFFFF8 →
  match first_fit (rounded size) l with
  | None => cc_alloc size c = Some (None, c)
  | Some (off, l') => ∃ c', cc_alloc size c = Some (Some off, c') ∧ rep c' l' ∧ keeps (free_word l) c c'
  end.
Proof.
  intros Hr Hmode Hsz. destruct (rounded_ok size) as [H8 Hm]; [lia|].
  pose proof (lru_find_spec _ _ (rounded size) Hr H8 Hm) as Hf.
  unfold cc_alloc, codecache_alloc. rewrite (bind_Some (gets _) _ c CC_MODE_LRU c) by (unfold gets; cbn; by rewrite Hmode).
  cbn [Z.eqb Pos.eqb CC_MODE_LRU]. unfold lru_alloc. rewrite lru_size_spec by done.
  rewrite (bind_Some (gets _) _ c (cc_cap c) c) by done.
  destruct (first_fit (rounded size) l) as [[off l']|] eqn:E.
  - destruct Hf as (c' & Ef & Hr' & Hk). exists c'. split; [|done].
    destruct (first_fit_spec _ _ _ _ _ _ (rep_spans _ _ Hr) H8 Hm E) as (_ & ? & _ & ? & _).
    rewrite (proj2 (Z.ltb_ge _ _)) by lia. cbn [lru_alloc_loop].
    by rewrite (bind_Some (on_cc _) _ c (Some off) c') by (unfold on_cc; cbn; by rewrite Ef).
  - destruct (cc_cap c <? rounded size); [done|]. cbn [lru_alloc_loop].
    by rewrite (bind_Some (on_cc _) _ c None c) by (unfold on_cc; cbn; by rewrite Hf).
Qed.

Lemma cc_free_spec c l off size : rep c l → cc_mode c = CC_MODE_LRU → 0 ≤ size ≤ 0xFFFFFFF8 →
  0 ≤ off → off mod 8 = 0 → off + rounded size ≤ cc_cap c → clear l off (rounded size) →
  ∃ c', codecache_free off size c = Some (tt, c') ∧ rep c' (add_span off (rounded size) l) ∧
    keeps (region l off (rounded size)) c c'.
Proof.
  intros. unfold codecache_free. rewrite (bind_Some (gets _) _ c c c) by done.
  rewrite (proj2 (Z.eqb_eq _ _)) by done. by apply lru_free_spec.
Qed.

(** *** Sequences of operations *)

(** The blocks in use, with the space they take. *)
Inductive cc_reach (base : list Z) (cap : Z) : codecache → list (Z * Z) → Prop :=
  | reach_init c : codecache_init base cap CC_MODE_LRU = Some (tt, c) → cc_reach base cap c []
  | reach_alloc c c' live size r : cc_reach base cap c live → 0 ≤ size ≤ 0xFFFFFFF8 →
      cc_alloc size c = Some (r, c') →
      cc_reach base cap c' (match r with Some off => (off, rounded size) :: live | None => live end)
  | reach_free c c' live1 live2 off size : cc_reach base cap c (live1 ++ (off, rounded size) :: live2) →
      0 ≤ size ≤ 0xFFFFFFF8 → codecache_free off size c = Some (tt, c') →
      cc_reach base cap c' (live1 ++ live2)
  | reach_trim c c' live off actual reserved : cc_reach base cap c ((off, rounded reserved) :: live) →
      0 < actual ≤ reserved → reserved ≤ 0xFFFFFFF8 → codecache_trim off actual reserved c = Some (tt, c') →
      cc_reach base cap c' ((off, rounded actual) :: live)
  | reach_reset c c' live : cc_reach base cap c live → codecache_reset c = Some (tt, c') →
      cc_reach base cap c' [].

(** Every byte of the arena belongs to one block in use or to one free span. *)
Record partition (c : codecache) (live : list (Z * Z)) : Prop := {
  pa_mode : cc_mode c = CC_MODE_LRU;
  pa_live : Forall (λ '(o, s), 0 ≤ o ∧ o mod 8 = 0 ∧ 8 ≤ s ∧ s mod 8 = 0 ∧ o + s ≤ cc_cap c) live;
  pa_free : ∃ l, rep c l ∧ ∀ x, 0 ≤ x < cc_cap c → hits live x + hits l x = 1
}.

Lemma hits_in live o s x : (o, s) ∈ live → o ≤ x < o + s → 0 < hits live x.
Proof.
  intros Hin Hx. apply list_elem_of_split in Hin as (l1 & l2 & ->). rewrite hits_app. cbn [hits].
  pose proof (hits_nonneg l1 x). pose proof (hits_nonneg l2 x).
  rewrite (proj2 (Z.leb_le o x)), (proj2 (Z.ltb_lt x (o + s))) by lia. cbn. lia.
Qed.

Lemma whole_arena_spec c : cc_mode c = CC_MODE_LRU → cc_free_head c = CC_NIL → cc_cap c mod 8 = 0 →
  0 ≤ cc_cap c ≤ 0xFFFFFFF8 → cc_cap c ≤ 4 * Z.of_nat (length (cc_base c)) →
  ∃ c', whole_arena c = Some (tt, c') ∧ cc_cap c' = cc_cap c ∧ length (cc_base c') = length (cc_base c) ∧
    partition c' [].
Proof.
  intros Hm Hh H8 Hc Hl. unfold whole_arena. rewrite (bind_Some (gets _) _ c c c) by done.
  rewrite (proj2 (Z.eqb_eq _ _)) by done. unfold sizeof_cc_free_hdr. cbn [andb].
  destruct (Z.leb_spec 8 (cc_cap c)); cbn [when].
  - destruct (store_header_spec 0 (cc_cap c) CC_NIL c) as (c1 & E1 & K1 & F1 & W1 & W2); [unfold CC_NIL; lia..|].
    pose proof (ke_cap _ _ _ K1) as C1. pose proof (ke_len _ _ _ K1) as L1. pose proof (ke_mode _ _ _ K1) as M1.
    exists (set_cc_free_head 0 c1). split; [by rewrite (seq_Some _ _ _ _ _ E1)|]. split_and!; [done..|].
    split; cbn; [congruence|apply Forall_nil_2|]. exists [(0, cc_cap c)]. split.
    + split; cbn; rewrite ?C1, ?L1; try done; split_and!; try done. by exists CC_NIL.
    + intros x Hx. cbn [hits]. rewrite C1 in Hx.
      rewrite (proj2 (Z.leb_le 0 x)), (proj2 (Z.ltb_lt x _)) by lia. done.
  - exists c. split_and!; [done..|]. split; [done|apply Forall_nil_2|]. exists []. split; [|intros; lia].
    by split.
Qed.

Lemma partition_clear c l live off size : (∀ x, 0 ≤ x < cc_cap c → hits live x + hits l x = 1) →
  0 ≤ off → off + size ≤ cc_cap c → (∀ x, off ≤ x < off + size → 0 < hits live x) → clear l off size.
Proof. intros Hp ? ? Hx x Hr. specialize (Hp x ltac:(lia)). specialize (Hx x Hr). pose proof (hits_nonneg l x). lia. Qed.

Lemma partition_alloc c live size : partition c live → 0 ≤ size ≤ 0xFFFFFFF8 →
  ∃ r c', cc_alloc size c = Some (r, c') ∧ cc_cap c' = cc_cap c ∧
    partition c' (match r with Some off => (off, rounded size) :: live | None => live end) ∧
    keeps (λ q, hits live q = 0) c c'.
Proof.
  intros [Hm Hl (l & Hr & Hp)] Hs. destruct (rounded_ok size) as [H8 Hm8]; [lia|].
  pose proof (cc_alloc_spec c l size Hr Hm Hs) as Ha.
  destruct (first_fit (rounded size) l) as [[off l']|] eqn:E.
  2:{ exists None, c. split_and!; [done..| |apply keeps_refl]. split; try done. by exists l. }
  destruct Ha as (c' & Ea & Hr' & Hk).
  destruct (first_fit_spec _ _ _ _ _ _ (rep_spans _ _ Hr) H8 Hm8 E) as (Hs' & ? & ? & ? & Hh).
  exists (Some off), c'. pose proof (ke_cap _ _ _ Hk) as Ec. split_and!; [done..| |].
  - split; [by rewrite (ke_mode _ _ _ Hk)| |].
    + rewrite Ec. apply Forall_cons_2; [|done]. split_and!; done.
    + exists l'. split; [done|]. rewrite Ec. intros x Hx. cbn [hits]. rewrite <- (Hp x Hx), Hh. lia.
  - eapply keeps_mono; [|exact Hk]. intros q Hq. unfold free_word in Hq.
    pose proof (hits_nonneg live q). destruct (decide (0 ≤ q < cc_cap c)) as [Hin|]; [specialize (Hp q Hin); lia|].
    assert (hits l q = 0); [|lia]. destruct (Z_lt_ge_dec q 0).
    + apply (hits_below 0 (cc_cap c)); [by apply rep_spans|done].
    + apply (hits_above 0 (cc_cap c)); [by apply rep_spans|lia].
Qed.

(** Giving back the end of a block, or all of it. *)
Lemma partition_free c live1 live2 off keep size : partition c (live1 ++ (off, keep + rounded size) :: live2) →
  0 ≤ size ≤ 0xFFFFFFF8 → 0 ≤ keep → keep mod 8 = 0 →
  ∃ c', codecache_free (off + keep) size c = Some (tt, c') ∧ cc_cap c' = cc_cap c ∧
    partition c' (live1 ++ (if 0 <? keep then [(off, keep)] else []) ++ live2) ∧
    keeps (λ q, hits live1 q = 0 ∧ hits live2 q = 0 ∧ ¬ off ≤ q < off + keep) c c'.
Proof.
  intros [Hm Hl (l & Hr & Hp)] Hs Hk0 Hk8. destruct (rounded_ok size) as [H8 Hm8]; [lia|].
  pose proof Hl as Hl'. apply Forall_app in Hl' as [Hl1 Hl2]. apply Forall_cons_iff in Hl2 as [(? & ? & ? & ? & ?) Hl2].
  assert (clear l (off + keep) (rounded size)) as Hcl.
  { eapply partition_clear; [done|lia|lia|]. intros x Hx.
    apply (hits_in _ off (keep + (rounded size))); [apply elem_of_app; right; by left|lia]. }
  destruct (cc_free_spec c l (off + keep) size Hr Hm) as (c' & E & Hr' & Hk); [done|lia|lia|lia|done|].
  destruct (add_span_spec 0 (cc_cap c) (off + keep) (rounded size) l (rep_spans _ _ Hr) Hcl) as [_ Hh]; [lia..|].
  pose proof (ke_cap _ _ _ Hk) as Ec. exists c'. split_and!; [done..| |].
  - split; [by rewrite (ke_mode _ _ _ Hk)| |].
    + rewrite Ec. apply Forall_app_2; [done|]. apply Forall_app_2; [|done].
      destruct (Z.ltb_spec 0 keep); [|apply Forall_nil_2]. apply Forall_cons_2; [|apply Forall_nil_2]. lia.
    + eexists. split; [exact Hr'|]. rewrite Ec. intros x Hx. rewrite Hh, <- (Hp x Hx), !hits_app. cbn [hits].
      destruct (Z.ltb_spec 0 keep); cbn [hits]; unfold b2z; repeat case_match; lia.
  - eapply keeps_mono; [|exact Hk]. intros q Hq. cbn beta.
    assert (0 ≤ q < cc_cap c) as Hin.
    { destruct Hq as [Hq|]; [|lia]. unfold free_word in Hq. split.
      - destruct (Z_lt_ge_dec q 0); [|lia]. by rewrite (hits_below 0 (cc_cap c)) in Hq by (done || by apply rep_spans).
      - destruct (Z_lt_ge_dec q (cc_cap c)); [done|]. rewrite (hits_above 0 (cc_cap c)) in Hq by (lia || by apply rep_spans). lia. }
    specialize (Hp q Hin). rewrite hits_app in Hp. cbn [hits] in Hp.
    pose proof (hits_nonneg live1 q). pose proof (hits_nonneg live2 q). pose proof (hits_nonneg l q).
    destruct Hq as [Hq|Hq].
    + unfold free_word in Hq. unfold b2z in Hp. destruct ((off <=? q) && (q <? off + (keep + (rounded size)))) eqn:Eb; lia.
    + rewrite (proj2 (Z.leb_le off q)), (proj2 (Z.ltb_lt q _)) in Hp by lia. cbn in Hp. lia.
Qed.

Lemma rounded_idemp s : 8 ≤ s → s mod 8 = 0 → rounded s = s.
Proof. unfold rounded. lia. Qed.

Lemma partition_trim c live off actual reserved : partition c ((off, rounded reserved) :: live) →
  0 < actual ≤ reserved → reserved ≤ 0xFFFFFFF8 →
  ∃ c', codecache_trim off actual reserved c = Some (tt, c') ∧ cc_cap c' = cc_cap c ∧
    partition c' ((off, rounded actual) :: live) ∧
    keeps (λ q, hits live q = 0 ∧ ¬ off ≤ q < off + rounded actual) c c'.
Proof.
  intros Hp Ha Hr. pose proof (pa_mode _ _ Hp) as Hm. pose proof (pa_live _ _ Hp) as Hl.
  apply Forall_cons_iff in Hl as [(? & ? & ? & ? & ?) _].
  assert (cc_cap c ≤ 0xFFFFFFF8) as Hcap by (destruct (pa_free _ _ Hp) as (l & [] & _); lia).
  unfold codecache_trim. rewrite (bind_Some (gets _) _ c c c) by done.
  rewrite (proj2 (Z.eqb_eq _ _)) by done. rewrite !cc_align_spec by lia.
  assert ((actual + 7) / 8 * 8 = rounded actual) as -> by (unfold rounded; lia).
  assert ((reserved + 7) / 8 * 8 = rounded reserved) as -> by (unfold rounded; lia).
  assert (rounded actual ≤ rounded reserved) as Hle by (unfold rounded; lia).
  destruct (rounded_ok actual) as [H8 Hm8]; [lia|].
  destruct (Z.ltb_spec (rounded actual) (rounded reserved)); cbn [when].
  - set (size := rounded reserved - rounded actual) in *.
    assert (rounded size = size) as Es by (apply rounded_idemp; lia).
    rewrite !u32_small by lia.
    destruct (partition_free c [] live off (rounded actual) size) as (c' & E & Ec & P & K); [|lia..|].
    { rewrite Es. unfold size. by replace (rounded actual + (rounded reserved - rounded actual)) with (rounded reserved) by lia. }
    rewrite (proj2 (Z.ltb_lt 0 _)) in P by lia. exists c'. split_and!; [|done|done|].
    + rewrite <- E. unfold codecache_free. rewrite (bind_Some (gets _) _ c c c) by done.
      by rewrite (proj2 (Z.eqb_eq _ _)) by done.
    + eapply keeps_mono; [|exact K]. cbn beta. tauto.
  - exists c. assert (rounded actual = rounded reserved) as -> by lia.
    split_and!; [done..|apply keeps_refl].
Qed.

Lemma partition_reset c live : partition c live → cc_cap c mod 8 = 0 →
  ∃ c', codecache_reset c = Some (tt, c') ∧ cc_cap c' = cc_cap c ∧ length (cc_base c') = length (cc_base c) ∧
    partition c' [].
Proof.
  intros [Hm _ (l & [_ _ Hc Hl] & _)] H8. unfold codecache_reset.
  rewrite (bind_Some (modify _) _ c tt (set_cc_used 0 c)) by done.
  rewrite (bind_Some (modify _) _ _ tt (set_cc_free_head CC_NIL (set_cc_used 0 c))) by done.
  by apply (whole_arena_spec (set_cc_free_head CC_NIL (set_cc_used 0 c))).
Qed.

Lemma cc_reach_partition base cap c live : 0 ≤ cap ≤ 0xFFFFFFFF → cap ≤ 4 * Z.of_nat (length base) →
  cc_reach base cap c live → partition c live ∧ cc_cap c mod 8 = 0.
Proof.
  intros Hcap Hlen. induction 1 as [c E|c c' live size r _ [IH I8] Hs E|c c' live1 live2 off size _ [IH I8] Hs E
    |c c' live off actual reserved _ [IH I8] Ha Hr E|c c' live _ [IH I8] E].
  - assert (cap .& not32 (CC_ALIGN - 1) = cap / 8 * 8) as Ecap.
    { change (CC_ALIGN - 1) with (2 ^ 3 - 1). rewrite land_not_low by lia. lia. }
    unfold codecache_init in E. rewrite Ecap in E.
    destruct (whole_arena_spec (mk_cc base 0 (cap / 8 * 8) CC_MODE_LRU CC_NIL)) as (c1 & E1 & C1 & _ & P); cbn in *;
      [done|done|lia..|]. rewrite E1 in E. injection E as <-. split; [done|]. rewrite C1. lia.
  - destruct (partition_alloc c live size IH Hs) as (r1 & c1 & E1 & C1 & P & _). rewrite E1 in E.
    injection E as <- <-. split; [done|]. by rewrite C1.
  - destruct (partition_free c live1 live2 off 0 size) as (c1 & E1 & C1 & P & _); [done..|].
    rewrite Z.add_0_r in E1. rewrite E1 in E. injection E as <-. split; [done|]. by rewrite C1.
  - destruct (partition_trim c live off actual reserved) as (c1 & E1 & C1 & P & _); [done..|].
    rewrite E1 in E. injection E as <-. split; [done|]. by rewrite C1.
  - destruct (partition_reset c live IH I8) as (c1 & E1 & C1 & _ & P).
    rewrite E1 in E. injection E as <-. split; [done|]. by rewrite C1.
Qed.

(** C34.  The free-list code cache never loses or shares memory.  After any
    sequence of allocations, frees and trims of blocks in use, and resets, each
    byte of the arena is in exactly one block in use or in exactly one free
    span; the next allocation is defined and writes only outside the blocks in
    use; freeing a block is defined and writes only outside the others. *)
Theorem cc_reach_ok base cap c live : 0 ≤ cap ≤ 0xFFFFFFFF → cap ≤ 4 * Z.of_nat (length base) →
  cc_reach base cap c live →
  (∃ l, rep c l ∧ ∀ x, 0 ≤ x < cc_cap c → hits live x + hits l x = 1) ∧
  (∀ size, 0 ≤ size ≤ 0xFFFFFFF8 → ∃ r c', cc_alloc size c = Some (r, c') ∧ keeps (λ q, hits live q = 0) c c') ∧
  (∀ live1 live2 off size, live = live1 ++ (off, rounded size) :: live2 → 0 ≤ size ≤ 0xFFFFFFF8 →
    ∃ c', codecache_free off size c = Some (tt, c') ∧ keeps (λ q, hits (live1 ++ live2) q = 0) c c').
Proof.
  intros Hcap Hlen Hc. destruct (cc_reach_partition base cap c live) as [Hp _]; [done..|].
  split; [apply (pa_free _ _ Hp)|]. split.
  - intros size Hs. destruct (partition_alloc c live size Hp Hs) as (r & c' & E & _ & _ & K). by exists r, c'.
  - intros live1 live2 off size -> Hs.
    destruct (partition_free c live1 live2 off 0 size) as (c' & E & _ & _ & K); [done..|].
    rewrite Z.add_0_r in E. exists c'. split; [done|]. eapply keeps_mono; [|exact K].
    intros q (H1 & H2 & _). rewrite hits_app. lia.
Qed.

(** C35.  An allocation from the free list is refused exactly when no free span
    is long enough; otherwise the block lies in a free span, and freeing it at
    once restores the free list the cache had. *)
Theorem cc_alloc_free c l size : rep c l → cc_mode c = CC_MODE_LRU → 0 ≤ size ≤ 0xFFFFFFF8 →
  (Forall (λ '(_, s), s < rounded size) l ∧ cc_alloc size c = Some (None, c)) ∨
  ∃ off c' c'', cc_alloc size c = Some (Some off, c') ∧
    (∀ x, off ≤ x < off + rounded size → hits l x = 1) ∧
    codecache_free off size c' = Some (tt, c'') ∧ rep c'' l.
Proof.
  intros Hr Hm Hs. destruct (rounded_ok size) as [H8 Hm8]; [lia|].
  pose proof (cc_alloc_spec c l size Hr Hm Hs) as Ha.
  destruct (first_fit (rounded size) l) as [[off l']|] eqn:E.
  2:{ left. split; [by apply first_fit_none|done]. }
  right. destruct Ha as (c' & Ea & Hr' & Hk). pose proof (rep_spans _ _ Hr) as Hsp.
  destruct (first_fit_spec _ _ _ _ _ _ Hsp H8 Hm8 E) as (Hs' & ? & ? & ? & Hh).
  pose proof (ke_cap _ _ _ Hk) as Ec.
  assert (∀ x, off ≤ x < off + rounded size → hits l x = 1 ∧ hits l' x = 0) as Hx.
  { intros x Hx. specialize (Hh x). rewrite (proj2 (Z.leb_le off x)), (proj2 (Z.ltb_lt x _)) in Hh by lia.
    cbn in Hh. pose proof (hits_le_1 _ _ _ x Hsp). pose proof (hits_nonneg l' x). lia. }
  destruct (cc_free_spec c' l' off size Hr') as (c'' & Ef & Hr'' & _);
    [by rewrite (ke_mode _ _ _ Hk)|done|done|done|lia|intros x Hq; by apply Hx|].
  rewrite (first_fit_add_span _ _ _ _ _ _ Hsp H8 Hm8 E) in Hr''.
  exists off, c', c''. split_and!; [done| |done..]. intros x Hq. by apply Hx.
Qed.

(** A cache of 64 bytes, with 10 and 20 bytes taken from it. *)
Definition arena_of (w : list Z) (head : Z) : codecache := mk_cc w 0 64 CC_MODE_LRU head.
Definition no_block : codecache := arena_of (64 :: CC_NIL :: replicate 14 0xDEADBEEF) 0.
Definition one_block : codecache :=
  arena_of ([64; CC_NIL; 0xDEADBEEF; 0xDEADBEEF; 48; CC_NIL] ++ replicate 10 0xDEADBEEF) 16.
Definition two_blocks : codecache :=
  arena_of ([64; CC_NIL; 0xDEADBEEF; 0xDEADBEEF; 48; CC_NIL] ++ replicate 4 0xDEADBEEF
            ++ [24; CC_NIL] ++ replicate 4 0xDEADBEEF) 40.

Lemma cc_reach_ok_witness :
  cc_reach (replicate 16 0xDEADBEEF) 64 two_blocks [(16, 24); (0, 16)] ∧
  ∃ r c', cc_alloc 100 two_blocks = Some (r, c') ∧ keeps (λ q, hits [(16, 24); (0, 16)] q = 0) two_blocks c'.
Proof.
  assert (cc_reach (replicate 16 0xDEADBEEF) 64 no_block []) as H0 by (apply reach_init; reflexivity).
  pose proof (reach_alloc _ _ _ one_block _ 10 (Some 0) H0 ltac:(done) ltac:(reflexivity)) as H1.
  pose proof (reach_alloc _ _ _ two_blocks _ 20 (Some 16) H1 ltac:(done) ltac:(reflexivity)) as Hc.
  split; [exact Hc|].
  destruct (cc_reach_ok (replicate 16 0xDEADBEEF) 64 two_blocks [(16, 24); (0, 16)]) as (_ & Ha & _); [done|done|exact Hc|].
  apply (Ha 100). done.
Defined.

Lemma cc_alloc_free_witness : ∃ c off c' c'',
  codecache_init (replicate 16 0) 64 CC_MODE_LRU = Some (tt, c) ∧
  cc_alloc 10 c = Some (Some off, c') ∧ codecache_free off 10 c' = Some (tt, c'') ∧ rep c'' [(0, 64)].
Proof.
  destruct (cc_alloc_free (mk_cc (<[0%nat := 64]> (<[1%nat := CC_NIL]> (replicate 16 0))) 0 64 CC_MODE_LRU 0)
    [(0, 64)] 10) as [[Hf _]|(off & c' & c'' & Ea & _ & Ef & Hr)].
  - split; [|cbn; done|done|done]. cbn. split_and!; try done. by exists CC_NIL.
  - done.
  - done.
  - apply Forall_cons_iff in Hf as [Hf _]. vm_compute in Hf. done.
  - eexists _, off, c', c''. split; [reflexivity|]. split; [exact Ea|]. split; [exact Ef|exact Hr].
Defined.
