(* ===== verification/Block.v ===== *)
(** * Basic blocks (jit/codegen.h, jit/codegen.c)

    The descriptor of a compiled block, the discovery of its extent, and the
    successors that are known without running it.  A pointer into the code
    arena is an offset from the arena's base. *)

From Stdlib Require Import ZArith Lia.
From stdpp Require Import base tactics numbers list.
From S2P Require Import Prelude Cpu Flags Logic Flat Ea Step Decode.

(** ** The descriptor *)

Record m68k_block := mk_block {
  b_pc_start : Z;
  b_pc_end : Z;
  b_n_ops : Z;
  b_code : Z;  (** where the code is in the arena *)
  b_code_size : Z;
  b_entry_off : Z;
  b_body_addr : Z;  (** arena offsets, as the other addresses *)
  b_chain_entry_addr : Z;
  b_sr_loaded : bool;
  b_inline_ops : Z;
  b_helper_ops : Z;
  b_predicted_next : option Z;  (** a reference to a block *)
  b_predicted_next_pc : Z;
  b_predicted_next_entry : option Z;
  b_cache_sig : Z;
  b_last_used_cycle : Z;
  b_last_op : Z;
  b_last_op_pc : Z
}.

Definition set_b_predicted_next (v : option Z) (x : m68k_block) : m68k_block :=
  mk_block (b_pc_start x) (b_pc_end x) (b_n_ops x) (b_code x) (b_code_size x) (b_entry_off
    x) (b_body_addr x) (b_chain_entry_addr x) (b_sr_loaded x) (b_inline_ops x)
    (b_helper_ops x) v (b_predicted_next_pc x) (b_predicted_next_entry x) (b_cache_sig x)
    (b_last_used_cycle x) (b_last_op x) (b_last_op_pc x).
Definition set_b_predicted_next_pc (v : Z) (x : m68k_block) : m68k_block :=
  mk_block (b_pc_start x) (b_pc_end x) (b_n_ops x) (b_code x) (b_code_size x) (b_entry_off
    x) (b_body_addr x) (b_chain_entry_addr x) (b_sr_loaded x) (b_inline_ops x)
    (b_helper_ops x) (b_predicted_next x) (u32 v) (b_predicted_next_entry x) (b_cache_sig
    x) (b_last_used_cycle x) (b_last_op x) (b_last_op_pc x).
Definition set_b_predicted_next_entry (v : option Z) (x : m68k_block) : m68k_block :=
  mk_block (b_pc_start x) (b_pc_end x) (b_n_ops x) (b_code x) (b_code_size x) (b_entry_off
    x) (b_body_addr x) (b_chain_entry_addr x) (b_sr_loaded x) (b_inline_ops x)
    (b_helper_ops x) (b_predicted_next x) (b_predicted_next_pc x) v (b_cache_sig x)
    (b_last_used_cycle x) (b_last_op x) (b_last_op_pc x).
Definition set_b_last_used_cycle (v : Z) (x : m68k_block) : m68k_block :=
  mk_block (b_pc_start x) (b_pc_end x) (b_n_ops x) (b_code x) (b_code_size x) (b_entry_off
    x) (b_body_addr x) (b_chain_entry_addr x) (b_sr_loaded x) (b_inline_ops x)
    (b_helper_ops x) (b_predicted_next x) (b_predicted_next_pc x) (b_predicted_next_entry
    x) (b_cache_sig x) (u64 v) (b_last_op x) (b_last_op_pc x).

Definition M68K_JIT_BLOCK_BUCKETS : Z := 2048.
Definition M68K_MAX_OPS_PER_BLOCK : Z := 64.

(** No prediction. *)
Definition clear_prediction (b : m68k_block) : m68k_block :=
  set_b_predicted_next_entry None (set_b_predicted_next_pc 0xFFFFFFFF (set_b_predicted_next None b)).

(** ** The extent of a block *)

Section code.
Context {B : Type} `{Bus B}.

(** The instructions from [cur] on, at most [cap] of them: opcodes and their
    addresses, and the address after the last. *)
Fixpoint discover (cap : nat) (cur : Z) : M (st B) (list (Z * Z) * Z) :=
  match cap with
  | O => mret ([], cur)
  | S cap =>
      d ← m68k_decode_at cur;
      let next := u32 (cur + dec_length d) in
      if dec_ends_block d then mret ([(dec_opcode d, cur)], next)
      else r ← discover cap next; mret ((dec_opcode d, cur) :: fst r, snd r)
  end.

(** ** Static successors *)

(** The 16-bit displacement after the opcode. *)
Definition disp16_at (op_pc : Z) : M (st B) Z := w ← rd16 (u32 (op_pc + 2)); mret (i16 w).

Definition m68k_block_static_successors (b : m68k_block) : M (st B) (list Z) :=
  let op := b_last_op b in let op_pc := b_last_op_pc b in
  let top := (op ≫ 12) .& 0xF in
  if top =? 0x6 then
    let cc := (op ≫ 8) .& 0xF in
    let disp8 := i8 (op .& 0xFF) in
    if disp8 =? -1 then mret []
    else
      tf ← (if disp8 =? 0 then
              d ← disp16_at op_pc; mret (u32 (op_pc + 2 + u32 d), u32 (op_pc + 4))
            else mret (u32 (op_pc + 2 + u32 disp8), u32 (op_pc + 2)));
      if (cc =? 0) || (cc =? 1) then mret [fst tf] else mret [fst tf; snd tf]
  else if (top =? 0x5) && ((op ≫ 6) .& 3 =? 3) && ((op ≫ 3) .& 7 =? 1) then
    d ← disp16_at op_pc;
    mret [u32 (op_pc + 4); u32 (op_pc + 2 + u32 d)]
  else if (op =? 0x4EF9) || (op =? 0x4EB9) then t ← rd32 (u32 (op_pc + 2)); mret [t]
  else if (op =? 0x4EF8) || (op =? 0x4EB8) then d ← disp16_at op_pc; mret [u32 d]
  else if (op =? 0x4EFA) || (op =? 0x4EBA) then d ← disp16_at op_pc; mret [u32 (op_pc + 2 + u32 d)]
  else if (top =? 0xA) || (top =? 0xF) then mret []
  else if (top =? 0x4) &&
          ((op =? 0x4E75) || (op =? 0x4E73) || (op =? 0x4E77) || (op =? 0x4E72)
           || (op .& 0xFFF0 =? 0x4E40) || (op .& 0xFFC0 =? 0x4EC0) || (op .& 0xFFC0 =? 0x4E80))
  then mret []
  else mret [b_pc_end b].
End code.

(** ** The successors are where execution goes *)

Definition is_branch (op : Z) : bool :=
  (((op ≫ 12) .& 0xF =? 6) && negb (op .& 0xFF =? 0xFF))
  || (((op ≫ 12) .& 0xF =? 5) && ((op ≫ 6) .& 3 =? 3) && ((op ≫ 3) .& 7 =? 1)).

Definition flat_word (m : flat) (a : Z) : Z := flat_byte m a * 0x100 + flat_byte m (a + 1).

Section successors.
Implicit Types s : st flat.

Lemma flat_fetch16 s : fetch16 s =
  Some (flat_word (bus s) (cpu_pc (cpu s)), with_cpu (λ c, set_cpu_pc (cpu_pc c + 2) c) s).
Proof. done. Qed.

Lemma disp16_at_flat pc s : disp16_at pc s = Some (i16 (flat_word (bus s) (u32 (pc + 2))), s).
Proof. done. Qed.

(** A state past the opcode's own word. *)
Definition at_branch (pc op : Z) (s : st flat) : Prop :=
  word32 pc ∧ cpu_pc (cpu s) = u32 (pc + 2).

Lemma i8_zero v : i8 (v .& 0xFF) = 0 ↔ v .& 0xFF = 0.
Proof.
  rewrite (land_ones_low _ 0xFF 8) by done. change (2 ^ 8) with 256. unfold i8, u8.
  rewrite Z.mod_mod by lia. pose proof (Z.mod_pos_bound v 256). case_match; lia.
Qed.
Lemma i8_minus1 v : i8 (v .& 0xFF) = -1 ↔ v .& 0xFF = 0xFF.
Proof.
  rewrite (land_ones_low _ 0xFF 8) by done. change (2 ^ 8) with 256. unfold i8, u8.
  rewrite Z.mod_mod by lia. pose proof (Z.mod_pos_bound v 256). case_match; lia.
Qed.

(** The two places a conditional branch can go. *)
Lemma step_6_target op s pc : at_branch pc op s → op .& 0xFF ≠ 0xFF →
  let d := if op .& 0xFF =? 0 then i16 (flat_word (bus s) (u32 (pc + 2))) else i8 (op .& 0xFF) in
  let n := if op .& 0xFF =? 0 then 4 else 2 in
  let cc := (op ≫ 8) .& 0xF in
  ∃ s', step_6 op s = Some (tt, s') ∧
    (cpu_pc (cpu s') = u32 (pc + 2 + d) ∨ (cc ≠ 0 ∧ cc ≠ 1 ∧ cpu_pc (cpu s') = u32 (pc + n))).
Proof.
  intros [Hpc Es] Hff d n cc. unfold step_6. fold cc.
  rewrite (bind_Some (getc cpu_pc) _ s (u32 (pc + 2)) s) by (unfold getc, gets; by rewrite Es).
  set (s1 := if op .& 0xFF =? 0 then with_cpu (λ c, set_cpu_pc (cpu_pc c + 2) c) s else s).
  rewrite (bind_Some _ _ s d s1).
  2:{ unfold d, s1. destruct (op .& 0xFF =? 0); [|by rewrite (proj2 (Z.eqb_neq _ _)) by done].
      rewrite (bind_Some _ _ _ _ _ (flat_fetch16 s)), Es. done. }
  assert (u32 (u32 (pc + 2) + u32 d) = u32 (pc + 2 + d)) as Et by (by rewrite u32_add_l, u32_add_r).
  rewrite Et. destruct (Z.eqb_spec cc 1) as [E1|N1].
  - eexists. split; [reflexivity|]. left. cbn. apply u32_idemp.
  - assert (cpu_pc (cpu s1) = u32 (pc + n)) as Epc.
    { unfold s1, n. destruct (op .& 0xFF =? 0); [|done]. cbn. rewrite Es, u32_add_l. f_equal. lia. }
    rewrite (bind_Some (getc _) _ s1 ((cc =? 0) || cond_true (cpu s1) cc) s1) by done.
    destruct ((cc =? 0) || cond_true (cpu s1) cc) eqn:Et'.
    + eexists. split; [reflexivity|]. left. cbn. apply u32_idemp.
    + eexists. split; [reflexivity|]. right. apply orb_false_iff in Et' as [E0 _].
      apply Z.eqb_neq in E0. split_and!; [done..|]. exact Epc.
Qed.

Lemma op_dbcc_target op s pc : at_branch pc op s →
  ∃ s', op_dbcc pc op s = Some (tt, s') ∧
    (cpu_pc (cpu s') = u32 (pc + 2 + i16 (flat_word (bus s) (u32 (pc + 2)))) ∨ cpu_pc (cpu s') = u32 (pc + 4)).
Proof.
  intros [Hpc Es]. unfold op_dbcc. rewrite (bind_Some _ _ _ _ _ (flat_fetch16 s)), Es.
  set (s1 := with_cpu _ s). set (d := i16 _).
  assert (cpu_pc (cpu s1) = u32 (pc + 4)) as Epc.
  { cbn. rewrite Es, u32_add_l. f_equal. lia. }
  rewrite (bind_Some (getc _) _ s1 (cond_true (cpu s1) ((op ≫ 8) .& 0xF)) s1) by done.
  destruct (cond_true _ _); cbn [negb when].
  { eexists. split; [reflexivity|]. right. exact Epc. }
  set (x := u16 (u16 (dreg (cpu s1) (op .& 7) .& 0xFFFF) - 1)).
  unfold mbind, M_bind, getc, gets, upd, modify. fold x.
  destruct (negb (x =? 0xFFFF)); cbn [when].
  - eexists. split; [reflexivity|]. left. cbn. by rewrite u32_add_r.
  - eexists. split; [reflexivity|]. right. exact Epc.
Qed.
End successors.

(** C36.  The static successors of a block that ends in a branch (BRA, BSR, Bcc
    or DBcc, byte or word displacement) are complete: when the interpreter
    executes that branch, control arrives at one of them. *)
Theorem branch_successors (s : st flat) (b : m68k_block) :
  cpu_halted (cpu s) = 0 → word32 (b_last_op_pc b) → cpu_pc (cpu s) = b_last_op_pc b →
  flat_word (bus s) (b_last_op_pc b) = b_last_op b → is_branch (b_last_op b) = true →
  ∃ s' succ, m68k_step s = Some (tt, s') ∧ m68k_block_static_successors b s = Some (succ, s) ∧
    cpu_pc (cpu s') ∈ succ.
Proof.
  intros Hh Hpc Epc Eop Hb. set (pc := b_last_op_pc b) in *. set (op := b_last_op b) in *.
  rewrite step_unfold by done.
  assert (fetched s = Some (op, with_cpu (λ c, set_cpu_instrs (cpu_instrs c + 1) c) s)) as ->.
  { unfold fetched. cbn [rd16 flat_bus flat_rd16]. unfold gets. cbn [bus with_cpu]. rewrite Epc. by rewrite <- Eop. }
  set (s1 := with_cpu _ (with_cpu _ s)).
  assert (at_branch pc op s1) as Hat by (split; [done|cbn; by rewrite Epc]).
  rewrite Epc. unfold is_branch in Hb. unfold m68k_block_static_successors. fold op pc.
  apply orb_true_iff in Hb as [Hb|Hb].
  - apply andb_true_iff in Hb as [H6%Z.eqb_eq Hff%negb_true_iff%Z.eqb_neq].
    unfold execute. rewrite H6. destruct (step_6_target op s1 pc Hat Hff) as (s' & E & Ht).
    rewrite (proj2 (Z.eqb_neq (i8 (op .& 0xFF)) (-1))) by (by rewrite i8_minus1).
    cbn [Z.eqb Pos.eqb]. exists s'. cbn zeta in Ht.
    assert ((i8 (op .& 0xFF) =? 0) = (op .& 0xFF =? 0)) as -> by
      (destruct (Z.eqb_spec (op .& 0xFF) 0) as [H0|H0];
        [by apply Z.eqb_eq, i8_zero|apply Z.eqb_neq; by rewrite i8_zero]).
    change (bus s1) with (bus s) in Ht.
    destruct (op .& 0xFF =? 0).
    + rewrite (bind_Some _ _ s (u32 (pc + 2 + u32 (i16 (flat_word (bus s) (u32 (pc + 2))))), u32 (pc + 4)) s) by done.
      cbn [fst snd]. rewrite u32_add_r.
      destruct (((op ≫ 8) .& 0xF =? 0) || ((op ≫ 8) .& 0xF =? 1)) eqn:Ecc;
        (eexists; split; [exact E|]; split; [reflexivity|]); rewrite !elem_of_cons; [lia|tauto].
    + rewrite (bind_Some _ _ s (u32 (pc + 2 + u32 (i8 (op .& 0xFF))), u32 (pc + 2)) s) by done.
      cbn [fst snd]. rewrite u32_add_r.
      destruct (((op ≫ 8) .& 0xF =? 0) || ((op ≫ 8) .& 0xF =? 1)) eqn:Ecc;
        (eexists; split; [exact E|]; split; [reflexivity|]); rewrite !elem_of_cons; [lia|tauto].
  - rewrite !andb_true_iff in Hb. destruct Hb as [[H5%Z.eqb_eq H3] H1]. unfold execute. rewrite H5.
    unfold step_5. rewrite H3, H1. cbn [Z.eqb Pos.eqb andb].
    destruct (op_dbcc_target op s1 pc Hat) as (s' & E & Ht). exists s'. rewrite E.
    rewrite (bind_Some _ _ _ _ _ (disp16_at_flat pc s)). eexists. split; [done|]. split; [reflexivity|].
    change (bus s1) with (bus s) in Ht. rewrite u32_add_r, !elem_of_cons. tauto.
Qed.

(** [BNE.W] to address 0x12 at address 0. *)
Definition bne_block : m68k_block :=
  mk_block 0 4 1 0 0 0 0 0 false 0 1 None 0xFFFFFFFF None 0 0 0x6600 0.

Lemma branch_successors_witness : ∃ s' succ,
  m68k_step (flat_machine [0x6600; 0x0010] cpu_zero) = Some (tt, s') ∧
  m68k_block_static_successors bne_block (flat_machine [0x6600; 0x0010] cpu_zero)
    = Some (succ, flat_machine [0x6600; 0x0010] cpu_zero) ∧ cpu_pc (cpu s') ∈ succ.
Proof.
  apply (branch_successors (flat_machine [0x6600; 0x0010] cpu_zero) bne_block);
    [reflexivity|done|reflexivity|reflexivity|reflexivity].
Defined.
