(* ===== verification/Dispatcher.v ===== *)
(** * The block dispatcher (jit/dispatcher.c)

    The hash table of compiled blocks, self-modifying-code tracking, eviction,
    prefetching and the run loop.  Blocks live in a heap: freeing one removes it
    and following a reference to a freed block is undefined.  A bucket's chain
    through [hash_next] is the list of its blocks. *)

From Stdlib Require Import ZArith Lia.
From stdpp Require Import base tactics numbers gmap list.
From S2P Require Import Prelude Cpu Ea Step MacState Sony MacMem CodeCache Block.

(** ** State *)

Record dispatcher := mk_disp {
  d_mach : mac;  (** the processor and its machine, d->cpu and d->cpu->mem *)
  d_cc : codecache;
  d_buckets : list (list Z);  (** each bucket's chain, by reference *)
  d_heap : gmap Z m68k_block;  (** the blocks that are allocated *)
  d_next_ref : Z;
  d_blocks_compiled : Z;
  d_blocks_executed : Z;
  d_helper_ops_total : Z;
  d_inline_ops_total : Z;
  d_chain_hits : Z;
  d_chain_misses : Z;
  d_chain_cache_matches : Z;
  d_prefetch_compiles : Z;
  d_prefetch_hits : Z;
  d_interp_fallbacks : Z;
  d_arena_resets : Z;
  d_smc_invalidations : Z;
  d_no_cache : bool;
  d_prefetch_mode : Z;
  d_prefetch_depth : Z;
  d_code_pages : list Z;
  d_dirty_pages : list Z;  (** the first n_dirty entries *)
  d_smc_overflow : bool
}.

Definition set_d_mach (v : mac) (x : dispatcher) : dispatcher :=
  mk_disp v (d_cc x) (d_buckets x) (d_heap x) (d_next_ref x) (d_blocks_compiled x)
    (d_blocks_executed x) (d_helper_ops_total x) (d_inline_ops_total x) (d_chain_hits x)
    (d_chain_misses x) (d_chain_cache_matches x) (d_prefetch_compiles x) (d_prefetch_hits
    x) (d_interp_fallbacks x) (d_arena_resets x) (d_smc_invalidations x) (d_no_cache x)
    (d_prefetch_mode x) (d_prefetch_depth x) (d_code_pages x) (d_dirty_pages x)
    (d_smc_overflow x).
Definition set_d_cc (v : codecache) (x : dispatcher) : dispatcher :=
  mk_disp (d_mach x) v (d_buckets x) (d_heap x) (d_next_ref x) (d_blocks_compiled x)
    (d_blocks_executed x) (d_helper_ops_total x) (d_inline_ops_total x) (d_chain_hits x)
    (d_chain_misses x) (d_chain_cache_matches x) (d_prefetch_compiles x) (d_prefetch_hits
    x) (d_interp_fallbacks x) (d_arena_resets x) (d_smc_invalidations x) (d_no_cache x)
    (d_prefetch_mode x) (d_prefetch_depth x) (d_code_pages x) (d_dirty_pages x)
    (d_smc_overflow x).
Definition set_d_buckets (v : list (list Z)) (x : dispatcher) : dispatcher :=
  mk_disp (d_mach x) (d_cc x) v (d_heap x) (d_next_ref x) (d_blocks_compiled x)
    (d_blocks_executed x) (d_helper_ops_total x) (d_inline_ops_total x) (d_chain_hits x)
    (d_chain_misses x) (d_chain_cache_matches x) (d_prefetch_compiles x) (d_prefetch_hits
    x) (d_interp_fallbacks x) (d_arena_resets x) (d_smc_invalidations x) (d_no_cache x)
    (d_prefetch_mode x) (d_prefetch_depth x) (d_code_pages x) (d_dirty_pages x)
    (d_smc_overflow x).
Definition set_d_heap (v : gmap Z m68k_block) (x : dispatcher) : dispatcher :=
  mk_disp (d_mach x) (d_cc x) (d_buckets x) v (d_next_ref x) (d_blocks_compiled x)
    (d_blocks_executed x) (d_helper_ops_total x) (d_inline_ops_total x) (d_chain_hits x)
    (d_chain_misses x) (d_chain_cache_matches x) (d_prefetch_compiles x) (d_prefetch_hits
    x) (d_interp_fallbacks x) (d_arena_resets x) (d_smc_invalidations x) (d_no_cache x)
    (d_prefetch_mode x) (d_prefetch_depth x) (d_code_pages x) (d_dirty_pages x)
    (d_smc_overflow x).
Definition set_d_next_ref (v : Z) (x : dispatcher) : dispatcher :=
  mk_disp (d_mach x) (d_cc x) (d_buckets x) (d_heap x) v (d_blocks_compiled x)
    (d_blocks_executed x) (d_helper_ops_total x) (d_inline_ops_total x) (d_chain_hits x)
    (d_chain_misses x) (d_chain_cache_matches x) (d_prefetch_compiles x) (d_prefetch_hits
    x) (d_interp_fallbacks x) (d_arena_resets x) (d_smc_invalidations x) (d_no_cache x)
    (d_prefetch_mode x) (d_prefetch_depth x) (d_code_pages x) (d_dirty_pages x)
    (d_smc_overflow x).
Definition set_d_blocks_compiled (v : Z) (x : dispatcher) : dispatcher :=
  mk_disp (d_mach x) (d_cc x) (d_buckets x) (d_heap x) (d_next_ref x) (u64 v)
    (d_blocks_executed x) (d_helper_ops_total x) (d_inline_ops_total x) (d_chain_hits x)
    (d_chain_misses x) (d_chain_cache_matches x) (d_prefetch_compiles x) (d_prefetch_hits
    x) (d_interp_fallbacks x) (d_arena_resets x) (d_smc_invalidations x) (d_no_cache x)
    (d_prefetch_mode x) (d_prefetch_depth x) (d_code_pages x) (d_dirty_pages x)
    (d_smc_overflow x).
Definition set_d_blocks_executed (v : Z) (x : dispatcher) : dispatcher :=
  mk_disp (d_mach x) (d_cc x) (d_buckets x) (d_heap x) (d_next_ref x) (d_blocks_compiled
    x) (u64 v) (d_helper_ops_total x) (d_inline_ops_total x) (d_chain_hits x)
    (d_chain_misses x) (d_chain_cache_matches x) (d_prefetch_compiles x) (d_prefetch_hits
    x) (d_interp_fallbacks x) (d_arena_resets x) (d_smc_invalidations x) (d_no_cache x)
    (d_prefetch_mode x) (d_prefetch_depth x) (d_code_pages x) (d_dirty_pages x)
    (d_smc_overflow x).
Definition set_d_helper_ops_total (v : Z) (x : dispatcher) : dispatcher :=
  mk_disp (d_mach x) (d_cc x) (d_buckets x) (d_heap x) (d_next_ref x) (d_blocks_compiled
    x) (d_blocks_executed x) (u64 v) (d_inline_ops_total x) (d_chain_hits x)
    (d_chain_misses x) (d_chain_cache_matches x) (d_prefetch_compiles x) (d_prefetch_hits
    x) (d_interp_fallbacks x) (d_arena_resets x) (d_smc_invalidations x) (d_no_cache x)
    (d_prefetch_mode x) (d_prefetch_depth x) (d_code_pages x) (d_dirty_pages x)
    (d_smc_overflow x).
Definition set_d_inline_ops_total (v : Z) (x : dispatcher) : dispatcher :=
  mk_disp (d_mach x) (d_cc x) (d_buckets x) (d_heap x) (d_next_ref x) (d_blocks_compiled
    x) (d_blocks_executed x) (d_helper_ops_total x) (u64 v) (d_chain_hits x)
    (d_chain_misses x) (d_chain_cache_matches x) (d_prefetch_compiles x) (d_prefetch_hits
    x) (d_interp_fallbacks x) (d_arena_resets x) (d_smc_invalidations x) (d_no_cache x)
    (d_prefetch_mode x) (d_prefetch_depth x) (d_code_pages x) (d_dirty_pages x)
    (d_smc_overflow x).
Definition set_d_chain_hits (v : Z) (x : dispatcher) : dispatcher :=
  mk_disp (d_mach x) (d_cc x) (d_buckets x) (d_heap x) (d_next_ref x) (d_blocks_compiled
    x) (d_blocks_executed x) (d_helper_ops_total x) (d_inline_ops_total x) (u64 v)
    (d_chain_misses x) (d_chain_cache_matches x) (d_prefetch_compiles x) (d_prefetch_hits
    x) (d_interp_fallbacks x) (d_arena_resets x) (d_smc_invalidations x) (d_no_cache x)
    (d_prefetch_mode x) (d_prefetch_depth x) (d_code_pages x) (d_dirty_pages x)
    (d_smc_overflow x).
Definition set_d_chain_misses (v : Z) (x : dispatcher) : dispatcher :=
  mk_disp (d_mach x) (d_cc x) (d_buckets x) (d_heap x) (d_next_ref x) (d_blocks_compiled
    x) (d_blocks_executed x) (d_helper_ops_total x) (d_inline_ops_total x) (d_chain_hits
    x) (u64 v) (d_chain_cache_matches x) (d_prefetch_compiles x) (d_prefetch_hits x)
    (d_interp_fallbacks x) (d_arena_resets x) (d_smc_invalidations x) (d_no_cache x)
    (d_prefetch_mode x) (d_prefetch_depth x) (d_code_pages x) (d_dirty_pages x)
    (d_smc_overflow x).
Definition set_d_chain_cache_matches (v : Z) (x : dispatcher) : dispatcher :=
  mk_disp (d_mach x) (d_cc x) (d_buckets x) (d_heap x) (d_next_ref x) (d_blocks_compiled
    x) (d_blocks_executed x) (d_helper_ops_total x) (d_inline_ops_total x) (d_chain_hits
    x) (d_chain_misses x) (u64 v) (d_prefetch_compiles x) (d_prefetch_hits x)
    (d_interp_fallbacks x) (d_arena_resets x) (d_smc_invalidations x) (d_no_cache x)
    (d_prefetch_mode x) (d_prefetch_depth x) (d_code_pages x) (d_dirty_pages x)
    (d_smc_overflow x).
Definition set_d_prefetch_compiles (v : Z) (x : dispatcher) : dispatcher :=
  mk_disp (d_mach x) (d_cc x) (d_buckets x) (d_heap x) (d_next_ref x) (d_blocks_compiled
    x) (d_blocks_executed x) (d_helper_ops_total x) (d_inline_ops_total x) (d_chain_hits
    x) (d_chain_misses x) (d_chain_cache_matches x) (u64 v) (d_prefetch_hits x)
    (d_interp_fallbacks x) (d_arena_resets x) (d_smc_invalidations x) (d_no_cache x)
    (d_prefetch_mode x) (d_prefetch_depth x) (d_code_pages x) (d_dirty_pages x)
    (d_smc_overflow x).
Definition set_d_prefetch_hits (v : Z) (x : dispatcher) : dispatcher :=
  mk_disp (d_mach x) (d_cc x) (d_buckets x) (d_heap x) (d_next_ref x) (d_blocks_compiled
    x) (d_blocks_executed x) (d_helper_ops_total x) (d_inline_ops_total x) (d_chain_hits
    x) (d_chain_misses x) (d_chain_cache_matches x) (d_prefetch_compiles x) (u64 v)
    (d_interp_fallbacks x) (d_arena_resets x) (d_smc_invalidations x) (d_no_cache x)
    (d_prefetch_mode x) (d_prefetch_depth x) (d_code_pages x) (d_dirty_pages x)
    (d_smc_overflow x).
Definition set_d_interp_fallbacks (v : Z) (x : dispatcher) : dispatcher :=
  mk_disp (d_mach x) (d_cc x) (d_buckets x) (d_heap x) (d_next_ref x) (d_blocks_compiled
    x) (d_blocks_executed x) (d_helper_ops_total x) (d_inline_ops_total x) (d_chain_hits
    x) (d_chain_misses x) (d_chain_cache_matches x) (d_prefetch_compiles x)
    (d_prefetch_hits x) (u64 v) (d_arena_resets x) (d_smc_invalidations x) (d_no_cache x)
    (d_prefetch_mode x) (d_prefetch_depth x) (d_code_pages x) (d_dirty_pages x)
    (d_smc_overflow x).
Definition set_d_arena_resets (v : Z) (x : dispatcher) : dispatcher :=
  mk_disp (d_mach x) (d_cc x) (d_buckets x) (d_heap x) (d_next_ref x) (d_blocks_compiled
    x) (d_blocks_executed x) (d_helper_ops_total x) (d_inline_ops_total x) (d_chain_hits
    x) (d_chain_misses x) (d_chain_cache_matches x) (d_prefetch_compiles x)
    (d_prefetch_hits x) (d_interp_fallbacks x) (u64 v) (d_smc_invalidations x) (d_no_cache
    x) (d_prefetch_mode x) (d_prefetch_depth x) (d_code_pages x) (d_dirty_pages x)
    (d_smc_overflow x).
Definition set_d_smc_invalidations (v : Z) (x : dispatcher) : dispatcher :=
  mk_disp (d_mach x) (d_cc x) (d_buckets x) (d_heap x) (d_next_ref x) (d_blocks_compiled
    x) (d_blocks_executed x) (d_helper_ops_total x) (d_inline_ops_total x) (d_chain_hits
    x) (d_chain_misses x) (d_chain_cache_matches x) (d_prefetch_compiles x)
    (d_prefetch_hits x) (d_interp_fallbacks x) (d_arena_resets x) (u64 v) (d_no_cache x)
    (d_prefetch_mode x) (d_prefetch_depth x) (d_code_pages x) (d_dirty_pages x)
    (d_smc_overflow x).
Definition set_d_no_cache (v : bool) (x : dispatcher) : dispatcher :=
  mk_disp (d_mach x) (d_cc x) (d_buckets x) (d_heap x) (d_next_ref x) (d_blocks_compiled
    x) (d_blocks_executed x) (d_helper_ops_total x) (d_inline_ops_total x) (d_chain_hits
    x) (d_chain_misses x) (d_chain_cache_matches x) (d_prefetch_compiles x)
    (d_prefetch_hits x) (d_interp_fallbacks x) (d_arena_resets x) (d_smc_invalidations x)
    v (d_prefetch_mode x) (d_prefetch_depth x) (d_code_pages x) (d_dirty_pages x)
    (d_smc_overflow x).
Definition set_d_prefetch_mode (v : Z) (x : dispatcher) : dispatcher :=
  mk_disp (d_mach x) (d_cc x) (d_buckets x) (d_heap x) (d_next_ref x) (d_blocks_compiled
    x) (d_blocks_executed x) (d_helper_ops_total x) (d_inline_ops_total x) (d_chain_hits
    x) (d_chain_misses x) (d_chain_cache_matches x) (d_prefetch_compiles x)
    (d_prefetch_hits x) (d_interp_fallbacks x) (d_arena_resets x) (d_smc_invalidations x)
    (d_no_cache x) v (d_prefetch_depth x) (d_code_pages x) (d_dirty_pages x)
    (d_smc_overflow x).
Definition set_d_prefetch_depth (v : Z) (x : dispatcher) : dispatcher :=
  mk_disp (d_mach x) (d_cc x) (d_buckets x) (d_heap x) (d_next_ref x) (d_blocks_compiled
    x) (d_blocks_executed x) (d_helper_ops_total x) (d_inline_ops_total x) (d_chain_hits
    x) (d_chain_misses x) (d_chain_cache_matches x) (d_prefetch_compiles x)
    (d_prefetch_hits x) (d_interp_fallbacks x) (d_arena_resets x) (d_smc_invalidations x)
    (d_no_cache x) (d_prefetch_mode x) v (d_code_pages x) (d_dirty_pages x)
    (d_smc_overflow x).
Definition set_d_code_pages (v : list Z) (x : dispatcher) : dispatcher :=
  mk_disp (d_mach x) (d_cc x) (d_buckets x) (d_heap x) (d_next_ref x) (d_blocks_compiled
    x) (d_blocks_executed x) (d_helper_ops_total x) (d_inline_ops_total x) (d_chain_hits
    x) (d_chain_misses x) (d_chain_cache_matches x) (d_prefetch_compiles x)
    (d_prefetch_hits x) (d_interp_fallbacks x) (d_arena_resets x) (d_smc_invalidations x)
    (d_no_cache x) (d_prefetch_mode x) (d_prefetch_depth x) v (d_dirty_pages x)
    (d_smc_overflow x).
Definition set_d_dirty_pages (v : list Z) (x : dispatcher) : dispatcher :=
  mk_disp (d_mach x) (d_cc x) (d_buckets x) (d_heap x) (d_next_ref x) (d_blocks_compiled
    x) (d_blocks_executed x) (d_helper_ops_total x) (d_inline_ops_total x) (d_chain_hits
    x) (d_chain_misses x) (d_chain_cache_matches x) (d_prefetch_compiles x)
    (d_prefetch_hits x) (d_interp_fallbacks x) (d_arena_resets x) (d_smc_invalidations x)
    (d_no_cache x) (d_prefetch_mode x) (d_prefetch_depth x) (d_code_pages x) v
    (d_smc_overflow x).
Definition set_d_smc_overflow (v : bool) (x : dispatcher) : dispatcher :=
  mk_disp (d_mach x) (d_cc x) (d_buckets x) (d_heap x) (d_next_ref x) (d_blocks_compiled
    x) (d_blocks_executed x) (d_helper_ops_total x) (d_inline_ops_total x) (d_chain_hits
    x) (d_chain_misses x) (d_chain_cache_matches x) (d_prefetch_compiles x)
    (d_prefetch_hits x) (d_interp_fallbacks x) (d_arena_resets x) (d_smc_invalidations x)
    (d_no_cache x) (d_prefetch_mode x) (d_prefetch_depth x) (d_code_pages x)
    (d_dirty_pages x) v.

Definition mod_d {A} (get : dispatcher → A) (set : A → dispatcher → dispatcher) (f : A → A) : M dispatcher unit :=
  modify (λ d, set (f (get d)) d).
(** [d->counter++] *)
Definition bump (get : dispatcher → Z) (set : Z → dispatcher → dispatcher) : M dispatcher unit :=
  mod_d get set (λ v, v + 1).

(** An operation on [d->cc]. *)
Definition on_cache {A} (m : M codecache A) : M dispatcher A := λ d,
  match m (d_cc d) with Some (a, c) => Some (a, set_d_cc c d) | None => None end.

(** [*b], and an update of [*b]. *)
Definition deref (r : Z) : M dispatcher m68k_block := λ d, b ← d_heap d !! r; Some (b, d).
Definition upd_block (r : Z) (f : m68k_block → m68k_block) : M dispatcher unit :=
  b ← deref r; mod_d d_heap set_d_heap <[r := f b]>.
(** [calloc], filled in. *)
Definition new_block (b : m68k_block) : M dispatcher Z :=
  r ← gets d_next_ref;
  mod_d d_heap set_d_heap <[r := b]> ;;
  mod_d d_next_ref set_d_next_ref (λ n, n + 1) ;;
  mret r.
Definition m68k_block_free (r : Z) : M dispatcher unit :=
  _ ← deref r; mod_d d_heap set_d_heap (delete r).

Definition bucket (i : Z) (d : dispatcher) : list Z := nth (Z.to_nat i) (d_buckets d) [].
Definition set_bucket (i : Z) (l : list Z) : M dispatcher unit :=
  mod_d d_buckets set_d_buckets <[Z.to_nat i := l]>.
Definition all_buckets : list Z := upto (Z.to_nat M68K_JIT_BLOCK_BUCKETS).

(** ** The hash table *)

Definition bucket_of (pc : Z) : Z := (pc ≫ 1) .& (M68K_JIT_BLOCK_BUCKETS - 1).

(** The first block of a chain for which [p] holds. *)
Fixpoint find_in (p : m68k_block → bool) (chain : list Z) : M dispatcher (option Z) :=
  match chain with
  | [] => mret None
  | r :: chain => b ← deref r; if p b then mret (Some r) else find_in p chain
  end.
Definition find_block (pc : Z) : M dispatcher (option Z) :=
  chain ← gets (bucket (bucket_of pc));
  find_in (λ b, b_pc_start b =? pc) chain.

Definition insert_block (r : Z) : M dispatcher unit :=
  b ← deref r;
  let bk := bucket_of (b_pc_start b) in
  chain ← gets (bucket bk);
  set_bucket bk (r :: chain).

Fixpoint free_chain (chain : list Z) : M dispatcher unit :=
  match chain with [] => mret tt | r :: chain => m68k_block_free r ;; free_chain chain end.
Definition free_all_blocks : M dispatcher unit :=
  for_each all_buckets (λ i, chain ← gets (bucket i); free_chain chain ;; set_bucket i []).

(** Every block of every chain, in order. *)
Definition each_block (f : m68k_block → m68k_block) : M dispatcher unit :=
  for_each all_buckets (λ i, chain ← gets (bucket i); for_each chain (λ r, upd_block r f)).

(** Unlink and free the blocks of a chain for which [p] holds. *)
Fixpoint drop_from (p : m68k_block → bool) (chain : list Z) : M dispatcher (list Z) :=
  match chain with
  | [] => mret []
  | r :: chain =>
      b ← deref r;
      if p b then
        m68k_block_free r ;; bump d_smc_invalidations set_d_smc_invalidations ;; drop_from p chain
      else rest ← drop_from p chain; mret (r :: rest)
  end.
Definition drop_blocks (p : m68k_block → bool) : M dispatcher unit :=
  for_each all_buckets (λ i, chain ← gets (bucket i); rest ← drop_from p chain; set_bucket i rest).

(** ** Self-modifying code *)

Definition MAX_DIRTY : nat := 256.

Definition page_of (addr : Z) : Z := (addr ≫ 8) .& 0xFFFF.
Definition page_marked (pages : list Z) (page : Z) : bool :=
  nz (znth pages (page ≫ 3) .& (1 ≪ (page .& 7))).
Definition mark_page (page : Z) (pages : list Z) : list Z :=
  zset pages (page ≫ 3) (znth pages (page ≫ 3) .| u8 (1 ≪ (page .& 7))).

Definition set_chain_budget (v : Z) : dispatcher → dispatcher :=
  λ d, set_d_mach (with_cpu (set_cpu_chain_budget v) (d_mach d)) d.

Definition smc_watch (addr : Z) : M dispatcher unit :=
  d ← gets id;
  let page := page_of addr in
  if negb (page_marked (d_code_pages d) page) then mret tt
  else
    modify (set_chain_budget 0) ;;
    if existsb (Z.eqb page) (d_dirty_pages d) then mret tt
    else if (length (d_dirty_pages d) <? MAX_DIRTY)%nat
    then modify (set_d_dirty_pages (d_dirty_pages d ++ [page]))
    else modify (set_d_smc_overflow true).

(** [for (a = pc_start; a < pc_end; a += 256)]: a page a step.  Near the top of
    the address space [a] wraps and the loop does not end. *)
Fixpoint mark_from (fuel : nat) (a pc_end : Z) (pages : list Z) : option (list Z) :=
  match fuel with
  | O => None
  | S fuel => if a <? pc_end then mark_from fuel (u32 (a + 256)) pc_end (mark_page (page_of a) pages) else Some pages
  end.
Definition mark_fuel (b : m68k_block) : nat := S (Z.to_nat ((b_pc_end b - b_pc_start b) / 256 + 1)).

Definition smc_mark_block (r : Z) : M dispatcher unit :=
  b ← deref r;
  pages ← gets d_code_pages;
  (match mark_from (mark_fuel b) (b_pc_start b) (b_pc_end b) pages with
   | None => undefined_behaviour
   | Some pages => modify (set_d_code_pages pages)
   end) ;;
  let last := page_of (if nz (b_pc_end b) then b_pc_end b - 1 else 0) in
  mod_d d_code_pages set_d_code_pages (mark_page last).

Definition smc_drop_range (lo hi : Z) : M dispatcher unit :=
  drop_blocks (λ b, (b_pc_start b <? hi) && (lo <? b_pc_end b)).

Definition smc_flush : M dispatcher bool :=
  d ← gets id;
  if negb (d_smc_overflow d) && (length (d_dirty_pages d) =? 0)%nat then mret false
  else
    (if d_smc_overflow d then
       free_all_blocks ;; on_cache codecache_reset ;;
       mod_d d_code_pages set_d_code_pages (map (λ _, 0)) ;;
       bump d_arena_resets set_d_arena_resets
     else for_each (d_dirty_pages d) (λ page, let base := u32 (page ≪ 8) in smc_drop_range base (base + 256))) ;;
    modify (set_d_dirty_pages []) ;; modify (set_d_smc_overflow false) ;;
    each_block clear_prediction ;;
    mret true.

(** ** Eviction *)

(** The coldest block so far: its tag, and its bucket and reference. *)
Fixpoint coldest_in (bk : Z) (chain : list Z) (best : Z * option (Z * Z)) : M dispatcher (Z * option (Z * Z)) :=
  match chain with
  | [] => mret best
  | r :: chain =>
      b ← deref r;
      coldest_in bk chain (if b_last_used_cycle b <? fst best then (b_last_used_cycle b, Some (bk, r)) else best)
  end.
Definition coldest : M dispatcher (option (Z * Z)) :=
  best ← fold_each all_buckets (λ i best, chain ← gets (bucket i); coldest_in i chain best)
           (0xFFFFFFFFFFFFFFFF, None);
  mret (snd best).

Definition lru_evict_cb : M dispatcher Z :=
  c ← coldest;
  match c with
  | None => mret 0
  | Some (bk, r) =>
      chain ← gets (bucket bk);
      set_bucket bk (filter (λ x, x ≠ r) chain) ;;
      each_block (λ b, if decide (b_predicted_next b = Some r) then clear_prediction b else b) ;;
      b ← deref r;
      let offset := b_code b in
      let size := b_code_size b in
      bump d_smc_invalidations set_d_smc_invalidations ;;
      m68k_block_free r ;;
      on_cache (codecache_free offset size) ;;
      mret size
  end.

Definition fifo_evict_range_cb (start end_ : Z) : M dispatcher unit :=
  before ← gets d_smc_invalidations;
  drop_blocks (λ b, (b_code b <? end_) && (start <? u32 (b_code b + b_code_size b))) ;;
  after ← gets d_smc_invalidations;
  when (negb (after =? before)) (each_block clear_prediction).

(** The callbacks [m68k_dispatcher_init_ex] installs. *)
#[export] Instance dispatcher_owner : CacheOwner dispatcher := {|
  own_cc := d_cc;
  own_set_cc := set_d_cc;
  cc_evict d := if cc_mode (d_cc d) =? CC_MODE_LRU then Some lru_evict_cb else None;
  cc_evict_range d := if cc_mode (d_cc d) =? CC_MODE_FIFO then Some fifo_evict_range_cb else None
|}.

Definition m68k_dispatcher_init_ex (cpu : mac) (arena : list Z) (arena_kb evict_mode : Z) : option dispatcher :=
  '(_, c) ← codecache_init arena (u32 (arena_kb * 1024)) evict_mode;
  Some (mk_disp (with_bus (set_mem_watch true) cpu) c
          (replicate (Z.to_nat M68K_JIT_BLOCK_BUCKETS) []) ∅ 0
          0 0 0 0 0 0 0 0 0 0 0 0 false 0 0 (replicate (Z.to_nat 8192) 0) [] false).

(** ** Compiled code, as the run loop sees it *)

(** The compiler and the execution of a block.  Compilation reserves its code
    through [codecache_alloc], so that it may evict blocks; it returns the
    descriptor [calloc] is filled with. *)
Class Jit := {
  compile_block : Z → M dispatcher (option m68k_block);
  enter_block : m68k_block → Z → M mac Z  (** instructions executed *)
}.

Section run.
Context `{Jit}.

(** A machine operation, its watched writes reported to [smc_watch]. *)
Definition new_watches (m m' : mac_mem) : list Z :=
  reverse (omap (λ e, match e with EvWatch a => Some a | _ => None end)
    (take (length (mem_out m') - length (mem_out m)) (mem_out m'))).
Definition guest {A} (op : M mac A) : M dispatcher A := λ d,
  match op (d_mach d) with
  | Some (a, s) =>
      (for_each (new_watches (bus (d_mach d)) (bus s)) smc_watch ;; mret a) (set_d_mach s d)
  | None => None
  end.

Definition m68k_compile_block (pc : Z) : M dispatcher (option Z) :=
  r ← compile_block pc;
  match r with None => mret None | Some b => r ← new_block b; mret (Some r) end.

Definition PREFETCH_NONE : Z := 0.
Definition PREFETCH_STATIC : Z := 1.
Definition PREFETCH_CHAIN : Z := 2.

Definition m68k_dispatcher_set_prefetch (mode depth : Z) : M dispatcher unit :=
  modify (set_d_prefetch_mode mode) ;;
  modify (set_d_prefetch_depth (if nz depth then depth else 2)).

Definition successors (r : Z) : M dispatcher (list Z) :=
  b ← deref r; guest (m68k_block_static_successors b).

(** The block for [pc], compiled if need be; [prefetching] as the source's
    [remaining_depth >= 0]. *)
Definition find_or_compile (pc : Z) (prefetching : bool) : M dispatcher (option Z * bool) :=
  no_cache ← gets d_no_cache;
  found ← (if negb no_cache then find_block pc else mret None);
  match found with
  | Some r => when prefetching (bump d_prefetch_hits set_d_prefetch_hits) ;; mret (Some r, true)
  | None =>
      b ← m68k_compile_block pc;
      b ← match b with
          | Some r => mret (Some r)
          | None =>
              if prefetching then mret None
              else free_all_blocks ;; on_cache codecache_reset ;;
                   bump d_arena_resets set_d_arena_resets ;; m68k_compile_block pc
          end;
      match b with
      | None => mret (None, false)
      | Some r =>
          when (negb no_cache) (insert_block r ;; smc_mark_block r) ;;
          bump d_blocks_compiled set_d_blocks_compiled ;;
          b ← deref r;
          mod_d d_inline_ops_total set_d_inline_ops_total (λ v, v + b_inline_ops b) ;;
          mod_d d_helper_ops_total set_d_helper_ops_total (λ v, v + b_helper_ops b) ;;
          when prefetching (bump d_prefetch_compiles set_d_prefetch_compiles) ;;
          mret (Some r, false)
      end
  end.

(** [depth < 0] is a demand for execution. *)
Fixpoint get_block_impl (fuel : nat) (pc depth : Z) : M dispatcher (option Z) :=
  match fuel with
  | O => undefined_behaviour
  | S fuel =>
      let prefetching := 0 <=? depth in
      rf ← find_or_compile pc prefetching;
      match rf with
      | (Some r, true) => mret (Some r)
      | (None, _) => mret None
      | (Some r, false) =>
          d ← gets id;
          if d_no_cache d || (d_prefetch_mode d =? PREFETCH_NONE) then mret (Some r)
          else if (d_prefetch_mode d =? PREFETCH_STATIC) && negb prefetching then
            succ ← successors r;
            for_each succ (λ s, if nz (s .& 1) then mret tt else _ ← get_block_impl fuel s 0; mret tt) ;;
            mret (Some r)
          else if d_prefetch_mode d =? PREFETCH_CHAIN then
            let next_depth := if prefetching then depth - 1 else d_prefetch_depth d - 1 in
            if next_depth <? 0 then mret (Some r)
            else
              succ ← successors r;
              match succ with
              | [s] => if nz (s .& 1) then mret (Some r)
                       else _ ← get_block_impl fuel s next_depth; mret (Some r)
              | _ => mret (Some r)
              end
          else mret (Some r)
      end
  end.

(** Prefetching goes at most [prefetch_depth] (a byte) deep. *)
Definition get_block (pc : Z) : M dispatcher (option Z) := get_block_impl 258 pc (-1).

(** ** The run loop *)

(** [prev]'s prediction, when it is for [pc]. *)
Definition predicted (prev : option Z) (pc : Z) : M dispatcher (option Z) :=
  match prev with
  | None => mret None
  | Some p => b ← deref p;
              mret (if b_predicted_next_pc b =? pc then b_predicted_next b else None)
  end.

(** A miss: find or compile the block, and let [prev] predict it.  Returns the
    block and [prev], null if the block it names may be gone. *)
Definition chain_miss (prev : option Z) (pc : Z) : M dispatcher (option Z * option Z) :=
  resets_before ← gets d_arena_resets;
  inv_before ← gets d_smc_invalidations;
  b ← get_block pc;
  bump d_chain_misses set_d_chain_misses ;;
  d ← gets id;
  let prev := if negb (d_arena_resets d =? resets_before) || negb (d_smc_invalidations d =? inv_before)
              then None else prev in
  match prev with
  | None => mret (b, prev)
  | Some p =>
      if d_no_cache d then mret (b, prev) else
      upd_block p (set_b_predicted_next b) ;;
      upd_block p (set_b_predicted_next_pc pc) ;;
      match b with
      | None => undefined_behaviour
      | Some r =>
          pb ← deref p; bb ← deref r;
          let compat := (b_cache_sig pb =? b_cache_sig bb) && (negb (b_sr_loaded bb) || b_sr_loaded pb) in
          upd_block p (set_b_predicted_next_entry
            (Some (if compat then b_body_addr bb else b_chain_entry_addr bb))) ;;
          mret (b, prev)
      end
  end.

(** Runs block [r]; [entry] is the prediction's entry on a chain hit. *)
Definition execute_block (r : Z) (entry : option Z) : M dispatcher unit :=
  cycles ← gets (λ d, cpu_cycles (cpu (d_mach d)));
  upd_block r (set_b_last_used_cycle cycles) ;;
  b ← deref r;
  let start_off := match entry with Some e => u32 (e - b_code b) | None => b_entry_off b end in
  _ ← guest (enter_block b start_off);
  bump d_blocks_executed set_d_blocks_executed.

Definition after_block (r : Z) : M dispatcher (option Z) :=
  no_cache ← gets d_no_cache;
  prev ← (if no_cache : bool then m68k_block_free r ;; mret None else mret (Some r));
  d ← gets id;
  if negb (length (d_dirty_pages d) =? 0)%nat || d_smc_overflow d then
    flushed ← smc_flush; mret (if flushed : bool then None else prev)
  else mret prev.

Definition dispatch (prev : option Z) : M dispatcher (option Z) :=
  pc ← gets (λ d, cpu_pc (cpu (d_mach d)));
  hit ← predicted prev pc;
  match hit, prev with
  | Some r, Some p =>
      bump d_chain_hits set_d_chain_hits ;;
      pb ← deref p; bb ← deref r;
      when (b_cache_sig pb =? b_cache_sig bb) (bump d_chain_cache_matches set_d_chain_cache_matches) ;;
      execute_block r (b_predicted_next_entry pb) ;;
      after_block r
  | _, _ =>
      rp ← chain_miss prev pc;
      match rp with
      | (None, _) =>
          guest m68k_step ;;
          bump d_interp_fallbacks set_d_interp_fallbacks ;;
          mret None
      | (Some r, _) => execute_block r None ;; after_block r
      end
  end.

(** One iteration of the run loop. *)
Definition run_once (prev : option Z) : M dispatcher (option Z) :=
  cycles ← gets (λ d, cpu_cycles (cpu (d_mach d)));
  guest (mac_mem_tick cycles) ;;
  taken ← guest m68k_poll_interrupts;
  if taken : bool then mret None else
  serviced ← guest (sony_service mac_accessors);
  if serviced : bool then mret None else
  stopped ← gets (λ d, nz (cpu_stopped (cpu (d_mach d))));
  if stopped : bool then guest (add_cycles 64) ;; mret prev else
  dispatch prev.

(** [n] iterations at most; whether the loop has ended. *)
Fixpoint m68k_dispatcher_run_until (n : nat) (until : Z) (prev : option Z) : M dispatcher bool :=
  d ← gets id;
  if negb (cpu_cycles (cpu (d_mach d)) <? until) || nz (cpu_halted (cpu (d_mach d))) then mret true
  else match n with
       | O => mret false
       | S n => prev ← run_once prev; m68k_dispatcher_run_until n until prev
       end.
End run.
