(* ===== verification/DispSafe.v ===== *)
(** * The dispatcher's tables (jit/dispatcher.c)

    The invariant of the block table and the effect of every operation on it;
    then the run loop's memory safety and the invalidation of overwritten
    code. *)

From Stdlib Require Import ZArith Lia.
From stdpp Require Import base tactics numbers gmap list.
From S2P Require Import Prelude Cpu Ea Step MacState Sony MacMem MacSafe CodeCache Block Dispatcher MacBus.

(** ** The block table

    Each cached block is in the chain of its bucket, once, and the heap holds
    the cached blocks and, while a block is between compilation and insertion
    (or is run uncached), that one. *)

Record tab (X : option Z) (d : dispatcher) : Prop := {
  tb_len : length (d_buckets d) = 2048%nat;
  tb_nodup : ∀ i, NoDup (bucket i d);
  tb_place : ∀ i r, 0 ≤ i < 2048 → r ∈ bucket i d →
    ∃ b, d_heap d !! r = Some b ∧ bucket_of (b_pc_start b) = i ∧ X ≠ Some r;
  tb_dom : ∀ r b, d_heap d !! r = Some b → r ∈ bucket (bucket_of (b_pc_start b)) d ∨ X = Some r;
  tb_next : ∀ r b, d_heap d !! r = Some b → r < d_next_ref d;
  tb_extra : ∀ r, X = Some r → is_Some (d_heap d !! r)
}.

(** What the table operations leave alone. *)
Definition rest (d : dispatcher) : dispatcher :=
  set_d_smc_invalidations 0 (set_d_heap ∅ (set_d_buckets [] d)).

Lemma rest_field {A} (f : dispatcher → A) d d' : (∀ d, f (rest d) = f d) → rest d = rest d' → f d = f d'.
Proof. intros Hf E. by rewrite <- (Hf d), <- (Hf d'), E. Qed.

Lemma bucket_of_range pc : 0 ≤ bucket_of pc < 2048.
Proof. unfold bucket_of. apply land_range_r. done. Qed.

Lemma bucket_set i j l d : length (d_buckets d) = 2048%nat → 0 ≤ i < 2048 → 0 ≤ j →
  bucket j (set_d_buckets (<[Z.to_nat i := l]> (d_buckets d)) d) = if j =? i then l else bucket j d.
Proof.
  intros Hl Hi Hj. unfold bucket. cbn. rewrite !nth_lookup. destruct (Z.eqb_spec j i) as [->|Hn].
  - by rewrite list_lookup_insert_eq by lia.
  - by rewrite list_lookup_insert_ne by lia.
Qed.

Lemma in_all_buckets i : i ∈ all_buckets ↔ 0 ≤ i < 2048.
Proof.
  unfold all_buckets, upto, M68K_JIT_BLOCK_BUCKETS. rewrite list_elem_of_fmap. split.
  - intros (k & -> & Hk%elem_of_seq). lia.
  - intros. exists (Z.to_nat i). rewrite elem_of_seq. lia.
Qed.
Lemma nodup_all_buckets : NoDup all_buckets.
Proof. apply NoDup_fmap_2; [intros ???; lia|apply NoDup_ListNoDup, seq_NoDup]. Qed.

(** A loop over the elements of a list, with an invariant on those left. *)
Lemma for_each_inv {S} (I : list Z → S → Prop) body l s : I l s →
  (∀ i l s, I (i :: l) s → ∃ s', body i s = Some (tt, s') ∧ I l s') →
  ∃ s', for_each l body s = Some (tt, s') ∧ I [] s'.
Proof.
  intros H Hb. revert s H. induction l as [|i l IH]; intros s H; [by exists s|]. cbn [for_each].
  destruct (Hb _ _ _ H) as (s1 & E1 & H1). destruct (IH s1 H1) as (s2 & E2 & H2).
  exists s2. by rewrite (bind_Some _ _ _ _ _ E1).
Qed.

(** *** Following references *)

Lemma deref_Some r b d : d_heap d !! r = Some b → deref r d = Some (b, d).
Proof. unfold deref. by intros ->. Qed.
Lemma upd_block_Some r f b d : d_heap d !! r = Some b →
  upd_block r f d = Some (tt, set_d_heap (<[r := f b]> (d_heap d)) d).
Proof. intros E. unfold upd_block. by rewrite (bind_Some _ _ _ _ _ (deref_Some _ _ _ E)). Qed.
Lemma free_Some r b d : d_heap d !! r = Some b →
  m68k_block_free r d = Some (tt, set_d_heap (delete r (d_heap d)) d).
Proof. intros E. unfold m68k_block_free. by rewrite (bind_Some _ _ _ _ _ (deref_Some _ _ _ E)). Qed.

Lemma tab_get X d i r : tab X d → 0 ≤ i < 2048 → r ∈ bucket i d → ∃ b, d_heap d !! r = Some b.
Proof. intros H Hi Hr. destruct (tb_place _ _ H i r Hi Hr) as (b & ? & _). eauto. Qed.

(** *** Lookup *)

Lemma find_in_spec p chain d : (∀ r, r ∈ chain → ∃ b, d_heap d !! r = Some b) →
  ∃ o, find_in p chain d = Some (o, d) ∧
    match o with
    | Some r => r ∈ chain ∧ ∃ b, d_heap d !! r = Some b ∧ p b = true
    | None => ∀ r b, r ∈ chain → d_heap d !! r = Some b → p b = false
    end.
Proof.
  induction chain as [|r chain IH]; intros H; cbn [find_in].
  { exists None. split; [done|]. intros r b Hr. by apply elem_of_nil in Hr. }
  destruct (H r) as [b E]; [by left|]. rewrite (bind_Some _ _ _ _ _ (deref_Some _ _ _ E)).
  destruct (p b) eqn:Ep.
  { exists (Some r). split; [done|]. split; [by left|eauto]. }
  destruct IH as (o & Eo & Ho); [intros; apply H; by right|]. exists o. split; [done|].
  destruct o as [r'|].
  - destruct Ho as (? & ?). split; [by right|done].
  - intros r' b' [->|Hr']%elem_of_cons E'; [congruence|eauto].
Qed.

Lemma find_block_spec X pc d : tab X d →
  ∃ o, find_block pc d = Some (o, d) ∧
    match o with
    | Some r => r ∈ bucket (bucket_of pc) d ∧ ∃ b, d_heap d !! r = Some b ∧ b_pc_start b = pc
    | None => ∀ r b, d_heap d !! r = Some b → X ≠ Some r → b_pc_start b ≠ pc
    end.
Proof.
  intros H. unfold find_block. rewrite (bind_Some (gets _) _ d _ d eq_refl).
  pose proof (bucket_of_range pc) as Hi.
  destruct (find_in_spec (λ b, b_pc_start b =? pc) (bucket (bucket_of pc) d) d) as (o & E & Ho).
  { intros r Hr. by apply (tab_get X d _ r H Hi). }
  exists o. split; [done|]. destruct o as [r|].
  - destruct Ho as (Hr & b & Eb & Ep). split; [done|]. exists b. split; [done|]. by apply Z.eqb_eq.
  - intros r b Eb HX Epc. destruct (tb_dom _ _ H r b Eb) as [Hr|]; [|congruence].
    rewrite Epc in Hr. specialize (Ho r b Hr Eb). cbn beta in Ho. lia.
Qed.

(** *** Removal *)

Lemma bump_rest d : rest (set_d_smc_invalidations (d_smc_invalidations d + 1) d) = rest d.
Proof. done. Qed.

Lemma drop_from_spec p chain d : NoDup chain → (∀ r, r ∈ chain → ∃ b, d_heap d !! r = Some b) →
  ∃ l d', drop_from p chain d = Some (l, d') ∧ rest d' = rest d ∧ d_buckets d' = d_buckets d ∧ NoDup l ∧
    (∀ r b, d_heap d' !! r = Some b ↔ d_heap d !! r = Some b ∧ (r ∈ chain → p b = false)) ∧
    (∀ r, r ∈ l ↔ r ∈ chain ∧ is_Some (d_heap d' !! r)).
Proof.
  revert d. induction chain as [|r chain IH]; intros d Hnd H; cbn [drop_from].
  { exists [], d. split_and!; [done..|constructor| |].
    - intros r b. split; [intros; split; [done|]; intros Hr; by apply elem_of_nil in Hr|tauto].
    - intros r. rewrite elem_of_nil. tauto. }
  apply NoDup_cons in Hnd as [Hr Hnd]. destruct (H r) as [b E]; [by left|].
  rewrite (bind_Some _ _ _ _ _ (deref_Some _ _ _ E)). destruct (p b) eqn:Ep.
  - rewrite (bind_Some _ _ _ _ _ (free_Some _ _ _ E)). set (d1 := set_d_heap _ d).
    rewrite (bind_Some (bump _ _) _ d1 tt (set_d_smc_invalidations (d_smc_invalidations d1 + 1) d1)) by done.
    set (d2 := set_d_smc_invalidations _ d1).
    destruct (IH d2) as (l & d' & Ed & Erest & Eb & Hl & Hh & Hin); [done| |].
    { intros r' Hr'. destruct (H r') as [b' E']; [by right|]. exists b'. cbn. rewrite lookup_delete_ne; [done|].
      intros ->. done. }
    exists l, d'. split_and!; [done|by rewrite Erest|by rewrite Eb|done| |].
    + intros r' b'. rewrite Hh. cbn. rewrite lookup_delete_Some, elem_of_cons. split.
      * intros [[? ?] ?]. split; [done|]. intros [->|]; [done|auto].
      * intros [? Hp]. split_and!; [|done|auto]. intros ->. rewrite E in H0. simplify_eq. rewrite Hp in Ep; [done|by left].
    + intros r'. rewrite Hin, elem_of_cons. split; [tauto|]. intros [[->|?] [b' Hb']]; [|eauto].
      apply Hh in Hb' as [Hb' _]. cbn in Hb'. by rewrite lookup_delete_eq in Hb'.
  - destruct (IH d Hnd) as (l & d' & Ed & Erest & Eb & Hl & Hh & Hin); [intros; apply H; by right|].
    rewrite (bind_Some _ _ _ _ _ Ed). exists (r :: l), d'. split_and!; [done..| | |].
    + constructor; [|done]. rewrite Hin. tauto.
    + intros r' b'. rewrite Hh, elem_of_cons. split.
      * intros [? ?]. split; [done|]. intros [->|]; [congruence|auto].
      * intros [? ?]. auto.
    + intros r'. rewrite !elem_of_cons, Hin. split; [|tauto].
      intros [->|]; [|tauto]. split; [by left|]. exists b. apply Hh. split; [done|]. by intros ?%Hr.
Qed.

Lemma free_chain_spec chain d : NoDup chain → (∀ r, r ∈ chain → ∃ b, d_heap d !! r = Some b) →
  ∃ d', free_chain chain d = Some (tt, d') ∧ rest d' = rest d ∧ d_buckets d' = d_buckets d ∧
    ∀ r b, d_heap d' !! r = Some b ↔ d_heap d !! r = Some b ∧ r ∉ chain.
Proof.
  revert d. induction chain as [|r chain IH]; intros d Hnd H; cbn [free_chain].
  { exists d. split_and!; [done..|]. intros r b. rewrite elem_of_nil. tauto. }
  apply NoDup_cons in Hnd as [Hr Hnd]. destruct (H r) as [b E]; [by left|].
  rewrite (bind_Some _ _ _ _ _ (free_Some _ _ _ E)).
  destruct (IH (set_d_heap (delete r (d_heap d)) d)) as (d' & Ed & Erest & Eb & Hh); [done| |].
  { intros r' Hr'. destruct (H r') as [b' E']; [by right|]. exists b'. cbn. rewrite lookup_delete_ne; [done|].
    intros ->. done. }
  exists d'. split_and!; [done|by rewrite Erest|by rewrite Eb|].
  intros r' b'. rewrite Hh. cbn. rewrite lookup_delete_Some, elem_of_cons. intuition congruence.
Qed.

(** A bucket's chain is replaced by those of its blocks that are kept. *)
Lemma tab_remove X d d' i l (p : m68k_block → bool) : tab X d → 0 ≤ i < 2048 → rest d' = rest d →
  d_buckets d' = <[Z.to_nat i := l]> (d_buckets d) → NoDup l →
  (∀ r b, d_heap d' !! r = Some b ↔ d_heap d !! r = Some b ∧ (r ∈ bucket i d → p b = false)) →
  (∀ r, r ∈ l ↔ r ∈ bucket i d ∧ is_Some (d_heap d' !! r)) →
  tab X d' ∧ ∀ r b, d_heap d' !! r = Some b ↔
    d_heap d !! r = Some b ∧ (bucket_of (b_pc_start b) = i → X ≠ Some r → p b = false).
Proof.
  intros H Hi Er Eb Hl Hh Hin.
  assert (∀ j, 0 ≤ j → bucket j d' = if j =? i then l else bucket j d) as Ebk.
  { intros j Hj. unfold bucket at 1. rewrite Eb. apply (bucket_set i j l d); [apply H|done..]. }
  assert (∀ r b, d_heap d !! r = Some b → r ∈ bucket i d ↔ bucket_of (b_pc_start b) = i ∧ X ≠ Some r) as Hmem.
  { intros r b E. split.
    - intros Hr. destruct (tb_place _ _ H i r Hi Hr) as (b' & E' & ? & ?). by simplify_eq.
    - intros [<- HX]. by destruct (tb_dom _ _ H r b E). }
  split.
  - split.
    + rewrite Eb, length_insert. apply H.
    + intros j. destruct (Z_lt_ge_dec j 0) as [Hj|Hj].
      { replace (bucket j d') with (bucket 0 d') by (unfold bucket; f_equal; lia).
        rewrite Ebk by lia. case_match; [done|apply H]. }
      rewrite Ebk by lia. case_match; [done|apply H].
    + intros j r Hj Hr. rewrite Ebk in Hr by lia. destruct (Z.eqb_spec j i) as [->|Hn].
      * apply Hin in Hr as [Hr [b Hb]]. exists b. split; [done|].
        apply Hh in Hb as [Hb _]. by apply (Hmem r b Hb).
      * destruct (tb_place _ _ H j r Hj Hr) as (b & E & Hb & HX). exists b. split; [|done].
        apply Hh. split; [done|]. intros Hr'. apply (Hmem r b E) in Hr' as [? _]. lia.
    + intros r b E. pose proof (proj1 (Hh r b) E) as [E' Hp].
      destruct (tb_dom _ _ H r b E') as [Hr|]; [|by right]. left.
      rewrite Ebk by (apply bucket_of_range). case_match eqn:Ei; [|done].
      apply Hin. split; [|eauto]. apply Z.eqb_eq in Ei. by rewrite <- Ei.
    + intros r b E. apply Hh in E as [E _]. apply (rest_field d_next_ref) in Er; [|done]. rewrite Er. by apply (tb_next _ _ H r b).
    + intros r HX. destruct (tb_extra _ _ H r HX) as [b E]. exists b. apply Hh. split; [done|].
      intros Hr. by apply (Hmem r b E) in Hr as [_ ?].
  - intros r b. rewrite Hh. split; intros [E Hp]; (split; [done|]); rewrite (Hmem r b E) in *; tauto.
Qed.

(** Every bucket in turn loses the blocks for which [p] holds. *)
Lemma remove_all X (p : m68k_block → bool) body d : tab X d →
  (∀ i d, 0 ≤ i < 2048 → tab X d → ∃ d' l, body i d = Some (tt, d') ∧ rest d' = rest d ∧
    d_buckets d' = <[Z.to_nat i := l]> (d_buckets d) ∧ NoDup l ∧
    (∀ r b, d_heap d' !! r = Some b ↔ d_heap d !! r = Some b ∧ (r ∈ bucket i d → p b = false)) ∧
    (∀ r, r ∈ l ↔ r ∈ bucket i d ∧ is_Some (d_heap d' !! r))) →
  ∃ d', for_each all_buckets body d = Some (tt, d') ∧ rest d' = rest d ∧ tab X d' ∧
    ∀ r b, d_heap d' !! r = Some b ↔ d_heap d !! r = Some b ∧ (X ≠ Some r → p b = false).
Proof.
  intros H Hbody.
  destruct (for_each_inv (λ left d', NoDup left ∧ (∀ i, i ∈ left → 0 ≤ i < 2048) ∧ rest d' = rest d ∧ tab X d' ∧
    ∀ r b, d_heap d' !! r = Some b ↔
      d_heap d !! r = Some b ∧ (bucket_of (b_pc_start b) ∉ left → X ≠ Some r → p b = false))
    body all_buckets d) as (d' & E & _ & _ & Er & Ht & Hh).
  - split_and!; [apply nodup_all_buckets|intros; by apply in_all_buckets|done..|].
    intros r b. split; [|tauto]. intros. split; [done|]. intros Hn. destruct Hn. apply in_all_buckets, bucket_of_range.
  - intros i l d1 (Hnd & Hl & Er & Ht & Hh). apply NoDup_cons in Hnd as [Hi Hnd].
    assert (0 ≤ i < 2048) as Hri by (apply Hl; by left).
    destruct (Hbody i d1 Hri Ht) as (d2 & l2 & E2 & Er2 & Eb2 & Hl2 & Hh2 & Hin2).
    destruct (tab_remove X d1 d2 i l2 p Ht Hri Er2 Eb2 Hl2 Hh2 Hin2) as [Ht2 Hh2'].
    exists d2. split; [done|]. split_and!; [done|intros; apply Hl; by right|by rewrite Er2|done|].
    intros r b. rewrite Hh2', Hh. split.
    + intros [[? Hp1] Hp2]. split; [done|]. intros Hn HX.
      destruct (decide (bucket_of (b_pc_start b) = i)); [auto|]. apply Hp1; [|done]. rewrite elem_of_cons. tauto.
    + intros [? Hp]. split_and!; [done| |].
      * intros Hn. apply Hp. intros Hi'. apply Hn. by right.
      * intros Ei. apply Hp. by rewrite Ei.
  - exists d'. split_and!; [done..|]. intros r b. rewrite Hh. split; intros [? Hp]; (split; [done|]).
    + apply Hp. apply not_elem_of_nil.
    + auto.
Qed.

Lemma drop_blocks_spec X p d : tab X d →
  ∃ d', drop_blocks p d = Some (tt, d') ∧ rest d' = rest d ∧ tab X d' ∧
    ∀ r b, d_heap d' !! r = Some b ↔ d_heap d !! r = Some b ∧ (X ≠ Some r → p b = false).
Proof.
  intros H. apply remove_all; [done|]. intros i d1 Hi Ht.
  rewrite (bind_Some (gets (bucket i)) _ d1 _ d1 eq_refl).
  destruct (drop_from_spec p (bucket i d1) d1) as (l & d2 & E & Er & Eb & Hl & Hh & Hin); [apply Ht| |].
  { intros r. by apply (tab_get X). }
  rewrite (bind_Some _ _ _ _ _ E). eexists _, l. split; [reflexivity|]. split_and!; [done|cbn; by rewrite Eb|done|exact Hh|exact Hin].
Qed.

Lemma free_all_spec X d : tab X d →
  ∃ d', free_all_blocks d = Some (tt, d') ∧ rest d' = rest d ∧ tab X d' ∧
    ∀ r b, d_heap d' !! r = Some b ↔ d_heap d !! r = Some b ∧ X = Some r.
Proof.
  intros H.
  destruct (remove_all X (λ _, true) (λ i, chain ← gets (bucket i); free_chain chain ;; set_bucket i []) d H)
    as (d' & E & Er & Ht & Hh).
  - intros i d1 Hi Ht. rewrite (bind_Some (gets (bucket i)) _ d1 _ d1 eq_refl).
    destruct (free_chain_spec (bucket i d1) d1) as (d2 & E & Er & Eb & Hh); [apply Ht| |].
    { intros r. by apply (tab_get X). }
    rewrite (bind_Some _ _ _ _ _ E). eexists _, []. split; [reflexivity|]. split_and!.
    + done.
    + cbn. by rewrite Eb.
    + constructor.
    + intros r b. cbn. rewrite Hh. intuition congruence.
    + intros r. rewrite elem_of_nil. cbn. split; [done|]. intros [? [b Eb']]. by apply Hh in Eb' as [_ ?].
  - exists d'. split_and!; [done..|]. intros r b. rewrite Hh. split; intros [? HX]; (split; [done|]).
    + destruct (decide (X = Some r)) as [|Hn]; [done|]. by specialize (HX Hn).
    + done.
Qed.

(** *** Updates of every cached block *)

Lemma tab_blocks X d d' : tab X d → rest d' = rest d → d_buckets d' = d_buckets d →
  (∀ r, b_pc_start <$> d_heap d' !! r = b_pc_start <$> d_heap d !! r) → tab X d'.
Proof.
  intros H Er Eb Hh. assert (∀ i, bucket i d' = bucket i d) as Ebk by (intros; unfold bucket; by rewrite Eb).
  assert (∀ r b, d_heap d' !! r = Some b → ∃ b', d_heap d !! r = Some b' ∧ b_pc_start b' = b_pc_start b) as Hb.
  { intros r b E. specialize (Hh r). rewrite E in Hh. destruct (d_heap d !! r) as [b'|]; [|done].
    injection Hh as Hh. eauto. }
  assert (∀ r b, d_heap d !! r = Some b → ∃ b', d_heap d' !! r = Some b' ∧ b_pc_start b' = b_pc_start b) as Hb'.
  { intros r b E. specialize (Hh r). rewrite E in Hh. destruct (d_heap d' !! r) as [b'|]; [|done].
    injection Hh as Hh. eauto. }
  split.
  - rewrite Eb. apply H.
  - intros i. rewrite Ebk. apply H.
  - intros i r Hi Hr. rewrite Ebk in Hr. destruct (tb_place _ _ H i r Hi Hr) as (b & E & Hp & HX).
    destruct (Hb' r b E) as (b' & E' & Ep). exists b'. by rewrite Ep.
  - intros r b E. rewrite Ebk. destruct (Hb r b E) as (b' & E' & <-). by apply (tb_dom _ _ H).
  - intros r b E. destruct (Hb r b E) as (b' & E' & _). apply (rest_field d_next_ref) in Er; [|done].
    rewrite Er. by apply (tb_next _ _ H r b').
  - intros r HX. destruct (tb_extra _ _ H r HX) as [b E]. destruct (Hb' r b E) as (b' & E' & _). eauto.
Qed.

Lemma tab_upd X d r b b' : tab X d → d_heap d !! r = Some b → b_pc_start b' = b_pc_start b →
  tab X (set_d_heap (<[r := b']> (d_heap d)) d).
Proof.
  intros H E Ep. apply (tab_blocks X d); [done..|]. intros r'. cbn.
  destruct (decide (r' = r)) as [->|]; [by rewrite lookup_insert_eq, E; cbn; rewrite Ep|by rewrite lookup_insert_ne].
Qed.

Lemma upd_chain_spec f chain d : NoDup chain → (∀ r, r ∈ chain → ∃ b, d_heap d !! r = Some b) →
  ∃ d', for_each chain (λ r, upd_block r f) d = Some (tt, d') ∧ rest d' = rest d ∧ d_buckets d' = d_buckets d ∧
    ∀ r, d_heap d' !! r = (if decide (r ∈ chain) then f <$> d_heap d !! r else d_heap d !! r).
Proof.
  revert d. induction chain as [|r chain IH]; intros d Hnd H; cbn [for_each].
  { exists d. split_and!; [done..|]. intros r. rewrite decide_False; [done|]. apply not_elem_of_nil. }
  apply NoDup_cons in Hnd as [Hr Hnd]. destruct (H r) as [b E]; [by left|].
  rewrite (bind_Some _ _ _ _ _ (upd_block_Some _ f _ _ E)).
  destruct (IH (set_d_heap (<[r := f b]> (d_heap d)) d)) as (d' & Ed & Er & Eb & Hh); [done| |].
  { intros r' Hr'. destruct (H r') as [b' E']; [by right|]. exists b'. cbn. rewrite lookup_insert_ne; [done|].
    intros ->. done. }
  exists d'. split_and!; [done|by rewrite Er|by rewrite Eb|]. intros r'. rewrite Hh. cbn.
  destruct (decide (r' = r)) as [->|Hn].
  - rewrite (decide_False (P := r ∈ chain)) by done. rewrite decide_True by (by left).
    by rewrite lookup_insert_eq, E.
  - rewrite lookup_insert_ne by done. destruct (decide (r' ∈ chain)).
    + rewrite decide_True; [done|by right].
    + rewrite decide_False; [done|]. rewrite elem_of_cons. tauto.
Qed.

Lemma each_block_spec X f d : tab X d → (∀ b, b_pc_start (f b) = b_pc_start b) →
  ∃ d', each_block f d = Some (tt, d') ∧ rest d' = rest d ∧ tab X d' ∧
    ∀ r b', d_heap d' !! r = Some b' ↔
      ∃ b, d_heap d !! r = Some b ∧ b' = if decide (X = Some r) then b else f b.
Proof.
  intros H Hf. unfold each_block.
  destruct (for_each_inv (λ left d', NoDup left ∧ (∀ i, i ∈ left → 0 ≤ i < 2048) ∧ rest d' = rest d ∧
      tab X d' ∧ ∀ r b', d_heap d' !! r = Some b' ↔ ∃ b, d_heap d !! r = Some b ∧
        b' = if decide (X = Some r ∨ bucket_of (b_pc_start b) ∈ left) then b else f b)
    (λ i, chain ← gets (bucket i); for_each chain (λ r, upd_block r f)) all_buckets d)
    as (d' & E & _ & _ & Er & Ht & Hh).
  - split_and!; [apply nodup_all_buckets|intros; by apply in_all_buckets|done..|].
    intros r b'. split.
    + intros E. exists b'. split; [done|]. rewrite decide_True; [done|]. right. apply in_all_buckets, bucket_of_range.
    + intros (b & E & ->). rewrite decide_True; [done|]. right. apply in_all_buckets, bucket_of_range.
  - intros i l d1 (Hnd & Hl & Er & Ht & Hh). apply NoDup_cons in Hnd as [Hi Hnd].
    assert (0 ≤ i < 2048) as Hri by (apply Hl; by left).
    rewrite (bind_Some (gets (bucket i)) _ d1 _ d1 eq_refl).
    destruct (upd_chain_spec f (bucket i d1) d1) as (d2 & E2 & Er2 & Eb2 & Hh2); [apply Ht| |].
    { intros r. by apply (tab_get X). }
    assert (∀ r b, d_heap d1 !! r = Some b → r ∈ bucket i d1 ↔ bucket_of (b_pc_start b) = i ∧ X ≠ Some r) as Hmem.
    { intros r b E. split.
      - intros Hr. destruct (tb_place _ _ Ht i r Hri Hr) as (b' & E' & ? & ?). by simplify_eq.
      - intros [<- HX]. by destruct (tb_dom _ _ Ht r b E). }
    exists d2. split; [done|]. split_and!; [done|intros; apply Hl; by right|by rewrite Er2| |].
    + apply (tab_blocks X d1); [done..|]. intros r. rewrite Hh2.
      destruct (d_heap d1 !! r) as [b|]; [|by case_decide]. case_decide; [cbn; by rewrite Hf|done].
    + intros r b'. rewrite Hh2. split.
      * intros E'. destruct (d_heap d1 !! r) as [b1|] eqn:E1; [|by case_decide].
        destruct (proj1 (Hh r b1) E1) as (b & Eb & Eb1). exists b. split; [done|].
        assert (b_pc_start b1 = b_pc_start b) as Ep by (rewrite Eb1; case_decide; by rewrite ?Hf).
        pose proof (Hmem r b1 E1) as Hm. rewrite Ep in Hm.
        repeat case_decide; cbn in E'; rewrite ?elem_of_cons in *; simplify_eq; try done; try (destruct Hi; intuition congruence); intuition.
      * intros (b & Eb & Eb').
        assert (d_heap d1 !! r = Some (if decide (X = Some r ∨ bucket_of (b_pc_start b) ∈ i :: l) then b else f b)) as E1
          by (apply Hh; eauto).
        pose proof (Hmem r _ E1) as Hm.
        assert (bucket_of (b_pc_start (if decide (X = Some r ∨ bucket_of (b_pc_start b) ∈ i :: l) then b else f b)) = bucket_of (b_pc_start b)) as Ep
          by (case_decide; by rewrite ?Hf).
        rewrite Ep in Hm. rewrite E1.
        repeat case_decide; rewrite ?elem_of_cons in *; cbn; simplify_eq; try done; intuition congruence.
  - exists d'. split_and!; [done..|]. intros r b'. rewrite Hh. split; intros (b & Eb & ->); exists b; (split; [done|]);
      repeat case_decide; try done; exfalso; rewrite ?elem_of_nil in *; tauto.
Qed.

(** *** A block comes and goes *)

Lemma new_block_spec b d : tab None d →
  ∃ d', new_block b d = Some (d_next_ref d, d') ∧ tab (Some (d_next_ref d)) d' ∧ d_heap d !! d_next_ref d = None ∧
    d' = set_d_next_ref (d_next_ref d + 1) (set_d_heap (<[d_next_ref d := b]> (d_heap d)) d).
Proof.
  intros H. set (r := d_next_ref d). eexists. split; [reflexivity|].
  assert (d_heap d !! r = None) as Hn.
  { destruct (d_heap d !! r) as [b'|] eqn:E; [|done]. apply (tb_next _ _ H) in E. unfold r in E. lia. }
  split; [|done]. split; [apply H|apply H|..].
  - intros i r' Hi Hr. destruct (tb_place _ _ H i r' Hi Hr) as (b' & E & Hb & _). exists b'.
    assert (r' ≠ r) by congruence. cbn. rewrite lookup_insert_ne by done. split_and!; congruence.
  - intros r' b' E. cbn in E. apply lookup_insert_Some in E as [[<- ->]|[Hne E]]; [by right|].
    destruct (tb_dom _ _ H r' b' E); [by left|done].
  - intros r' b' E. cbn in *. apply lookup_insert_Some in E as [[<- ->]|[Hne E]]; [unfold r; lia|].
    apply (tb_next _ _ H) in E. unfold r. lia.
  - intros r' [= <-]. cbn. rewrite lookup_insert_eq. done.
Qed.

Lemma insert_block_spec r b d : tab (Some r) d → d_heap d !! r = Some b →
  ∃ d', insert_block r d = Some (tt, d') ∧ tab None d' ∧
    d' = set_d_buckets (<[Z.to_nat (bucket_of (b_pc_start b)) := r :: bucket (bucket_of (b_pc_start b)) d]> (d_buckets d)) d.
Proof.
  intros H E. unfold insert_block. rewrite (bind_Some _ _ _ _ _ (deref_Some _ _ _ E)).
  set (i := bucket_of _). pose proof (bucket_of_range (b_pc_start b)) as Hi. fold i in Hi.
  rewrite (bind_Some (gets (bucket i)) _ d _ d eq_refl). eexists. split; [reflexivity|]. split; [|done].
  assert (∀ i, 0 ≤ i < 2048 → r ∉ bucket i d) as Hnin.
  { intros j Hj Hr. by destruct (tb_place _ _ H j r Hj Hr) as (b' & _ & _ & ?). }
  assert (∀ j, 0 ≤ j → bucket j (set_d_buckets (<[Z.to_nat i := r :: bucket i d]> (d_buckets d)) d)
    = if j =? i then r :: bucket i d else bucket j d) as Eb by (intros; apply bucket_set; [apply H|done..]).
  split.
  - cbn. rewrite length_insert. apply H.
  - intros j. destruct (Z_lt_ge_dec j 0) as [Hj|Hj].
    { replace (bucket j _) with (bucket 0 (set_d_buckets (<[Z.to_nat i := r :: bucket i d]> (d_buckets d)) d))
        by (unfold bucket; f_equal; lia).
      rewrite Eb by lia. case_match; [apply NoDup_cons; split; [by apply Hnin|]|]; apply H. }
    rewrite Eb by lia. case_match; [apply NoDup_cons; split; [by apply Hnin|]|]; apply H.
  - intros j r' Hj Hr. rewrite Eb in Hr by lia. destruct (Z.eqb_spec j i) as [->|].
    + apply elem_of_cons in Hr as [->|Hr]; [by exists b|].
      destruct (tb_place _ _ H i r' Hj Hr) as (b' & ? & ? & _). by exists b'.
    + destruct (tb_place _ _ H j r' Hj Hr) as (b' & ? & ? & _). by exists b'.
  - intros r' b' E'. left. rewrite Eb by apply bucket_of_range. cbn in E'.
    destruct (tb_dom _ _ H r' b' E') as [Hr|[= <-]].
    + case_match eqn:Ei; [|done]. apply Z.eqb_eq in Ei. rewrite <- Ei. by right.
    + simplify_eq. rewrite Z.eqb_refl. by left.
  - apply H.
  - done.
Qed.

Lemma free_extra_spec r d : tab (Some r) d →
  ∃ d', m68k_block_free r d = Some (tt, d') ∧ tab None d' ∧ d' = set_d_heap (delete r (d_heap d)) d.
Proof.
  intros H. destruct (tb_extra _ _ H r eq_refl) as [b E]. eexists. split; [by apply (free_Some r b)|].
  split; [|done]. split; [apply H|apply H|..].
  - intros i r' Hi Hr. destruct (tb_place _ _ H i r' Hi Hr) as (b' & E' & Hb & HX). exists b'.
    cbn. rewrite lookup_delete_ne by congruence. done.
  - intros r' b' E'. cbn in E'. apply lookup_delete_Some in E' as [Hne E'].
    destruct (tb_dom _ _ H r' b' E') as [|HX]; [by left|congruence].
  - intros r' b' E'. cbn in *. apply lookup_delete_Some in E' as [Hne E']. by apply (tb_next _ _ H r' b').
  - done.
Qed.

(** ** Self-modifying code *)

(** *** The page bitmap *)

Definition is_page (p : Z) : Prop := 0 ≤ p < 0x10000.

Lemma page_of_range a : is_page (page_of a).
Proof. unfold page_of. apply (land_range_r _ _ 0x10000). done. Qed.

Lemma page_split p : p = 8 * (p ≫ 3) + (p .& 7).
Proof.
  rewrite Z.shiftr_div_pow2 by done. rewrite (land_ones_low _ 7 3) by done.
  pose proof (Z.div_mod p (2 ^ 3)). lia.
Qed.

Lemma marked_bit pages p : page_marked pages p = Z.testbit (znth pages (p ≫ 3)) (p .& 7).
Proof.
  unfold page_marked. rewrite Z.shiftl_1_l. apply nz_land_pow2.
  pose proof (land_range_r p 7 8). lia.
Qed.

Lemma mark_page_spec pages p q : Z.of_nat (length pages) = 8192 → is_page p → is_page q →
  page_marked (mark_page p pages) q = (q =? p) || page_marked pages q.
Proof.
  intros Hl Hp Hq. rewrite !marked_bit. unfold mark_page.
  pose proof (page_split p) as Ep. pose proof (page_split q) as Eq.
  pose proof (land_range_r p 7 8 ltac:(done)) as Hbp. pose proof (land_range_r q 7 8 ltac:(done)) as Hbq.
  assert (0 ≤ p ≫ 3 < 8192) as Hip by (unfold is_page in Hp; lia).
  assert (0 ≤ q ≫ 3 < 8192) as Hiq by (unfold is_page in Hq; lia).
  destruct (decide (q ≫ 3 = p ≫ 3)) as [E|Hn].
  - rewrite E, znth_zset_eq by lia. rewrite u8_small.
    2:{ rewrite Z.shiftl_1_l. split; [by apply Z.pow_nonneg|]. apply (Z.pow_lt_mono_r 2 _ 8); lia. }
    rewrite Z.lor_spec, Z.shiftl_1_l, orb_comm. f_equal.
    destruct (Z.eqb_spec q p) as [->|]; [apply Z.pow2_bits_true; lia|]. apply Z.pow2_bits_false. lia.
  - rewrite znth_zset_ne by lia. destruct (Z.eqb_spec q p) as [->|]; [done|]. done.
Qed.

Lemma mark_page_length pages p : length (mark_page p pages) = length pages.
Proof. apply zset_length. Qed.

(** A block's bytes are below the top page. *)
Definition block_ok (b : m68k_block) : Prop :=
  0 ≤ b_pc_start b ∧ b_pc_start b < b_pc_end b ∧ b_pc_end b ≤ 0xFFFFFF00.

Lemma page_of_div a : page_of a = (a / 256) mod 0x10000.
Proof. unfold page_of. rewrite Z.shiftr_div_pow2 by done. by apply (land_ones_low _ 0xFFFF 16). Qed.

(** The pages of [a], [a + 256], ... and of [pc_end - 1] are all the pages from
    [a] to [pc_end]. *)
Lemma mark_from_spec n a pc_end pages : 0 ≤ a → a < 0x100000000 → pc_end ≤ 0xFFFFFF00 → Z.of_nat (length pages) = 8192 →
  pc_end - a < 256 * Z.of_nat n →
  ∃ pages', mark_from (S n) a pc_end pages = Some pages' ∧ Z.of_nat (length pages') = 8192 ∧
    (∀ p, is_page p → page_marked pages p = true → page_marked pages' p = true) ∧
    (∀ x, a ≤ x < pc_end → x / 256 ≠ (pc_end - 1) / 256 → page_marked pages' (page_of x) = true).
Proof.
  revert a pages. induction n as [|n IH]; intros a pages Ha Hau He Hl Hn.
  { exists pages. cbn [mark_from]. rewrite (proj2 (Z.ltb_ge a pc_end)) by lia. split_and!; [done..|]. intros; lia. }
  cbn [mark_from]. destruct (Z.ltb_spec a pc_end).
  - rewrite u32_small by lia.
    destruct (IH (a + 256) (mark_page (page_of a) pages)) as (pages' & E & Hl' & Hm & Hx);
      [lia..|by rewrite mark_page_length|lia|]. exists pages'. split_and!; [done..| |].
    + intros p Hp Hpm. apply Hm; [done|]. rewrite mark_page_spec by (try done; apply page_of_range).
      rewrite Hpm. apply orb_true_r.
    + intros x Hr Hne. destruct (Z_lt_ge_dec x (a + 256)) as [Hlt|]; [|by apply Hx; lia].
      destruct (decide (x / 256 = a / 256)) as [Exa|Hxa].
      * apply Hm; [apply page_of_range|]. rewrite mark_page_spec by (try done; apply page_of_range).
        rewrite !page_of_div, Exa, Z.eqb_refl. done.
      * assert (x / 256 = (a + 256) / 256) as Ex2.
        { pose proof (Z.div_mod x 256). pose proof (Z.div_mod a 256). pose proof (Z.mod_pos_bound x 256).
          pose proof (Z.mod_pos_bound a 256). replace (a + 256) with (a + 1 * 256) by lia. rewrite Z.div_add by lia.
          nia. }
        rewrite page_of_div, Ex2, <- page_of_div. apply Hx; [|by rewrite <- Ex2].
        destruct (Z_lt_ge_dec (a + 256) pc_end); [lia|]. exfalso. apply Hne.
        pose proof (Z.div_le_mono x (pc_end - 1) 256). pose proof (Z.div_le_mono (pc_end - 1) (a + 256) 256). lia.
  - exists pages. split_and!; [done..|]. intros; lia.
Qed.

(** The code pages cover the cached blocks. *)
Record marked (X : option Z) (d : dispatcher) : Prop := {
  mk_len : Z.of_nat (length (d_code_pages d)) = 8192;
  mk_pages : ∀ r b x, d_heap d !! r = Some b → X ≠ Some r → b_pc_start b ≤ x < b_pc_end b →
    page_marked (d_code_pages d) (page_of x) = true
}.

Lemma smc_mark_spec r b d : marked (Some r) d → d_heap d !! r = Some b → block_ok b →
  ∃ pages, smc_mark_block r d = Some (tt, set_d_code_pages pages d) ∧ marked None (set_d_code_pages pages d).
Proof.
  intros [Hl Hm] E (H0 & H1 & H2). unfold smc_mark_block. rewrite (bind_Some _ _ _ _ _ (deref_Some _ _ _ E)).
  rewrite (bind_Some (gets d_code_pages) _ d _ d eq_refl). unfold mark_fuel.
  destruct (mark_from_spec (Z.to_nat ((b_pc_end b - b_pc_start b) / 256 + 1)) (b_pc_start b) (b_pc_end b) (d_code_pages d))
    as (pages & Ep & Hl' & Hold & Hnew); [lia..|done| |].
  { pose proof (Z.div_mod (b_pc_end b - b_pc_start b) 256). pose proof (Z.mod_pos_bound (b_pc_end b - b_pc_start b) 256).
    pose proof (Z.div_pos (b_pc_end b - b_pc_start b) 256). lia. }
  rewrite Ep. assert (nz (b_pc_end b) = true) as -> by (unfold nz; apply negb_true_iff, Z.eqb_neq; lia).
  set (last := page_of (b_pc_end b - 1)). exists (mark_page last pages).
  assert (∀ p, is_page p → page_marked (mark_page last pages) p = (p =? last) || page_marked pages p) as Hmp
    by (intros; apply mark_page_spec; [lia|apply page_of_range|done]).
  split; [done|]. split; cbn; [by rewrite mark_page_length|].
  intros r' b' x E' _ Hx. rewrite Hmp by apply page_of_range.
  destruct (decide (r' = r)) as [->|Hn].
  - assert (b' = b) as -> by congruence. destruct (decide (x / 256 = (b_pc_end b - 1) / 256)) as [Ex|Hne].
    + unfold last. rewrite !page_of_div, Ex, Z.eqb_refl. done.
    + rewrite Hnew by done. apply orb_true_r.
  - rewrite Hold; [apply orb_true_r|apply page_of_range|]. apply (Hm r' b'); [done|congruence|done].
Qed.

(** *** The write watch *)

(** What watched writes can change. *)
Definition unwatched (d : dispatcher) : dispatcher :=
  set_chain_budget 0 (set_d_dirty_pages [] (set_d_smc_overflow false d)).

Lemma unwatched_field {A} (f : dispatcher → A) d d' :
  (∀ d, f (unwatched d) = f d) → unwatched d = unwatched d' → f d = f d'.
Proof. intros Hf E. by rewrite <- (Hf d), <- (Hf d'), E. Qed.

Lemma existsb_elem p l : existsb (Z.eqb p) l = true ↔ p ∈ l.
Proof.
  rewrite existsb_exists. split.
  - intros (x & Hx & ->%Z.eqb_eq). by apply list_elem_of_In.
  - intros H. exists p. split; [by apply list_elem_of_In|apply Z.eqb_refl].
Qed.

Lemma smc_watch_spec a d : ∃ d', smc_watch a d = Some (tt, d') ∧ unwatched d' = unwatched d ∧
  (d_mach d' = d_mach d ∨ d_mach d' = with_cpu (set_cpu_chain_budget 0) (d_mach d)) ∧
  (d_smc_overflow d = true → d_smc_overflow d' = true) ∧
  (page_marked (d_code_pages d) (page_of a) = true → page_of a ∈ d_dirty_pages d' ∨ d_smc_overflow d' = true) ∧
  (∀ p, p ∈ d_dirty_pages d → p ∈ d_dirty_pages d') ∧
  (∀ p, p ∈ d_dirty_pages d' → p ∈ d_dirty_pages d ∨ p = page_of a).
Proof.
  unfold smc_watch. rewrite (bind_Some (gets id) _ d d d) by done. unfold id.
  destruct (page_marked _ _) eqn:Em; cbn [negb].
  2:{ exists d. split_and!; try done; tauto. }
  rewrite (bind_Some (modify _) _ d tt (set_chain_budget 0 d)) by done. set (d1 := set_chain_budget 0 d).
  destruct (existsb _ _) eqn:Ee.
  { apply existsb_elem in Ee. exists d1. split_and!; try done; tauto. }
  case_match.
  - eexists. split; [reflexivity|]. split_and!; try done; cbn; try tauto.
    + intros _. left. apply elem_of_app. right. by left.
    + intros p Hp. apply elem_of_app. by left.
    + intros p. rewrite elem_of_app, elem_of_cons, elem_of_nil. tauto.
  - eexists. split; [reflexivity|]. split_and!; try done; cbn; tauto.
Qed.

Lemma smc_watches_spec l d : ∃ d', for_each l smc_watch d = Some (tt, d') ∧ unwatched d' = unwatched d ∧
  (d_mach d' = d_mach d ∨ d_mach d' = with_cpu (set_cpu_chain_budget 0) (d_mach d)) ∧
  (d_smc_overflow d = true → d_smc_overflow d' = true) ∧
  (∀ a, a ∈ l → page_marked (d_code_pages d) (page_of a) = true →
    page_of a ∈ d_dirty_pages d' ∨ d_smc_overflow d' = true) ∧
  (∀ p, p ∈ d_dirty_pages d → p ∈ d_dirty_pages d') ∧
  (∀ p, p ∈ d_dirty_pages d' → p ∈ d_dirty_pages d ∨ ∃ a, a ∈ l ∧ p = page_of a).
Proof.
  revert d. induction l as [|a l IH]; intros d; cbn [for_each].
  { exists d. split_and!; try done; [by left|..]; try (intros a Ha; by apply elem_of_nil in Ha); auto. }
  destruct (smc_watch_spec a d) as (d1 & E1 & U1 & M1 & O1 & W1 & K1 & D1). rewrite (bind_Some _ _ _ _ _ E1).
  destruct (IH d1) as (d2 & E2 & U2 & M2 & O2 & W2 & K2 & D2). exists d2.
  assert (d_code_pages d1 = d_code_pages d) as Ec by (apply unwatched_field; [done|done]).
  split_and!; [done|by rewrite U2|..].
  - destruct M1 as [M1|M1], M2 as [M2|M2]; rewrite M2, M1; auto.
  - auto.
  - intros x [->|Hx]%elem_of_cons Hm; [|apply W2; [done|by rewrite Ec]].
    destruct (W1 Hm); [left|right]; auto.
  - auto.
  - intros p Hp. destruct (D2 p Hp) as [Hp1|(x & ? & ?)].
    + destruct (D1 p Hp1); [by left|]. right. exists a. split; [by left|done].
    + right. exists x. split; [by right|done].
Qed.

(** *** Flushing *)

Definition in_page (b : m68k_block) (p : Z) : bool := (b_pc_start b <? p * 256 + 256) && (p * 256 <? b_pc_end b).

Definition flushes (d : dispatcher) : bool := d_smc_overflow d || negb (length (d_dirty_pages d) =? 0)%nat.

(** The configuration, which nothing here changes. *)
Record same_setup (d d' : dispatcher) : Prop := {
  ss_no_cache : d_no_cache d' = d_no_cache d;
  ss_mode : d_prefetch_mode d' = d_prefetch_mode d;
  ss_depth : d_prefetch_depth d' = d_prefetch_depth d;
  ss_cc : cc_mode (d_cc d') = cc_mode (d_cc d)
}.
Lemma same_setup_rest d d' : rest d' = rest d → same_setup d d'.
Proof. intros E. split; [apply rest_field; [done|done]..|]. f_equal. by apply rest_field. Qed.
Lemma same_setup_trans d d1 d2 : same_setup d d1 → same_setup d1 d2 → same_setup d d2.
Proof. intros [] []. split; congruence. Qed.

Lemma cc_reset_spec c : cc_mode c ≠ CC_MODE_LRU →
  ∃ c', codecache_reset c = Some (tt, c') ∧ cc_mode c' = cc_mode c.
Proof.
  intros H. eexists. unfold codecache_reset, whole_arena.
  rewrite (bind_Some (modify _) _ c tt (set_cc_used 0 c)) by done.
  rewrite (bind_Some (modify _) _ _ tt (set_cc_free_head CC_NIL (set_cc_used 0 c))) by done.
  rewrite (bind_Some (gets id) _ _ (set_cc_free_head CC_NIL (set_cc_used 0 c)) (set_cc_free_head CC_NIL (set_cc_used 0 c))) by done.
  cbn [cc_mode set_cc_free_head set_cc_used].
  rewrite (proj2 (Z.eqb_neq _ _)) by done. by split.
Qed.

Lemma on_cache_reset d : cc_mode (d_cc d) ≠ CC_MODE_LRU →
  ∃ c, on_cache codecache_reset d = Some (tt, set_d_cc c d) ∧ cc_mode c = cc_mode (d_cc d).
Proof. intros H. destruct (cc_reset_spec _ H) as (c & E & Hc). exists c. unfold on_cache. by rewrite E. Qed.

Lemma tab_heap_empty d : tab None d → d_heap d = ∅ → ∀ i, 0 ≤ i < 2048 → bucket i d = [].
Proof.
  intros H E i Hi. destruct (bucket i d) as [|r l] eqn:Eb; [done|]. exfalso.
  destruct (tb_place _ _ H i r Hi) as (b & Hb & _); [rewrite Eb; by left|]. by rewrite E in Hb.
Qed.

Lemma drop_pages_spec pages d : tab None d → (∀ p, p ∈ pages → is_page p) →
  ∃ d', for_each pages (λ page, let base := u32 (page ≪ 8) in smc_drop_range base (base + 256)) d = Some (tt, d') ∧
    rest d' = rest d ∧ tab None d' ∧
    ∀ r b, d_heap d' !! r = Some b ↔ d_heap d !! r = Some b ∧ ∀ p, p ∈ pages → in_page b p = false.
Proof.
  revert d. induction pages as [|p pages IH]; intros d H Hp; cbn [for_each].
  { exists d. split_and!; [done..|]. intros r b. split; [|tauto]. intros. split; [done|].
    intros p Hn. by apply elem_of_nil in Hn. }
  assert (u32 (p ≪ 8) = p * 256) as ->.
  { rewrite Z.shiftl_mul_pow2 by done. change (2 ^ 8) with 256.
    assert (is_page p) as Hr by (apply Hp; by left). unfold is_page in Hr. apply u32_small. lia. }
  cbn zeta. unfold smc_drop_range at 1.
  destruct (drop_blocks_spec None (λ b, (b_pc_start b <? p * 256 + 256) && (p * 256 <? b_pc_end b)) d H)
    as (d1 & E1 & R1 & T1 & H1).
  rewrite (bind_Some _ _ _ _ _ E1).
  destruct (IH d1 T1) as (d2 & E2 & R2 & T2 & H2); [intros; apply Hp; by right|].
  exists d2. split_and!; [done|by rewrite R2|done|]. intros r b. rewrite H2, H1. split.
  - intros [[? Hd] Hr]. split; [done|]. intros q [->|Hq]%elem_of_cons; [by apply Hd|auto].
  - intros [? Hd]. split_and!; [done|intros _; apply Hd; by left|intros; apply Hd; by right].
Qed.

Lemma marked_shrink X d d' : marked X d → d_code_pages d' = d_code_pages d →
  (∀ r b', d_heap d' !! r = Some b' → ∃ b, d_heap d !! r = Some b ∧ b_pc_start b' = b_pc_start b ∧ b_pc_end b' = b_pc_end b) →
  marked X d'.
Proof.
  intros [Hl Hm] Ec Hh. split; rewrite Ec; [done|]. intros r b' x E HX Hx.
  destruct (Hh r b' E) as (b & Eb & Es & Ee). apply (Hm r b); [done..|lia].
Qed.

Lemma smc_flush_spec d : tab None d → marked None d → cc_mode (d_cc d) ≠ CC_MODE_LRU →
  (∀ p, p ∈ d_dirty_pages d → is_page p) → flushes d = true →
  ∃ d', smc_flush d = Some (true, d') ∧ tab None d' ∧ marked None d' ∧ same_setup d d' ∧ d_mach d' = d_mach d ∧
    d_dirty_pages d' = [] ∧ d_smc_overflow d' = false ∧
    ∀ r b', d_heap d' !! r = Some b' ↔ ∃ b, d_heap d !! r = Some b ∧ b' = clear_prediction b ∧
      d_smc_overflow d = false ∧ ∀ p, p ∈ d_dirty_pages d → in_page b p = false.
Proof.
  intros Ht Hm Hcc Hp Hf. unfold smc_flush. rewrite (bind_Some (gets id) _ d d d) by done. unfold id.
  assert (negb (d_smc_overflow d) && (length (d_dirty_pages d) =? 0)%nat = false) as ->.
  { unfold flushes in Hf. destruct (d_smc_overflow d), (length (d_dirty_pages d) =? 0)%nat; done. }
  match goal with |- context [(if d_smc_overflow d then ?m1 else ?m2) ;; _] =>
    assert (∃ d1, (if d_smc_overflow d then m1 else m2) d = Some (tt, d1) ∧ tab None d1 ∧ marked None d1 ∧
      same_setup d d1 ∧ d_mach d1 = d_mach d ∧
      ∀ r b, d_heap d1 !! r = Some b ↔ d_heap d !! r = Some b ∧
        d_smc_overflow d = false ∧ ∀ p, p ∈ d_dirty_pages d → in_page b p = false) as (d1 & E1 & T1 & M1 & S1 & G1 & H1)
  end.
  { destruct (d_smc_overflow d).
    - destruct (free_all_spec None d Ht) as (d1 & E1 & R1 & T1 & H1). rewrite (bind_Some _ _ _ _ _ E1).
      pose proof (same_setup_rest _ _ R1) as S1.
      destruct (on_cache_reset d1) as (c & E2 & Hc); [rewrite (ss_cc _ _ S1); done|]. rewrite (bind_Some _ _ _ _ _ E2).
      eexists. split; [reflexivity|]. split_and!.
      + destruct T1. by split.
      + split; cbn; [rewrite length_map; destruct Hm; by rewrite (rest_field d_code_pages _ _ (λ _, eq_refl) R1)|].
        intros r b x E. apply H1 in E as [_ ?]. done.
      + destruct S1. split; cbn; congruence.
      + cbn. by apply (rest_field d_mach).
      + intros r b. cbn. rewrite H1. intuition congruence.
    - destruct (drop_pages_spec (d_dirty_pages d) d Ht Hp) as (d1 & E1 & R1 & T1 & H1).
      exists d1. split_and!; [done..| | | |].
      + apply (marked_shrink None d); [done|by apply (rest_field d_code_pages)|].
        intros r b E. apply H1 in E as [E _]. by exists b.
      + by apply same_setup_rest.
      + by apply (rest_field d_mach).
      + intros r b. rewrite H1. tauto. }
  rewrite (bind_Some _ _ _ _ _ E1).
  rewrite (bind_Some (modify _) _ d1 tt (set_d_dirty_pages [] d1)) by done.
  rewrite (bind_Some (modify _) _ _ tt (set_d_smc_overflow false (set_d_dirty_pages [] d1))) by done.
  set (d2 := set_d_smc_overflow false _).
  destruct (each_block_spec None clear_prediction d2) as (d3 & E3 & R3 & T3 & H3); [by destruct T1|done|].
  rewrite (bind_Some _ _ _ _ _ E3). exists d3. split_and!; [done..| | | | | |].
  - apply (marked_shrink None d1); [done|by rewrite (rest_field d_code_pages _ _ (λ _, eq_refl) R3)|].
    intros r b' E. apply H3 in E as (b & Eb & ->). exists b. case_decide; done.
  - eapply same_setup_trans; [exact S1|]. eapply same_setup_trans; [|by apply same_setup_rest]. done.
  - rewrite (rest_field d_mach _ _ (λ _, eq_refl) R3). done.
  - by rewrite (rest_field d_dirty_pages _ _ (λ _, eq_refl) R3).
  - by rewrite (rest_field d_smc_overflow _ _ (λ _, eq_refl) R3).
  - intros r b'. rewrite H3. split.
    + intros (b & Eb & ->). rewrite decide_False by done. apply H1 in Eb as (? & ? & ?). by exists b.
    + intros (b & Eb & -> & ? & ?). exists b. rewrite decide_False by done. split; [|done]. by apply H1.
Qed.

(** *** What self-modifying code relies on *)

Record table_ok (d : dispatcher) : Prop := {
  to_tab : tab None d;
  to_marked : marked None d;
  to_mode : cc_mode (d_cc d) ≠ CC_MODE_LRU
}.

Lemma in_page_of b a : b_pc_start b ≤ a mod 0x1000000 < b_pc_end b → in_page b (page_of a) = true.
Proof.
  intros H. unfold in_page. rewrite page_of_div.
  assert ((a / 256) mod 0x10000 * 256 ≤ a mod 0x1000000 < (a / 256) mod 0x10000 * 256 + 256).
  { replace ((a / 256) mod 0x10000) with (a mod 0x1000000 / 256).
    - pose proof (Z.div_mod (a mod 0x1000000) 256). pose proof (Z.mod_pos_bound (a mod 0x1000000) 256). lia.
    - change 0x1000000 with (256 * 0x10000). rewrite Z.rem_mul_r by lia.
      rewrite Z.add_comm, Z.mul_comm, Z.div_add_l by lia.
      rewrite (Z.div_small (a mod 256) 256) by (apply Z.mod_pos_bound; lia). lia. }
  apply andb_true_iff. split; apply Z.ltb_lt; lia.
Qed.

Lemma page_of_low a : page_of (a mod 0x1000000) = page_of a.
Proof.
  rewrite !page_of_div. change 0x1000000 with (256 * 0x10000). rewrite Z.rem_mul_r by lia.
  rewrite Z.add_comm, Z.mul_comm, Z.div_add_l by lia.
  rewrite (Z.div_small (a mod 256) 256) by (apply Z.mod_pos_bound; lia). rewrite Z.add_0_r. apply Z.mod_mod. lia.
Qed.

(** C33.  Self-modifying code: after any sequence of guest writes, the flush
    that follows is defined, keeps the block table well formed with the code
    pages marked, and leaves no compiled block that contains a written address
    (an address is the low 24 bits of the access); unless the dirty list overflowed, every block off the written pages is
    kept, with its code. *)
Theorem overwritten_code_dropped d addrs : table_ok d → d_dirty_pages d = [] → d_smc_overflow d = false →
  ∃ d1 flushed d2, for_each addrs smc_watch d = Some (tt, d1) ∧ smc_flush d1 = Some (flushed, d2) ∧ table_ok d2 ∧
    (∀ r b a, d_heap d2 !! r = Some b → a ∈ addrs → ¬ b_pc_start b ≤ a mod 0x1000000 < b_pc_end b) ∧
    (d_smc_overflow d1 = false → ∀ r b, d_heap d !! r = Some b →
       (∀ a, a ∈ addrs → in_page b (page_of a) = false) →
       ∃ b', d_heap d2 !! r = Some b' ∧ clear_prediction b' = clear_prediction b).
Proof.
  intros [Ht Hm Hcc] Hd Ho.
  destruct (smc_watches_spec addrs d) as (d1 & E1 & U1 & _ & _ & W1 & _ & D1). rewrite Hd in D1.
  assert (tab None d1) as T1.
  { destruct Ht. split; unfold bucket in *;
      rewrite ?(unwatched_field d_buckets _ _ (λ _, eq_refl) U1), ?(unwatched_field d_heap _ _ (λ _, eq_refl) U1),
        ?(unwatched_field d_next_ref _ _ (λ _, eq_refl) U1); done. }
  pose proof (unwatched_field d_heap _ _ (λ _, eq_refl) U1) as Eh.
  pose proof (unwatched_field d_code_pages _ _ (λ _, eq_refl) U1) as Ec.
  pose proof (unwatched_field d_cc _ _ (λ _, eq_refl) U1) as Ecc.
  assert (marked None d1) as M1 by (destruct Hm; split; rewrite ?Eh, ?Ec; done).
  assert (∀ p, p ∈ d_dirty_pages d1 → ∃ a, a ∈ addrs ∧ p = page_of a) as Dp.
  { intros p Hp. destruct (D1 p Hp) as [Hn|]; [by apply elem_of_nil in Hn|done]. }
  assert (∀ r b a, d_heap d !! r = Some b → a ∈ addrs → b_pc_start b ≤ a mod 0x1000000 < b_pc_end b →
    page_of a ∈ d_dirty_pages d1 ∨ d_smc_overflow d1 = true) as Hhit.
  { intros r b a Eb Ha Hx. apply W1; [done|]. rewrite <- page_of_low. by apply (mk_pages _ _ Hm r b). }
  exists d1. destruct (flushes d1) eqn:Ef.
  - destruct (smc_flush_spec d1 T1 M1) as (d2 & E2 & T2 & M2 & S2 & _ & _ & _ & H2); [by rewrite Ecc| |done|].
    { intros p Hp. destruct (Dp p Hp) as (a & _ & ->). apply page_of_range. }
    exists true, d2. split_and!; [done..| | |].
    + split; [done..|]. rewrite (ss_cc _ _ S2). by rewrite Ecc.
    + intros r b a Eb Ha Hx. apply H2 in Eb as (b0 & Eb & -> & Ho1 & Hp). rewrite Eh in Eb. cbn in Hx.
      destruct (Hhit r b0 a Eb Ha Hx) as [Hin|]; [|congruence]. specialize (Hp _ Hin).
      by rewrite in_page_of in Hp.
    + intros Ho1 r b Eb Hp. exists (clear_prediction b). split; [|done]. apply H2. exists b. rewrite Eh.
      split_and!; [done..|]. intros p Hin. destruct (Dp p Hin) as (a & Ha & ->). auto.
  - unfold flushes in Ef. apply orb_false_iff in Ef as [Ho1 Hl]. apply negb_false_iff, Nat.eqb_eq, length_zero_iff_nil in Hl.
    exists false, d1. split_and!; [done| | |..].
    + unfold smc_flush. rewrite (bind_Some (gets id) _ d1 d1 d1) by done. unfold id. by rewrite Ho1, Hl.
    + split; [done..|]. by rewrite Ecc.
    + intros r b a Eb Ha Hx. rewrite Eh in Eb. destruct (Hhit r b a Eb Ha Hx) as [Hin|]; [|congruence].
      rewrite Hl in Hin. by apply elem_of_nil in Hin.
    + intros _ r b Eb _. exists b. by rewrite Eh.
Qed.

(** ** Memory safety of the run loop *)

Definition running (until : Z) (s : mac) : Prop := cpu_cycles (cpu s) < until ∧ cpu_halted (cpu s) = 0.
Definition keeps_running (s s' : mac) : Prop :=
  cpu_cycles (cpu s') = cpu_cycles (cpu s) ∧ cpu_halted (cpu s') = cpu_halted (cpu s).

(** What the run loop relies on: a set [G] of machines on which the machine's
    own operations are defined, the look for the successors of a block the
    compiler can return ([C]) among them. *)
Record machine_ok (G : mac → Prop) (C : m68k_block → Prop) (until : Z) : Prop := {
  ma_tick s : G s → running until s →
    ∃ s', mac_mem_tick (cpu_cycles (cpu s)) s = Some (tt, s') ∧ G s' ∧ keeps_running s s';
  ma_poll s : G s → running until s →
    ∃ t s', m68k_poll_interrupts s = Some (t, s') ∧ G s' ∧ (t = false → keeps_running s s');
  ma_service s : G s → running until s →
    ∃ t s', sony_service mac_accessors s = Some (t, s') ∧ G s' ∧ (t = false → keeps_running s s');
  ma_idle s : G s → running until s → nz (cpu_stopped (cpu s)) = true →
    ∃ s', add_cycles 64 s = Some (tt, s') ∧ G s';
  ma_step s : G s → running until s → ∃ s', m68k_step s = Some (tt, s') ∧ G s';
  ma_succ b s : C b → G s → running until s →
    ∃ l s', m68k_block_static_successors b s = Some (l, s') ∧ G s' ∧ keeps_running s s';
  ma_budget s : G s → G (with_cpu (set_cpu_chain_budget 0) s);
  ma_pc s : G s → word32 (cpu_pc (cpu s))
}.

(** The compiler changes the machine and the arena only, and returns a fresh
    descriptor for the address asked for; running a block is defined. *)
Record jit_ok `{Jit} (G : mac → Prop) (C : m68k_block → Prop) (until : Z) : Prop := {
  jo_compile pc d : G (d_mach d) → running until (d_mach d) → cc_mode (d_cc d) = CC_MODE_BUMP →
    ∃ ob c s, compile_block pc d = Some (ob, set_d_cc c (set_d_mach s d)) ∧ cc_mode c = CC_MODE_BUMP ∧
      G s ∧ keeps_running (d_mach d) s ∧
      ∀ b, ob = Some b → b_pc_start b = pc ∧ block_ok b ∧ C b ∧ b_predicted_next b = None;
  jo_enter b off s : G s → running until s → ∃ n s', enter_block b off s = Some (n, s') ∧ G s'
}.

(** A prediction names a cached block, for the address it predicts. *)
Definition predictions (X : option Z) (d : dispatcher) : Prop := ∀ r b p,
  d_heap d !! r = Some b → b_predicted_next b = Some p →
  X ≠ Some p ∧ ∃ pb, d_heap d !! p = Some pb ∧ b_pc_start pb = b_predicted_next_pc b.

Section safety.
Context `{J : Jit} (G : mac → Prop) (C : m68k_block → Prop) (until : Z).
Context (HG : machine_ok G C until) (HJ : jit_ok G C until).

Record disp_ok (X : option Z) (d : dispatcher) : Prop := {
  do_tab : tab X d;
  do_marked : marked X d;
  do_mode : cc_mode (d_cc d) = CC_MODE_BUMP;
  do_mach : G (d_mach d);
  do_pred : predictions X d;
  do_dirty : ∀ p, p ∈ d_dirty_pages d → is_page p;
  do_depth : 0 ≤ d_prefetch_depth d < 256
}.

(** The block table as it was; a later state has those blocks and more. *)
Record same_tables (d d' : dispatcher) : Prop := {
  st_heap : d_heap d' = d_heap d;
  st_buckets : d_buckets d' = d_buckets d;
  st_next : d_next_ref d' = d_next_ref d;
  st_pages : d_code_pages d' = d_code_pages d;
  st_setup : same_setup d d';
  st_resets : d_arena_resets d' = d_arena_resets d;
  st_inv : d_smc_invalidations d' = d_smc_invalidations d
}.

Lemma unwatched_same d d' : unwatched d' = unwatched d → same_tables d d'.
Proof.
  intros U. split; [by apply (unwatched_field d_heap)|by apply (unwatched_field d_buckets)
    |by apply (unwatched_field d_next_ref)|by apply (unwatched_field d_code_pages)| |by apply (unwatched_field d_arena_resets)
    |by apply (unwatched_field d_smc_invalidations)].
  split; [by apply (unwatched_field d_no_cache)|by apply (unwatched_field d_prefetch_mode)
    |by apply (unwatched_field d_prefetch_depth)|]. f_equal. by apply (unwatched_field d_cc).
Qed.

Lemma tab_same X d d' : same_tables d d' → tab X d → tab X d'.
Proof. intros [Eh Eb En _ _ _ _] []. split; unfold bucket in *; rewrite ?Eh, ?Eb, ?En; done. Qed.
Lemma marked_same X d d' : same_tables d d' → marked X d → marked X d'.
Proof. intros [Eh _ _ Ep _ _ _] []. split; rewrite ?Eh, ?Ep; done. Qed.
Lemma predictions_same X d d' : same_tables d d' → predictions X d → predictions X d'.
Proof. intros [Eh _ _ _ _ _ _] H. unfold predictions. by rewrite Eh. Qed.

Lemma disp_same X d d' : same_tables d d' → G (d_mach d') → (∀ p, p ∈ d_dirty_pages d' → is_page p) →
  disp_ok X d → disp_ok X d'.
Proof.
  intros Hs HGd Hd []. pose proof (st_setup _ _ Hs) as [_ _ Hp Hc]. split.
  - by eapply tab_same. - by eapply marked_same. - congruence. - done.
  - by eapply predictions_same. - done. - by rewrite Hp.
Qed.

(** A counter is none of this. *)
Lemma bump_ok X (get : dispatcher → Z) (set : Z → dispatcher → dispatcher) d :
  (∀ v, same_tables d (set v d) ∧ d_mach (set v d) = d_mach d ∧ d_dirty_pages (set v d) = d_dirty_pages d) →
  disp_ok X d →
  ∃ d', bump get set d = Some (tt, d') ∧ disp_ok X d' ∧ same_tables d d' ∧ d_mach d' = d_mach d.
Proof.
  intros H Hd. destruct (H (get d + 1)) as (Hs & Em & Ed). eexists. split; [reflexivity|]. split_and!; try done.
  apply (disp_same X d); [done|rewrite Em; apply Hd|rewrite Ed; apply Hd|done].
Qed.

Lemma guest_ok {A} X (op : M mac A) d a s' : disp_ok X d → op (d_mach d) = Some (a, s') → G s' →
  ∃ d', guest op d = Some (a, d') ∧ disp_ok X d' ∧ same_tables d d' ∧
    (d_mach d' = s' ∨ d_mach d' = with_cpu (set_cpu_chain_budget 0) s').
Proof.
  intros Hd E Hs'. unfold guest. rewrite E. set (d1 := set_d_mach s' d).
  destruct (smc_watches_spec (new_watches (bus (d_mach d)) (bus s')) d1) as (d2 & E2 & U2 & M2 & _ & _ & _ & D2).
  rewrite (bind_Some _ _ _ _ _ E2). exists d2.
  assert (same_tables d d2) as Hs by (destruct (unwatched_same _ _ U2) as [? ? ? ? [] ? ?]; by split).
  split_and!; [done| |done|done].
  apply (disp_same X d); [done| | |done].
  - destruct M2 as [->| ->]; [done|by apply (ma_budget _ _ _ HG)].
  - intros p Hp. destruct (D2 p Hp) as [Hp'|(x & _ & ->)]; [by apply (do_dirty _ _ Hd)|apply page_of_range].
Qed.

(** A guest operation that keeps the machine running. *)
Lemma guest_runs {A} X (op : M mac A) d : disp_ok X d → running until (d_mach d) →
  (∃ a s', op (d_mach d) = Some (a, s') ∧ G s' ∧ keeps_running (d_mach d) s') →
  ∃ a d', guest op d = Some (a, d') ∧ disp_ok X d' ∧ same_tables d d' ∧ keeps_running (d_mach d) (d_mach d').
Proof.
  intros Hd Hr (a & s' & E & Hs' & Hk). destruct (guest_ok X op d a s' Hd E Hs') as (d' & E' & Hd' & Hst & Hm).
  exists a, d'. split_and!; [done..|]. destruct Hm as [-> | ->]; [done|]. exact Hk.
Qed.

Lemma keeps_running_trans s s1 s2 : keeps_running s s1 → keeps_running s1 s2 → keeps_running s s2.
Proof. intros [] []. split; congruence. Qed.
Lemma keeps_running_on s s' : keeps_running s s' → running until s → running until s'.
Proof. intros [E1 E2] []. unfold running. rewrite E1, E2. done. Qed.
Lemma same_tables_refl d : same_tables d d.
Proof. done. Qed.
Lemma same_tables_trans d d1 d2 : same_tables d d1 → same_tables d1 d2 → same_tables d d2.
Proof. intros [] []. split; try congruence. by eapply same_setup_trans. Qed.
Lemma running_same X d d' : d_mach d' = d_mach d → disp_ok X d → running until (d_mach d) → running until (d_mach d').
Proof. intros ->. done. Qed.

(** *** Finding and compiling a block *)

(** A later state with the same blocks and more, and nothing evicted. *)
Record kept (d d' : dispatcher) : Prop := {
  kp_heap : d_heap d ⊆ d_heap d';
  kp_resets : d_arena_resets d' = d_arena_resets d;
  kp_inv : d_smc_invalidations d' = d_smc_invalidations d
}.
Lemma kept_refl d : kept d d.
Proof. done. Qed.
Lemma kept_trans d d1 d2 : kept d d1 → kept d1 d2 → kept d d2.
Proof. intros [H1 ? ?] [H2 ? ?]. split; [by etrans|congruence..]. Qed.
Lemma kept_same d d' : same_tables d d' → kept d d'.
Proof. intros [E _ _ _ _ ? ?]. split; [by rewrite E|done..]. Qed.

Lemma new_block_ok b d : disp_ok None d → b_predicted_next b = None →
  ∃ r d', new_block b d = Some (r, d') ∧ disp_ok (Some r) d' ∧ d_heap d' !! r = Some b ∧ same_setup d d' ∧
    d_mach d' = d_mach d ∧ kept d d'.
Proof.
  intros Hd Hb. destruct (new_block_spec b d (do_tab _ _ Hd)) as (d' & E & T & Hn & Ed).
  exists (d_next_ref d), d'. split; [done|]. rewrite Ed in *. split_and!; try done.
  - destruct Hd as [_ [Hl Hm] ? ? Hpr ? ?]. split; try done.
    + split; [done|]. intros r' b' x E' HX Hx. cbn in E'. rewrite lookup_insert_ne in E' by congruence. by apply (Hm r' b').
    + intros r' b' p E' Ep. cbn in E'. apply lookup_insert_Some in E' as [[<- <-]|[Hne E']]; [congruence|].
      destruct (Hpr r' b' p E' Ep) as (_ & pb & Epb & ?).
      assert (d_next_ref d ≠ p) by (intros <-; congruence).
      split; [congruence|]. exists pb. split; [|done]. cbn. by rewrite lookup_insert_ne.
  - cbn. by rewrite lookup_insert_eq.
  - split; [|done..]. cbn. by apply insert_subseteq.
Qed.

Lemma compile_spec pc d : disp_ok None d → running until (d_mach d) →
  ∃ ob d', m68k_compile_block pc d = Some (ob, d') ∧ same_setup d d' ∧
    keeps_running (d_mach d) (d_mach d') ∧ kept d d' ∧
    match ob with
    | None => disp_ok None d'
    | Some r => disp_ok (Some r) d' ∧ ∃ b, d_heap d' !! r = Some b ∧ b_pc_start b = pc ∧ block_ok b ∧ C b
    end.
Proof.
  intros Hd Hr. unfold m68k_compile_block.
  destruct (jo_compile _ _ _ HJ pc d (do_mach _ _ Hd) Hr (do_mode _ _ Hd)) as (ob & c & s & E & Hc & Hs & Hk & Hb).
  rewrite (bind_Some _ _ _ _ _ E). set (d1 := set_d_cc c (set_d_mach s d)) in *.
  assert (disp_ok None d1) as Hd1.
  { destruct Hd as [[] [] ? ? ? ? ?]. split; try done; by split. }
  assert (same_setup d d1) as Hss by (split; try done; cbn; rewrite Hc; symmetry; apply Hd).
  destruct ob as [b|]; [|by exists None, d1].
  destruct (Hb b eq_refl) as (Hpc & Hok & HC & Hp).
  destruct (new_block_ok b d1 Hd1 Hp) as (r & d2 & E2 & H2 & Eb & S2 & M2 & P2). rewrite (bind_Some _ _ _ _ _ E2).
  exists (Some r), d2. split_and!; [done|by eapply same_setup_trans|by rewrite M2|by destruct P2|done|by exists b].
Qed.

Lemma cache_block r b d : disp_ok (Some r) d → d_heap d !! r = Some b → block_ok b →
  ∃ d', (insert_block r ;; smc_mark_block r) d = Some (tt, d') ∧ disp_ok None d' ∧ d_heap d' = d_heap d ∧
    d_mach d' = d_mach d ∧ same_setup d d' ∧ kept d d'.
Proof.
  intros Hd E Hb. destruct (insert_block_spec r b d (do_tab _ _ Hd) E) as (d1 & E1 & T1 & Ed1).
  rewrite (bind_Some _ _ _ _ _ E1).
  assert (marked (Some r) d1) as Hm1 by (rewrite Ed1; destruct (do_marked _ _ Hd); by split).
  destruct (smc_mark_spec r b d1 Hm1) as (pages & E2 & M2); [by rewrite Ed1|done|].
  exists (set_d_code_pages pages d1). rewrite Ed1 in *. split_and!; try done.
  destruct Hd as [_ _ ? ? Hpr ? ?]. split; try done.
  - destruct T1. by split.
  - intros r' b' p E' Ep. destruct (Hpr r' b' p E' Ep) as (_ & ?). by split.
Qed.

Lemma reset_spec d : disp_ok None d →
  ∃ d', (free_all_blocks ;; on_cache codecache_reset ;; bump d_arena_resets set_d_arena_resets) d = Some (tt, d') ∧
    disp_ok None d' ∧ d_mach d' = d_mach d ∧ same_setup d d' ∧
    d_arena_resets d' = u64 (d_arena_resets d + 1).
Proof.
  intros Hd. destruct (free_all_spec None d (do_tab _ _ Hd)) as (d1 & E1 & R1 & T1 & H1). rewrite (bind_Some _ _ _ _ _ E1).
  pose proof (same_setup_rest _ _ R1) as S1. pose proof (do_mode _ _ Hd) as Hmode.
  destruct (on_cache_reset d1) as (c & E2 & Hc); [rewrite (ss_cc _ _ S1), Hmode; done|]. rewrite (bind_Some _ _ _ _ _ E2).
  rewrite (ss_cc _ _ S1) in Hc.
  eexists. split; [reflexivity|]. split_and!.
  - destruct Hd as [_ [Hl Hm] ? ? Hpr ? ?]. split; cbn.
    + destruct T1. by split.
    + split; cbn; [by rewrite (rest_field d_code_pages _ _ (λ _, eq_refl) R1)|].
      intros r b x E'. apply H1 in E' as [_ ?]. done.
    + congruence.
    + by rewrite (rest_field d_mach _ _ (λ _, eq_refl) R1).
    + intros r b p E'. cbn in E'. apply H1 in E' as [_ ?]. done.
    + by rewrite (rest_field d_dirty_pages _ _ (λ _, eq_refl) R1).
    + by rewrite (rest_field d_prefetch_depth _ _ (λ _, eq_refl) R1).
  - cbn. by rewrite (rest_field d_mach _ _ (λ _, eq_refl) R1).
  - destruct S1. split; cbn; congruence.
  - cbn. by rewrite (rest_field d_arena_resets _ _ (λ _, eq_refl) R1).
Qed.

Lemma u64_succ_ne v : u64 (v + 1) ≠ v.
Proof.
  intros E. pose proof (u64_range (v + 1)) as Hr. rewrite E in Hr. unfold u64 in E.
  destruct (decide (v = 0xFFFFFFFFFFFFFFFF)) as [->|]; [done|]. rewrite Z.mod_small in E; lia.
Qed.

(** A demand for a block returns it or has reset the arena. *)
Definition got (prefetching : bool) (pc : Z) (d : dispatcher) (ob : option Z) (d' : dispatcher) : Prop :=
  same_setup d d' ∧ keeps_running (d_mach d) (d_mach d') ∧
  disp_ok (if d_no_cache d then ob else None) d' ∧
  (kept d d' ∨ (prefetching = false ∧ d_arena_resets d' ≠ d_arena_resets d)) ∧
  match ob with
  | Some r => ∃ b, d_heap d' !! r = Some b ∧ b_pc_start b = pc
  | None => prefetching = true ∨ d_arena_resets d' ≠ d_arena_resets d
  end.

Lemma bump_spec X (get : dispatcher → Z) (set : Z → dispatcher → dispatcher) (b : bool) d :
  (∀ v, same_tables d (set v d) ∧ d_mach (set v d) = d_mach d ∧ d_dirty_pages (set v d) = d_dirty_pages d) →
  disp_ok X d →
  ∃ d', when b (bump get set) d = Some (tt, d') ∧ disp_ok X d' ∧ same_tables d d' ∧ d_mach d' = d_mach d.
Proof. intros H Hd. destruct b; [by apply bump_ok|]. by exists d. Qed.

Lemma mod_ok X (get : dispatcher → Z) (set : Z → dispatcher → dispatcher) f d :
  (∀ v, same_tables d (set v d) ∧ d_mach (set v d) = d_mach d ∧ d_dirty_pages (set v d) = d_dirty_pages d) →
  disp_ok X d →
  ∃ d', mod_d get set f d = Some (tt, d') ∧ disp_ok X d' ∧ same_tables d d' ∧ d_mach d' = d_mach d.
Proof.
  intros H Hd. destruct (H (f (get d))) as (Hs & Em & Ed). eexists. split; [reflexivity|]. split_and!; try done.
  apply (disp_same X d); [done|rewrite Em; apply Hd|rewrite Ed; apply Hd|done].
Qed.

(** What happens to the counters around a block that was compiled. *)
Lemma count_block X r b prefetching d : disp_ok X d → d_heap d !! r = Some b →
  ∃ d', (bump d_blocks_compiled set_d_blocks_compiled ;;
     b ← deref r;
     mod_d d_inline_ops_total set_d_inline_ops_total (λ v, v + b_inline_ops b) ;;
     mod_d d_helper_ops_total set_d_helper_ops_total (λ v, v + b_helper_ops b) ;;
     when prefetching (bump d_prefetch_compiles set_d_prefetch_compiles) ;;
     mret (Some r, false)) d = Some ((Some r, false), d') ∧
    disp_ok X d' ∧ same_tables d d' ∧ d_mach d' = d_mach d.
Proof.
  intros Hd E.
  destruct (bump_ok X d_blocks_compiled set_d_blocks_compiled d) as (d1 & E1 & H1 & S1 & M1); [done..|].
  rewrite (bind_Some _ _ _ _ _ E1).
  assert (d_heap d1 !! r = Some b) as Eb by (by rewrite (st_heap _ _ S1)). rewrite (bind_Some _ _ _ _ _ (deref_Some _ _ _ Eb)).
  destruct (mod_ok X d_inline_ops_total set_d_inline_ops_total (λ v, v + b_inline_ops b) d1) as (d2 & E2 & H2 & S2 & M2); [done..|].
  rewrite (bind_Some _ _ _ _ _ E2).
  destruct (mod_ok X d_helper_ops_total set_d_helper_ops_total (λ v, v + b_helper_ops b) d2) as (d3 & E3 & H3 & S3 & M3); [done..|].
  rewrite (bind_Some _ _ _ _ _ E3).
  destruct (bump_spec X d_prefetch_compiles set_d_prefetch_compiles prefetching d3) as (d4 & E4 & H4 & S4 & M4); [done..|].
  rewrite (bind_Some _ _ _ _ _ E4). exists d4. split_and!; [done..| |congruence].
  repeat (eapply same_tables_trans; [eassumption|]). done.
Qed.

(** The block that was compiled is counted and, unless uncached, inserted. *)
Lemma adopt_spec r b pc (prefetching no_cache : bool) d : disp_ok (Some r) d → d_heap d !! r = Some b →
  b_pc_start b = pc → block_ok b →
  ∃ d', (when (negb no_cache) (insert_block r ;; smc_mark_block r) ;;
     bump d_blocks_compiled set_d_blocks_compiled ;;
     b ← deref r;
     mod_d d_inline_ops_total set_d_inline_ops_total (λ v, v + b_inline_ops b) ;;
     mod_d d_helper_ops_total set_d_helper_ops_total (λ v, v + b_helper_ops b) ;;
     when prefetching (bump d_prefetch_compiles set_d_prefetch_compiles) ;;
     mret (Some r, false)) d = Some ((Some r, false), d') ∧
    disp_ok (if no_cache then Some r else None) d' ∧ d_heap d' = d_heap d ∧ d_mach d' = d_mach d ∧
    same_setup d d' ∧ kept d d'.
Proof.
  intros Hd E Epc Hb.
  assert (∃ d1, when (negb no_cache) (insert_block r ;; smc_mark_block r) d = Some (tt, d1) ∧
    disp_ok (if no_cache then Some r else None) d1 ∧ d_heap d1 = d_heap d ∧ d_mach d1 = d_mach d ∧
    same_setup d d1 ∧ kept d d1) as (d1 & E1 & H1 & Eh1 & M1 & S1 & K1).
  { destruct no_cache; cbn [negb when]; [by exists d|]. by apply cache_block with (b := b). }
  rewrite (bind_Some _ _ _ _ _ E1).
  destruct (count_block _ r b prefetching d1 H1) as (d2 & E2 & H2 & S2 & M2); [by rewrite Eh1|].
  exists d2. split_and!; [done..| | | |].
  - by rewrite (st_heap _ _ S2).
  - congruence.
  - eapply same_setup_trans; [exact S1|apply S2].
  - eapply kept_trans; [exact K1|by apply kept_same].
Qed.

Lemma find_or_compile_spec pc prefetching d : disp_ok None d → running until (d_mach d) →
  (prefetching = true → d_no_cache d = false) →
  ∃ ob hit d', find_or_compile pc prefetching d = Some ((ob, hit), d') ∧ got prefetching pc d ob d' ∧
    ∀ r, ob = Some r → hit = false → ∃ b, d_heap d' !! r = Some b ∧ C b.
Proof.
  intros Hd Hr Hnc. unfold find_or_compile. rewrite (bind_Some (gets d_no_cache) _ d _ d eq_refl).
  assert (∃ o, (if negb (d_no_cache d) then find_block pc else mret None) d = Some (o, d) ∧
    ∀ r, o = Some r → d_no_cache d = false ∧ ∃ b, d_heap d !! r = Some b ∧ b_pc_start b = pc) as (o & Eo & Ho).
  { destruct (d_no_cache d); cbn [negb]; [by exists None|].
    destruct (find_block_spec None pc d (do_tab _ _ Hd)) as (o & Eo & Ho). exists o. split; [done|].
    intros r ->. split; [done|]. apply Ho. }
  rewrite (bind_Some _ _ _ _ _ Eo). destruct o as [r|].
  { destruct (Ho r eq_refl) as (Enc & b & Eb & Epc).
    destruct (bump_spec None d_prefetch_hits set_d_prefetch_hits prefetching d) as (d1 & E1 & H1 & S1 & M1); [done..|].
    rewrite (bind_Some _ _ _ _ _ E1). exists (Some r), true, d1. split; [done|]. split; [|done]. unfold got. rewrite Enc.
    split_and!; [apply S1|by rewrite M1|done|left; by apply kept_same|]. exists b. by rewrite (st_heap _ _ S1). }
  clear Eo Ho.
  destruct (compile_spec pc d Hd Hr) as (ob & d1 & E1 & S1 & K1 & P1 & H1). rewrite (bind_Some _ _ _ _ _ E1).
  match goal with |- context [x ← ?m; _] =>
    assert (∃ ob2 d2, m d1 = Some (ob2, d2) ∧ same_setup d d2 ∧ keeps_running (d_mach d) (d_mach d2) ∧
      (kept d d2 ∨ (prefetching = false ∧ d_arena_resets d2 ≠ d_arena_resets d)) ∧
      match ob2 with
      | None => disp_ok None d2 ∧ (prefetching = true ∨ d_arena_resets d2 ≠ d_arena_resets d)
      | Some r => disp_ok (Some r) d2 ∧ ∃ b, d_heap d2 !! r = Some b ∧ b_pc_start b = pc ∧ block_ok b ∧ C b
      end) as (ob2 & d2 & E2 & S2 & K2 & P2 & H2)
  end.
  { destruct ob as [r|]; [exists (Some r), d1; split_and!; [done..|by left|apply H1|apply H1]|].
    destruct prefetching; [exists None, d1; split_and!; [done|done|done|by left|done|by left]|].
    destruct (reset_spec d1 H1) as (d2 & E2 & H2 & M2 & S2 & A2). rewrite <- M2 in *.
    rewrite (kp_resets _ _ P1) in A2. pose proof (u64_succ_ne (d_arena_resets d)) as Hne.
    destruct (compile_spec pc d2 H2) as (ob3 & d3 & E3 & S3 & K3 & P3 & H3); [by eapply keeps_running_on|].
    exists ob3, d3. split_and!.
    - rewrite <- E3. revert E2. unfold mbind, M_bind. destruct (free_all_blocks d1) as [[[] d4]|]; [|done].
      destruct (on_cache codecache_reset d4) as [[[] d5]|]; [|done].
      destruct (bump d_arena_resets set_d_arena_resets d5) as [[[] d6]|]; [|done]. by intros [= ->].
    - eapply same_setup_trans; [exact S1|]. by eapply same_setup_trans.
    - by eapply keeps_running_trans.
    - right. split; [done|]. rewrite (kp_resets _ _ P3). congruence.
    - destruct ob3; [done|]. split; [done|]. right. rewrite (kp_resets _ _ P3). congruence. }
  rewrite (bind_Some _ _ _ _ _ E2). destruct ob2 as [r|].
  - destruct H2 as (H2 & b & Eb & Epc & Hb & HC).
    destruct (adopt_spec r b pc prefetching (d_no_cache d) d2 H2 Eb Epc Hb) as (d3 & E3 & H3 & Eh3 & M3 & S3 & P3).
    exists (Some r), false, d3. split; [done|]. split; [|by intros r' [= <-] _; exists b; rewrite Eh3]. split_and!.
    + by eapply same_setup_trans.
    + by rewrite M3.
    + done.
    + destruct P2 as [P2|[? P2]]; [left; by eapply kept_trans|right; split; [done|]]. by rewrite (kp_resets _ _ P3).
    + exists b. by rewrite Eh3.
  - destruct H2 as [H2 HN]. exists None, false, d2. split; [done|]. split; [|done]. split_and!; try done. by destruct (d_no_cache d).
Qed.

(** A state reached by prefetching. *)
Record after_prefetch (d d' : dispatcher) : Prop := {
  ap_setup : same_setup d d';
  ap_run : keeps_running (d_mach d) (d_mach d');
  ap_ok : disp_ok None d';
  ap_kept : kept d d'
}.

Lemma after_prefetch_trans d d1 d2 : after_prefetch d d1 → after_prefetch d1 d2 → after_prefetch d d2.
Proof.
  intros [] []. split; [by eapply same_setup_trans|by eapply keeps_running_trans|done|by eapply kept_trans].
Qed.

Lemma got_prefetch prefetching pc d r d1 d2 : got prefetching pc d (Some r) d1 → d_no_cache d = false →
  after_prefetch d1 d2 → got prefetching pc d (Some r) d2.
Proof.
  intros (S & K & H & P & b & Eb & Epc) Hn [S2 K2 H2 P2]. split_and!.
  - by eapply same_setup_trans.
  - by eapply keeps_running_trans.
  - by rewrite Hn.
  - destruct P as [P|[? P]]; [left; by eapply kept_trans|right; split; [done|]]. by rewrite (kp_resets _ _ P2).
  - exists b. split; [|done]. by apply (lookup_weaken _ _ _ _ Eb), P2.
Qed.

Lemma got_after pc d ob d' : got true pc d ob d' → d_no_cache d = false → after_prefetch d d'.
Proof. intros (S & K & H & [P|[? _]] & _) Hn; [|done]. rewrite Hn in H. by split. Qed.

Lemma successors_spec r b d : disp_ok None d → running until (d_mach d) → d_heap d !! r = Some b → C b →
  ∃ l d', successors r d = Some (l, d') ∧ after_prefetch d d'.
Proof.
  intros Hd Hr E HC. unfold successors. rewrite (bind_Some _ _ _ _ _ (deref_Some _ _ _ E)).
  destruct (guest_runs None (m68k_block_static_successors b) d Hd Hr) as (l & d' & E' & H' & S' & K').
  { apply (ma_succ _ _ _ HG); [done|apply Hd|done]. }
  exists l, d'. split; [done|]. split; [apply S'|done|done|by apply kept_same].
Qed.

Lemma prefetch_each (step : Z → M dispatcher unit) l d : disp_ok None d → running until (d_mach d) → d_no_cache d = false →
  (∀ s d, disp_ok None d → running until (d_mach d) → d_no_cache d = false →
     ∃ d', step s d = Some (tt, d') ∧ after_prefetch d d') →
  ∃ d', for_each l step d = Some (tt, d') ∧ after_prefetch d d'.
Proof.
  intros Hd Hr Hn Hs. revert d Hd Hr Hn. induction l as [|s l IH]; intros d Hd Hr Hn; cbn [for_each].
  { exists d. by split. }
  destruct (Hs s d Hd Hr Hn) as (d1 & E1 & A1). rewrite (bind_Some _ _ _ _ _ E1).
  destruct (IH d1) as (d2 & E2 & A2); [apply A1|by eapply keeps_running_on; [apply A1|]|by rewrite (ss_no_cache _ _ (ap_setup _ _ A1))|].
  exists d2. split; [done|]. by eapply after_prefetch_trans.
Qed.

Lemma bind_skip {A} (m : M dispatcher A) d a d' : m d = Some (a, d') → (_ ← m; mret tt) d = Some (tt, d').
Proof. intros E. by rewrite (bind_Some _ _ _ _ _ E). Qed.

Lemma get_block_impl_spec fuel pc depth d : disp_ok None d → running until (d_mach d) →
  -1 ≤ depth → (if depth <? 0 then 257 else depth + 1) ≤ Z.of_nat fuel →
  (0 ≤ depth → d_no_cache d = false) →
  ∃ ob d', get_block_impl (S fuel) pc depth d = Some (ob, d') ∧ got (0 <=? depth) pc d ob d'.
Proof.
  revert pc depth d. induction fuel as [|fuel IH]; intros pc depth d Hd Hr Hdep Hf Hnc.
  { destruct (depth <? 0) eqn:E; lia. }
  remember (S fuel) as fuel1 eqn:Ef. cbn [get_block_impl].
  destruct (find_or_compile_spec pc (0 <=? depth) d Hd Hr) as (ob & hit & d1 & E1 & G1 & F1).
  { intros H%Z.leb_le. auto. }
  rewrite (bind_Some _ _ _ _ _ E1). destruct ob as [r|]; [|by exists None, d1].
  destruct hit; [by exists (Some r), d1|]. destruct (F1 r eq_refl eq_refl) as (fb & Efb & HC). rewrite (bind_Some (gets id) _ d1 d1 d1) by done.
  pose proof G1 as (S1 & K1 & H1 & P1 & b & Eb & Epc). pose proof (ss_no_cache _ _ S1) as En.
  destruct (d_no_cache d1) eqn:Enc; [by exists (Some r), d1|]. cbn [orb]. rewrite <- En in *.
  assert (running until (d_mach d1)) as R1 by (by eapply keeps_running_on).
  assert (∀ s d, disp_ok None d → running until (d_mach d) → d_no_cache d = false → ∀ n, 0 ≤ n → n + 1 ≤ Z.of_nat fuel →
    ∃ d', (_ ← get_block_impl fuel1 s n; mret tt) d = Some (tt, d') ∧ after_prefetch d d') as Hinner.
  { intros s d2 H2 R2 N2 n Hn0 Hn.
    destruct (IH s n d2 H2 R2) as (ob & d3 & E3 & G3); [lia|rewrite (proj2 (Z.ltb_ge n 0)); lia|done|].
    exists d3. split; [apply (bind_skip _ _ _ _ E3)|]. rewrite (proj2 (Z.leb_le 0 n)) in G3 by done. by eapply got_after. }
  destruct (d_prefetch_mode d1 =? PREFETCH_NONE); [by exists (Some r), d1|].
  destruct (successors_spec r fb d1 H1 R1 Efb HC) as (l & d2 & E2 & A2).
  assert (running until (d_mach d2)) as R2 by (eapply keeps_running_on; [apply A2|done]).
  assert (d_no_cache d2 = false) as N2 by (by rewrite (ss_no_cache _ _ (ap_setup _ _ A2))).
  pose proof (do_depth _ _ H1) as Hpd.
  destruct (Z.ltb_spec depth 0); [rewrite (proj2 (Z.leb_gt 0 depth)) by done|rewrite (proj2 (Z.leb_le 0 depth)) by done];
    rewrite ?(proj2 (Z.leb_gt 0 depth)) in G1 by done; rewrite ?(proj2 (Z.leb_le 0 depth)) in G1 by done; cbn [negb].
  - destruct (d_prefetch_mode d1 =? PREFETCH_STATIC); cbn [andb].
    { rewrite (bind_Some _ _ _ _ _ E2).
      destruct (prefetch_each (λ s, if nz (s .& 1) then mret tt else _ ← get_block_impl fuel1 s 0; mret tt) l d2)
        as (d3 & E3 & A3); [apply A2|done|done| |].
      { intros s d3 H3 R3 N3. destruct (nz (s .& 1)); [by exists d3|]. by apply Hinner; [..|lia]. }
      rewrite (bind_Some _ _ _ _ _ E3). exists (Some r), d3. split; [done|].
      eapply got_prefetch; [exact G1|done|]. by eapply after_prefetch_trans. }
    destruct (d_prefetch_mode d1 =? PREFETCH_CHAIN); [|by exists (Some r), d1].
    destruct (Z.ltb_spec (d_prefetch_depth d1 - 1) 0); [by exists (Some r), d1|].
    rewrite (bind_Some _ _ _ _ _ E2).
    assert (got false pc d (Some r) d2) as G2 by (by eapply got_prefetch).
    destruct l as [|s [|]]; [by exists (Some r), d2| |by exists (Some r), d2].
    destruct (nz (s .& 1)); [by exists (Some r), d2|].
    destruct (Hinner s d2 (ap_ok _ _ A2) R2 N2 (d_prefetch_depth d1 - 1)) as (d3 & E3 & A3); [lia..|].
    exists (Some r), d3. split; [|by eapply got_prefetch; [|done|]].
    revert E3. unfold mbind, M_bind. destruct (get_block_impl fuel1 s _ d2) as [[? ?]|]; [|done]. by intros [= ->].
  - rewrite andb_false_r. destruct (d_prefetch_mode d1 =? PREFETCH_CHAIN); [|by exists (Some r), d1].
    destruct (Z.ltb_spec (depth - 1) 0); [by exists (Some r), d1|].
    rewrite (bind_Some _ _ _ _ _ E2).
    assert (got true pc d (Some r) d2) as G2 by (by eapply got_prefetch).
    destruct l as [|s [|]]; [by exists (Some r), d2| |by exists (Some r), d2].
    destruct (nz (s .& 1)); [by exists (Some r), d2|].
    destruct (Hinner s d2 (ap_ok _ _ A2) R2 N2 (depth - 1)) as (d3 & E3 & A3); [lia..|].
    exists (Some r), d3. split; [|by eapply got_prefetch; [|done|]].
    revert E3. unfold mbind, M_bind. destruct (get_block_impl fuel1 s _ d2) as [[? ?]|]; [|done]. by intros [= ->].
Qed.

Lemma get_block_spec pc d : disp_ok None d → running until (d_mach d) →
  ∃ ob d', get_block pc d = Some (ob, d') ∧ got false pc d ob d'.
Proof. intros Hd Hr. apply (get_block_impl_spec 257 pc (-1) d Hd Hr); [done|done|intros; lia]. Qed.

(** *** One trip through the run loop *)

(** The previous block is still cached. *)
Definition live (prev : option Z) (d : dispatcher) : Prop :=
  ∀ p, prev = Some p → d_no_cache d = false ∧ ∃ b, d_heap d !! p = Some b.

Lemma upd_ok X r f b d : disp_ok X d → d_heap d !! r = Some b →
  b_pc_start (f b) = b_pc_start b → b_pc_end (f b) = b_pc_end b →
  (∀ p, b_predicted_next (f b) = Some p →
     X ≠ Some p ∧ ∃ pb, d_heap d !! p = Some pb ∧ b_pc_start pb = b_predicted_next_pc (f b)) →
  ∃ d', upd_block r f d = Some (tt, d') ∧ disp_ok X d' ∧ d_mach d' = d_mach d ∧ same_setup d d' ∧
    d_heap d' = <[r := f b]> (d_heap d) ∧ d_arena_resets d' = d_arena_resets d.
Proof.
  intros [Ht Hm ? ? Hp ? ?] E Es Ee Hf. eexists. split; [by apply upd_block_Some|]. split_and!; try done.
  assert (∀ p pb, d_heap d !! p = Some pb → ∃ pb', <[r := f b]> (d_heap d) !! p = Some pb' ∧ b_pc_start pb' = b_pc_start pb) as Hkeep.
  { intros p pb Ep. destruct (decide (r = p)) as [<-|]; [|by exists pb; rewrite lookup_insert_ne].
    exists (f b). rewrite lookup_insert_eq. split; [done|]. congruence. }
  split; try done.
  - by apply (tab_upd X d r b).
  - apply (marked_shrink X d); [done..|]. cbn. intros r' b' E'.
    apply lookup_insert_Some in E' as [[<- <-]|[_ E']]; [by exists b|by exists b'].
  - intros r' b' p E' Ep. cbn in *. apply lookup_insert_Some in E' as [[<- <-]|[_ E']].
    + destruct (Hf p Ep) as (HX & pb & Epb & Epc). split; [done|].
      destruct (Hkeep p pb Epb) as (pb' & ? & ?). exists pb'. split; [done|congruence].
    + destruct (Hp r' b' p E' Ep) as (HX & pb & Epb & Epc). split; [done|].
      destruct (Hkeep p pb Epb) as (pb' & ? & ?). exists pb'. split; [done|congruence].
Qed.

Lemma upd_twice r f g {A} (k : M dispatcher A) b d : d_heap d !! r = Some b →
  (upd_block r f ;; upd_block r g ;; k) d = (upd_block r (λ b, g (f b)) ;; k) d.
Proof.
  intros E. rewrite (bind_Some _ _ _ _ _ (upd_block_Some r f b d E)).
  rewrite (bind_Some _ _ _ _ _ (upd_block_Some r (λ b, g (f b)) b d E)).
  assert (d_heap (set_d_heap (<[r := f b]> (d_heap d)) d) !! r = Some (f b)) as E1 by apply lookup_insert_eq.
  rewrite (bind_Some _ _ _ _ _ (upd_block_Some r g _ _ E1)). cbn. by rewrite insert_insert_eq.
Qed.

Lemma predicted_spec prev pc d : disp_ok None d → live prev d →
  ∃ o, predicted prev pc d = Some (o, d) ∧
    ∀ r, o = Some r → ∃ p pb b, prev = Some p ∧ d_heap d !! p = Some pb ∧ d_heap d !! r = Some b ∧ b_pc_start b = pc.
Proof.
  intros Hd Hl. unfold predicted. destruct prev as [p|]; [|by exists None].
  destruct (Hl p eq_refl) as (_ & pb & E). rewrite (bind_Some _ _ _ _ _ (deref_Some _ _ _ E)).
  eexists. split; [reflexivity|]. intros r Hr. destruct (Z.eqb_spec (b_predicted_next_pc pb) pc) as [Epc|]; [|done].
  destruct (do_pred _ _ Hd p pb r E Hr) as (_ & b & Eb & Eb'). exists p, pb, b. split_and!; congruence.
Qed.

Lemma chain_miss_spec prev pc d : disp_ok None d → running until (d_mach d) → live prev d → word32 pc →
  ∃ ob prev' d', chain_miss prev pc d = Some ((ob, prev'), d') ∧ same_setup d d' ∧
    keeps_running (d_mach d) (d_mach d') ∧ disp_ok (if d_no_cache d then ob else None) d' ∧
    ∀ r, ob = Some r → ∃ b, d_heap d' !! r = Some b ∧ b_pc_start b = pc.
Proof.
  intros Hd Hr Hl Hpc. unfold chain_miss.
  rewrite (bind_Some (gets _) _ d _ d eq_refl), (bind_Some (gets _) _ d _ d eq_refl).
  destruct (get_block_spec pc d Hd Hr) as (ob & d1 & E1 & S1 & K1 & H1 & P1 & B1). rewrite (bind_Some _ _ _ _ _ E1).
  destruct (bump_ok (if d_no_cache d then ob else None) d_chain_misses set_d_chain_misses d1)
    as (d2 & E2 & H2 & S2 & M2); [done|done|].
  rewrite (bind_Some _ _ _ _ _ E2), (bind_Some (gets id) _ d2 d2 d2) by done. unfold id.
  assert (same_setup d d2) as SS by (eapply same_setup_trans; [exact S1|apply S2]).
  assert (keeps_running (d_mach d) (d_mach d2)) as KK by (by rewrite M2).
  set (prev2 := if negb _ || _ then None else prev).
  assert (∀ r, ob = Some r → ∃ b, d_heap d2 !! r = Some b ∧ b_pc_start b = pc) as B2.
  { intros r ->. by rewrite (st_heap _ _ S2). }
  assert (∀ p, prev2 = Some p → d_no_cache d = false ∧ (∃ pb, d_heap d2 !! p = Some pb) ∧ ob ≠ None) as Hp2.
  { intros p Ep. unfold prev2 in Ep.
    rewrite (st_resets _ _ S2), (st_inv _ _ S2) in Ep.
    destruct (Z.eqb_spec (d_arena_resets d1) (d_arena_resets d)) as [Ear|]; [|done].
    cbn [negb orb] in Ep. destruct (d_smc_invalidations d1 =? _); [|done]. cbn [negb] in Ep.
    destruct (Hl p Ep) as (Hn & pb & Epb). split; [done|]. destruct P1 as [P1|[_ ?]]; [|done]. split.
    - exists pb. rewrite (st_heap _ _ S2). by apply (lookup_weaken _ _ _ _ Epb), P1.
    - intros ->. by destruct B1. }
  clearbody prev2. destruct prev2 as [p|]; [|by exists ob, None, d2].
  destruct (Hp2 p eq_refl) as (Hn & (pb & Epb) & Hob). rewrite Hn in *.
  assert (d_no_cache d2 = false) as -> by (by rewrite (ss_no_cache _ _ SS)).
  destruct ob as [r|]; [|done]. destruct (B2 r eq_refl) as (b & Eb & Ebpc).
  rewrite (upd_twice _ _ _ _ pb) by done.
  destruct (upd_ok None p (λ b, set_b_predicted_next_pc pc (set_b_predicted_next (Some r) b)) pb d2)
    as (d3 & E3 & H3 & M3 & S3 & Eh3 & _); [done..| |].
  { cbn. intros p' [= <-]. split; [done|]. exists b. split; [done|]. by rewrite u32_small. }
  rewrite (bind_Some _ _ _ _ _ E3).
  set (pb3 := set_b_predicted_next_pc pc _) in *.
  assert (d_heap d3 !! p = Some pb3) as Ep3 by (rewrite Eh3; apply lookup_insert_eq).
  assert (∃ b3, d_heap d3 !! r = Some b3 ∧ b_pc_start b3 = pc) as (b3 & Eb3 & Eb3pc).
  { rewrite Eh3. destruct (decide (p = r)) as [<-|]; [|by exists b; rewrite lookup_insert_ne].
    exists pb3. rewrite lookup_insert_eq. split; [done|]. cbn. congruence. }
  rewrite (bind_Some _ _ _ _ _ (deref_Some _ _ _ Ep3)), (bind_Some _ _ _ _ _ (deref_Some _ _ _ Eb3)).
  match goal with |- context [upd_block p ?f ;; _] =>
    destruct (upd_ok None p f pb3 d3) as (d4 & E4 & H4 & M4 & S4 & Eh4 & _); [done..| |] end.
  { cbn. intros p' [= <-]. split; [done|]. exists b3. by rewrite u32_small. }
  rewrite (bind_Some _ _ _ _ _ E4). exists (Some r), (Some p), d4. split_and!; [done| | |done|].
  - eapply same_setup_trans; [|exact S4]. by eapply same_setup_trans.
  - by rewrite M4, M3.
  - intros r' [= <-]. rewrite Eh4. destruct (decide (p = r)) as [<-|]; [|by exists b3; rewrite lookup_insert_ne].
    eexists. rewrite lookup_insert_eq. split; [done|]. cbn. congruence.
Qed.

Lemma execute_block_spec X r entry b d : disp_ok X d → d_heap d !! r = Some b → running until (d_mach d) →
  ∃ d', execute_block r entry d = Some (tt, d') ∧ disp_ok X d' ∧ same_setup d d' ∧ ∃ b', d_heap d' !! r = Some b'.
Proof.
  intros Hd E Hr. unfold execute_block. rewrite (bind_Some (gets _) _ d _ d eq_refl).
  destruct (upd_ok X r (set_b_last_used_cycle (cpu_cycles (cpu (d_mach d)))) b d)
    as (d1 & E1 & H1 & M1 & S1 & Eh1 & _); [done..| |].
  { cbn. intros p Ep. by apply (do_pred _ _ Hd r b). }
  rewrite (bind_Some _ _ _ _ _ E1). set (b1 := set_b_last_used_cycle _ b) in *.
  assert (d_heap d1 !! r = Some b1) as Eb1 by (rewrite Eh1; apply lookup_insert_eq).
  rewrite (bind_Some _ _ _ _ _ (deref_Some _ _ _ Eb1)).
  set (off := match entry with Some e => _ | None => _ end).
  destruct (jo_enter _ _ _ HJ b1 off (d_mach d1)) as (n & s' & E2 & Hs'); [apply H1|by rewrite M1|].
  destruct (guest_ok X (enter_block b1 off) d1 n s' H1 E2 Hs') as (d2 & E3 & H3 & S3 & _).
  rewrite (bind_Some _ _ _ _ _ E3).
  destruct (bump_ok X d_blocks_executed set_d_blocks_executed d2) as (d3 & E4 & H4 & S4 & _); [done|done|].
  exists d3. split_and!; [done..| |].
  - eapply same_setup_trans; [exact S1|]. eapply same_setup_trans; [apply S3|apply S4].
  - exists b1. by rewrite (st_heap _ _ S4), (st_heap _ _ S3).
Qed.

Lemma flush_ok d : disp_ok None d → flushes d = true →
  ∃ d', smc_flush d = Some (true, d') ∧ disp_ok None d' ∧ same_setup d d'.
Proof.
  intros [Ht Hm Hmode HGd Hp Hdirty Hdep] Hf.
  destruct (smc_flush_spec d Ht Hm) as (d' & E & T & M & S & Em & Edp & Eo & H); [by rewrite Hmode|done|done|].
  exists d'. split_and!; [done| |done]. split; try done.
  - by rewrite (ss_cc _ _ S).
  - by rewrite Em.
  - intros r b p E' Ep. apply H in E' as (b0 & _ & -> & _). done.
  - rewrite Edp. intros p Hn. by apply elem_of_nil in Hn.
  - by rewrite (ss_depth _ _ S).
Qed.

Lemma free_extra_ok r d : disp_ok (Some r) d →
  ∃ d', m68k_block_free r d = Some (tt, d') ∧ disp_ok None d' ∧ same_setup d d' ∧ d_dirty_pages d' = d_dirty_pages d ∧
    d_smc_overflow d' = d_smc_overflow d.
Proof.
  intros [Ht [Hl Hm] ? ? Hp ? ?]. destruct (free_extra_spec r d Ht) as (d' & E & T & ->). eexists. split; [exact E|].
  split_and!; try done. split; try done.
  - split; [done|]. intros r' b' x E' _ Hx. cbn in E'. apply lookup_delete_Some in E' as [? E'].
    apply (Hm r' b'); [done|congruence|done].
  - intros r' b' p E' Ep. cbn in E'. apply lookup_delete_Some in E' as [? E'].
    destruct (Hp r' b' p E' Ep) as (? & pb & ? & ?). split; [done|]. exists pb. split; [|done].
    cbn. rewrite lookup_delete_ne; [done|congruence].
Qed.

Lemma after_block_spec r d b : disp_ok (if d_no_cache d then Some r else None) d → d_heap d !! r = Some b →
  ∃ prev d', after_block r d = Some (prev, d') ∧ disp_ok None d' ∧ live prev d' ∧ same_setup d d'.
Proof.
  intros Hd E. unfold after_block. rewrite (bind_Some (gets _) _ d _ d eq_refl).
  assert (∃ prev d1, (if d_no_cache d then m68k_block_free r ;; mret None else mret (Some r)) d = Some (prev, d1) ∧
    disp_ok None d1 ∧ same_setup d d1 ∧ live prev d1) as (prev & d1 & E1 & H1 & S1 & L1).
  { destruct (d_no_cache d) eqn:En.
    - destruct (free_extra_ok r d Hd) as (d1 & E1 & H1 & S1 & _). exists None, d1.
      by rewrite (bind_Some _ _ _ _ _ E1).
    - exists (Some r), d. split_and!; [done..|]. intros p [= <-]. eauto. }
  rewrite (bind_Some _ _ _ _ _ E1), (bind_Some (gets id) _ d1 d1 d1) by done. unfold id.
  destruct (negb (length (d_dirty_pages d1) =? 0)%nat || d_smc_overflow d1) eqn:Ef; [|by exists prev, d1].
  destruct (flush_ok d1 H1) as (d2 & E2 & H2 & S2); [unfold flushes; by rewrite orb_comm|].
  rewrite (bind_Some _ _ _ _ _ E2). exists None, d2. split_and!; [done..|]. by eapply same_setup_trans.
Qed.

Lemma dispatch_spec prev d : disp_ok None d → running until (d_mach d) → live prev d →
  ∃ prev' d', dispatch prev d = Some (prev', d') ∧ disp_ok None d' ∧ live prev' d' ∧ same_setup d d'.
Proof.
  intros Hd Hr Hl. unfold dispatch. rewrite (bind_Some (gets _) _ d _ d eq_refl). set (pc := cpu_pc _).
  assert (word32 pc) as Hpc by apply (ma_pc _ _ _ HG), (do_mach _ _ Hd).
  destruct (predicted_spec prev pc d Hd Hl) as (hit & E1 & Hhit). rewrite (bind_Some _ _ _ _ _ E1).
  destruct hit as [r|].
  - destruct (Hhit r eq_refl) as (p & pb & b & -> & Epb & Eb & _). destruct (Hl p eq_refl) as [Hn _].
    destruct (bump_ok None d_chain_hits set_d_chain_hits d) as (d1 & E2 & H1 & S1 & M1); [done|done|].
    rewrite (bind_Some _ _ _ _ _ E2).
    rewrite (bind_Some _ _ d1 pb d1) by (apply deref_Some; by rewrite (st_heap _ _ S1)).
    rewrite (bind_Some _ _ d1 b d1) by (apply deref_Some; by rewrite (st_heap _ _ S1)).
    destruct (bump_spec None d_chain_cache_matches set_d_chain_cache_matches (b_cache_sig pb =? b_cache_sig b) d1)
      as (d2 & E3 & H2 & S2 & M2); [done|done|]. rewrite (bind_Some _ _ _ _ _ E3).
    destruct (execute_block_spec None r (b_predicted_next_entry pb) b d2 H2) as (d3 & E4 & H3 & S3 & b3 & Eb3).
    { by rewrite (st_heap _ _ S2), (st_heap _ _ S1). }
    { by rewrite M2, M1. }
    rewrite (bind_Some _ _ _ _ _ E4).
    assert (same_setup d d3) as SS.
    { eapply same_setup_trans; [apply S1|]. eapply same_setup_trans; [apply S2|done]. }
    destruct (after_block_spec r d3 b3) as (prev' & d4 & E5 & H4 & L4 & S4); [by rewrite (ss_no_cache _ _ SS), Hn|done|].
    exists prev', d4. split_and!; [done..|]. by eapply same_setup_trans.
  - destruct (chain_miss_spec prev pc d Hd Hr Hl Hpc) as (ob & prev' & d1 & E2 & S1 & K1 & H1 & B1).
    assert (running until (d_mach d1)) as R1 by (by eapply keeps_running_on).
    assert (∃ prev2 d', match ob with
        | None => guest m68k_step ;; bump d_interp_fallbacks set_d_interp_fallbacks ;; mret None
        | Some r => execute_block r None ;; after_block r
        end d1 = Some (prev2, d') ∧ disp_ok None d' ∧ live prev2 d' ∧ same_setup d1 d') as (prev2 & d2 & E3 & ? & ? & S2).
    { destruct ob as [r|].
      - destruct (B1 r eq_refl) as (b & Eb & _).
        destruct (execute_block_spec _ r None b d1 H1 Eb R1) as (d2 & E3 & H2 & S2 & b2 & Eb2).
        rewrite (bind_Some _ _ _ _ _ E3).
        destruct (after_block_spec r d2 b2) as (prev2 & d3 & E4 & H3 & L3 & S3); [|done|].
        { rewrite (ss_no_cache _ _ S2), (ss_no_cache _ _ S1). done. }
        exists prev2, d3. split_and!; [done..|]. by eapply same_setup_trans.
      - destruct (ma_step _ _ _ HG (d_mach d1)) as (s' & E3 & Hs'); [apply H1|done|].
        assert (disp_ok None d1) as H1' by (by destruct (d_no_cache d)).
        destruct (guest_ok None m68k_step d1 tt s' H1' E3 Hs') as (d2 & E4 & H2 & S2 & _).
        rewrite (bind_Some _ _ _ _ _ E4).
        destruct (bump_ok None d_interp_fallbacks set_d_interp_fallbacks d2) as (d3 & E5 & H3 & S3 & M3); [done|done|].
        rewrite (bind_Some _ _ _ _ _ E5). exists None, d3. split_and!; [done..|].
        eapply same_setup_trans; [apply S2|apply S3]. }
    destruct prev; rewrite (bind_Some _ _ _ _ _ E2); destruct ob; exists prev2, d2;
      (split_and!; [done|done|done|by eapply same_setup_trans]).
Qed.

Lemma live_same prev d d' : same_tables d d' → live prev d → live prev d'.
Proof.
  intros S H p Ep. destruct (H p Ep) as (Hn & b & Eb). split; [by rewrite (ss_no_cache _ _ (st_setup _ _ S))|].
  exists b. by rewrite (st_heap _ _ S).
Qed.

(** A guest operation that tells whether to go back to the top of the loop. *)
Lemma guest_check (op : M mac bool) d : disp_ok None d →
  (∃ t s', op (d_mach d) = Some (t, s') ∧ G s' ∧ (t = false → keeps_running (d_mach d) s')) →
  ∃ t d', guest op d = Some (t, d') ∧ disp_ok None d' ∧ same_tables d d' ∧
    (t = false → keeps_running (d_mach d) (d_mach d')).
Proof.
  intros Hd (t & s' & E & Hs' & Hk). destruct (guest_ok None op d t s' Hd E Hs') as (d' & E' & Hd' & S & Hm).
  exists t, d'. split_and!; [done..|]. intros Ht. destruct Hm as [-> | ->]; exact (Hk Ht).
Qed.

Lemma run_once_spec prev d : disp_ok None d → running until (d_mach d) → live prev d →
  ∃ prev' d', run_once prev d = Some (prev', d') ∧ disp_ok None d' ∧ live prev' d' ∧ same_setup d d'.
Proof.
  intros Hd Hr Hl. unfold run_once. rewrite (bind_Some (gets _) _ d _ d eq_refl).
  destruct (guest_runs None (mac_mem_tick (cpu_cycles (cpu (d_mach d)))) d Hd Hr) as ([] & d1 & E1 & H1 & S1 & K1).
  { destruct (ma_tick _ _ _ HG (d_mach d) (do_mach _ _ Hd) Hr) as (s' & ? & ? & ?). by exists tt, s'. }
  rewrite (bind_Some _ _ _ _ _ E1). assert (running until (d_mach d1)) as R1 by (by eapply keeps_running_on).
  destruct (guest_check m68k_poll_interrupts d1 H1) as (t & d2 & E2 & H2 & S2 & K2).
  { apply (ma_poll _ _ _ HG); [apply H1|done]. }
  rewrite (bind_Some _ _ _ _ _ E2). assert (same_setup d d2) as SS2 by (eapply same_setup_trans; [apply S1|apply S2]).
  destruct t; [by exists None, d2|].
  assert (running until (d_mach d2)) as R2 by (eapply keeps_running_on; [by apply K2|done]).
  destruct (guest_check (sony_service mac_accessors) d2 H2) as (t & d3 & E3 & H3 & S3 & K3).
  { apply (ma_service _ _ _ HG); [apply H2|done]. }
  rewrite (bind_Some _ _ _ _ _ E3). assert (same_setup d d3) as SS3 by (eapply same_setup_trans; [done|apply S3]).
  destruct t; [by exists None, d3|].
  assert (running until (d_mach d3)) as R3 by (eapply keeps_running_on; [by apply K3|done]).
  assert (live prev d3) as L3.
  { eapply live_same; [exact S3|]. eapply live_same; [exact S2|]. by eapply live_same. }
  rewrite (bind_Some (gets _) _ d3 _ d3 eq_refl). destruct (nz (cpu_stopped (cpu (d_mach d3)))) eqn:Es.
  - destruct (ma_idle _ _ _ HG (d_mach d3)) as (s' & E4 & Hs'); [apply H3|done|done|].
    destruct (guest_ok None (add_cycles 64) d3 tt s' H3 E4 Hs') as (d4 & E5 & H4 & S4 & _).
    rewrite (bind_Some _ _ _ _ _ E5). exists prev, d4. split_and!; [done|done|by eapply live_same|].
    eapply same_setup_trans; [exact SS3|apply S4].
  - destruct (dispatch_spec prev d3 H3 R3 L3) as (prev' & d4 & E4 & H4 & L4 & S4).
    exists prev', d4. split_and!; [done..|]. by eapply same_setup_trans.
Qed.

Lemma run_until_spec n prev d : disp_ok None d → live prev d →
  ∃ e d', m68k_dispatcher_run_until n until prev d = Some (e, d') ∧ disp_ok None d' ∧ same_setup d d' ∧
    (e = true → ¬ running until (d_mach d')).
Proof.
  revert prev d. induction n as [|n IH]; intros prev d Hd Hl; cbn [m68k_dispatcher_run_until];
    rewrite (bind_Some (gets id) _ d d d) by done; unfold id;
    (destruct (negb (cpu_cycles (cpu (d_mach d)) <? until) || nz (cpu_halted (cpu (d_mach d)))) eqn:Ee;
     [exists true, d; split_and!; [done..|]; intros _ []; unfold nz in Ee; lia|]).
  { exists false, d. by split_and!. }
  destruct (run_once_spec prev d Hd) as (prev' & d1 & E1 & H1 & L1 & S1); [|done|].
  { apply orb_false_iff in Ee as [E1 E2]. unfold nz in E2. split; lia. }
  rewrite (bind_Some _ _ _ _ _ E1).
  destruct (IH prev' d1 H1 L1) as (e & d2 & E2 & H2 & S2 & He). exists e, d2. split_and!; [done..| |done].
  by eapply same_setup_trans.
Qed.
End safety.


(** *** A machine to run *)

(** Initialisation gives a well-formed dispatcher. *)
Lemma init_ok (G : mac → Prop) cpu arena kb d :
  m68k_dispatcher_init_ex cpu arena kb CC_MODE_BUMP = Some d → G (with_bus (set_mem_watch true) cpu) → disp_ok G None d.
Proof.
  unfold m68k_dispatcher_init_ex, codecache_init, whole_arena.
  rewrite (bind_Some (gets id) _ _ (mk_cc arena 0 (u32 (kb * 1024) .& not32 (CC_ALIGN - 1)) CC_MODE_BUMP CC_NIL)
    (mk_cc arena 0 (u32 (kb * 1024) .& not32 (CC_ALIGN - 1)) CC_MODE_BUMP CC_NIL)) by done.
  change (cc_mode _ =? CC_MODE_LRU) with false. cbn [andb when mret M_ret]. intros [= <-] HGc.
  assert (∀ i, bucket i (mk_disp (with_bus (set_mem_watch true) cpu)
    (mk_cc arena 0 (u32 (kb * 1024) .& not32 (CC_ALIGN - 1)) CC_MODE_BUMP CC_NIL)
    (replicate (Z.to_nat M68K_JIT_BLOCK_BUCKETS) []) ∅ 0 0 0 0 0 0 0 0 0 0 0 0 0 false 0 0
    (replicate (Z.to_nat 8192) 0) [] false) = []) as Hb.
  { intros i. unfold bucket. cbn [d_buckets]. rewrite nth_lookup. destruct (_ !! _) eqn:E; [|done].
    by apply lookup_replicate in E as [-> _]. }
  split; cbn [d_cc cc_mode d_mach d_dirty_pages d_prefetch_depth]; try done.
  - split; try done.
    + intros i. rewrite Hb. constructor.
    + intros i r _ Hr. rewrite Hb in Hr. by apply elem_of_nil in Hr.
  - intros p Hp. by apply elem_of_nil in Hp.
Qed.

(** A compiler whose blocks are one instruction, run by the interpreter. *)
Definition one_op_block (pc : Z) : m68k_block :=
  mk_block pc (pc + 2) 1 0 8 0 0 0 false 0 1 None 0xFFFFFFFF None 0 0 0 pc.
#[local] Instance stepping_jit : Jit := {|
  compile_block pc := if (0 <=? pc) && (pc <? 0x100) then mret (Some (one_op_block pc)) else mret None;
  enter_block _ _ := m68k_step ;; mret 1
|}.

Definition loop_machine : mac := with_bus (set_mem_watch true)
  match mac_mem_tick 0 mac_example with Some (_, s) => s | None => mac_example end.

(** The machines of a run up to cycle 1: the first, and any past its end. *)
Definition loop_states (s : mac) : Prop := (s = loop_machine ∨ 1 ≤ cpu_cycles (cpu s)) ∧ word32 (cpu_pc (cpu s)).

Lemma tick_loop : mac_mem_tick 0 loop_machine = Some (tt, loop_machine).
Proof. vm_compute. reflexivity. Qed.
Lemma poll_loop : m68k_poll_interrupts loop_machine = Some (false, loop_machine).
Proof. vm_compute. reflexivity. Qed.
Lemma service_loop : sony_service mac_accessors loop_machine = Some (false, loop_machine).
Proof. vm_compute. reflexivity. Qed.
Lemma budget_loop : with_cpu (set_cpu_chain_budget 0) loop_machine = loop_machine.
Proof. vm_compute. reflexivity. Qed.
Lemma step_loop : ∃ s, m68k_step loop_machine = Some (tt, s) ∧ 1 ≤ cpu_cycles (cpu s) ∧ word32 (cpu_pc (cpu s)).
Proof.
  assert (match m68k_step loop_machine with
    | Some (_, s) => (1 <=? cpu_cycles (cpu s)) && ((0 <=? cpu_pc (cpu s)) && (cpu_pc (cpu s) <? 0x100000000))
    | None => false end = true) as H by (vm_compute; reflexivity).
  destruct (m68k_step loop_machine) as [[[] s]|]; [|done]. exists s. split; [done|]. unfold word32. lia.
Qed.

Lemma loop_running s : loop_states s → running 1 s → s = loop_machine.
Proof. intros [[->|] _] []; [done|lia]. Qed.

Lemma loop_step s : loop_states s → running 1 s → ∃ s', m68k_step s = Some (tt, s') ∧ loop_states s'.
Proof.
  intros Hs Hr. rewrite (loop_running s Hs Hr). destruct step_loop as (s' & E & ? & ?). exists s'. split; [done|].
  split; [by right|done].
Qed.

Lemma loop_machine_states : loop_states loop_machine.
Proof. split; [by left|]. vm_compute. done. Qed.

Lemma loop_machine_ok : machine_ok loop_states (λ b, b_last_op b = 0) 1.
Proof.
  split.
  - intros s Hs Hr. rewrite (loop_running s Hs Hr). exists loop_machine. split; [exact tick_loop|]. by split; [apply loop_machine_states|].
  - intros s Hs Hr. rewrite (loop_running s Hs Hr). exists false, loop_machine. split; [exact poll_loop|].
    by split; [apply loop_machine_states|].
  - intros s Hs Hr. rewrite (loop_running s Hs Hr). exists false, loop_machine. split; [exact service_loop|].
    by split; [apply loop_machine_states|].
  - intros s Hs Hr. rewrite (loop_running s Hs Hr). intros Hst. by vm_compute in Hst.
  - exact loop_step.
  - intros b s Hb Hs Hr. rewrite (loop_running s Hs Hr). unfold m68k_block_static_successors. rewrite Hb.
    exists [b_pc_end b], loop_machine. split; [done|]. by split; [apply loop_machine_states|].
  - intros s [[->|Hc] Hp]; [rewrite budget_loop; apply loop_machine_states|]. split; [by right|done].
  - by intros s [_ ?].
Qed.

Lemma stepping_jit_ok : jit_ok loop_states (λ b, b_last_op b = 0) 1.
Proof.
  split.
  - intros pc d Hs _ Hc. cbn [compile_block stepping_jit].
    destruct ((0 <=? pc) && (pc <? 0x100)) eqn:E; eexists _, (d_cc d), (d_mach d);
      (split; [by destruct d|]); (split_and!; [done|done..|]); intros b [= <-].
    split_and!; try done. unfold block_ok. cbn. lia.
  - intros b off s Hs Hr. destruct (loop_step s Hs Hr) as (s' & E & Hs'). exists 1, s'. split; [|done].
    cbn [enter_block stepping_jit]. by rewrite (bind_Some _ _ _ _ _ E).
Qed.

Definition loop_dispatcher : dispatcher :=
  mk_disp loop_machine (mk_cc [] 0 0 CC_MODE_BUMP CC_NIL)
    (replicate (Z.to_nat M68K_JIT_BLOCK_BUCKETS) []) ∅ 0
    0 0 0 0 0 0 0 0 0 0 0 0 false 0 0 (replicate (Z.to_nat 8192) 0) [] false.

Lemma loop_dispatcher_ok : disp_ok loop_states None loop_dispatcher.
Proof. apply (init_ok loop_states loop_machine [] 0); [reflexivity|apply loop_machine_states]. Qed.


Lemma loop_table_ok : table_ok loop_dispatcher.
Proof. destruct loop_dispatcher_ok. by split. Qed.

(** The same with one block, at 0x100. *)
Definition one_block_dispatcher : dispatcher :=
  match (r ← new_block (one_op_block 0x100); insert_block r ;; smc_mark_block r) loop_dispatcher with
  | Some (_, d) => d
  | None => loop_dispatcher
  end.

Lemma one_block_ok : disp_ok loop_states None one_block_dispatcher.
Proof.
  unfold one_block_dispatcher. pose proof loop_dispatcher_ok as H0. revert H0. generalize loop_dispatcher. intros d H0.
  destruct (new_block_ok loop_states (one_op_block 0x100) d H0) as (r & d1 & E1 & H1 & Eb & _); [done|].
  rewrite (bind_Some _ _ _ _ _ E1).
  destruct (cache_block loop_states r (one_op_block 0x100) d1 H1 Eb) as (d2 & E2 & H2 & _); [unfold block_ok; cbn; lia|].
  by rewrite E2.
Qed.

(** A write to 0x101 drops the block at 0x100. *)
Lemma overwritten_code_dropped_witness : ∃ d1 flushed d2,
  for_each [0x101; 0x2000] smc_watch one_block_dispatcher = Some (tt, d1) ∧
  smc_flush d1 = Some (flushed, d2) ∧ table_ok d2 ∧
  ∀ r b, d_heap d2 !! r = Some b → ¬ b_pc_start b ≤ 0x101 < b_pc_end b.
Proof.
  destruct (overwritten_code_dropped one_block_dispatcher [0x101; 0x2000])
    as (d1 & f & d2 & E1 & E2 & H & Hd & _).
  - destruct one_block_ok. split; [done..|]. by rewrite do_mode0.
  - vm_compute. reflexivity.
  - vm_compute. reflexivity.
  - exists d1, f, d2. split_and!; [done..|]. intros r b E. apply (Hd r b 0x101 E). by left.
Defined.
