(* ===== verification/HostSim.v ===== *)
(** * Running compiled code on the host (jit/dispatcher.c)

    How the host build executes a block: the simulator's callbacks over the
    machine, which place the CPU's struct, a stack, guest RAM and ROM and the
    block's own code at fixed addresses, and [enter_block].  The struct layout
    is the one of the 64-bit host. *)

From Stdlib Require Import ZArith Lia.
From stdpp Require Import base tactics list numbers.
From S2P Require Import Prelude Cpu Step JitHelpers MacState Sony MacMem MacSafe MacBus XtEmit XtSim Block.

(** ** The literal pool *)

Inductive literal_id :=
  | ADDR_CPU_BASE | HELPER_M68K_STEP | ADDR_RAM_BASE | LITERAL_RAM_BOUNDS | LITERAL_BCC_PC
  | HELPER_JIT_ORI_B_MMIO | HELPER_JIT_BTST_B_MMIO | HELPER_JIT_MOVEM_L_POSTINC
  | HELPER_JIT_MOVEM_L_PREDEC | HELPER_JIT_MOVEM_W_TO_MEM | HELPER_JIT_MOVEM_L_TO_MEM
  | HELPER_JIT_MOVE_W_POSTINC_TO_DN | HELPER_JIT_RTS_MMIO | HELPER_JIT_BSR_S_MMIO
  | HELPER_JIT_BSR_W_MMIO | HELPER_JIT_MOVE_L_POSTINC_TO_DN_MMIO
  | HELPER_JIT_MOVE_B_ADDR_TO_DN_MMIO | HELPER_JIT_MOVE_B_DN_TO_ADDR_MMIO
  | HELPER_JIT_MOVE_L_DN_TO_ANPI_MMIO | HELPER_JIT_MOVE_B_ADDR_TO_AN_MMIO
  | HELPER_JIT_MOVE_B_IMM_TO_ADDR_MMIO | HELPER_JIT_FLINE_TRAP | HELPER_JIT_MOVE_L_AN_TO_DN_MMIO
  | HELPER_JIT_CLR_W_ANPI_MMIO | HELPER_JIT_TST_B_MMIO | HELPER_JIT_ALINE_TRAP
  | HELPER_JIT_MOVE_ANPI_TO_SR | HELPER_JIT_RTE | HELPER_JIT_BITOP_DN_AN_MMIO
  | HELPER_JIT_MOVE_L_XXXW_TO_AN_MMIO | HELPER_JIT_MOVE_B_ADDR_TO_ADDR_MMIO
  | HELPER_JIT_MOVE_L_ADDR_TO_ADDR_MMIO | HELPER_JIT_MOVE_W_ADDR_TO_DN_MMIO
  | HELPER_JIT_MOVE_B_POSTINC_TO_DN_MMIO | HELPER_JIT_MOVEA_L_ADDR_TO_AM_MMIO
  | HELPER_JIT_CMP_W_ADDR_DN_MMIO | HELPER_JIT_MOVE_W_ADDR_TO_POSTINC_MMIO
  | HELPER_JIT_MOVEA_W_ADDR_TO_AM_MMIO | LITERAL_ROM_BOUNDS | LITERAL_ROM_BASE
  | ADDR_ROM_HOST_BASE | LITERAL_RAM_BOUNDS_BYTE | LITERAL_ROM_BOUNDS_BYTE.
#[export] Instance literal_id_eq_dec : EqDecision literal_id.
Proof. solve_decision. Defined.

(** In the order of the enumeration. *)
Definition all_literals : list literal_id :=
  [ADDR_CPU_BASE; HELPER_M68K_STEP; ADDR_RAM_BASE; LITERAL_RAM_BOUNDS; LITERAL_BCC_PC;
  HELPER_JIT_ORI_B_MMIO; HELPER_JIT_BTST_B_MMIO; HELPER_JIT_MOVEM_L_POSTINC;
  HELPER_JIT_MOVEM_L_PREDEC; HELPER_JIT_MOVEM_W_TO_MEM; HELPER_JIT_MOVEM_L_TO_MEM;
  HELPER_JIT_MOVE_W_POSTINC_TO_DN; HELPER_JIT_RTS_MMIO; HELPER_JIT_BSR_S_MMIO;
  HELPER_JIT_BSR_W_MMIO; HELPER_JIT_MOVE_L_POSTINC_TO_DN_MMIO; HELPER_JIT_MOVE_B_ADDR_TO_DN_MMIO;
  HELPER_JIT_MOVE_B_DN_TO_ADDR_MMIO; HELPER_JIT_MOVE_L_DN_TO_ANPI_MMIO;
  HELPER_JIT_MOVE_B_ADDR_TO_AN_MMIO; HELPER_JIT_MOVE_B_IMM_TO_ADDR_MMIO; HELPER_JIT_FLINE_TRAP;
  HELPER_JIT_MOVE_L_AN_TO_DN_MMIO; HELPER_JIT_CLR_W_ANPI_MMIO; HELPER_JIT_TST_B_MMIO;
  HELPER_JIT_ALINE_TRAP; HELPER_JIT_MOVE_ANPI_TO_SR; HELPER_JIT_RTE; HELPER_JIT_BITOP_DN_AN_MMIO;
  HELPER_JIT_MOVE_L_XXXW_TO_AN_MMIO; HELPER_JIT_MOVE_B_ADDR_TO_ADDR_MMIO;
  HELPER_JIT_MOVE_L_ADDR_TO_ADDR_MMIO; HELPER_JIT_MOVE_W_ADDR_TO_DN_MMIO;
  HELPER_JIT_MOVE_B_POSTINC_TO_DN_MMIO; HELPER_JIT_MOVEA_L_ADDR_TO_AM_MMIO;
  HELPER_JIT_CMP_W_ADDR_DN_MMIO; HELPER_JIT_MOVE_W_ADDR_TO_POSTINC_MMIO;
  HELPER_JIT_MOVEA_W_ADDR_TO_AM_MMIO; LITERAL_ROM_BOUNDS; LITERAL_ROM_BASE; ADDR_ROM_HOST_BASE;
  LITERAL_RAM_BOUNDS_BYTE; LITERAL_ROM_BOUNDS_BYTE].
Definition LITERAL_COUNT : Z := Z.of_nat (length all_literals).
Definition lit_num (l : literal_id) : Z :=
  match list_find (eq l) all_literals with Some (i, _) => Z.of_nat i | None => LITERAL_COUNT end.

Definition HOST_CPU_BASE : Z := 0x40000000.
Definition HOST_STACK_BASE : Z := 0x50000000.
Definition HOST_STACK_TOP : Z := HOST_STACK_BASE + 0x800.
Definition HOST_RAM_BASE : Z := 0x60000000.

(** The masks of the fast paths: zero on the addresses they admit; all ones
    when the size is not a power of two or the overlay is on. *)
Definition bounds_mask (overlay : bool) (sz : Z) (word : bool) : Z :=
  if overlay then 0xFFFFFFFF
  else if (sz =? 0) || nz (sz .& u32 (sz - 1)) then 0xFFFFFFFF
  else if word then not32 (u32 (sz - 1)) .| 1 else not32 (u32 (sz - 1)).
Definition ram_bounds_mask (m : mac_mem) : Z := bounds_mask (mem_overlay m) (mem_ram_size m) true.
Definition rom_bounds_mask (m : mac_mem) : Z := bounds_mask (mem_overlay m) (mem_rom_size m) true.
Definition ram_bounds_mask_byte (m : mac_mem) : Z := bounds_mask (mem_overlay m) (mem_ram_size m) false.
Definition rom_bounds_mask_byte (m : mac_mem) : Z := bounds_mask (mem_overlay m) (mem_rom_size m) false.

(** The host's [helper_addr]. *)
Definition helper_addr (id : literal_id) (m : mac_mem) : Z :=
  match id with
  | ADDR_CPU_BASE => HOST_CPU_BASE
  | ADDR_RAM_BASE => HOST_RAM_BASE
  | LITERAL_RAM_BOUNDS => ram_bounds_mask m
  | LITERAL_BCC_PC => 0
  | LITERAL_ROM_BOUNDS => rom_bounds_mask m
  | LITERAL_ROM_BASE => match mem_rom m with Some _ => MAC_ROM_BASE | None => 0xFFFFFFFF end
  | ADDR_ROM_HOST_BASE => match mem_rom m with Some _ => HOST_RAM_BASE | None => 0 end
  | LITERAL_RAM_BOUNDS_BYTE => ram_bounds_mask_byte m
  | LITERAL_ROM_BOUNDS_BYTE => rom_bounds_mask_byte m
  | helper => lit_num helper
  end.

(** The helper behind a token. *)
Definition sim_helper (id : literal_id) : M mac unit :=
  match id with
  | HELPER_M68K_STEP => m68k_step
  | HELPER_JIT_ORI_B_MMIO => m68k_jit_ori_b_mmio
  | HELPER_JIT_BTST_B_MMIO => m68k_jit_btst_b_mmio
  | HELPER_JIT_MOVEM_L_POSTINC => m68k_jit_movem_l_postinc_to_regs
  | HELPER_JIT_MOVEM_L_PREDEC => m68k_jit_movem_l_predec_from_regs
  | HELPER_JIT_MOVEM_W_TO_MEM => m68k_jit_movem_w_to_mem
  | HELPER_JIT_MOVEM_L_TO_MEM => m68k_jit_movem_l_to_mem
  | HELPER_JIT_MOVE_W_POSTINC_TO_DN => m68k_jit_move_w_postinc_to_dn
  | HELPER_JIT_RTS_MMIO => m68k_jit_rts_mmio
  | HELPER_JIT_BSR_S_MMIO => m68k_jit_bsr_s_mmio
  | HELPER_JIT_BSR_W_MMIO => m68k_jit_bsr_w_mmio
  | HELPER_JIT_MOVE_L_POSTINC_TO_DN_MMIO => m68k_jit_move_l_postinc_to_dn_mmio
  | HELPER_JIT_MOVE_B_ADDR_TO_DN_MMIO => m68k_jit_move_b_addr_to_dn_mmio
  | HELPER_JIT_MOVE_B_DN_TO_ADDR_MMIO => m68k_jit_move_b_dn_to_addr_mmio
  | HELPER_JIT_MOVE_L_DN_TO_ANPI_MMIO => m68k_jit_move_l_dn_to_anpi_mmio
  | HELPER_JIT_MOVE_B_ADDR_TO_AN_MMIO => m68k_jit_move_b_addr_to_an_mmio
  | HELPER_JIT_MOVE_B_IMM_TO_ADDR_MMIO => m68k_jit_move_b_imm_to_addr_mmio
  | HELPER_JIT_FLINE_TRAP => m68k_jit_fline_trap
  | HELPER_JIT_MOVE_L_AN_TO_DN_MMIO => m68k_jit_move_l_an_to_dn_mmio
  | HELPER_JIT_CLR_W_ANPI_MMIO => m68k_jit_clr_w_anpi_mmio
  | HELPER_JIT_TST_B_MMIO => m68k_jit_tst_b_mmio
  | HELPER_JIT_ALINE_TRAP => m68k_jit_aline_trap
  | HELPER_JIT_MOVE_ANPI_TO_SR => m68k_jit_move_anpi_to_sr
  | HELPER_JIT_RTE => m68k_jit_rte
  | HELPER_JIT_BITOP_DN_AN_MMIO => m68k_jit_bitop_dn_an_mmio
  | HELPER_JIT_MOVE_L_XXXW_TO_AN_MMIO => m68k_jit_move_l_xxxw_to_an_mmio
  | HELPER_JIT_MOVE_B_ADDR_TO_ADDR_MMIO => m68k_jit_move_b_addr_to_addr_mmio
  | HELPER_JIT_MOVE_L_ADDR_TO_ADDR_MMIO => m68k_jit_move_l_addr_to_addr_mmio
  | HELPER_JIT_MOVE_W_ADDR_TO_DN_MMIO => m68k_jit_move_w_addr_to_dn_mmio
  | HELPER_JIT_MOVE_B_POSTINC_TO_DN_MMIO => m68k_jit_move_b_postinc_to_dn_mmio
  | HELPER_JIT_MOVEA_L_ADDR_TO_AM_MMIO => m68k_jit_movea_l_addr_to_am_mmio
  | HELPER_JIT_CMP_W_ADDR_DN_MMIO => m68k_jit_cmp_w_addr_dn_mmio
  | HELPER_JIT_MOVE_W_ADDR_TO_POSTINC_MMIO => m68k_jit_move_w_addr_to_postinc_mmio
  | HELPER_JIT_MOVEA_W_ADDR_TO_AM_MMIO => m68k_jit_movea_w_addr_to_am_mmio
  | _ => mret tt
  end.

(** ** The CPU's struct, by bytes *)

Inductive cpu_field :=
  | FD (n : Z) | FA (n : Z) | FPc | FSr | FUsp | FSsp | FCycles | FInstrs | FStopped | FHalted | FExitCode
  | FPendingIrq | FJitRetPc | FJitArg1 | FJitArg2 | FChainBudget.

(** Where each field starts, and its size.  The pointers [current_block] (at
    112) and [mem] (at 128) are not readable as numbers. *)
Definition cpu_layout : list (Z * Z * cpu_field) :=
  ((λ n, (4 * n, 4, FD n)) <$> upto 8) ++ ((λ n, (32 + 4 * n, 4, FA n)) <$> upto 8) ++
  [(64, 4, FPc); (68, 2, FSr); (72, 4, FUsp); (76, 4, FSsp); (80, 8, FCycles); (88, 8, FInstrs);
   (96, 1, FStopped); (97, 1, FHalted); (98, 1, FExitCode); (99, 1, FPendingIrq); (100, 4, FJitRetPc);
   (104, 4, FJitArg1); (108, 4, FJitArg2); (120, 4, FChainBudget)].
Definition sizeof_m68k_cpu : Z := 136.

Definition OFF_D (n : Z) : Z := 4 * n.
Definition OFF_A (n : Z) : Z := 32 + 4 * n.
Definition OFF_PC : Z := 64.
Definition OFF_SR : Z := 68.
Definition OFF_CYCLES : Z := 80.
Definition OFF_JITRETPC : Z := 100.
Definition OFF_JIT_ARG1 : Z := 104.
Definition OFF_JIT_ARG2 : Z := 108.

Definition get_field (f : cpu_field) (c : m68k_cpu) : Z :=
  match f with
  | FD n => dreg c n | FA n => areg c n | FPc => cpu_pc c | FSr => cpu_sr c | FUsp => cpu_usp c | FSsp => cpu_ssp c
  | FCycles => cpu_cycles c | FInstrs => cpu_instrs c | FStopped => cpu_stopped c | FHalted => cpu_halted c
  | FExitCode => cpu_exit_code c | FPendingIrq => cpu_pending_irq c | FJitRetPc => cpu_jit_ret_pc c
  | FJitArg1 => cpu_jit_arg1 c | FJitArg2 => cpu_jit_arg2 c | FChainBudget => cpu_chain_budget c
  end.
Definition set_field (f : cpu_field) (v : Z) : m68k_cpu → m68k_cpu :=
  match f with
  | FD n => set_dreg n v | FA n => set_areg n v | FPc => set_cpu_pc v | FSr => set_cpu_sr v | FUsp => set_cpu_usp v
  | FSsp => set_cpu_ssp v | FCycles => set_cpu_cycles v | FInstrs => set_cpu_instrs v | FStopped => set_cpu_stopped v
  | FHalted => set_cpu_halted v | FExitCode => set_cpu_exit_code v | FPendingIrq => set_cpu_pending_irq v
  | FJitRetPc => set_cpu_jit_ret_pc v | FJitArg1 => set_cpu_jit_arg1 v | FJitArg2 => set_cpu_jit_arg2 v
  | FChainBudget => set_cpu_chain_budget v
  end.

(** The field a byte of the struct belongs to, and which of its bytes it is. *)
Fixpoint field_in (l : list (Z * Z * cpu_field)) (k : Z) : option (cpu_field * Z) :=
  match l with
  | [] => None
  | (off, w, f) :: l => if (off <=? k) && (k <? off + w) then Some (f, k - off) else field_in l k
  end.
Definition field_at : Z → option (cpu_field * Z) := field_in cpu_layout.

Definition byte_of (v i : Z) : Z := (v ≫ (8 * i)) .& 0xFF.
Definition with_byte (v i b : Z) : Z := Z.ldiff v (0xFF ≪ (8 * i)) .| (b ≪ (8 * i)).

(** ** The callbacks *)

Record sim_ctx := mk_ctx {
  ctx_cpu : mac;
  ctx_code : list Z;  (** the block's code *)
  ctx_code_size : Z;
  ctx_stack : list Z
}.
Definition set_ctx_cpu (v : mac) (c : sim_ctx) : sim_ctx :=
  mk_ctx v (ctx_code c) (ctx_code_size c) (ctx_stack c).
Definition set_ctx_code (v : list Z) (c : sim_ctx) : sim_ctx :=
  mk_ctx (ctx_cpu c) v (ctx_code_size c) (ctx_stack c).
Definition set_ctx_stack (v : list Z) (c : sim_ctx) : sim_ctx :=
  mk_ctx (ctx_cpu c) (ctx_code c) (ctx_code_size c) v.

(** Host pointers: an object's number and an offset in it. *)
Definition ptr (object offset : Z) : Z := object * 0x100000000 + offset.
Definition P_CPU : Z := 1.
Definition P_STACK : Z := 2.
Definition P_RAM : Z := 3.
Definition P_ROM : Z := 4.
Definition P_CODE : Z := 5.

Definition sim_translate (s : xt_sim sim_ctx) (addr : Z) : option Z :=
  let c := sim_user s in
  let m := bus (ctx_cpu c) in
  let guest := u32 (addr - HOST_RAM_BASE) in
  let wrapped := guest .& u32 (mem_ram_size m - 1) in
  if (HOST_CPU_BASE <=? addr) && (addr <? HOST_CPU_BASE + sizeof_m68k_cpu) then Some (ptr P_CPU (addr - HOST_CPU_BASE))
  else if (HOST_STACK_BASE <=? addr) && (addr <? HOST_STACK_BASE + 0x800) then Some (ptr P_STACK (addr - HOST_STACK_BASE))
  else if (guest <? 0x400000) && (wrapped <? mem_ram_size m) then Some (ptr P_RAM wrapped)
  else if match mem_rom m with Some _ => true | None => false end && (0x400000 <=? guest) && (guest <? u32 (0x400000 + mem_rom_size m))
  then Some (ptr P_ROM (guest - 0x400000))
  else if addr <? ctx_code_size c then Some (ptr P_CODE addr)
  else None.

(** The bytes of an object, [None] outside it. *)
Definition list_at (l : list Z) (i : Z) : option Z := if i <? 0 then None else l !! Z.to_nat i.
Definition list_put (l : list Z) (i v : Z) : option (list Z) := _ ← list_at l i; Some (zset l i v).

Definition sim_peek (c : sim_ctx) (p : Z) : option Z :=
  let off := p mod 0x100000000 in
  u8 <$> match p / 0x100000000 with
  | 1 => '(f, i) ← field_at off; Some (byte_of (get_field f (cpu (ctx_cpu c))) i)
  | 2 => list_at (ctx_stack c) off
  | 3 => list_at (mem_ram (bus (ctx_cpu c))) off
  | 4 => rom ← mem_rom (bus (ctx_cpu c)); list_at rom off
  | 5 => list_at (ctx_code c) off
  | _ => None
  end.
Definition sim_poke (c : sim_ctx) (p v : Z) : option sim_ctx :=
  let off := p mod 0x100000000 in
  let s := ctx_cpu c in
  match p / 0x100000000 with
  | 1 => '(f, i) ← field_at off;
         Some (set_ctx_cpu (with_cpu (λ c, set_field f (with_byte (get_field f c) i v) c) s) c)
  | 2 => l ← list_put (ctx_stack c) off v; Some (set_ctx_stack l c)
  | 3 => l ← list_put (mem_ram (bus s)) off v; Some (set_ctx_cpu (with_bus (set_mem_ram l) s) c)
  | 4 => rom ← mem_rom (bus s); l ← list_put rom off v; Some (set_ctx_cpu (with_bus (set_mem_rom (Some l)) s) c)
  | 5 => l ← list_put (ctx_code c) off v; Some (set_ctx_code l c)
  | _ => None
  end.

Definition sim_read_literal (s : xt_sim sim_ctx) (addr : Z) : Z :=
  let c := sim_user s in
  if ctx_code_size c <? u32 (addr + 4) then 0
  else znth (ctx_code c) addr .| (znth (ctx_code c) (addr + 1) ≪ 8) .| (znth (ctx_code c) (addr + 2) ≪ 16)
       .| (znth (ctx_code c) (addr + 3) ≪ 24).

(** A helper runs on the machine. *)
Definition sim_call (fn_token : Z) : M (xt_sim sim_ctx) unit := λ s,
  match (if fn_token <? 0 then None else all_literals !! Z.to_nat fn_token) with
  | None => Some (tt, s)
  | Some id =>
      match sim_helper id (ctx_cpu (sim_user s)) with
      | Some (_, m) => Some (tt, set_sim_user (set_ctx_cpu m (sim_user s)) s)
      | None => None
      end
  end.

#[export] Instance dispatcher_host : SimHost sim_ctx := {|
  call_thunk := Some sim_call;
  read_literal := Some sim_read_literal;
  translate := Some sim_translate;
  host_peek := sim_peek;
  host_poke := sim_poke
|}.

(** ** [enter_block] *)

Definition M68K_HALT_ILLEGAL : Z := 3.
Definition max_steps : nat := Z.to_nat (1 ≪ 22).

(** The registers a skipped prologue would have loaded. *)
Definition preload (b : m68k_block) (start_off : Z) (c : m68k_cpu) (s : xt_sim sim_ctx) : xt_sim sim_ctx :=
  if start_off =? b_entry_off b then s
  else
    let s := set_ar 3 HOST_CPU_BASE s in
    if start_off =? u32 (b_body_addr b - b_code b) then
      let s := if b_sr_loaded b then set_ar 14 (cpu_sr c) s else s in
      fold_left (λ s slot,
        let gi := (b_cache_sig b ≫ (4 + slot * 4)) .& 0xF in
        set_ar (4 + slot) (if gi <? 8 then dreg c gi else areg c (gi - 8)) s)
        (upto (Z.to_nat (b_cache_sig b .& 0xF))) s
    else s.

(** The block [b] at reference [r], with its code in the arena; returns the
    instructions counted. *)
Definition enter_block (code : list Z) (r : Z) (b : m68k_block) (start_off : Z) : M mac Z := λ m,
  let m := with_cpu (λ c, set_cpu_chain_budget 1 (set_cpu_current_block (Some r) c)) m in
  let s := set_sim_pc start_off
    (xt_sim_init code (b_code_size b) (mk_ctx m code (b_code_size b) (replicate (Z.to_nat 0x800) 0))) in
  let s := set_ar 1 HOST_STACK_TOP (set_ar 0 0 (preload b start_off (cpu m) s)) in
  match xt_sim_run max_steps s with
  | None => None
  | Some (_, s) =>
      let m := ctx_cpu (sim_user s) in
      let m := if decide (sim_st s = XT_SIM_RETURNED) then m else with_cpu (set_cpu_halted M68K_HALT_ILLEGAL) m in
      Some (sim_instr_count s, m)
  end.

(** ** The inline fast path *)

Lemma pow2_test n : 0 < n → n .& (n - 1) = 0 → ∃ k, 0 ≤ k ∧ n = 2 ^ k.
Proof.
  intros Hn Hl. exists (Z.log2 n). split; [apply Z.log2_nonneg|].
  pose proof (Z.log2_spec n Hn) as [Hlo Hhi].
  destruct (decide (n = 2 ^ Z.log2 n)) as [|Hne]; [done|]. exfalso.
  assert (Z.testbit (n .& (n - 1)) (Z.log2 n) = true) as Hb; [|by rewrite Hl, Z.bits_0 in Hb].
  rewrite Z.land_spec, Z.bit_log2 by done. simpl.
  replace (Z.log2 n) with (Z.log2 (n - 1)); [apply Z.bit_log2; pose proof (Z.pow_pos_nonneg 2 (Z.log2 n)); pose proof (Z.log2_nonneg n); lia|].
  apply Z.log2_unique; [apply Z.log2_nonneg|]. lia.
Qed.

Lemma land_ones32 a : 0 ≤ a < 0x100000000 → a .& 0xFFFFFFFF = a.
Proof. intros. rewrite (land_ones_low a _ 32) by done. apply Z.mod_small. lia. Qed.

(** The masks reject every address but 0 when they are all ones, and are the
    complement of an address range otherwise. *)
Lemma bounds_mask_cases ovl sz (word : bool) : 0 < sz ≤ 0x400000 →
  bounds_mask ovl sz word = 0xFFFFFFFF ∨
  ovl = false ∧ sz .& (sz - 1) = 0 ∧ (word = true → 1 < sz) ∧
  ∀ a, 0 ≤ a < 0x100000000 → a .& bounds_mask ovl sz word = 0 → a < sz ∧ (word = true → a mod 2 = 0).
Proof.
  intros Hsz. unfold bounds_mask. destruct ovl; [by left|].
  rewrite (proj2 (Z.eqb_neq sz 0)) by lia. cbn [orb]. rewrite (u32_small (sz - 1)) by lia.
  destruct (nz (sz .& (sz - 1))) eqn:E; [by left|].
  apply negb_false_iff, Z.eqb_eq in E. destruct (pow2_test sz) as (k & Hk & ->); [lia|done|].
  assert (k < 32) by (apply (Z.pow_lt_mono_r_iff 2); lia).
  assert (∀ a, 0 ≤ a < 0x100000000 → a .& not32 (2 ^ k - 1) = 0 → a < 2 ^ k) as Hin.
  { intros a Ha. rewrite land_not_low by lia. pose proof (Z.mod_pos_bound a (2 ^ k)). lia. }
  destruct word; [|right; split_and!; [done|done|done|intros a Ha Hm; split; [by apply Hin|done]]].
  destruct (decide (k = 0)) as [->|]; [by left|right].
  split; [done|]. split; [done|]. split; [intros _; apply (Z.pow_gt_1 2); lia|].
  intros a Ha. rewrite Z.land_lor_distr_r, Z.lor_eq_0_iff, (land_ones_low a 1 1) by lia. intros [Hm ?].
  split; [by apply Hin|done].
Qed.

Lemma mask_passes ovl sz a : 0 < sz ≤ 0x400000 → 0 ≤ a < 0x100000000 → a .& bounds_mask ovl sz true = 0 →
  a ≠ 0 ∨ bounds_mask ovl sz true ≠ 0xFFFFFFFF → ovl = false ∧ sz .& (sz - 1) = 0 ∧ a + 1 < sz.
Proof.
  intros Hsz Ha Hm Hor. destruct (bounds_mask_cases ovl sz true Hsz) as [E|(-> & Hp & H1 & Hin)].
  { rewrite E, land_ones32 in Hm by done. tauto. }
  destruct (Hin a Ha Hm) as [Hlt He]. specialize (He eq_refl). split; [done|]. split; [done|].
  destruct (pow2_test sz) as (k & Hk & ->); [lia|done|]. specialize (H1 eq_refl).
  assert (k ≠ 0) as Hk0 by (intros ->; simpl in H1; lia).
  replace k with (1 + (k - 1)) in * by lia. rewrite Z.pow_add_r in * by lia. change (2 ^ 1) with 2 in *. generalize dependent (2 ^ (k - 1)). intros z. intros. pose proof (Z.div_mod a 2). lia.
Qed.

#[local] Ltac Zify.zify_post_hook ::= Z.to_euclidean_division_equations.

(** The machine a simulation runs over. *)
Definition guest_of (s : xt_sim sim_ctx) : mac := ctx_cpu (sim_user s).

Lemma translate_ram s a : 0 ≤ a < mem_ram_size (bus (guest_of s)) → mem_ram_size (bus (guest_of s)) ≤ 0x400000 →
  (a ≠ 0 → mem_ram_size (bus (guest_of s)) .& (mem_ram_size (bus (guest_of s)) - 1) = 0) →
  sim_translate s (HOST_RAM_BASE + a) = Some (ptr P_RAM a).
Proof.
  unfold guest_of. intros Ha Hsz Hp. unfold sim_translate.
  set (sz := mem_ram_size (bus (ctx_cpu (sim_user s)))) in *.
  unfold HOST_CPU_BASE, HOST_STACK_BASE, HOST_RAM_BASE, sizeof_m68k_cpu.
  rewrite (proj2 (Z.ltb_ge (0x60000000 + a) (0x40000000 + 136))) by lia.
  rewrite (proj2 (Z.ltb_ge (0x60000000 + a) (0x50000000 + 0x800))) by lia.
  rewrite !andb_false_r. replace (u32 (0x60000000 + a - 0x60000000)) with a by (rewrite u32_small by lia; lia).
  rewrite (proj2 (Z.ltb_lt a 0x400000)) by lia.
  assert (a .& u32 (sz - 1) = a) as ->.
  { rewrite u32_small by lia. destruct (decide (a = 0)) as [->|Hne]; [done|].
    destruct (pow2_test sz) as (k & Hk & E); [lia|by apply Hp|].
    rewrite (land_ones_low a _ k) by lia. apply Z.mod_small. lia. }
  by rewrite (proj2 (Z.ltb_lt a sz)) by lia.
Qed.

Lemma peek_ram c i : 0 ≤ i < Z.of_nat (length (mem_ram (bus (ctx_cpu c)))) → i < 0x100000000 →
  sim_peek c (ptr P_RAM i) = Some (u8 (znth (mem_ram (bus (ctx_cpu c))) i)).
Proof.
  intros Hi Hlt. unfold sim_peek, ptr, P_RAM.
  replace ((3 * 0x100000000 + i) / 0x100000000) with 3 by lia.
  replace ((3 * 0x100000000 + i) mod 0x100000000) with i by lia.
  unfold list_at. rewrite (proj2 (Z.ltb_ge i 0)) by lia.
  destruct (lookup_lt_is_Some_2 (mem_ram (bus (ctx_cpu c))) (Z.to_nat i)) as [v Hv]; [lia|].
  rewrite Hv. cbn. do 2 f_equal. unfold znth. by rewrite nth_lookup, Hv.
Qed.

Lemma poke_ram c i v : 0 ≤ i < Z.of_nat (length (mem_ram (bus (ctx_cpu c)))) → i < 0x100000000 →
  sim_poke c (ptr P_RAM i) v =
    Some (set_ctx_cpu (with_bus (set_mem_ram (zset (mem_ram (bus (ctx_cpu c))) i v)) (ctx_cpu c)) c).
Proof.
  intros Hi Hlt. unfold sim_poke, ptr, P_RAM.
  replace ((3 * 0x100000000 + i) / 0x100000000) with 3 by lia.
  replace ((3 * 0x100000000 + i) mod 0x100000000) with i by lia.
  unfold list_put, list_at. rewrite (proj2 (Z.ltb_ge i 0)) by lia.
  by destruct (lookup_lt_is_Some_2 (mem_ram (bus (ctx_cpu c))) (Z.to_nat i)) as [w ->]; [lia|].
Qed.



Definition example_sim : xt_sim sim_ctx := xt_sim_init [] 0 (mk_ctx mac_example [] 0 []).


(** The mask that is to reject every address lets 0 through: with the overlay
    on, compiled code reads the RAM where the memory map reads the ROM. *)
Definition overlay_machine : mac :=
  with_bus (λ m, set_mem_overlay true (snd (mac_load_rom [0x4E; 0x71] 2 m))) mac_example.
Lemma overlay_zero_passes :
  0 .& ram_bounds_mask (bus overlay_machine) = 0 ∧
  fst <$> mac_read16 0 overlay_machine = Some 0x4E71 ∧
  sim_peek (mk_ctx overlay_machine [] 0 []) (ptr P_RAM 0) = Some 0.
Proof. split_and!; by vm_compute. Qed.
