(* ===== verification/Codegen.v ===== *)
(** * The code generator: emission (jit/codegen.c)

    The state [m68k_compile_block] keeps while it translates a block (the
    file's globals and the register cache) and the functions that emit the
    code of one operation, from [emit_l32r_at] to [emit_branch].  The encoder
    calls are kept as a list, which [XtEmit] turns into bytes: as long as the
    buffer has room, [e->len] is three times their number. *)

From Stdlib Require Import ZArith Lia.
From stdpp Require Import base tactics list numbers.
From S2P Require Import Prelude Cpu XtEmit HostSim.

(** Xtensa registers reserved across a block. *)
Definition R_ARG : Z := 2.
Definition R_CPU : Z := 3.
Definition R_CACHE0 : Z := 4.
Definition R_HELP : Z := 13.
Definition R_SR : Z := 14.

Definition G_D (n : Z) : Z := n .& 7.
Definition G_A (n : Z) : Z := 8 + (n .& 7).

Record regcache := mk_rc {
  rc_xt : list Z;     (** [-1] for a guest register that is not cached *)
  rc_guest : list Z;
  rc_active : Z;
  rc_dirty : Z
}.
Definition set_rc_dirty (v : Z) (rc : regcache) : regcache :=
  mk_rc (rc_xt rc) (rc_guest rc) (rc_active rc) (u16 v).

Definition BYTES_PER_OP : Z := 240.
Definition PROLOGUE_EPILOGUE : Z := 96.
Definition align_up_4 (v : Z) : Z := u32 (v + 3) .& not32 3.

(** ** The state of a translation *)

Record gen := mk_gen {
  g_code : list xt_instr;
  g_rc : regcache;
  g_pc_acc : Z;
  g_cyc_acc : Z;
  g_sr_dirty : bool;
  g_block_emitted_callx0 : bool;
  g_sext_src_reg : Z;
  g_sext_valid : bool;
  g_pc_lit_valid : bool;
  g_pc_lit_val : Z;
  g_pc_lit_off : Z;
  g_pc_lit_entry_off : Z;
  g_helper_touched_mask : Z;
  g_helper_sr_mask : Z;
  g_helper_arg_mask : Z;
  g_helper_terminal_no_fastpath : bool
}.
Definition set_g_code (v : list xt_instr) (g : gen) : gen :=
  mk_gen v (g_rc g) (g_pc_acc g) (g_cyc_acc g) (g_sr_dirty g) (g_block_emitted_callx0 g)
    (g_sext_src_reg g) (g_sext_valid g) (g_pc_lit_valid g) (g_pc_lit_val g) (g_pc_lit_off g)
    (g_pc_lit_entry_off g) (g_helper_touched_mask g) (g_helper_sr_mask g) (g_helper_arg_mask g)
    (g_helper_terminal_no_fastpath g).
Definition set_g_rc (v : regcache) (g : gen) : gen :=
  mk_gen (g_code g) v (g_pc_acc g) (g_cyc_acc g) (g_sr_dirty g) (g_block_emitted_callx0 g)
    (g_sext_src_reg g) (g_sext_valid g) (g_pc_lit_valid g) (g_pc_lit_val g) (g_pc_lit_off g)
    (g_pc_lit_entry_off g) (g_helper_touched_mask g) (g_helper_sr_mask g) (g_helper_arg_mask g)
    (g_helper_terminal_no_fastpath g).
Definition set_g_pc_acc (v : Z) (g : gen) : gen :=
  mk_gen (g_code g) (g_rc g) v (g_cyc_acc g) (g_sr_dirty g) (g_block_emitted_callx0 g)
    (g_sext_src_reg g) (g_sext_valid g) (g_pc_lit_valid g) (g_pc_lit_val g) (g_pc_lit_off g)
    (g_pc_lit_entry_off g) (g_helper_touched_mask g) (g_helper_sr_mask g) (g_helper_arg_mask g)
    (g_helper_terminal_no_fastpath g).
Definition set_g_cyc_acc (v : Z) (g : gen) : gen :=
  mk_gen (g_code g) (g_rc g) (g_pc_acc g) v (g_sr_dirty g) (g_block_emitted_callx0 g)
    (g_sext_src_reg g) (g_sext_valid g) (g_pc_lit_valid g) (g_pc_lit_val g) (g_pc_lit_off g)
    (g_pc_lit_entry_off g) (g_helper_touched_mask g) (g_helper_sr_mask g) (g_helper_arg_mask g)
    (g_helper_terminal_no_fastpath g).
Definition set_g_sr_dirty (v : bool) (g : gen) : gen :=
  mk_gen (g_code g) (g_rc g) (g_pc_acc g) (g_cyc_acc g) v (g_block_emitted_callx0 g)
    (g_sext_src_reg g) (g_sext_valid g) (g_pc_lit_valid g) (g_pc_lit_val g) (g_pc_lit_off g)
    (g_pc_lit_entry_off g) (g_helper_touched_mask g) (g_helper_sr_mask g) (g_helper_arg_mask g)
    (g_helper_terminal_no_fastpath g).
Definition set_g_block_emitted_callx0 (v : bool) (g : gen) : gen :=
  mk_gen (g_code g) (g_rc g) (g_pc_acc g) (g_cyc_acc g) (g_sr_dirty g) v (g_sext_src_reg g)
    (g_sext_valid g) (g_pc_lit_valid g) (g_pc_lit_val g) (g_pc_lit_off g) (g_pc_lit_entry_off g)
    (g_helper_touched_mask g) (g_helper_sr_mask g) (g_helper_arg_mask g)
    (g_helper_terminal_no_fastpath g).
Definition set_g_sext_src_reg (v : Z) (g : gen) : gen :=
  mk_gen (g_code g) (g_rc g) (g_pc_acc g) (g_cyc_acc g) (g_sr_dirty g) (g_block_emitted_callx0 g) v
    (g_sext_valid g) (g_pc_lit_valid g) (g_pc_lit_val g) (g_pc_lit_off g) (g_pc_lit_entry_off g)
    (g_helper_touched_mask g) (g_helper_sr_mask g) (g_helper_arg_mask g)
    (g_helper_terminal_no_fastpath g).
Definition set_g_sext_valid (v : bool) (g : gen) : gen :=
  mk_gen (g_code g) (g_rc g) (g_pc_acc g) (g_cyc_acc g) (g_sr_dirty g) (g_block_emitted_callx0 g)
    (g_sext_src_reg g) v (g_pc_lit_valid g) (g_pc_lit_val g) (g_pc_lit_off g) (g_pc_lit_entry_off g)
    (g_helper_touched_mask g) (g_helper_sr_mask g) (g_helper_arg_mask g)
    (g_helper_terminal_no_fastpath g).
Definition set_g_pc_lit_valid (v : bool) (g : gen) : gen :=
  mk_gen (g_code g) (g_rc g) (g_pc_acc g) (g_cyc_acc g) (g_sr_dirty g) (g_block_emitted_callx0 g)
    (g_sext_src_reg g) (g_sext_valid g) v (g_pc_lit_val g) (g_pc_lit_off g) (g_pc_lit_entry_off g)
    (g_helper_touched_mask g) (g_helper_sr_mask g) (g_helper_arg_mask g)
    (g_helper_terminal_no_fastpath g).
Definition set_g_pc_lit_val (v : Z) (g : gen) : gen :=
  mk_gen (g_code g) (g_rc g) (g_pc_acc g) (g_cyc_acc g) (g_sr_dirty g) (g_block_emitted_callx0 g)
    (g_sext_src_reg g) (g_sext_valid g) (g_pc_lit_valid g) v (g_pc_lit_off g) (g_pc_lit_entry_off g)
    (g_helper_touched_mask g) (g_helper_sr_mask g) (g_helper_arg_mask g)
    (g_helper_terminal_no_fastpath g).
Definition set_g_pc_lit_off (v : Z) (g : gen) : gen :=
  mk_gen (g_code g) (g_rc g) (g_pc_acc g) (g_cyc_acc g) (g_sr_dirty g) (g_block_emitted_callx0 g)
    (g_sext_src_reg g) (g_sext_valid g) (g_pc_lit_valid g) (g_pc_lit_val g) v (g_pc_lit_entry_off g)
    (g_helper_touched_mask g) (g_helper_sr_mask g) (g_helper_arg_mask g)
    (g_helper_terminal_no_fastpath g).
Definition set_g_pc_lit_entry_off (v : Z) (g : gen) : gen :=
  mk_gen (g_code g) (g_rc g) (g_pc_acc g) (g_cyc_acc g) (g_sr_dirty g) (g_block_emitted_callx0 g)
    (g_sext_src_reg g) (g_sext_valid g) (g_pc_lit_valid g) (g_pc_lit_val g) (g_pc_lit_off g) v
    (g_helper_touched_mask g) (g_helper_sr_mask g) (g_helper_arg_mask g)
    (g_helper_terminal_no_fastpath g).
Definition set_g_helper_touched_mask (v : Z) (g : gen) : gen :=
  mk_gen (g_code g) (g_rc g) (g_pc_acc g) (g_cyc_acc g) (g_sr_dirty g) (g_block_emitted_callx0 g)
    (g_sext_src_reg g) (g_sext_valid g) (g_pc_lit_valid g) (g_pc_lit_val g) (g_pc_lit_off g)
    (g_pc_lit_entry_off g) v (g_helper_sr_mask g) (g_helper_arg_mask g)
    (g_helper_terminal_no_fastpath g).
Definition set_g_helper_sr_mask (v : Z) (g : gen) : gen :=
  mk_gen (g_code g) (g_rc g) (g_pc_acc g) (g_cyc_acc g) (g_sr_dirty g) (g_block_emitted_callx0 g)
    (g_sext_src_reg g) (g_sext_valid g) (g_pc_lit_valid g) (g_pc_lit_val g) (g_pc_lit_off g)
    (g_pc_lit_entry_off g) (g_helper_touched_mask g) v (g_helper_arg_mask g)
    (g_helper_terminal_no_fastpath g).
Definition set_g_helper_arg_mask (v : Z) (g : gen) : gen :=
  mk_gen (g_code g) (g_rc g) (g_pc_acc g) (g_cyc_acc g) (g_sr_dirty g) (g_block_emitted_callx0 g)
    (g_sext_src_reg g) (g_sext_valid g) (g_pc_lit_valid g) (g_pc_lit_val g) (g_pc_lit_off g)
    (g_pc_lit_entry_off g) (g_helper_touched_mask g) (g_helper_sr_mask g) v
    (g_helper_terminal_no_fastpath g).
Definition set_g_helper_terminal_no_fastpath (v : bool) (g : gen) : gen :=
  mk_gen (g_code g) (g_rc g) (g_pc_acc g) (g_cyc_acc g) (g_sr_dirty g) (g_block_emitted_callx0 g)
    (g_sext_src_reg g) (g_sext_valid g) (g_pc_lit_valid g) (g_pc_lit_val g) (g_pc_lit_off g)
    (g_pc_lit_entry_off g) (g_helper_touched_mask g) (g_helper_sr_mask g) (g_helper_arg_mask g) v.

Definition G : Type → Type := M gen.
Definition set (f : gen → gen) : G unit := modify f.

(** [e->len] *)
Definition e_len (g : gen) : Z := 3 * Z.of_nat (length (g_code g)).

(** An encoder call; a violated assertion of the encoder stops the compiler. *)
Definition emit (i : xt_instr) : G unit := λ g,
  if instr_ok i then Some (tt, set_g_code (g_code g ++ [i]) g) else None.
Definition xt_mov (ar as_ : Z) : G unit := emit (Or ar as_ as_).

Definition emit_l32r_at (at_ lit_off pc_off : Z) : G unit :=
  let pc_aligned := u32 (pc_off + 3) .& not32 3 in
  let dist := u32 (pc_aligned - lit_off) in
  if (lit_off <? pc_aligned) && (dist .& 3 =? 0) then emit (L32r at_ (0x10000 - (dist ≫ 2)))
  else undefined_behaviour.

(** ** The register cache *)

Definition cache_xt_slot (slot : Z) : Z := R_CACHE0 + slot.
Definition cache_lookup (rc : regcache) (gi : Z) : Z := znth (rc_xt rc) gi.

(** Where guest register [gi] is in the CPU's struct. *)
Definition OFF_G (gi : Z) : Z := if gi <? 8 then OFF_D gi else OFF_A (gi - 8).

Definition emit_read_g (gi dst : Z) : G unit :=
  rc ← gets g_rc;
  let xr := cache_lookup rc gi in
  if 0 <=? xr then when (negb (xr =? dst)) (xt_mov dst xr)
  else emit (L32i dst R_CPU (OFF_G gi)).

Definition emit_read_g_in (gi scratch : Z) : G Z :=
  rc ← gets g_rc;
  let xr := cache_lookup rc gi in
  if 0 <=? xr then mret xr else emit (L32i scratch R_CPU (OFF_G gi)) ;; mret scratch.

(** The loop that sets the dirty bit of the slot holding [gi]. *)
Fixpoint mark_dirty_from (slots : list Z) (gi : Z) (rc : regcache) : regcache :=
  match slots with
  | [] => rc
  | i :: slots =>
      if znth (rc_guest rc) i =? gi then set_rc_dirty (rc_dirty rc .| (1 ≪ i)) rc
      else mark_dirty_from slots gi rc
  end.
Definition slots (rc : regcache) : list Z := upto (Z.to_nat (rc_active rc)).
Definition mark_dirty (gi : Z) : G unit :=
  set (λ g, set_g_rc (mark_dirty_from (slots (g_rc g)) gi (g_rc g)) g).

Definition emit_write_g (gi src : Z) : G unit :=
  rc ← gets g_rc;
  let xr := cache_lookup rc gi in
  if 0 <=? xr then when (negb (xr =? src)) (xt_mov xr src) ;; mark_dirty gi
  else emit (S32i src R_CPU (OFF_G gi)).

(** The register an emitter computes [gi]'s new value in ([scratch] when it is
    not cached), and the write-back of that value. *)
Definition dst_reg (rc : regcache) (gi scratch : Z) : Z :=
  if 0 <=? cache_lookup rc gi then cache_lookup rc gi else scratch.
Definition write_back (gi dst : Z) : G unit :=
  rc ← gets g_rc;
  if 0 <=? cache_lookup rc gi then mark_dirty gi else emit (S32i dst R_CPU (OFF_G gi)).

Definition emit_cache_flush : G unit :=
  rc ← gets g_rc;
  for_each (slots rc) (λ i,
    when (nz (rc_dirty rc .& (1 ≪ i))) (emit (S32i (cache_xt_slot i) R_CPU (OFF_G (znth (rc_guest rc) i))))) ;;
  set (λ g, set_g_rc (set_rc_dirty 0 (g_rc g)) g).

Definition emit_cache_reload : G unit :=
  rc ← gets g_rc;
  touched ← gets g_helper_touched_mask;
  for_each (slots rc) (λ i,
    let gi := znth (rc_guest rc) i in
    when (nz (touched .& (1 ≪ gi))) (emit (L32i (cache_xt_slot i) R_CPU (OFF_G gi)))) ;;
  set (λ g, set_g_rc (set_rc_dirty 0 (g_rc g)) g).

(** ** Constants, and the deferred program counter and cycles *)

Definition emit_load_imm32 (dst tmp val : Z) : G unit :=
  emit (Movi dst ((val ≫ 24) .& 0xFF)) ;;
  for_each [16; 8; 0] (λ sh,
    emit (Slli dst dst 8) ;; emit (Movi tmp ((val ≫ sh) .& 0xFF)) ;; emit (Or dst dst tmp)).

Definition emit_load_imm (dst tmp val : Z) : G unit :=
  let sv := i32 val in
  if (-2048 <=? sv) && (sv <=? 2047) then emit (Movi dst sv) else emit_load_imm32 dst tmp val.

(** [l32i; addi or add of a constant; s32i] on a field of the CPU, and the
    addition alone. *)
Definition emit_add_const (dst tmp1 tmp2 n : Z) : G unit :=
  if (-128 <=? n) && (n <=? 127) then emit (Addi dst dst n)
  else emit_load_imm tmp1 tmp2 (u32 n) ;; emit (Add dst dst tmp1).
Definition emit_bump (off n : Z) : G unit :=
  emit (L32i 8 R_CPU off) ;; emit_add_const 8 9 10 n ;; emit (S32i 8 R_CPU off).

Definition emit_advance_flush : G unit :=
  pc_acc ← gets g_pc_acc;
  when (nz pc_acc) (emit_bump OFF_PC pc_acc ;; set (set_g_pc_acc 0)) ;;
  cyc_acc ← gets g_cyc_acc;
  when (nz cyc_acc) (emit_bump OFF_CYCLES cyc_acc ;; set (set_g_cyc_acc 0)).

Definition emit_advance (pc_delta cyc : Z) : G unit :=
  set (λ g, set_g_cyc_acc (g_cyc_acc g + cyc) (set_g_pc_acc (g_pc_acc g + pc_delta) g)).

Definition sext_memo_invalidate : G unit := set (set_g_sext_valid false).
Definition sr_dirtied : G unit := set (set_g_sr_dirty true).

Definition emit_sr_flush : G unit :=
  dirty ← gets g_sr_dirty;
  when dirty (emit (S16i R_SR R_CPU OFF_SR) ;; set (set_g_sr_dirty false)).
Definition emit_sr_reload : G unit := emit (L16ui R_SR R_CPU OFF_SR) ;; set (set_g_sr_dirty false).

(** ** Helper calls *)

Definition emit_call (helper_lit_off entry_off : Z) : G unit :=
  xt_mov R_ARG R_CPU ;;
  len ← gets e_len;
  emit_l32r_at R_HELP helper_lit_off (entry_off + len) ;;
  emit (Callx0 R_HELP).

Definition emit_helper_step (helper_lit_off entry_off : Z) (is_last_op : bool) : G unit :=
  set (set_g_block_emitted_callx0 true) ;;
  emit_advance_flush ;;
  emit_cache_flush ;;
  emit_sr_flush ;;
  emit_call helper_lit_off entry_off ;;
  when (negb is_last_op) (emit_sr_reload ;; emit_cache_reload) ;;
  sext_memo_invalidate.

(** Three bytes for each cached register the mask names. *)
Definition reload_size (g : gen) : Z :=
  let rc := g_rc g in
  3 * Z.of_nat (length (filter (λ i, nz (g_helper_touched_mask g .& (1 ≪ znth (rc_guest rc) i)) = true) (slots rc))).

Definition helper_step_after_flush_base_size (g : gen) : Z :=
  12 + (if g_sr_dirty g then 3 else 0) + reload_size g.

Definition emit_undo (off n : Z) : G unit :=
  when (nz n) (emit (L32i 8 R_CPU off) ;; emit (Addi 8 8 (- n)) ;; emit (S32i 8 R_CPU off)).

Definition emit_helper_step_after_flush_undo (helper_lit_off entry_off pc_undo cyc_undo : Z) : G unit :=
  set (set_g_block_emitted_callx0 true) ;;
  was_sr_dirty ← gets g_sr_dirty;
  emit_sr_flush ;;
  emit_call helper_lit_off entry_off ;;
  emit_undo OFF_PC pc_undo ;;
  emit_undo OFF_CYCLES cyc_undo ;;
  emit_sr_reload ;;
  emit_cache_reload ;;
  sext_memo_invalidate ;;
  when was_sr_dirty sr_dirtied.

Definition helper_step_after_flush_undo_size (g : gen) (pc_undo cyc_undo : Z) : Z :=
  helper_step_after_flush_base_size g + (if nz pc_undo then 9 else 0) + (if nz cyc_undo then 9 else 0).

Definition emit_jit_fast_helper (a8_arg1_reg imm2 helper_lit_off entry_off : Z) : G unit :=
  set (set_g_block_emitted_callx0 true) ;;
  sext_memo_invalidate ;;
  was_sr_dirty ← gets g_sr_dirty;
  sr_mask ← gets g_helper_sr_mask;
  arg_mask ← gets g_helper_arg_mask;
  terminal ← gets g_helper_terminal_no_fastpath;
  when (nz (sr_mask .& 1)) emit_sr_flush ;;
  when (nz (arg_mask .& 1)) (emit (S32i a8_arg1_reg R_CPU OFF_JIT_ARG1)) ;;
  when (nz (arg_mask .& 2)) (emit (Movi 9 imm2) ;; emit (S32i 9 R_CPU OFF_JIT_ARG2)) ;;
  emit_call helper_lit_off entry_off ;;
  when (negb terminal)
    (when (nz (sr_mask .& 2)) emit_sr_reload ;;
     emit_cache_reload ;;
     when (nz (sr_mask .& 3) && was_sr_dirty) sr_dirtied).

Definition emit_jit_fast_helper_size (g : gen) : Z :=
  9 + (if nz (g_helper_arg_mask g .& 1) then 3 else 0) + (if nz (g_helper_arg_mask g .& 2) then 6 else 0) +
  (if nz (g_helper_sr_mask g .& 1) && g_sr_dirty g then 3 else 0) +
  (if g_helper_terminal_no_fastpath g then 0
   else (if nz (g_helper_sr_mask g .& 2) then 3 else 0) + reload_size g).

Definition emit_movem_fast_bridge_size (list : Z) (g : gen) : Z :=
  let sv := i32 list in
  (if (-2048 <=? sv) && (sv <=? 2047) then 3 else 30) + emit_jit_fast_helper_size g.

(** ** Condition codes *)

Definition CCR_BIT_C : Z := 0x01.
Definition CCR_BIT_V : Z := 0x02.
Definition CCR_BIT_Z : Z := 0x04.
Definition CCR_BIT_N : Z := 0x08.
Definition CCR_BIT_X : Z := 0x10.
Definition CCR_MASK_ALL : Z := 0x1F.

Definition emit_logic_flags (vreg : Z) : G unit :=
  let shadow := (vreg =? 10) || (vreg =? 11) in
  when shadow (xt_mov 9 vreg) ;;
  let vreg := if shadow then 9 else vreg in
  emit (Movi 10 (-16)) ;;
  emit (And R_SR R_SR 10) ;;
  emit (Extui 11 vreg 31 0) ;;
  emit (Slli 11 11 3) ;;
  emit (Or R_SR R_SR 11) ;;
  emit (Movi 11 0x04) ;;
  emit (Bnez vreg 6) ;;
  emit (Or R_SR R_SR 11) ;;
  sr_dirtied ;;
  sext_memo_invalidate.

Definition emit_logic_flags_const (value : Z) : G unit :=
  let n := nz (value .& 0x80000000) in
  let z := value =? 0 in
  let ccr_bits := (if n then 0x08 else 0) .| (if z then 0x04 else 0) in
  emit (Movi 10 (-16)) ;;
  emit (And R_SR R_SR 10) ;;
  when (nz ccr_bits) (emit (Movi 10 ccr_bits) ;; emit (Or R_SR R_SR 10)) ;;
  sr_dirtied ;;
  sext_memo_invalidate.

(** The carry, 0 or 1, into a11 and the overflow into a12. *)
Definition emit_carry (is_sub : bool) (s d r : Z) : G unit :=
  (if is_sub then
     emit (Movi 13 (-1)) ;; emit (Xor 13 d 13) ;; emit (And 11 13 s) ;; emit (Or 12 13 s) ;; xt_mov 13 r
   else
     emit (And 11 s d) ;; emit (Or 12 s d) ;; emit (Movi 13 (-1)) ;; emit (Xor 13 r 13)) ;;
  emit (And 12 12 13) ;;
  emit (Or 11 11 12) ;;
  emit (Extui 11 11 31 1).
Definition emit_overflow (is_sub : bool) (s d r : Z) : G unit :=
  emit (Xor 12 s (if is_sub then d else r)) ;;
  emit (Xor 13 d r) ;;
  emit (And 12 12 13) ;;
  emit (Extui 12 12 31 1).

(** All of N, Z, V and C are forced on, so the code is always the full form:
    the sequences for a part of the flags cannot be reached.  The function
    returns without invalidating the sign-extension memo, though it uses a13. *)
Definition emit_addsub_flags_long_masked (is_sub keep_x : bool) (s d r cc_mask : Z) : G unit :=
  emit_carry is_sub s d r ;;
  emit_overflow is_sub s d r ;;
  emit (Extui 13 r 31 1) ;;
  emit (Slli 12 12 1) ;;
  emit (Or 8 11 12) ;;
  emit (Slli 13 13 3) ;;
  emit (Or 8 8 13) ;;
  when (negb keep_x) (emit (Slli 9 11 4) ;; emit (Or 8 8 9)) ;;
  emit (Movi 9 0x04) ;;
  emit (Bnez r 6) ;;
  emit (Or 8 8 9) ;;
  emit (Movi 12 (if keep_x then -16 else -32)) ;;
  emit (And R_SR R_SR 12) ;;
  emit (Or R_SR R_SR 8) ;;
  sr_dirtied.

Definition emit_addsub_flags_long_ex (is_sub keep_x : bool) (s d r : Z) : G unit :=
  emit_addsub_flags_long_masked is_sub keep_x s d r
    (if keep_x then Z.ldiff CCR_MASK_ALL CCR_BIT_X else CCR_MASK_ALL).
Definition emit_addsub_flags_long (is_sub keep_x : bool) : G unit :=
  emit_addsub_flags_long_ex is_sub keep_x 8 9 10.

(** ** Moves *)

Definition emit_moveq (op : Z) (skip_flags : bool) : G unit :=
  let dn := (op ≫ 9) .& 7 in
  let imm := i8 (op .& 0xFF) in
  rc ← gets g_rc;
  emit (Movi (dst_reg rc (G_D dn) 8) imm) ;;
  write_back (G_D dn) 8 ;;
  when (negb skip_flags) (emit_logic_flags_const (u32 imm)) ;;
  emit_advance 2 4.

Definition emit_move_l_imm_dn (dn imm : Z) (skip_flags : bool) : G unit :=
  rc ← gets g_rc;
  emit_load_imm (dst_reg rc (G_D dn) 8) 10 imm ;;
  write_back (G_D dn) 8 ;;
  when (negb skip_flags) (emit_logic_flags_const imm) ;;
  emit_advance 6 8.

Definition emit_movea_l_imm (an imm : Z) : G unit :=
  rc ← gets g_rc;
  emit_load_imm (dst_reg rc (G_A an) 8) 10 imm ;;
  write_back (G_A an) 8 ;;
  emit_advance 6 8.

(** MOVE.L of [g_src]: the body of [emit_move_l_dd] and of the arm for an
    address register. *)
Definition emit_move_l_to_dn (g_src dn : Z) (skip_flags : bool) : G unit :=
  rc ← gets g_rc;
  let dst := dst_reg rc (G_D dn) 8 in
  emit_read_g g_src dst ;;
  write_back (G_D dn) dst ;;
  when (negb skip_flags) (emit_logic_flags dst) ;;
  emit_advance 2 8.
Definition emit_move_l_dd (dn dm : Z) (skip_flags : bool) : G unit :=
  emit_move_l_to_dn (G_D dm) dn skip_flags.

Definition g_reg (is_an : bool) (n : Z) : Z := if is_an then G_A n else G_D n.

Definition emit_movea_l_reg (an src : Z) (src_is_an : bool) : G unit :=
  let g_src := g_reg src_is_an src in
  let g_dst := G_A an in
  rc ← gets g_rc;
  (if 0 <=? cache_lookup rc g_dst then emit_read_g g_src (cache_lookup rc g_dst) ;; mark_dirty g_dst
   else emit_read_g g_src 8 ;; emit (S32i 8 R_CPU (OFF_A an))) ;;
  emit_advance 2 8.

(** ** Sign-extended words *)

(** a13 holds the word of [g], sign-extended. *)
Definition emit_sext (g : Z) : G unit :=
  valid ← gets g_sext_valid;
  src ← gets g_sext_src_reg;
  when (negb valid || negb (src =? g))
    (emit_read_g g 13 ;; emit (Slli 13 13 16) ;; emit (Srai 13 13 16) ;;
     set (set_g_sext_src_reg g) ;; set (set_g_sext_valid true)).

Definition emit_lea_adda_fused (dst_am lea_an idx_reg : Z) (idx_is_an : bool) (d8 : Z) : G unit :=
  emit_sext (g_reg idx_is_an idx_reg) ;;
  src_reg ← emit_read_g_in (G_A lea_an) 8;
  rc ← gets g_rc;
  let d := dst_reg rc (G_A dst_am) 9 in
  emit (Addx2 d 13 src_reg) ;;
  when (nz d8) (emit (Addi d d d8)) ;;
  write_back (G_A dst_am) 9 ;;
  emit_advance 6 20.

Definition emit_movea_adda_fused (an movea_src : Z) (movea_src_is_an : bool) (adda_src : Z)
    (adda_src_is_an triple : bool) : G unit :=
  emit_sext (g_reg adda_src_is_an adda_src) ;;
  src_reg ← emit_read_g_in (g_reg movea_src_is_an movea_src) 8;
  rc ← gets g_rc;
  let d := dst_reg rc (G_A an) 9 in
  emit (if triple then Addx2 d 13 src_reg else Add d src_reg 13) ;;
  write_back (G_A an) 9 ;;
  (if triple then emit_advance 6 32 else emit_advance 4 20).

Definition emit_adda_w_imm (an imm : Z) (is_sub : bool) : G unit :=
  let sext := if is_sub then - imm else imm in
  rc ← gets g_rc;
  (if 0 <=? cache_lookup rc (G_A an) then
     emit_add_const (cache_lookup rc (G_A an)) 9 10 sext ;; mark_dirty (G_A an)
   else emit_bump (OFF_A an) sext) ;;
  emit_advance 4 12.

Definition emit_adda_w_reg (an src : Z) (src_is_an : bool) : G unit :=
  let g_dst := G_A an in
  emit_sext (g_reg src_is_an src) ;;
  rc ← gets g_rc;
  let xt_dst := cache_lookup rc g_dst in
  (if 0 <=? xt_dst then emit (Add xt_dst xt_dst 13) ;; mark_dirty g_dst
   else emit (L32i 9 R_CPU (OFF_A an)) ;; emit (Add 9 9 13) ;; emit (S32i 9 R_CPU (OFF_A an))) ;;
  emit_advance 2 12.

(** ** Addition, subtraction and comparison *)

Definition emit_addsub (is_sub : bool) (r s t : Z) : G unit := emit (if is_sub then Sub r s t else Add r s t).

(** [emit_add_l_dd] and [emit_sub_l_dd]. *)
Definition emit_addsub_l_dd (is_sub : bool) (dn dm : Z) (src_is_an skip_flags : bool) : G unit :=
  let g_src := g_reg src_is_an dm in
  rc ← gets g_rc;
  let dm_reg := cache_lookup rc g_src in let dn_reg := cache_lookup rc (G_D dn) in
  if (0 <=? dm_reg) && (0 <=? dn_reg) && (src_is_an || negb (dn =? dm)) then
    when (negb skip_flags) (xt_mov 9 dn_reg) ;;
    emit_addsub is_sub dn_reg dn_reg dm_reg ;;
    mark_dirty (G_D dn) ;;
    when (negb skip_flags) (emit_addsub_flags_long_ex is_sub false dm_reg 9 dn_reg) ;;
    emit_advance 2 8
  else
    emit_read_g g_src 8 ;;
    emit_read_g (G_D dn) 9 ;;
    (if is_sub then emit (Sub 10 9 8) else emit (Add 10 8 9)) ;;
    emit_write_g (G_D dn) 10 ;;
    when (negb skip_flags) (emit_addsub_flags_long is_sub false) ;;
    emit_advance 2 8.
Definition emit_add_l_dd : Z → Z → bool → bool → G unit := emit_addsub_l_dd false.
Definition emit_sub_l_dd : Z → Z → bool → bool → G unit := emit_addsub_l_dd true.

Definition emit_addq_l_dd (dn imm : Z) (is_sub skip_flags : bool) : G unit :=
  emit (Movi 8 imm) ;;
  emit_read_g (G_D dn) 9 ;;
  (if is_sub then emit (Sub 10 9 8) else emit (Add 10 8 9)) ;;
  emit_write_g (G_D dn) 10 ;;
  when (negb skip_flags) (emit_addsub_flags_long is_sub false) ;;
  emit_advance 2 8.

Definition emit_addq_an (an delta : Z) : G unit :=
  rc ← gets g_rc;
  let xt_dst := cache_lookup rc (G_A an) in
  (if 0 <=? xt_dst then emit (Addi xt_dst xt_dst delta) ;; mark_dirty (G_A an)
   else emit (L32i 8 R_CPU (OFF_A an)) ;; emit (Addi 8 8 delta) ;; emit (S32i 8 R_CPU (OFF_A an))) ;;
  emit_advance 2 8.

Definition emit_cmp_w_dd (dn dm cc_mask : Z) : G unit :=
  emit_read_g (G_D dm) 8 ;;
  emit_read_g (G_D dn) 9 ;;
  emit (Slli 8 8 16) ;;
  emit (Slli 9 9 16) ;;
  emit (Sub 10 9 8) ;;
  emit_addsub_flags_long_masked true true 8 9 10 cc_mask ;;
  emit_advance 2 8.

Definition emit_cmp_l_dd (dn dm cc_mask : Z) : G unit :=
  dm_reg ← emit_read_g_in (G_D dm) 8;
  dn_reg ← emit_read_g_in (G_D dn) 9;
  emit (Sub 10 dn_reg dm_reg) ;;
  emit_addsub_flags_long_masked true true dm_reg dn_reg 10 cc_mask ;;
  emit_advance 2 8.

Definition emit_addq_w_dn (dn imm : Z) (is_sub skip_flags : bool) : G unit :=
  if skip_flags then
    src_reg ← emit_read_g_in (G_D dn) 8;
    rc ← gets g_rc;
    emit (Extui 9 src_reg 0 15) ;;
    emit (Addi 9 9 (if is_sub then - imm else imm)) ;;
    emit (Extui 9 9 0 15) ;;
    emit (Extui 10 src_reg 16 15) ;;
    emit (Slli 10 10 16) ;;
    emit (Or (dst_reg rc (G_D dn) 8) 10 9) ;;
    write_back (G_D dn) 8 ;;
    emit_advance 2 8
  else
    emit_read_g (G_D dn) 11 ;;
    emit (Slli 9 11 16) ;;
    emit (Movi 8 imm) ;;
    emit (Slli 8 8 16) ;;
    emit_addsub is_sub 10 9 8 ;;
    emit (Srli 11 11 16) ;;
    emit (Slli 11 11 16) ;;
    emit (Extui 12 10 16 15) ;;
    emit (Or 11 11 12) ;;
    emit_write_g (G_D dn) 11 ;;
    emit_addsub_flags_long is_sub false ;;
    emit_advance 2 8.

(** ** Logic and immediates *)

(** [kind]: 0 is OR, 1 is AND, anything else is EOR. *)
Definition emit_logic_op (kind r s t : Z) : G unit :=
  emit (if kind =? 0 then Or r s t else if kind =? 1 then And r s t else Xor r s t).

Definition emit_logic_l_dd_kind (ra rb dst kind : Z) (skip_flags : bool) : G unit :=
  emit_read_g (G_D ra) 8 ;;
  emit_read_g (G_D rb) 9 ;;
  emit_logic_op kind 8 8 9 ;;
  emit_write_g (G_D dst) 8 ;;
  when (negb skip_flags) (emit_logic_flags 8) ;;
  emit_advance 2 8.
Definition emit_logic_l_dd (ra rb dst : Z) (is_eor : bool) : G unit :=
  emit_logic_l_dd_kind ra rb dst (if is_eor then 2 else 1) false.

Definition emit_logic_bw_dd_kind (ra rb dst kind size_bits : Z) (skip_flags : bool) : G unit :=
  src_reg ← emit_read_g_in (G_D ra) 8;
  rc ← gets g_rc;
  let dst_slot := dst_reg rc (G_D dst) 9 in
  when (cache_lookup rc (G_D dst) <? 0) (emit_read_g (G_D dst) 9) ;;
  emit (Extui 10 src_reg 0 (size_bits - 1)) ;;
  emit (Extui 11 dst_slot 0 (size_bits - 1)) ;;
  emit_logic_op kind 10 10 11 ;;
  emit (Srli 11 dst_slot size_bits) ;;
  emit (Slli 11 11 size_bits) ;;
  emit (Or dst_slot 11 10) ;;
  write_back (G_D dst) 9 ;;
  when (negb skip_flags) (emit (Slli 8 10 (32 - size_bits)) ;; emit_logic_flags 8) ;;
  emit_advance 2 8.

(** [kind] is the operation's type field: 0 OR, 1 AND, 2 SUB, 3 ADD, 5 EOR, 6 CMP. *)
Definition emit_immalu_l_dn (dn imm kind : Z) : G unit :=
  emit_load_imm 8 10 imm ;;
  emit_read_g (G_D dn) 9 ;;
  (if kind =? 3 then emit (Add 10 8 9) ;; emit_write_g (G_D dn) 10 ;; emit_addsub_flags_long false false
   else if kind =? 2 then emit (Sub 10 9 8) ;; emit_write_g (G_D dn) 10 ;; emit_addsub_flags_long true false
   else if kind =? 6 then emit (Sub 10 9 8) ;; emit_addsub_flags_long true true
   else emit_logic_op kind 8 8 9 ;; emit_write_g (G_D dn) 8 ;; emit_logic_flags 8) ;;
  emit_advance 6 8.

Definition emit_immarith_bw_dn (dn imm size kind : Z) : G unit :=
  let size_mask := if size =? 1 then 0xFF else 0xFFFF in
  let sext_imm := if size =? 1 then i8 (imm .& size_mask) else i16 (imm .& size_mask) in
  let shift := if size =? 1 then 24 else 16 in
  emit_load_imm 8 10 (u32 sext_imm) ;;
  emit_read_g (G_D dn) 9 ;;
  emit_addsub (negb (kind =? 3)) 12 9 8 ;;
  when (negb (kind =? 6))
    ((if size =? 1 then emit (Movi 11 (-256)) else emit (Movi 11 (-1)) ;; emit (Slli 11 11 16)) ;;
     emit (And 13 9 11) ;;
     emit (Extui 11 12 0 (if size =? 1 then 7 else 15)) ;;
     emit (Or 13 13 11) ;;
     emit_write_g (G_D dn) 13) ;;
  emit (Slli 8 8 shift) ;;
  emit (Slli 9 9 shift) ;;
  emit (Slli 10 12 shift) ;;
  emit_addsub_flags_long_ex ((kind =? 2) || (kind =? 6)) (kind =? 6) 8 9 10 ;;
  emit_advance 4 8.

Definition emit_immlogic_bw_dn (dn imm size kind : Z) : G unit :=
  let size_mask := if size =? 1 then 0xFF else 0xFFFF in
  let imm_op := imm .& size_mask in
  let imm_op := if kind =? 1 then imm_op .| not32 size_mask else imm_op in
  emit_load_imm 8 10 imm_op ;;
  emit_read_g (G_D dn) 9 ;;
  emit_logic_op kind 10 9 8 ;;
  emit_write_g (G_D dn) 10 ;;
  emit (Slli 11 10 (if size =? 1 then 24 else 16)) ;;
  emit_logic_flags 11 ;;
  emit_advance 4 8.

(** ** Conditions and branches *)

Definition fused_helper_bcc_tail_size (cc : Z) (g : gen) : Z :=
  let tail_size := if g_pc_lit_valid g then 36 else 63 in
  match cc with 6 => 9 + tail_size | 7 => 6 + tail_size | 13 => 9 + tail_size | 15 => 15 + tail_size | _ => 0 end.

Definition emit_cmp_cond_fused (cc s d r : Z) : G unit :=
  (if (s =? d) && (d =? r) then
     emit (Movi 11 (-16)) ;; emit (And R_SR R_SR 11) ;;
     emit (Extui 11 r 31 1) ;; emit (Slli 11 11 3) ;; emit (Or R_SR R_SR 11) ;;
     emit (Movi 11 0x04) ;; emit (Bnez r 6) ;; emit (Or R_SR R_SR 11)
   else
     emit (Movi 15 (-1)) ;; emit (Xor 15 d 15) ;; emit (And 11 15 s) ;; emit (Or 15 15 s) ;;
     emit (And 15 15 r) ;; emit (Or 11 11 15) ;; emit (Extui 11 11 31 1) ;;
     emit (Xor 15 s d) ;; emit (Xor 12 d r) ;; emit (And 15 15 12) ;; emit (Extui 12 15 31 1) ;;
     emit (Extui 13 r 31 1) ;;
     emit (Slli 12 12 1) ;; emit (Or 15 11 12) ;; emit (Slli 13 13 3) ;; emit (Or 15 15 13) ;;
     emit (Movi 11 0x04) ;; emit (Bnez r 6) ;; emit (Or 15 15 11) ;;
     emit (Movi 12 (-16)) ;; emit (And R_SR R_SR 12) ;; emit (Or R_SR R_SR 15)) ;;
  sr_dirtied ;;
  (if cc =? 6 then emit (Movi 8 1) ;; emit (Bnez r 6) ;; emit (Movi 8 0)
   else if cc =? 7 then emit (Movi 8 0) ;; emit (Bnez r 6) ;; emit (Movi 8 1)
   else
     emit (Xor 11 s d) ;; emit (Xor 12 d r) ;; emit (And 11 11 12) ;; emit (Xor 11 11 r) ;;
     emit (Extui 8 11 31 0) ;;
     when (cc =? 15) (emit (Bnez r 6) ;; emit (Movi 8 1))) ;;
  sext_memo_invalidate.

(** A constant of the program counter: the block's literal when it is that. *)
Definition emit_pc_const (dst tmp pc : Z) : G unit :=
  valid ← gets g_pc_lit_valid;
  val ← gets g_pc_lit_val;
  off ← gets g_pc_lit_off;
  entry_off ← gets g_pc_lit_entry_off;
  len ← gets e_len;
  if valid && (pc =? val) then emit_l32r_at dst off (entry_off + len) else emit_load_imm32 dst tmp pc.

Definition emit_bcc_branchless_tail (ft disp base_cyc : Z) : G unit :=
  emit (Movi 10 0) ;;
  emit (Sub 9 10 8) ;;
  emit_pc_const 10 11 ft ;;
  (if (-128 <=? disp) && (disp <=? 127) then emit (Addi 12 10 disp)
   else emit_load_imm32 12 11 (u32 (ft + disp))) ;;
  emit (Xor 13 10 12) ;;
  emit (And 13 13 9) ;;
  emit (Xor 10 10 13) ;;
  emit (S32i 10 R_CPU OFF_PC) ;;
  emit (L32i 11 R_CPU OFF_CYCLES) ;;
  emit_add_const 11 10 12 base_cyc ;;
  emit (Addx2 11 8 11) ;;
  emit (S32i 11 R_CPU OFF_CYCLES).

Definition emit_cond (cc : Z) : G unit :=
  sext_memo_invalidate ;;
  when (bool_decide (cc ∈ [2; 3; 4; 5])) (emit (Extui 10 R_SR 0 0)) ;;
  when (bool_decide (cc ∈ [8; 9; 12; 13; 14; 15])) (emit (Extui 11 R_SR 1 0)) ;;
  when (bool_decide (cc ∈ [2; 3; 6; 7; 14; 15])) (emit (Extui 12 R_SR 2 0)) ;;
  when (bool_decide (cc ∈ [10; 11; 12; 13; 14; 15])) (emit (Extui 13 R_SR 3 0)) ;;
  match cc with
  | 2 => emit (Or 8 10 12) ;; emit (Movi 9 1) ;; emit (Xor 8 8 9)
  | 3 => emit (Or 8 10 12)
  | 4 => emit (Movi 9 1) ;; emit (Xor 8 10 9)
  | 5 => xt_mov 8 10
  | 6 => emit (Movi 9 1) ;; emit (Xor 8 12 9)
  | 7 => xt_mov 8 12
  | 8 => emit (Movi 9 1) ;; emit (Xor 8 11 9)
  | 9 => xt_mov 8 11
  | 10 => emit (Movi 9 1) ;; emit (Xor 8 13 9)
  | 11 => xt_mov 8 13
  | 12 => emit (Xor 8 13 11) ;; emit (Movi 9 1) ;; emit (Xor 8 8 9)
  | 13 => emit (Xor 8 13 11)
  | 14 => emit (Xor 8 13 11) ;; emit (Or 8 8 12) ;; emit (Movi 9 1) ;; emit (Xor 8 8 9)
  | 15 => emit (Xor 8 13 11) ;; emit (Or 8 8 12)
  | _ => emit (Movi 8 0)
  end.

(** BRA with the target and the cycles it costs. *)
Definition emit_jump_const (taken total : Z) : G unit :=
  emit_pc_const 8 9 taken ;;
  emit (S32i 8 R_CPU OFF_PC) ;;
  emit_bump OFF_CYCLES total.

Definition absorb_cycles : G Z :=
  extra_cyc ← gets g_cyc_acc;
  set (set_g_pc_acc 0) ;; set (set_g_cyc_acc 0) ;; mret extra_cyc.

Definition emit_branch (op_pc w : Z) : G unit :=
  let cc := (w ≫ 8) .& 0xF in
  let disp := i8 (w .& 0xFF) in
  let ft := u32 (op_pc + 2) in
  let taken := u32 (op_pc + 2 + u32 disp) in
  extra_cyc ← absorb_cycles;
  if cc =? 0 then emit_jump_const taken (14 + extra_cyc)
  else emit_cond cc ;; emit_bcc_branchless_tail ft disp (12 + extra_cyc).

(** [srcmode], [srcreg] are the mode and register fields, [ext] and [ext32] the extension words. *)
Definition emit_lea (an srcmode srcreg ext ext32 : Z) : G unit :=
  len ← (if srcmode =? 2 then emit_read_g (G_A srcreg) 8 ;; mret 2
    else if srcmode =? 5 then
      emit_read_g (G_A srcreg) 8 ;; emit_add_const 8 9 10 (i16 ext) ;; mret 4
    else if srcmode =? 6 then
      let ireg := (ext ≫ 12) .& 7 in
      let g_index := if nz (ext .& 0x8000) then G_A ireg else G_D ireg in
      emit_read_g (G_A srcreg) 8 ;;
      (if nz (ext .& 0x0800) then emit_read_g g_index 9 ;; emit (Add 8 8 9)
       else emit_sext g_index ;; emit (Add 8 8 13)) ;;
      emit (Addi 8 8 (i8 (ext .& 0xFF))) ;; mret 4
    else if (srcmode =? 7) && (srcreg =? 0) then emit_load_imm 8 9 (u32 (i16 ext)) ;; mret 4
    else emit_load_imm 8 9 ext32 ;; mret 6);
  emit_write_g (G_A an) 8 ;;
  emit_advance len 8.
