(* ===== verification/Compile.v ===== *)
(** * The block compiler (jit/codegen.c, [m68k_compile_block])

    The steps of [m68k_compile_block] on the host: the extent of the block,
    the literal pool, the register cache, the prologue, the operations' arms
    and the epilogue.  The arms of the register operations, of LEA and of the
    branches are modelled; an operation with any other arm has no result in
    the model. *)

From Stdlib Require Import ZArith Lia.
From stdpp Require Import base tactics list numbers.
From S2P Require Import Prelude Cpu Flags Ea Step Decode Block MacState Sony MacMem XtEmit HostSim Codegen.

(** ** Flag classes *)

Definition bcc_cc_bits_read (cc : Z) : Z :=
  match cc with
  | 2 | 3 => CCR_BIT_C .| CCR_BIT_Z
  | 4 | 5 => CCR_BIT_C
  | 6 | 7 => CCR_BIT_Z
  | 8 | 9 => CCR_BIT_V
  | 10 | 11 => CCR_BIT_N
  | 12 | 13 => CCR_BIT_N .| CCR_BIT_V
  | 14 | 15 => CCR_BIT_N .| CCR_BIT_V .| CCR_BIT_Z
  | _ => CCR_MASK_ALL
  end.

(** Fields of an opcode. *)
Definition f_top (w : Z) : Z := (w ≫ 12) .& 0xF.
Definition f_szf (w : Z) : Z := (w ≫ 6) .& 3.
Definition f_mode (w : Z) : Z := (w ≫ 3) .& 7.
Definition f_reg (w : Z) : Z := w .& 7.
Definition f_op6 (w : Z) : Z := (w ≫ 6) .& 7.
Definition f_rr (w : Z) : Z := (w ≫ 9) .& 7.
Definition f_bit8 (w : Z) : bool := nz ((w ≫ 8) .& 1).
Definition f_cc (w : Z) : Z := (w ≫ 8) .& 0xF.

Definition classify_4 (w : Z) : Z :=
  let hi := w .& 0xFFC0 in
  if f_op6 w =? 7 then 0
  else if bool_decide (w ∈ [0x4E75; 0x4E71; 0x4E73; 0x4E77; 0x4E72]) || (hi =? 0x4EC0) || (hi =? 0x4E80) then 2
  else if (w .& 0xFFF8 =? 0x4840) || (w .& 0xFFF8 =? 0x4880) || (w .& 0xFFF8 =? 0x48C0) then 1
  else if bool_decide (hi ∈ [0x4400; 0x4440; 0x4480; 0x4600; 0x4640; 0x4680; 0x4200; 0x4240; 0x4280;
                             0x4A00; 0x4A40; 0x4A80]) then 1
  else if (w .& 0xFB80 =? 0x4880) && (2 <=? f_mode w) then 0
  else if (w .& 0xFFF8 =? 0x4E50) || (w .& 0xFFF8 =? 0x4E58) then 0
  else if (hi =? 0x4840) && (1 <? f_mode w) then 0
  else if w .& 0xFFF0 =? 0x4E60 then 0
  else if w =? 0x4E74 then 2
  else 3.

(** Bit 0: sets flags; bit 1: reads them. *)
Definition classify_op (w : Z) : Z :=
  match f_top w with
  | 0x0 => 1
  | 0x1 | 0x2 | 0x3 => if f_op6 w =? 1 then 0 else 1
  | 0x4 => classify_4 w
  | 0x5 => if f_szf w =? 3 then 2 else if f_mode w =? 1 then 0 else 1
  | 0x6 => if 1 <? (w ≫ 8) .& 0xF then 2 else 0
  | 0x7 => 1
  | 0x8 | 0xC => if f_bit8 w && ((w ≫ 4) .& 0xF =? 0) then 3 else 1
  | 0xB | 0xF => 1
  | 0xE => if (if f_szf w =? 3 then f_rr w else (w ≫ 3) .& 3) =? 2 then 3 else 1
  | 0x9 | 0xD =>
      if f_szf w =? 3 then 0
      else if f_bit8 w && ((f_mode w =? 0) || (f_mode w =? 1)) then 3 else 1
  | _ => 3
  end.

(** The lazy-flags pass leaves every setter alive. *)
Definition flags_dead : bool := false.
Definition flags_needed : Z := CCR_MASK_ALL.

(** ** The register cache *)

(** The guest register a mode and register field may use; [-1] for none. *)
Definition guest_of_ea (mode reg : Z) : Z :=
  if mode =? 0 then G_D reg else if mode <=? 6 then G_A reg else -1.

Definition count_use (use : list Z) (w : Z) : list Z :=
  let g_dst := guest_of_ea (f_op6 w) (f_rr w) in
  let g_src := guest_of_ea (f_mode w) (f_reg w) in
  let use := if 0 <=? g_dst then zset use g_dst (znth use g_dst + 1) else use in
  if (0 <=? g_src) && negb (g_src =? g_dst) then zset use g_src (znth use g_src + 1) else use.

(** The most used register that has no slot yet, with its count. *)
Definition best_register (use xt : list Z) : Z * Z :=
  fold_left (λ best g,
    if 0 <=? znth xt g then best else if snd best <? znth use g then (g, znth use g) else best)
    (upto 16) (-1, 0).

Fixpoint pick_slots (fuel : nat) (slot : Z) (use : list Z) (rc : regcache) : regcache :=
  match fuel with
  | O => rc
  | S fuel =>
      let '(best, best_n) := best_register use (rc_xt rc) in
      if (best <? 0) || (best_n <? 2) then rc
      else pick_slots fuel (slot + 1) use
             (mk_rc (zset (rc_xt rc) best (cache_xt_slot slot)) (zset (rc_guest rc) slot best) (rc_active rc + 1)
                (rc_dirty rc))
  end.

Definition assign_registers (words : list Z) : regcache :=
  pick_slots 4 0 (fold_left count_use words (replicate 16 0)) (mk_rc (replicate 16 (-1)) (replicate 4 0) 0 0).

Definition cache_sig (rc : regcache) : Z :=
  fold_left (λ sig s, sig .| ((if s <? rc_active rc then znth (rc_guest rc) s .& 0xF else 0xF) ≪ (4 + s * 4)))
    (upto 4) (rc_active rc .& 0xF).

(** Whether the prologue loads the status register. *)
Definition op_needs_sr (w : Z) : bool :=
  let cls := classify_op w in
  (nz (cls .& 1) && negb flags_dead)
  || (nz (cls .& 2) &&
      negb ((f_top w =? 5) && (f_szf w =? 3) && (f_mode w =? 1) && ((w ≫ 8) .& 0xF <? 2)))
  || ((f_top w =? 6) && (2 <=? (w ≫ 8) .& 0xF)).
Definition block_needs_sr_load (words : list Z) : bool := existsb op_needs_sr words.

(** ** The literal pool *)

Definition lit_off (l : literal_id) : Z := 4 * lit_num l.
Definition lit_bytes : Z := align_up_4 (LITERAL_COUNT * 4).

(** The constant of the program counter the block's last operation, [op] at
    [op_pc], needs. *)
Definition pc_literal (op op_pc : Z) : M mac (option Z) :=
  let cc := (op ≫ 8) .& 0xF in
  let disp := i8 (op .& 0xFF) in
  let relative := w ← mac_read16 (u32 (op_pc + 2)); mret (Some (u32 (op_pc + 2 + u32 (i16 w)))) in
  if f_top op =? 6 then
    if negb (disp =? 0) && negb (disp =? -1) then
      mret (Some (if (cc =? 0) || (cc =? 1) then u32 (op_pc + 2 + u32 disp) else u32 (op_pc + 2)))
    else if (disp =? 0) && (cc =? 1) then relative
    else if (disp =? 0) && negb (cc =? 1) then
      (if cc =? 0 then relative else mret (Some (u32 (op_pc + 4))))
    else mret None
  else if (f_top op =? 5) && (f_szf op =? 3) && (f_mode op =? 1) then mret (Some (u32 (op_pc + 4)))
  else if op =? 0x4EF9 then v ← mac_read32 (u32 (op_pc + 2)); mret (Some v)
  else if op =? 0x4EBA then relative
  else mret None.

(** The words of the pool. *)
Definition literal_words (m : mac_mem) (pc_lit : option Z) : list Z :=
  (λ l, match l, pc_lit with LITERAL_BCC_PC, Some v => v | _, _ => helper_addr l m end) <$> all_literals.
Definition literal_pool (m : mac_mem) (pc_lit : option Z) : list Z := literal_words m pc_lit ≫= bytes32.

(** ** The prologue and the epilogue *)

Definition load_slots : G unit :=
  rc ← gets g_rc;
  for_each (slots rc) (λ slot, emit (L32i (cache_xt_slot slot) R_CPU (OFF_G (znth (rc_guest rc) slot)))).

(** The state [m68k_compile_block] starts emitting in. *)
Definition gen_init (rc : regcache) (pc_lit : option Z) : gen :=
  mk_gen [] rc 0 0 false false (-1) false
    match pc_lit with Some _ => true | None => false end match pc_lit with Some v => v | None => 0 end
    (lit_off LITERAL_BCC_PC) lit_bytes 0xFFFF 3 3 false.

(** Returns where the chain entry is and where the body begins. *)
Definition prologue (entry_off : Z) (sr_load : bool) : G (Z * Z) :=
  len ← gets e_len;
  emit_l32r_at R_CPU (lit_off ADDR_CPU_BASE) (entry_off + len) ;;
  emit (S32i 0 R_CPU OFF_JITRETPC) ;;
  chain ← gets e_len;
  when sr_load emit_sr_reload ;;
  load_slots ;;
  body ← gets e_len;
  mret (entry_off + chain, entry_off + body).

Definition epilogue_flush : G unit :=
  emit_advance_flush ;;
  emit_cache_flush ;;
  emit_sr_flush.
Definition epilogue : G unit :=
  epilogue_flush ;;
  called ← gets g_block_emitted_callx0;
  when called (emit (L32i 0 R_CPU OFF_JITRETPC)) ;;
  emit (Jx 0).

(** ** The arms

    The compiler's own state beside the machine it reads the immediates of. *)

Definition K : Type → Type := M (gen * mac).
Definition gen_do {A} (m : G A) : K A := λ s,
  match m (fst s) with Some (a, g) => Some (a, (g, snd s)) | None => None end.
Definition mem_do {A} (m : M mac A) : K A := λ s,
  match m (snd s) with Some (a, x) => Some (a, (fst s, x)) | None => None end.
Definition ext16 (op_pc : Z) : K Z := mem_do (mac_read16 (u32 (op_pc + 2))).
Definition ext32 (op_pc : Z) : K Z := mem_do (mac_read32 (u32 (op_pc + 2))).

(** An arm emits code for the operation at hand, and says how many of the
    following operations that code includes. *)
Definition arm : Type := K nat.
Definition inline (m : G unit) : arm := gen_do m ;; mret 0%nat.

Definition quick_data (w : Z) : Z := if f_rr w =? 0 then 8 else f_rr w.

Definition arm_nop : arm := inline (emit_advance 2 4).

Definition arm_add_l_imm (op_pc w : Z) : arm :=
  imm ← ext32 op_pc;
  inline
    (emit_load_imm 8 11 imm ;;
     emit_read_g (G_D (f_rr w)) 9 ;;
     emit (Add 10 8 9) ;;
     emit_write_g (G_D (f_rr w)) 10 ;;
     when (negb flags_dead) (emit_addsub_flags_long false false) ;;
     emit_advance 6 8).

Definition arm_addx_l (w : Z) : arm :=
  let is_sub := f_top w =? 9 in
  inline
    (emit_read_g (G_D (f_reg w)) 8 ;;
     emit_read_g (G_D (f_rr w)) 9 ;;
     emit (Extui 12 R_SR 4 0) ;;
     (if is_sub then emit (Sub 10 9 8) ;; emit (Sub 10 10 12) else emit (Add 10 8 9) ;; emit (Add 10 10 12)) ;;
     emit_write_g (G_D (f_rr w)) 10 ;;
     when (negb flags_dead)
       (emit_addsub_flags_long_masked is_sub false 8 9 10 (CCR_BIT_N .| CCR_BIT_V .| CCR_BIT_C) ;;
        emit (Movi 12 (-5)) ;;
        emit (Beqz 10 6) ;;
        emit (And R_SR R_SR 12) ;;
        sr_dirtied ;; sext_memo_invalidate) ;;
     emit_advance 2 12).

Definition arm_move_l_imm (op_pc w : Z) : arm :=
  imm ← ext32 op_pc;
  inline (if f_op6 w =? 0 then emit_move_l_imm_dn (f_rr w) imm flags_dead else emit_movea_l_imm (f_rr w) imm).

(** A conditional short branch that the MOVE.L before it absorbs. *)
Definition fusible_bcc (nw : Z) : bool :=
  let cc := (nw ≫ 8) .& 0xF in let disp := i8 (nw .& 0xFF) in
  (f_top nw =? 6) && bool_decide (cc ∈ [6; 7; 13; 15]) && negb (disp =? 0) && negb (disp =? -1).

Definition emit_move_l_bcc (dn dm nw next_pc : Z) : G unit :=
  emit_advance_flush ;;
  rc ← gets g_rc;
  let dst := dst_reg rc (G_D dn) 9 in
  emit_read_g (G_D dm) dst ;;
  write_back (G_D dn) dst ;;
  emit_cmp_cond_fused ((nw ≫ 8) .& 0xF) dst dst dst ;;
  emit_bcc_branchless_tail (u32 (next_pc + 2)) (i8 (nw .& 0xFF)) 16 ;;
  set (set_g_pc_acc 0) ;; set (set_g_cyc_acc 0).

Definition arm_move_l_dd (w : Z) (next : list (Z * Z)) : arm :=
  match next with
  | (nw, next_pc) :: _ =>
      if fusible_bcc nw then gen_do (emit_move_l_bcc (f_rr w) (f_reg w) nw next_pc) ;; mret 1%nat
      else inline (emit_move_l_dd (f_rr w) (f_reg w) flags_dead)
  | [] => inline (emit_move_l_dd (f_rr w) (f_reg w) flags_dead)
  end.

Definition arm_move_w_an_dn (w : Z) : arm :=
  let g_dn := G_D (f_rr w) in
  inline
    (emit_read_g (G_A (f_reg w)) 8 ;;
     emit (Extui 9 8 0 15) ;;
     rc ← gets g_rc;
     let dn_reg := dst_reg rc g_dn 10 in
     when (cache_lookup rc g_dn <? 0) (emit_read_g g_dn 10) ;;
     emit (Srli dn_reg dn_reg 16) ;;
     emit (Slli dn_reg dn_reg 16) ;;
     emit (Or dn_reg dn_reg 9) ;;
     write_back g_dn 10 ;;
     when (negb flags_dead) (emit (Slli 8 9 16) ;; emit_logic_flags 8) ;;
     emit_advance 2 8).

(** ADDA.W of a register to address register [am]. *)
Definition is_adda_w_to (am nw : Z) : bool :=
  (f_top nw =? 0xD) && (f_op6 nw =? 3) && (f_mode nw <=? 1) && (f_rr nw =? am).

Definition arm_movea_l (w : Z) (next : list (Z * Z)) : arm :=
  let am := f_rr w in
  let plain := inline (emit_movea_l_reg am (f_reg w) (f_mode w =? 1)) in
  match next with
  | (nw, _) :: next =>
      if is_adda_w_to am nw then
        let triple := match next with
                      | (nw2, _) :: _ => is_adda_w_to am nw2 && (f_reg nw2 =? f_reg nw)
                                         && Bool.eqb (f_mode nw2 =? 1) (f_mode nw =? 1)
                      | [] => false
                      end in
        gen_do (emit_movea_adda_fused am (f_reg w) (f_mode w =? 1) (f_reg nw) (f_mode nw =? 1) triple) ;;
        mret (if triple then 2%nat else 1%nat)
      else plain
  | [] => plain
  end.

(** ADDA.L and SUBA.L of a register. *)
Definition arm_adda_l (w : Z) : arm :=
  let is_sub := f_top w =? 9 in
  let g_src := g_reg (f_mode w =? 1) (f_reg w) in
  let g_an := G_A (f_rr w) in
  inline
    (rc ← gets g_rc;
     let xt_dst := cache_lookup rc g_an in
     (if 0 <=? xt_dst then
        src_xt ← emit_read_g_in g_src 8;
        emit_addsub is_sub xt_dst xt_dst src_xt ;; mark_dirty g_an
      else
        emit_read_g g_src 8 ;; emit_read_g g_an 9 ;; emit_addsub is_sub 10 9 8 ;;
        emit (S32i 10 R_CPU (OFF_A (f_rr w)))) ;;
     emit_advance 2 12).

Definition arm_adda_w_imm (op_pc w : Z) : arm :=
  imm ← ext16 op_pc; inline (emit_adda_w_imm (f_rr w) (i16 imm) (f_top w =? 9)).

Definition arm_lea_pc (op_pc w : Z) : arm :=
  ext ← ext16 op_pc;
  inline (emit_pc_const 8 9 (u32 (op_pc + 2 + u32 (i16 ext))) ;; emit_write_g (G_A (f_rr w)) 8 ;; emit_advance 4 8).

Definition arm_lea (op_pc w : Z) (next : list (Z * Z)) : arm :=
  let mode := f_mode w in let sr := f_reg w in let am := f_rr w in
  ext ← (if (mode =? 5) || (mode =? 6) || ((mode =? 7) && (sr =? 0)) then ext16 op_pc else mret 0);
  long ← (if (mode =? 7) && (sr =? 1) then ext32 op_pc else mret 0);
  let lea_idx := (ext ≫ 12) .& 7 in let lea_idx_an := nz (ext .& 0x8000) in
  let plain := inline (emit_lea am mode sr ext long) in
  match next with
  | (nw, _) :: _ =>
      if (mode =? 6) && (ext .& 0x0800 =? 0) && (ext .& 0x0100 =? 0) && is_adda_w_to am nw
         && (f_reg nw =? lea_idx) && Bool.eqb (f_mode nw =? 1) lea_idx_an
      then gen_do (emit_lea_adda_fused am sr lea_idx lea_idx_an (i8 (ext .& 0xFF))) ;; mret 1%nat
      else plain
  | [] => plain
  end.

Definition arm_bcc_w (op_pc w : Z) : arm :=
  let cc := (w ≫ 8) .& 0xF in
  ext ← ext16 op_pc;
  let disp := i16 ext in
  inline
    (extra_cyc ← absorb_cycles;
     (if cc =? 0 then emit_jump_const (u32 (op_pc + 2 + u32 disp)) (14 + extra_cyc)
      else emit_cond cc ;; emit_bcc_branchless_tail (u32 (op_pc + 4)) (disp - 2) (12 + extra_cyc)) ;;
     sext_memo_invalidate).

Definition arm_neg_l (w : Z) : arm :=
  inline
    (emit_read_g (G_D (f_reg w)) 8 ;;
     emit (Movi 9 0) ;;
     emit (Sub 10 9 8) ;;
     emit_write_g (G_D (f_reg w)) 10 ;;
     when (negb flags_dead) (emit_addsub_flags_long true false) ;;
     emit_advance 2 8).

Definition arm_immalu_l (op_pc w : Z) : arm :=
  imm ← ext32 op_pc; inline (emit_immalu_l_dn (f_reg w) imm (f_rr w)).
Definition arm_imm_bw (op_pc w : Z) : arm :=
  imm ← ext16 op_pc;
  let size := if f_szf w =? 0 then 1 else 2 in
  inline (if bool_decide (f_rr w ∈ [0; 1; 5]) then emit_immlogic_bw_dn (f_reg w) imm size (f_rr w)
          else emit_immarith_bw_dn (f_reg w) imm size (f_rr w)).

Definition size_bits (w : Z) : Z := if f_szf w =? 0 then 8 else 16.

(** The condition of each arm. *)
Definition is_moveq (w : Z) : bool := f_top w =? 7.
Definition is_nop (w : Z) : bool := w =? 0x4E71.
Definition is_add_l (w : Z) : bool := (f_top w =? 0xD) && (f_szf w =? 2) && negb (f_bit8 w) && (f_mode w <=? 1).
Definition is_add_l_imm (w : Z) : bool :=
  (f_top w =? 0xD) && (f_szf w =? 2) && negb (f_bit8 w) && (f_mode w =? 7) && (f_reg w =? 4).
Definition is_addx_l (w : Z) : bool :=
  ((f_top w =? 9) || (f_top w =? 0xD)) && f_bit8 w && (f_szf w =? 2) && (f_mode w =? 0).
Definition is_addq_l (w : Z) : bool := (f_top w =? 5) && (f_szf w =? 2) && (f_mode w =? 0).
Definition is_addq_an (w : Z) : bool := (f_top w =? 5) && negb (f_szf w =? 3) && (f_mode w =? 1).
Definition is_move_l_imm (w : Z) : bool := (f_top w =? 2) && (f_mode w =? 7) && (f_reg w =? 4) && (f_op6 w <=? 1).
Definition is_move_l_dd (w : Z) : bool := (f_top w =? 2) && (f_mode w =? 0) && (f_op6 w =? 0).
Definition is_move_w_an_dn (w : Z) : bool := (f_top w =? 3) && (f_mode w =? 1) && (f_op6 w =? 0).
Definition is_move_l_an_dn (w : Z) : bool := (f_top w =? 2) && (f_mode w =? 1) && (f_op6 w =? 0).
Definition is_movea_l (w : Z) : bool := (f_top w =? 2) && (f_op6 w =? 1) && (f_mode w <=? 1).
Definition is_adda_w (w : Z) : bool := (f_top w =? 0xD) && (f_szf w =? 3) && negb (f_bit8 w) && (f_mode w <=? 1).
Definition is_adda_l (w : Z) : bool :=
  ((f_top w =? 0xD) || (f_top w =? 9)) && (f_szf w =? 3) && f_bit8 w && (f_mode w <=? 1).
Definition is_adda_w_imm (w : Z) : bool :=
  ((f_top w =? 0xD) || (f_top w =? 9)) && (f_szf w =? 3) && negb (f_bit8 w) && (f_mode w =? 7) && (f_reg w =? 4).
Definition is_addq_w (w : Z) : bool := (f_top w =? 5) && (f_szf w =? 1) && (f_mode w =? 0).
Definition is_lea_pc (w : Z) : bool := (f_top w =? 4) && (f_op6 w =? 7) && (f_mode w =? 7) && (f_reg w =? 2).
Definition is_lea (w : Z) : bool :=
  (f_top w =? 4) && (f_op6 w =? 7) &&
  ((f_mode w =? 2) || (f_mode w =? 5) || (f_mode w =? 6) || ((f_mode w =? 7) && (f_reg w <=? 1))).
Definition is_bcc_s (w : Z) : bool :=
  (f_top w =? 6) && negb (f_cc w =? 1) && negb (w .& 0xFF =? 0) && negb (w .& 0xFF =? 0xFF).
Definition is_bcc_w (w : Z) : bool := (f_top w =? 6) && negb (f_cc w =? 1) && (w .& 0xFF =? 0).
Definition is_neg_l (w : Z) : bool := (f_top w =? 4) && (f_cc w =? 4) && (f_szf w =? 2) && (f_mode w =? 0).
Definition is_cmp_l (w : Z) : bool := (f_top w =? 0xB) && (f_szf w =? 2) && negb (f_bit8 w) && (f_mode w =? 0).
Definition is_cmp_w (w : Z) : bool := (f_top w =? 0xB) && (f_szf w =? 1) && negb (f_bit8 w) && (f_mode w =? 0).
Definition is_sub_l (w : Z) : bool := (f_top w =? 9) && (f_szf w =? 2) && negb (f_bit8 w) && (f_mode w <=? 1).
Definition is_and_l (w : Z) : bool := (f_top w =? 0xC) && (f_szf w =? 2) && negb (f_bit8 w) && (f_mode w =? 0).
Definition is_or_l (w : Z) : bool := (f_top w =? 8) && (f_szf w =? 2) && negb (f_bit8 w) && (f_mode w =? 0).
Definition is_eor_l (w : Z) : bool := (f_top w =? 0xB) && (f_szf w =? 2) && f_bit8 w && (f_mode w =? 0).
Definition is_and_bw (w : Z) : bool := (f_top w =? 0xC) && (f_szf w <=? 1) && negb (f_bit8 w) && (f_mode w =? 0).
Definition is_or_bw (w : Z) : bool := (f_top w =? 8) && (f_szf w <=? 1) && negb (f_bit8 w) && (f_mode w =? 0).
Definition is_eor_bw (w : Z) : bool := (f_top w =? 0xB) && (f_szf w <=? 1) && f_bit8 w && (f_mode w =? 0).
Definition is_immalu_l (w : Z) : bool :=
  (f_top w =? 0) && negb (f_bit8 w) && (f_szf w =? 2) && (f_mode w =? 0) && negb (f_rr w =? 4) && negb (f_rr w =? 7).
Definition is_imm_bw (w : Z) : bool :=
  (f_top w =? 0) && negb (f_bit8 w) && (f_szf w <=? 1) && (f_mode w =? 0) && negb (f_rr w =? 4) && negb (f_rr w =? 7).

(** The arm an operation goes to, conditions in the order of the source;
    [None] for an operation that has an arm not modelled, or none. *)
Definition select_arm (w op_pc : Z) (next : list (Z * Z)) : option arm :=
  if is_moveq w then Some (inline (emit_moveq w flags_dead))
  else if is_nop w then Some arm_nop
  else if is_add_l w then Some (inline (emit_add_l_dd (f_rr w) (f_reg w) (f_mode w =? 1) flags_dead))
  else if is_add_l_imm w then Some (arm_add_l_imm op_pc w)
  else if is_addx_l w then Some (arm_addx_l w)
  else if is_addq_l w then Some (inline (emit_addq_l_dd (f_reg w) (quick_data w) (f_bit8 w) flags_dead))
  else if is_addq_an w then Some (inline (emit_addq_an (f_reg w) (if f_bit8 w then - quick_data w else quick_data w)))
  else if is_move_l_imm w then Some (arm_move_l_imm op_pc w)
  else if is_move_l_dd w then Some (arm_move_l_dd w next)
  else if is_move_w_an_dn w then Some (arm_move_w_an_dn w)
  else if is_move_l_an_dn w then Some (inline (emit_move_l_to_dn (G_A (f_reg w)) (f_rr w) flags_dead))
  else if is_movea_l w then Some (arm_movea_l w next)
  else if is_adda_w w then Some (inline (emit_adda_w_reg (f_rr w) (f_reg w) (f_mode w =? 1)))
  else if is_adda_l w then Some (arm_adda_l w)
  else if is_adda_w_imm w then Some (arm_adda_w_imm op_pc w)
  else if is_addq_w w then Some (inline (emit_addq_w_dn (f_reg w) (quick_data w) (f_bit8 w) flags_dead))
  else if is_lea_pc w then Some (arm_lea_pc op_pc w)
  else if is_lea w then Some (arm_lea op_pc w next)
  else if is_bcc_s w then Some (inline (emit_branch op_pc w))
  else if is_bcc_w w then Some (arm_bcc_w op_pc w)
  else if is_neg_l w then Some (arm_neg_l w)
  else if is_cmp_l w then Some (inline (emit_cmp_l_dd (f_rr w) (f_reg w) flags_needed))
  else if is_cmp_w w then Some (inline (emit_cmp_w_dd (f_rr w) (f_reg w) flags_needed))
  else if is_sub_l w then Some (inline (emit_sub_l_dd (f_rr w) (f_reg w) (f_mode w =? 1) flags_dead))
  else if is_and_l w then Some (inline (emit_logic_l_dd (f_rr w) (f_reg w) (f_rr w) false))
  else if is_or_l w then Some (inline (emit_logic_l_dd_kind (f_rr w) (f_reg w) (f_rr w) 0 flags_dead))
  else if is_eor_l w then Some (inline (emit_logic_l_dd (f_rr w) (f_reg w) (f_reg w) true))
  else if is_and_bw w then Some (inline (emit_logic_bw_dd_kind (f_reg w) (f_rr w) (f_rr w) 1 (size_bits w) flags_dead))
  else if is_or_bw w then Some (inline (emit_logic_bw_dd_kind (f_reg w) (f_rr w) (f_rr w) 0 (size_bits w) flags_dead))
  else if is_eor_bw w then Some (inline (emit_logic_bw_dd_kind (f_rr w) (f_reg w) (f_reg w) 2 (size_bits w) flags_dead))
  else if is_immalu_l w then Some (arm_immalu_l op_pc w)
  else if is_imm_bw w then Some (arm_imm_bw op_pc w)
  else None.

(** The translation of [ops], opcodes and their addresses, one arm after the
    other; returns the number of operations compiled inline. *)
Fixpoint body (fuel : nat) (ops : list (Z * Z)) : K Z :=
  match fuel, ops with
  | _, [] => mret 0
  | O, _ => undefined_behaviour
  | S fuel, (w, op_pc) :: next =>
      gen_do (set (set_g_helper_touched_mask 0xFFFF)) ;;
      match select_arm w op_pc next with
      | Some a => n ← a; k ← body fuel (drop n next); mret (k + 1)
      | None => undefined_behaviour
      end
  end.

(** ** The whole block *)

Definition tight_irq (m : mac_mem) (pc : Z) : bool :=
  (MAC_ROM_BASE <=? pc) ||
  (mem_overlay m && match mem_rom m with Some _ => true | None => false end && (pc <? mem_rom_size m)).

(** The bytes asked of the code cache. *)
Definition block_total (n_ops : Z) : Z := align_up_4 (lit_bytes + PROLOGUE_EPILOGUE + n_ops * BYTES_PER_OP).

(** The code of a block, from the prologue to the epilogue; returns the
    prologue's offsets and the number of operations compiled inline. *)
Definition block_code (entry_off : Z) (sr_load : bool) (ops : list (Z * Z)) : K (Z * Z * Z) :=
  offs ← gen_do (prologue entry_off sr_load);
  inline_ops ← body (length ops) ops;
  gen_do epilogue ;;
  mret (offs, inline_ops).

(** [m68k_compile_block] up to the descriptor, in a cleared span of
    [block_total] bytes; [None] when the code does not fit.  The block's
    addresses are offsets from the start of its span. *)
Definition compile_code (pc : Z) : M mac (option (list Z * m68k_block)) :=
  m ← getm id;
  ops_end ← discover (if tight_irq m pc then 1%nat else Z.to_nat M68K_MAX_OPS_PER_BLOCK) pc;
  let '(ops, pc_end) := ops_end : list (Z * Z) * Z in
  let n_ops := Z.of_nat (length ops) in
  let '(last_op, last_op_pc) := List.last ops (0, 0) in
  pc_lit ← pc_literal last_op last_op_pc;
  let entry_off := lit_bytes in
  let rc := assign_registers (fst <$> ops) in
  let sr_load := block_needs_sr_load (fst <$> ops) in
  x ← gets id;
  match block_code entry_off sr_load ops (gen_init rc pc_lit, x) with
  | None => undefined_behaviour
  | Some ((chain_entry_off, body_off, inline_ops), (g, x')) =>
      modify (λ _, x') ;;
      let cap := block_total n_ops - entry_off in
      match (emit_all (g_code g) ;; xt_flush_pending) (xt_init (replicate (Z.to_nat cap) 0) cap) with
      | None => undefined_behaviour
      | Some (_, e) =>
          let code_size := align_up_4 (entry_off + em_len e) in
          if em_overflow e then mret None
          else
            cycles ← getc cpu_cycles;
            mret (Some (take (Z.to_nat code_size) (literal_pool m pc_lit ++ em_buf e),
              mk_block pc pc_end n_ops 0 code_size entry_off body_off chain_entry_off sr_load
                inline_ops 0 None 0xFFFFFFFF None (cache_sig rc) cycles last_op last_op_pc))
      end
  end.
