(* ===== verification/JitRun.v ===== *)
(** * Compiled blocks against the interpreter, on concrete programs

    A program at address 0x100 of a small machine, run once as a compiled
    block ([compile_code], then [enter_block] on the bytes it gives) and once
    by [m68k_step].  Blocks of plain register operations agree; the lemmas
    after them record where the two engines differ. *)

From Stdlib Require Import ZArith.
From stdpp Require Import base tactics list numbers.
From S2P Require Import Prelude Cpu Step Block MacState Sony MacMem MacBus XtEmit XtSim HostSim Codegen Compile.

(** Words from an even address of RAM on. *)
Definition poke_words (a : Z) (ws : list Z) (m : mac_mem) : mac_mem :=
  set_mem_ram (fold_left (λ ram '(i, w), zset (zset ram (a + 2 * i) (w / 0x100)) (a + 2 * i + 1) (w mod 0x100))
    (zip (upto (length ws)) ws) (mem_ram m)) m.
Definition program (ws : list Z) : mac :=
  with_cpu (set_cpu_pc 0x100) (with_bus (poke_words 0x100 ws) mac_example).

Fixpoint steps (n : nat) : M mac unit :=
  match n with O => mret tt | S n => m68k_step ;; steps n end.

(** What both engines leave: data registers, address registers, PC, SR and
    cycles. *)
Definition observe (s : mac) : list Z * list Z * Z * Z * Z :=
  (cpu_d (cpu s), cpu_a (cpu s), cpu_pc (cpu s), cpu_sr (cpu s), cpu_cycles (cpu s)).
Definition run_interpreted (ws : list Z) (n : nat) : option (list Z * list Z * Z * Z * Z) :=
  observe ∘ snd <$> steps n (program ws).
Definition run_compiled (ws : list Z) : option (list Z * list Z * Z * Z * Z) :=
  match compile_code 0x100 (program ws) with
  | Some (Some (code, b), s) => observe ∘ snd <$> enter_block code 1 b (b_entry_off b) s
  | _ => None
  end.

(** MOVEQ, MOVE.L, ADD.L, SUBQ.L, CMP.L, EOR.L, MOVEA.L, ADDA.L and BNE. *)
Definition prog_plain : list Z :=
  [0x7207; 0x2401; 0xD481; 0x5382; 0xB481; 0xB182; 0x2042; 0xD1C1; 0x66EE].
Example plain_agrees : is_Some (run_compiled prog_plain) ∧ run_compiled prog_plain = run_interpreted prog_plain 9.
Proof. split; [eexists; vm_compute; reflexivity|]. vm_compute. reflexivity. Qed.

(** ** Differences

    A field of what the two engines leave. *)
Definition both {A} (f : list Z * list Z * Z * Z * Z → A) (ws : list Z) (n : nat) : option A * option A :=
  (f <$> run_compiled ws, f <$> run_interpreted ws n).
Definition areg_of (r : Z) (o : list Z * list Z * Z * Z * Z) : Z := znth (snd (fst (fst (fst o)))) r.
Definition sr_of (o : list Z * list Z * Z * Z * Z) : Z := snd (fst o).
Definition cycles_of (o : list Z * list Z * Z * Z * Z) : Z := snd o.

(** MOVEQ #1,D1; ADDA.W D1,A0; ADDQ.L #1,D1; ADDA.W D1,A2: the second ADDA.W
    reuses a13 as the sign-extended D1, which the flags of the ADDQ.L have
    overwritten, and which would be the old D1 anyway. *)
Lemma stale_sext_flags : both (areg_of 2) [0x7201; 0xD0C1; 0x5281; 0xD4C1; 0x60F8] 5 = (Some 0, Some 2).
Proof. vm_compute. reflexivity. Qed.

(** MOVEQ #1,D1; MOVEA.L D1,A0; ADDA.W A0,A1; ADDQ.L #1,A0; ADDA.W A0,A2: a
    write to an address register leaves its sign-extended copy valid. *)
Lemma stale_sext_write : both (areg_of 2) [0x7201; 0x2041; 0xD2C8; 0x5288; 0xD4C8; 0x60F6] 6 = (Some 1, Some 2).
Proof. vm_compute. reflexivity. Qed.

(** MOVEQ #5,D1; MOVEA.L D1,A4; MOVEA.L A4,A0; ADDA.W A0,A0: the fused pair
    adds the A0 from before the MOVEA. *)
Lemma fused_movea_adda_self : both (areg_of 0) [0x7205; 0x2841; 0x204C; 0xD0C8; 0x60F8] 5 = (Some 5, Some 10).
Proof. vm_compute. reflexivity. Qed.

(** The same in LEA (2,A4,A2.W),A2; ADDA.W A2,A2. *)
Lemma fused_lea_adda_self :
  both (areg_of 2) [0x7205; 0x2841; 0x2441; 0x45F4; 0xA002; 0xD4CA; 0x60F8] 6 = (Some 17, Some 24).
Proof. vm_compute. reflexivity. Qed.

(** MOVEQ #5,D1; MOVE.L D1,D0; BNE: the fused pair charges 16 of its 20 cycles. *)
Lemma fused_move_cycles : both cycles_of [0x7205; 0x2001; 0x66FA] 3 = (Some 22, Some 26).
Proof. vm_compute. reflexivity. Qed.

(** MOVEQ #0,D2; MOVEQ #0,D3; MOVEQ #1,D0; SUBX.L D3,D2: Z was clear and is
    to stay clear. *)
Lemma subx_sets_z : both sr_of [0x7400; 0x7600; 0x7001; 0x9583; 0x60F6] 5 = (Some 4, Some 0).
Proof. vm_compute. reflexivity. Qed.

(** The low word of the cycle counter wraps without a carry into the high one. *)
Lemma cycle_carry_lost :
  let late := with_cpu (set_cpu_cycles 0xFFFFFFFF) (program [0x4E71; 0x60FC]) in
  (match compile_code 0x100 late with
   | Some (Some (code, b), s) => cpu_cycles ∘ cpu ∘ snd <$> enter_block code 1 b (b_entry_off b) s
   | _ => None
   end, cpu_cycles ∘ cpu ∘ snd <$> steps 2 late) = (Some 17, Some 0x100000011).
Proof. vm_compute. reflexivity. Qed.
