(* ===== verification/JitSize.v ===== *)
(** * How much code the block compiler emits

    A bound on the instructions of every emitter and arm.  The span that
    [m68k_compile_block] asks of the code cache, 240 bytes an operation, is
    enough: the emitter's buffer never overflows. *)

From Stdlib Require Import ZArith Lia.
From stdpp Require Import base tactics list numbers.
From S2P Require Import Prelude Cpu Flags Ea Step Decode Block MacState Sony MacMem XtEmit HostSim Codegen Compile JitRun.

(** ** Counting instructions *)

Section grows.
(** The code of a state, and something that [m] leaves alone. *)
Context {S : Type} (code : S → list xt_instr) (keep : S → Z).

(** [m] appends at most [n] instructions; with at most four registers cached. *)
Definition grows {A} (m : M S A) (n : nat) : Prop :=
  ∀ s a s', keep s ≤ 4 → m s = Some (a, s') → keep s' = keep s ∧ ∃ l, code s' = code s ++ l ∧ (length l ≤ n)%nat.

Lemma grows_weaken {A} (m : M S A) n n' : (n ≤ n')%nat → grows m n → grows m n'.
Proof. intros Hn Hm s a s' Hs E. destruct (Hm _ _ _ Hs E) as (? & l & ? & ?). split; [done|]. exists l. split; [done|lia]. Qed.
Lemma grows_bind {A B} (m : M S A) (k : A → M S B) a b :
  grows m a → (∀ x, grows (k x) b) → grows (m ≫= k) (a + b).
Proof.
  intros Hm Hk s y s' Hs. unfold mbind, M_bind. destruct (m s) as [[x s1]|] eqn:E; [|done].
  apply Hm in E as (K1 & l1 & E1 & L1); [|done]. intros (K2 & l2 & E2 & L2)%Hk; [|lia]. split; [congruence|]. exists (l1 ++ l2).
  split; [by rewrite E2, E1, app_assoc|rewrite length_app; lia].
Qed.
Lemma grows_id {A} (m : M S A) : (∀ s a s', m s = Some (a, s') → code s' = code s ∧ keep s' = keep s) → grows m 0.
Proof.
  intros H s a s' _ E. destruct (H _ _ _ E). split; [done|]. exists []. by rewrite app_nil_r.
Qed.
Lemma grows_ret {A} (x : A) : grows (mret x) 0.
Proof. apply grows_id. by intros s a s' [= _ <-]. Qed.
Lemma grows_gets {A} (f : S → A) : grows (gets f) 0.
Proof. apply grows_id. by intros s a s' [= _ <-]. Qed.
Lemma grows_ub {A} : grows (A:=A) undefined_behaviour 0.
Proof. done. Qed.
Lemma grows_if {A} (b : bool) (m m' : M S A) x y : grows m x → grows m' y → grows (if b then m else m') (x `max` y).
Proof. intros Hm Hm'. destruct b; (eapply grows_weaken; [|done]; lia). Qed.
Lemma grows_when (b : bool) (m : M S unit) n : grows m n → grows (when b m) n.
Proof. intros Hm. destruct b; [done|]. eapply grows_weaken; [|apply grows_ret]. lia. Qed.
Lemma grows_for l (f : Z → M S unit) n : (∀ i, grows (f i) n) → grows (for_each l f) (length l * n).
Proof.
  intros Hf. induction l as [|i l IH]; cbn [for_each length Nat.mul]; [apply grows_ret|].
  by apply grows_bind.
Qed.
End grows.

(** [n] instructions of the generator. *)
Definition active (g : gen) : Z := rc_active (g_rc g).
Abbreviation ggrows := (grows g_code active).

Lemma ggrows_emit i : ggrows (emit i) 1.
Proof. intros g a g' _. unfold emit. destruct (instr_ok i); [|done]. intros [= _ <-]. split; [done|]. by eexists. Qed.
Lemma ggrows_set f : (∀ g, g_code (f g) = g_code g ∧ active (f g) = active g) → ggrows (set f) 0.
Proof. intros Hf. apply grows_id. intros g a g' [= _ <-]. apply Hf. Qed.

Create HintDb grows.
#[export] Hint Resolve ggrows_emit grows_ret grows_gets grows_ub : grows.
#[export] Hint Extern 1 (grows _ _ (set _) _) => apply ggrows_set; intros; split; reflexivity : grows.

(** The count of an emitter, from its text. *)
Ltac grows :=
  cbv beta zeta;
  lazymatch goal with
  | |- grows _ _ (mbind _ _) _ => eapply grows_bind; [grows|intros; grows]
  | |- grows _ _ (when _ _) _ => eapply grows_when; grows
  | |- grows _ _ (if _ then _ else _) _ => eapply grows_if; grows
  | |- grows _ _ (match ?x with _ => _ end) _ => destruct x; grows
  | |- _ => solve [eauto with grows]
  end.
Ltac count := eapply grows_weaken; [|grows]; cbn; lia.

Lemma ggrows_mov a b : ggrows (xt_mov a b) 1.
Proof. apply ggrows_emit. Qed.
Lemma ggrows_l32r a b c : ggrows (emit_l32r_at a b c) 1.
Proof. unfold emit_l32r_at. count. Qed.
Lemma mark_dirty_active l gi rc : rc_active (mark_dirty_from l gi rc) = rc_active rc.
Proof. induction l as [|i l IH]; cbn; [done|]. by destruct (_ =? gi). Qed.
Lemma ggrows_mark_dirty gi : ggrows (mark_dirty gi) 0.
Proof. apply ggrows_set. intros g. split; [done|]. apply mark_dirty_active. Qed.
#[export] Hint Resolve ggrows_mov ggrows_l32r ggrows_mark_dirty : grows.
Lemma ggrows_read gi d : ggrows (emit_read_g gi d) 1.
Proof. unfold emit_read_g. count. Qed.
Lemma ggrows_read_in gi d : ggrows (emit_read_g_in gi d) 1.
Proof. unfold emit_read_g_in. count. Qed.
Lemma ggrows_write gi d : ggrows (emit_write_g gi d) 1.
Proof. unfold emit_write_g. count. Qed.
Lemma ggrows_write_back gi d : ggrows (write_back gi d) 1.
Proof. unfold write_back. count. Qed.
Lemma ggrows_imm32 a b v : ggrows (emit_load_imm32 a b v) 10.
Proof. unfold emit_load_imm32. eapply grows_weaken; [|eapply grows_bind; [grows|intros; apply (grows_for _ _ _ _ 3); intros; count]]. cbn. lia. Qed.
#[export] Hint Resolve ggrows_read ggrows_read_in ggrows_write ggrows_write_back ggrows_imm32 : grows.
Lemma ggrows_imm a b v : ggrows (emit_load_imm a b v) 10.
Proof. unfold emit_load_imm. count. Qed.
#[export] Hint Resolve ggrows_imm : grows.
Lemma ggrows_add_const a b c n : ggrows (emit_add_const a b c n) 11.
Proof. unfold emit_add_const. count. Qed.
#[export] Hint Resolve ggrows_add_const : grows.
Lemma ggrows_bump o n : ggrows (emit_bump o n) 13.
Proof. unfold emit_bump. count. Qed.
#[export] Hint Resolve ggrows_bump : grows.
Lemma ggrows_advance_flush : ggrows emit_advance_flush 26.
Proof. unfold emit_advance_flush. count. Qed.
Lemma ggrows_advance a b : ggrows (emit_advance a b) 0.
Proof. by apply ggrows_set. Qed.
Lemma ggrows_sr_dirtied : ggrows sr_dirtied 0.
Proof. by apply ggrows_set. Qed.
Lemma ggrows_invalidate : ggrows sext_memo_invalidate 0.
Proof. by apply ggrows_set. Qed.
#[export] Hint Resolve ggrows_advance_flush ggrows_advance ggrows_sr_dirtied ggrows_invalidate : grows.
Lemma ggrows_sr_flush : ggrows emit_sr_flush 1.
Proof. unfold emit_sr_flush. count. Qed.
Lemma ggrows_sr_reload : ggrows emit_sr_reload 1.
Proof. unfold emit_sr_reload. count. Qed.
#[export] Hint Resolve ggrows_sr_flush ggrows_sr_reload : grows.

(** *** Flags *)

Lemma ggrows_logic_flags v : ggrows (emit_logic_flags v) 9.
Proof. unfold emit_logic_flags. count. Qed.
Lemma ggrows_logic_const v : ggrows (emit_logic_flags_const v) 4.
Proof. unfold emit_logic_flags_const. count. Qed.
Lemma ggrows_carry b s d r : ggrows (emit_carry b s d r) 8.
Proof. unfold emit_carry. count. Qed.
Lemma ggrows_overflow b s d r : ggrows (emit_overflow b s d r) 4.
Proof. unfold emit_overflow. count. Qed.
#[export] Hint Resolve ggrows_logic_flags ggrows_logic_const ggrows_carry ggrows_overflow : grows.
Lemma ggrows_addsub_masked b k s d r m : ggrows (emit_addsub_flags_long_masked b k s d r m) 25.
Proof. unfold emit_addsub_flags_long_masked. count. Qed.
#[export] Hint Resolve ggrows_addsub_masked : grows.
#[local] Opaque emit_addsub_flags_long_masked.
Lemma ggrows_addsub_ex b k s d r : ggrows (emit_addsub_flags_long_ex b k s d r) 25.
Proof. unfold emit_addsub_flags_long_ex. count. Qed.
Lemma ggrows_addsub_flags b k : ggrows (emit_addsub_flags_long b k) 25.
Proof. apply ggrows_addsub_ex. Qed.
#[export] Hint Resolve ggrows_addsub_ex ggrows_addsub_flags : grows.

(** *** The operations' emitters *)

Lemma ggrows_addsub b r s t : ggrows (emit_addsub b r s t) 1.
Proof. apply ggrows_emit. Qed.
Lemma ggrows_logic_op k r s t : ggrows (emit_logic_op k r s t) 1.
Proof. apply ggrows_emit. Qed.
#[export] Hint Resolve ggrows_addsub ggrows_logic_op : grows.
Lemma ggrows_sext g : ggrows (emit_sext g) 3.
Proof. unfold emit_sext. count. Qed.
Lemma ggrows_pc_const a b pc : ggrows (emit_pc_const a b pc) 10.
Proof. unfold emit_pc_const. count. Qed.
#[export] Hint Resolve ggrows_sext ggrows_pc_const : grows.
Lemma ggrows_tail ft d n : ggrows (emit_bcc_branchless_tail ft d n) 41.
Proof. unfold emit_bcc_branchless_tail. count. Qed.
Lemma ggrows_cond cc : ggrows (emit_cond cc) 8.
Proof.
  unfold emit_cond. change 8%nat with (0 + (1 + (1 + (1 + (1 + 4)))))%nat.
  do 5 (eapply grows_bind; [grows|intros _]). repeat case_match; count.
Qed.
#[export] Hint Resolve ggrows_tail ggrows_cond : grows.
Lemma ggrows_jump t n : ggrows (emit_jump_const t n) 24.
Proof. unfold emit_jump_const. count. Qed.
Lemma ggrows_absorb : ggrows absorb_cycles 0.
Proof. unfold absorb_cycles. count. Qed.
Lemma ggrows_cond_fused cc s d r : ggrows (emit_cmp_cond_fused cc s d r) 29.
Proof. unfold emit_cmp_cond_fused. count. Qed.
#[export] Hint Resolve ggrows_jump ggrows_absorb ggrows_cond_fused : grows.

Lemma ggrows_moveq w b : ggrows (emit_moveq w b) 6.
Proof. unfold emit_moveq. count. Qed.
Lemma ggrows_move_imm n v b : ggrows (emit_move_l_imm_dn n v b) 15.
Proof. unfold emit_move_l_imm_dn. count. Qed.
Lemma ggrows_movea_imm n v : ggrows (emit_movea_l_imm n v) 11.
Proof. unfold emit_movea_l_imm. count. Qed.
Lemma ggrows_move_dn g n b : ggrows (emit_move_l_to_dn g n b) 11.
Proof. unfold emit_move_l_to_dn. count. Qed.
Lemma ggrows_move_dd n m b : ggrows (emit_move_l_dd n m b) 11.
Proof. unfold emit_move_l_dd. apply ggrows_move_dn. Qed.
Lemma ggrows_movea_reg n m b : ggrows (emit_movea_l_reg n m b) 2.
Proof. unfold emit_movea_l_reg. count. Qed.
Lemma ggrows_lea_fused a b c d e : ggrows (emit_lea_adda_fused a b c d e) 7.
Proof. unfold emit_lea_adda_fused. count. Qed.
Lemma ggrows_movea_fused a b c d e f : ggrows (emit_movea_adda_fused a b c d e f) 6.
Proof. unfold emit_movea_adda_fused. count. Qed.
Lemma ggrows_adda_imm a i b : ggrows (emit_adda_w_imm a i b) 13.
Proof. unfold emit_adda_w_imm. count. Qed.
Lemma ggrows_adda_reg a s b : ggrows (emit_adda_w_reg a s b) 6.
Proof. unfold emit_adda_w_reg. count. Qed.
Lemma ggrows_addsub_dd b n m a f : ggrows (emit_addsub_l_dd b n m a f) 30.
Proof. unfold emit_addsub_l_dd. count. Qed.
Lemma ggrows_addq n i b f : ggrows (emit_addq_l_dd n i b f) 30.
Proof. unfold emit_addq_l_dd. count. Qed.
Lemma ggrows_addq_an n d : ggrows (emit_addq_an n d) 3.
Proof. unfold emit_addq_an. count. Qed.
Lemma ggrows_cmp_w n m c : ggrows (emit_cmp_w_dd n m c) 30.
Proof. unfold emit_cmp_w_dd. count. Qed.
Lemma ggrows_cmp_l n m c : ggrows (emit_cmp_l_dd n m c) 30.
Proof. unfold emit_cmp_l_dd. count. Qed.
Lemma ggrows_addq_w n i b f : ggrows (emit_addq_w_dn n i b f) 36.
Proof. unfold emit_addq_w_dn. count. Qed.
Lemma ggrows_logic_dd a b d k f : ggrows (emit_logic_l_dd_kind a b d k f) 13.
Proof. unfold emit_logic_l_dd_kind. count. Qed.
Lemma ggrows_logic_l a b d e : ggrows (emit_logic_l_dd a b d e) 13.
Proof. unfold emit_logic_l_dd. apply ggrows_logic_dd. Qed.
Lemma ggrows_logic_bw a b d k z f : ggrows (emit_logic_bw_dd_kind a b d k z f) 20.
Proof. unfold emit_logic_bw_dd_kind. count. Qed.
Lemma ggrows_immalu n i k : ggrows (emit_immalu_l_dn n i k) 38.
Proof. unfold emit_immalu_l_dn. count. Qed.
Lemma ggrows_immarith n i z k : ggrows (emit_immarith_bw_dn n i z k) 47.
Proof. unfold emit_immarith_bw_dn. count. Qed.
Lemma ggrows_immlogic n i z k : ggrows (emit_immlogic_bw_dn n i z k) 23.
Proof. unfold emit_immlogic_bw_dn. count. Qed.
Lemma ggrows_branch pc w : ggrows (emit_branch pc w) 49.
Proof. unfold emit_branch. count. Qed.
Lemma ggrows_lea a m r e v : ggrows (emit_lea a m r e v) 13.
Proof. unfold emit_lea. count. Qed.
Lemma ggrows_move_bcc n m w pc : ggrows (emit_move_l_bcc n m w pc) 98.
Proof. unfold emit_move_l_bcc. count. Qed.
#[export] Hint Resolve ggrows_moveq ggrows_move_imm ggrows_movea_imm ggrows_move_dn ggrows_move_dd ggrows_movea_reg
  ggrows_lea_fused ggrows_movea_fused ggrows_adda_imm ggrows_adda_reg ggrows_addsub_dd ggrows_addq ggrows_addq_an
  ggrows_cmp_w ggrows_cmp_l ggrows_addq_w ggrows_logic_dd ggrows_logic_l ggrows_logic_bw ggrows_immalu
  ggrows_immarith ggrows_immlogic ggrows_branch ggrows_lea ggrows_move_bcc : grows.

(** ** The arms *)

Definition kcode (s : gen * mac) : list xt_instr := g_code s.1.
Definition kactive (s : gen * mac) : Z := active s.1.
Abbreviation kgrows := (grows kcode kactive).
(** [BYTES_PER_OP], with [OP_INSTRS] instructions used of it. *)
Definition OP_INSTRS : nat := 72.

Definition arm_fits (next : list (Z * Z)) (a : arm) : Prop :=
  ∀ s k s', kactive s ≤ 4 → a s = Some (k, s') → (k ≤ length next)%nat ∧ kactive s' = kactive s ∧ ∃ l, kcode s' = kcode s ++ l ∧ (length l ≤ OP_INSTRS * (k + 1))%nat.

Lemma gen_do_grows {A} (m : G A) n : ggrows m n → kgrows (gen_do m) n.
Proof.
  intros Hm [g x] a s' Hs. unfold gen_do. cbn. destruct (m g) as [[y g']|] eqn:E; [|done]. intros [= _ <-].
  by apply (Hm _ _ _ Hs E).
Qed.
Lemma mem_do_grows {A} (m : M mac A) : kgrows (mem_do m) 0.
Proof.
  apply grows_id. intros [g x] a s'. unfold mem_do. cbn. destruct (m x) as [[y x']|]; [|done]. by intros [= _ <-].
Qed.

Lemma arm_gen next (m : G unit) n k : ggrows m n → (n ≤ OP_INSTRS * (k + 1))%nat → (k ≤ length next)%nat →
  arm_fits next (gen_do m ;; mret k).
Proof.
  intros Hm Hn Hk s k' s' Hs. unfold mbind, M_bind. destruct (gen_do m s) as [[[] s1]|] eqn:E; [|done]. intros [= <- <-].
  apply (gen_do_grows _ _ Hm) in E as (Ka & l & El & Hl); [|done]. split; [done|]. split; [done|]. exists l. split; [done|lia].
Qed.
Lemma arm_inline next m n : ggrows m n → (n ≤ OP_INSTRS)%nat → arm_fits next (inline m).
Proof. intros Hm Hn. apply (arm_gen _ m n); [done|lia..]. Qed.
Lemma arm_bind {A} next (m : K A) (k : A → arm) : kgrows m 0 → (∀ x, arm_fits next (k x)) → arm_fits next (m ≫= k).
Proof.
  intros Hm Hk s n s' Hs. unfold mbind, M_bind. destruct (m s) as [[x s1]|] eqn:E; [|done].
  apply Hm in E as (K1 & l0 & E0 & H0); [|done]. intros (Hn & K2 & l & El & Hl)%Hk; [|lia]. split; [done|]. split; [congruence|]. destruct l0; [|cbn in H0; lia].
  exists l. by rewrite El, E0, app_nil_r.
Qed.
Lemma arm_ext16 next pc k : (∀ v, arm_fits next (k v)) → arm_fits next (ext16 pc ≫= k).
Proof. apply arm_bind, mem_do_grows. Qed.
Lemma arm_ext32 next pc k : (∀ v, arm_fits next (k v)) → arm_fits next (ext32 pc ≫= k).
Proof. apply arm_bind, mem_do_grows. Qed.

Ltac arm := cbv zeta;
  lazymatch goal with
  | |- arm_fits _ (inline _) => eapply arm_inline; [grows|unfold OP_INSTRS; cbn; lia..]
  | |- arm_fits _ (gen_do _ ;; mret _) => eapply arm_gen; [grows|unfold OP_INSTRS; cbn; lia..]
  | |- arm_fits _ (ext16 _ ≫= _) => apply arm_ext16; intros; arm
  | |- arm_fits _ (ext32 _ ≫= _) => apply arm_ext32; intros; arm
  | |- arm_fits _ (match ?x with _ => _ end) => destruct x eqn:?; arm
  end.

Lemma fits_add_l_imm pc w next : arm_fits next (arm_add_l_imm pc w).
Proof. unfold arm_add_l_imm. arm. Qed.
Lemma fits_addx w next : arm_fits next (arm_addx_l w).
Proof. unfold arm_addx_l. arm. Qed.
Lemma fits_move_imm pc w next : arm_fits next (arm_move_l_imm pc w).
Proof. unfold arm_move_l_imm. arm. Qed.
Lemma fits_move_dd w next : arm_fits next (arm_move_l_dd w next).
Proof. unfold arm_move_l_dd. arm. Qed.
Lemma fits_move_w_an w next : arm_fits next (arm_move_w_an_dn w).
Proof. unfold arm_move_w_an_dn. arm. Qed.
Lemma fits_movea w next : arm_fits next (arm_movea_l w next).
Proof. unfold arm_movea_l. cbv zeta. destruct next as [|[nw a] [|[nw2 b] next]]; repeat case_match; arm. Qed.
Lemma fits_adda w next : arm_fits next (arm_adda_l w).
Proof. unfold arm_adda_l. arm. Qed.
Lemma fits_adda_imm pc w next : arm_fits next (arm_adda_w_imm pc w).
Proof. unfold arm_adda_w_imm. arm. Qed.
Lemma fits_lea_pc pc w next : arm_fits next (arm_lea_pc pc w).
Proof. unfold arm_lea_pc. arm. Qed.
Lemma fits_lea pc w next : arm_fits next (arm_lea pc w next).
Proof.
  unfold arm_lea. cbv zeta. do 2 (apply arm_bind;
    [change 0%nat with (0 `max` 0)%nat; apply grows_if; [apply mem_do_grows|apply grows_ret]|intros]). arm.
Qed.
Lemma fits_bcc_w pc w next : arm_fits next (arm_bcc_w pc w).
Proof. unfold arm_bcc_w. arm. Qed.
Lemma fits_neg w next : arm_fits next (arm_neg_l w).
Proof. unfold arm_neg_l. arm. Qed.
Lemma fits_immalu pc w next : arm_fits next (arm_immalu_l pc w).
Proof. unfold arm_immalu_l. arm. Qed.
Lemma fits_imm_bw pc w next : arm_fits next (arm_imm_bw pc w).
Proof. unfold arm_imm_bw. arm. Qed.

Lemma select_fits w pc next a : select_arm w pc next = Some a → arm_fits next a.
Proof.
  unfold select_arm, arm_nop. repeat (case_match; [intros [= <-]; (arm || auto using fits_add_l_imm, fits_addx,
    fits_move_imm, fits_move_dd, fits_move_w_an, fits_movea, fits_adda, fits_adda_imm, fits_lea_pc, fits_lea, fits_bcc_w,
    fits_neg, fits_immalu, fits_imm_bw)|]); done.
Qed.

(** ** The block *)

Lemma ggrows_cached {B} (k : regcache → G B) n : (∀ rc, rc_active rc ≤ 4 → ggrows (k rc) n) → ggrows (gets g_rc ≫= k) n.
Proof. intros Hk g a g' Hg E. exact (Hk (g_rc g) Hg g a g' Hg E). Qed.
Lemma slots_length rc : rc_active rc ≤ 4 → (length (slots rc) ≤ 4)%nat.
Proof. unfold slots, upto. rewrite length_fmap, length_seq. lia. Qed.

Lemma ggrows_load_slots : ggrows load_slots 4.
Proof.
  apply ggrows_cached. intros rc Hrc. apply slots_length in Hrc.
  eapply grows_weaken; [|apply (grows_for _ _ _ _ 1); intros; apply ggrows_emit]. lia.
Qed.
Lemma ggrows_cache_flush : ggrows emit_cache_flush 4.
Proof.
  apply ggrows_cached. intros rc Hrc. apply slots_length in Hrc.
  eapply grows_weaken; [|eapply grows_bind; [apply (grows_for _ _ _ _ 1); intros; count|intros; grows]]. lia.
Qed.
#[export] Hint Resolve ggrows_load_slots ggrows_cache_flush : grows.
Lemma ggrows_prologue o b : ggrows (prologue o b) 7.
Proof. unfold prologue. count. Qed.
Lemma ggrows_flush : ggrows epilogue_flush 31.
Proof. unfold epilogue_flush. count. Qed.
#[export] Hint Resolve ggrows_flush : grows.
Lemma ggrows_epilogue : ggrows epilogue 33.
Proof. unfold epilogue. count. Qed.

Lemma body_grows fuel ops : kgrows (body fuel ops) (OP_INSTRS * length ops).
Proof.
  revert ops. induction fuel as [|fuel IH]; intros [|[w pc] next]; cbn [body];
    try (by eapply grows_weaken; [|apply grows_ret]; lia); [done|].
  change (OP_INSTRS * length ((w, pc) :: next))%nat with (0 + OP_INSTRS * S (length next))%nat.
  apply grows_bind; [apply gen_do_grows; grows|]. intros _.
  destruct (select_arm w pc next) as [a|] eqn:Ea; [|done]. apply select_fits in Ea.
  intros s y s' Hs. unfold mbind, M_bind. destruct (a s) as [[k s1]|] eqn:E1; [|done].
  apply Ea in E1 as (Hk & K1 & l1 & E1 & L1); [|done].
  destruct (body fuel (drop k next) s1) as [[n s2]|] eqn:E2; [|done]. intros [= _ <-].
  apply IH in E2 as (K2 & l2 & E2 & L2); [|lia]. split; [congruence|]. exists (l1 ++ l2).
  rewrite length_drop in L2. split; [by rewrite E2, E1, app_assoc|]. rewrite length_app. nia.
Qed.

Lemma pick_active fuel slot use rc : 0 ≤ rc_active rc → 0 ≤ rc_active (pick_slots fuel slot use rc) ≤ rc_active rc + Z.of_nat fuel.
Proof.
  revert slot rc. induction fuel as [|fuel IH]; intros slot rc Hrc; cbn [pick_slots]; [lia|].
  destruct (best_register _ _) as [best n]. destruct (_ || _); [lia|].
  match goal with |- context [pick_slots fuel _ _ ?r] => specialize (IH (slot + 1) r) end. cbn [rc_active] in IH. lia.
Qed.
Lemma assign_active ws : 0 ≤ rc_active (assign_registers ws) ≤ 4.
Proof. apply (pick_active 4 0 _ (mk_rc (replicate 16 (-1)) (replicate 4 0) 0 0)). cbn. lia. Qed.

Lemma block_code_grows entry_off sr_load ops : kgrows (block_code entry_off sr_load ops) (40 + OP_INSTRS * length ops).
Proof.
  eapply grows_weaken; [|eapply grows_bind; [apply gen_do_grows, ggrows_prologue|intros; eapply grows_bind;
    [apply body_grows|intros; eapply grows_bind; [apply gen_do_grows, ggrows_epilogue|intros; apply grows_ret]]]].
  lia.
Qed.

(** Discovery finds at least one operation, and at most what it may. *)
Lemma discover_length cap cur (s : mac) ops pc_end s' : (1 ≤ cap)%nat → discover cap cur s = Some ((ops, pc_end), s') →
  (1 ≤ length ops ≤ cap)%nat.
Proof.
  revert cur s ops pc_end s'. induction cap as [|cap IH]; intros cur s ops pc_end s' Hcap; [lia|]. cbn [discover].
  unfold mbind, M_bind. destruct (m68k_decode_at cur s) as [[d s1]|]; [|done].
  destruct (dec_ends_block d); [intros [= <- <- <-]; cbn; lia|].
  destruct (discover cap _ s1) as [[[ops1 e1] s2]|] eqn:E; [|done]. intros [= <- <- <-]. cbn [length fst].
  destruct cap as [|cap]; [injection E as <- _ _; cbn; lia|]. apply IH in E; lia.
Qed.

Lemma align_up_4_spec x : 0 ≤ x < 0xFFFFFFFC → align_up_4 x .& 3 = 0 ∧ x ≤ align_up_4 x < x + 4.
Proof.
  intros Hx. unfold align_up_4. rewrite u32_small by lia. rewrite land_not3 by lia.
  rewrite (land_ones_low _ 3 2) by done. change (2 ^ 2) with 4.
  pose proof (Z.div_mod (x + 3) 4 ltac:(lia)). pose proof (Z.mod_pos_bound (x + 3) 4 ltac:(lia)).
  replace (x + 3 - (x + 3) mod 4) with (4 * ((x + 3) / 4)) by lia. rewrite Z.mul_comm, Z.mod_mul by lia. lia.
Qed.

(** The parts of a compilation that has a result. *)
Record compiled (pc : Z) (s : mac) (r : option (list Z * m68k_block)) (s' : mac) : Type := {
  co_ops : list (Z * Z); co_end : Z; co_s1 : mac; co_lit : option Z; co_s2 : mac;
  co_chain : Z; co_body : Z; co_inline : Z; co_gen : gen; co_emit : xt_emit;
  co_discover : discover (if tight_irq (bus s) pc then 1%nat else Z.to_nat M68K_MAX_OPS_PER_BLOCK) pc s =
    Some ((co_ops, co_end), co_s1);
  co_literal : pc_literal (List.last co_ops (0, 0)).1 (List.last co_ops (0, 0)).2 co_s1 = Some (co_lit, co_s2);
  co_code : block_code lit_bytes (block_needs_sr_load (fst <$> co_ops)) co_ops
      (gen_init (assign_registers (fst <$> co_ops)) co_lit, co_s2) =
    Some ((co_chain, co_body, co_inline), (co_gen, s'));
  co_cap : Z := block_total (Z.of_nat (length co_ops)) - lit_bytes;
  co_emitted : (emit_all (g_code co_gen) ;; xt_flush_pending) (xt_init (replicate (Z.to_nat co_cap) 0) co_cap) =
    Some (tt, co_emit);
  co_result : r = if em_overflow co_emit then None else
    Some (take (Z.to_nat (align_up_4 (lit_bytes + em_len co_emit))) (literal_pool (bus s) co_lit ++ em_buf co_emit),
      mk_block pc co_end (Z.of_nat (length co_ops)) 0 (align_up_4 (lit_bytes + em_len co_emit)) lit_bytes co_body
        co_chain (block_needs_sr_load (fst <$> co_ops)) co_inline 0 None 0xFFFFFFFF None
        (cache_sig (assign_registers (fst <$> co_ops))) (cpu_cycles (cpu s')) (List.last co_ops (0, 0)).1
        (List.last co_ops (0, 0)).2)
}.

Lemma bind_inv {S A B} (m : M S A) (k : A → M S B) s b s' : (x ← m; k x) s = Some (b, s') →
  ∃ a s1, m s = Some (a, s1) ∧ k a s1 = Some (b, s').
Proof. unfold mbind, M_bind. destruct (m s) as [[a s1]|]; [|done]. intros E. by exists a, s1. Qed.

#[local] Opaque discover pc_literal block_code emit_all xt_flush_pending literal_pool.

Lemma compile_inv pc s r s' : compile_code pc s = Some (r, s') → inhabited (compiled pc s r s').
Proof.
  unfold compile_code. intros E. apply bind_inv in E as (m & s0 & [= <- <-] & E).
  apply bind_inv in E as ([ops pc_end] & s1 & E1 & E).
  destruct (List.last ops (0, 0)) as [op op_pc] eqn:El.
  apply bind_inv in E as (lit & s2 & E2 & E). apply bind_inv in E as (x & s3 & [= <- <-] & E).
  destruct (block_code _ _ _ _) as [[[[ch bo] inl] [g s4]]|] eqn:E3; [|done].
  apply bind_inv in E as ([] & s5 & [= <-] & E).
  match type of E with match ?m with Some _ => _ | None => _ end _ = _ => destruct m as [[[] e]|] eqn:E4 end; [|done].
  assert (s4 = s') as ->.
  { destruct (em_overflow e); [by injection E|]. by apply bind_inv in E as (? & ? & [= _ <-] & [= _ <-]). }
  constructor. exists ops pc_end s1 lit s2 ch bo inl g e; rewrite ?El; try done.
  destruct (em_overflow e); [by injection E|]. by apply bind_inv in E as (? & ? & [= <- _] & [= <-]).
Qed.

(** The code of a block of [n] operations and the span asked for it. *)
Lemma span_enough n len : (1 ≤ n ≤ 64)%nat → (len ≤ 40 + OP_INSTRS * n)%nat →
  let cap := block_total (Z.of_nat n) - lit_bytes in
  0 ≤ cap ≤ 0x10000 ∧ cap .& 3 = 0 ∧ 3 * Z.of_nat len ≤ cap.
Proof.
  unfold OP_INSTRS, block_total, PROLOGUE_EPILOGUE, BYTES_PER_OP. intros Hn Hl.
  change lit_bytes with 172. set (x := 172 + 96 + Z.of_nat n * 240).
  destruct (align_up_4_spec x) as [H1 H2]; [lia|]. cbv zeta. split_and!; [lia..| |lia].
  rewrite (land_ones_low _ 3 2) in H1 by done. rewrite (land_ones_low _ 3 2) by done. change (2 ^ 2) with 4 in *.
  by rewrite Zminus_mod, H1.
Qed.

(** The emitter on such code in such a span. *)
Lemma span_emits n prog : (1 ≤ n ≤ 64)%nat → (length prog ≤ 40 + OP_INSTRS * n)%nat →
  let cap := block_total (Z.of_nat n) - lit_bytes in
  ∃ e rest, (emit_all prog ;; xt_flush_pending) (xt_init (replicate (Z.to_nat cap) 0) cap) = Some (tt, e) ∧
    em_overflow e = false ∧ em_len e = Z.of_nat (length (code_bytes prog)) ∧ em_buf e = padded (code_bytes prog) ++ rest.
Proof.
  intros Hn Hl cap. destruct (span_enough n (length prog) Hn Hl) as (H1 & H2 & H3). fold cap in H1, H2, H3.
  destruct (emit_stream_spec (replicate (Z.to_nat cap) 0) cap prog) as (e & Ee & Eb & El & Eo);
    [lia|done|rewrite length_replicate; lia|].
  assert (fitting cap prog = length prog) as Ef by (unfold fitting; assert (Z.of_nat (length prog) ≤ cap / 3) by (apply Z.div_le_lower_bound; lia); lia).
  rewrite Ef, firstn_all in Eb. rewrite Ef in El. exists e. eexists. split; [exact Ee|]. rewrite Eo, El, code_bytes_length.
  split_and!; [apply Z.ltb_ge; lia|lia|exact Eb].
Qed.

Section fits.
Context {pc : Z} {s s' : mac} {r : option (list Z * m68k_block)} (C : compiled pc s r s').

Lemma compiled_ops : (1 ≤ length (co_ops _ _ _ _ C) ≤ 64)%nat.
Proof.
  pose proof (co_discover _ _ _ _ C) as E. change (Z.to_nat M68K_MAX_OPS_PER_BLOCK) with 64%nat in E.
  apply discover_length in E; destruct (tight_irq _ _); lia.
Qed.

Lemma compiled_length : (length (g_code (co_gen _ _ _ _ C)) ≤ 40 + OP_INSTRS * length (co_ops _ _ _ _ C))%nat.
Proof.
  pose proof (co_code _ _ _ _ C) as E. apply block_code_grows in E as (_ & l & El & Hl).
  - change (g_code (co_gen _ _ _ _ C)) with (kcode (co_gen _ _ _ _ C, s')). by rewrite El.
  - apply assign_active.
Qed.

(** The buffer after the emitter: the code and its padding. *)
Lemma compiled_emitted : let code := code_bytes (g_code (co_gen _ _ _ _ C)) in
  em_overflow (co_emit _ _ _ _ C) = false ∧ em_len (co_emit _ _ _ _ C) = Z.of_nat (length code) ∧
  ∃ rest, em_buf (co_emit _ _ _ _ C) = padded code ++ rest.
Proof.
  cbv zeta. destruct (span_emits _ _ compiled_ops compiled_length) as (e & rest & E & H1 & H2 & H3).
  pose proof (co_emitted _ _ _ _ C) as E'. unfold co_cap in E'. rewrite E in E'. injection E' as <-. eauto.
Qed.
End fits.

