(* ===== verification/JitSem.v ===== *)
(** * Compiled code over the CPU's registers

    A reading of the code the block compiler emits as steps on two things
    only: the Xtensa registers and the guest CPU behind the struct pointer in
    a3.  [run_code] shows that the simulator, on the bytes of such code,
    follows it. *)

From Stdlib Require Import ZArith Lia.
From stdpp Require Import base tactics list numbers.
From S2P Require Import Prelude Cpu MacState XtEmit XtSim XtExec HostSim Codegen.

#[local] Ltac Zify.zify_post_hook ::= Z.to_euclidean_division_equations.

(** ** The struct's fields by bytes *)

#[export] Instance cpu_field_eq_dec : EqDecision cpu_field.
Proof. solve_decision. Defined.

Lemma field_at_layout off w f k : (off, w, f) ∈ cpu_layout → 0 ≤ k < w → field_at (off + k) = Some (f, k).
Proof.
  assert (forallb (λ '(off, w, f), forallb (λ k, bool_decide (field_at (off + k) = Some (f, k)))
    (upto (Z.to_nat w))) cpu_layout = true) as Hall by by vm_compute.
  intros Hin Hk. rewrite forallb_forall in Hall. specialize (Hall _ (proj1 (list_elem_of_In _ _) Hin)).
  cbn in Hall. rewrite forallb_forall in Hall. specialize (Hall k).
  apply bool_decide_eq_true in Hall; [done|]. apply list_elem_of_In, list_elem_of_fmap.
  exists (Z.to_nat k). split; [lia|]. apply elem_of_seq. lia.
Qed.

(** The registers a field may name. *)
Definition field_ok (f : cpu_field) : Prop := match f with FD n | FA n => 0 ≤ n < 8 | _ => True end.
Definition width (f : cpu_field) : Z :=
  match f with FSr => 2 | FCycles | FInstrs => 8 | FStopped | FHalted | FExitCode | FPendingIrq => 1 | _ => 4 end.

Lemma layout_ok off w f : (off, w, f) ∈ cpu_layout → w = width f ∧ field_ok f ∧ 0 ≤ off ∧ off + w ≤ sizeof_m68k_cpu.
Proof.
  intros Hin. repeat (apply elem_of_cons in Hin as [[= -> -> ->]|Hin]; [by split_and!|]).
  by apply elem_of_nil in Hin.
Qed.

Lemma get_set_field f v c : cpu_ok c → field_ok f → 0 ≤ v < 256 ^ width f → get_field f (set_field f v c) = v.
Proof.
  intros [Hd Ha _ _] Hf Hv. destruct f as [n|n| | | | | | | | | | | | | |].
  1, 2: unfold get_field, set_field, dreg, areg, set_dreg, set_areg; cbn [cpu_d cpu_a set_cpu_d set_cpu_a field_ok width] in *;
    rewrite znth_zset_eq by lia;
    by apply u32_small.
  all: first [apply u32_small; exact Hv|apply u64_small; exact Hv|apply u16_small; exact Hv|apply u8_small; exact Hv].
Qed.
Lemma set_set_field f v v' c : set_field f v (set_field f v' c) = set_field f v c.
Proof.
  destruct f; try done; cbn [set_field]; unfold set_dreg, set_areg, set_cpu_d, set_cpu_a;
    cbn [cpu_d cpu_a]; by rewrite zset_zset_eq.
Qed.

Lemma set_field_mod f v c : set_field f (v mod 256 ^ width f) c = set_field f v c.
Proof.
  destruct f; cbn [set_field width];
    unfold set_dreg, set_areg, set_cpu_pc, set_cpu_sr, set_cpu_usp, set_cpu_ssp, set_cpu_cycles, set_cpu_instrs,
      set_cpu_stopped, set_cpu_halted, set_cpu_exit_code, set_cpu_pending_irq, set_cpu_jit_ret_pc, set_cpu_jit_arg1,
      set_cpu_jit_arg2, set_cpu_chain_budget;
    first [f_equal; by apply Z.mod_mod|do 2 f_equal; by apply Z.mod_mod].
Qed.

Lemma set_field_ok f v c : cpu_ok c → cpu_ok (set_field f v c).
Proof.
  intros Hc. destruct f; cbn; auto using set_dreg_ok, set_areg_ok, set_pc_ok, set_sr_ok, set_usp_ok, set_ssp_ok,
    set_cycles_ok, set_instrs_ok, set_stopped_ok, set_halted_ok, set_exit_code_ok, set_pending_irq_ok,
    set_chain_budget_ok; destruct Hc; split; cbn; try done; apply u32_range.
Qed.

Lemma get_field_range f c : cpu_ok c → field_ok f → 0 ≤ get_field f c < 256 ^ width f.
Proof.
  intros Hc Hf. pose proof (dreg_range c). pose proof (areg_range c).
  destruct f; cbn in *; try (destruct Hc; done); first [by apply dreg_range|by apply areg_range].
Qed.

Lemma lor_disjoint a b : a .& b = 0 → a .| b = a + b.
Proof. intros E. pose proof (Z.add_lor_land a b). lia. Qed.

Lemma land_byte u j : 0 ≤ j → u .& (0xFF ≪ (8 * j)) = ((u / 2 ^ (8 * j)) mod 256) * 2 ^ (8 * j).
Proof.
  intros Hj. rewrite <- Z.shiftl_mul_pow2, <- (Z.shiftr_div_pow2 u) by lia. change 256 with (2 ^ 8).
  rewrite <- (Z.land_ones _ 8) by lia. zbits i.
  destruct (Z.lt_ge_cases i (8 * j)).
  - rewrite !(Z.testbit_neg_r _ (i - 8 * j)) by lia. by rewrite andb_false_r.
  - autorewrite with zbits. by replace (i - 8 * j + 8 * j) with i by lia.
Qed.

Lemma with_byte_spec u j b : 0 ≤ j → byte b →
  with_byte u j b = u - ((u / 256 ^ j) mod 256) * 256 ^ j + b * 256 ^ j.
Proof.
  intros Hj Hb. unfold byte in Hb. unfold with_byte.
  replace (256 ^ j) with (2 ^ (8 * j)) by (rewrite Z.pow_mul_r by lia; done).
  pose proof (land_byte u j Hj) as E2. set (m := 0xFF ≪ (8 * j)) in *.
  assert (u = Z.ldiff u m .| (u .& m)) as E1 by (zbits i; by destruct (Z.testbit u i), (Z.testbit m i)).
  rewrite lor_disjoint in E1; [|zbits i; by destruct (Z.testbit u i), (Z.testbit m i)].
  rewrite lor_disjoint; [rewrite Z.shiftl_mul_pow2 by lia; lia|].
  assert (b ≪ (8 * j) = (b ≪ (8 * j)) .& m) as ->.
  2: { zbits i. by destruct (Z.testbit u i), (Z.testbit m i), (Z.testbit b (i - 8 * j)). }
  unfold m. rewrite <- Z.shiftl_land. f_equal. rewrite (land_ones_low b 0xFF 8) by done.
  symmetry. by apply Z.mod_small.
Qed.

Lemma with_byte_range w u j b : 0 ≤ u < 256 ^ w → 0 ≤ j < w → 0 ≤ with_byte u j (u8 b) < 256 ^ w.
Proof.
  intros Hu Hj. rewrite with_byte_spec by (try apply u8_range; lia).
  assert (0 < 256 ^ j) by (apply Z.pow_pos_nonneg; lia).
  replace w with (j + 1 + (w - j - 1)) in * by lia. rewrite !Z.pow_add_r in * by lia. change (256 ^ 1) with 256 in *.
  assert (0 < 256 ^ (w - j - 1)) by (apply Z.pow_pos_nonneg; lia).
  pose proof (u8_range b). set (P := 256 ^ j) in *. set (R := 256 ^ (w - j - 1)) in *.
  pose proof (Z.div_mod u P ltac:(lia)). pose proof (Z.mod_pos_bound u P ltac:(lia)).
  pose proof (Z.div_mod (u / P) 256 ltac:(lia)). pose proof (Z.mod_pos_bound (u / P) 256 ltac:(lia)).
  assert (u / P / 256 < R) by (rewrite Z.div_div by lia; apply Z.div_lt_upper_bound; lia).
  assert (0 ≤ u / P / 256) by (apply Z.div_pos; [apply Z.div_pos; lia|lia]).
  set (a := u / P / 256) in *. set (b0 := (u / P) mod 256) in *. nia.
Qed.


(** [n] bytes of [v] over those of [x], from byte [k] on. *)
Fixpoint put_le (n : nat) (k v x : Z) : Z :=
  match n with O => x | S n => put_le n (k + 1) (v / 0x100) (with_byte x k (u8 (u8 v))) end.

Lemma put_le_2 v x : put_le 2 0 v x = x - x mod 0x10000 + v mod 0x10000.
Proof.
  cbn [put_le]. rewrite !with_byte_spec by (try apply u8_range; lia). unfold u8. change (256 ^ (0 + 1)) with 256.
  change (256 ^ 0) with 1. lia.
Qed.
Lemma put_le_4 v x : put_le 4 0 v x = x - x mod 0x100000000 + v mod 0x100000000.
Proof.
  cbn [put_le]. rewrite !with_byte_spec by (try apply u8_range; lia). unfold u8.
  change (256 ^ 0) with 1. change (256 ^ (0 + 1)) with 256. change (256 ^ (0 + 1 + 1)) with 0x10000.
  change (256 ^ (0 + 1 + 1 + 1)) with 0x1000000. lia.
Qed.

Section bytes.
Context (off w : Z) (f : cpu_field).
Hypothesis Hin : (off, w, f) ∈ cpu_layout.
Implicit Types x : xt_sim sim_ctx.

Definition guest_cpu x : m68k_cpu := cpu (ctx_cpu (sim_user x)).
(** The simulation with another guest CPU. *)
Definition with_guest_cpu (g : m68k_cpu → m68k_cpu) x : xt_sim sim_ctx :=
  set_sim_user (set_ctx_cpu (with_cpu g (ctx_cpu (sim_user x))) (sim_user x)) x.

Lemma cpu_ptr k : 0 ≤ k < w →
  (ptr P_CPU off + k) / 0x100000000 = 1 ∧ (ptr P_CPU off + k) mod 0x100000000 = off + k ∧
  field_at (off + k) = Some (f, k).
Proof.
  intros Hk. destruct (layout_ok _ _ _ Hin) as (_ & _ & H1 & H2). unfold sizeof_m68k_cpu in H2.
  split_and!; [unfold ptr, P_CPU; lia..|]. by apply (field_at_layout off w f).
Qed.

Lemma peek_cpu_byte k x : 0 ≤ k < w →
  peek (ptr P_CPU off) k x = Some (byte_of (get_field f (guest_cpu x)) k, x).
Proof.
  intros Hk. destruct (cpu_ptr k Hk) as (E1 & E2 & E3).
  unfold peek. change host_peek with sim_peek. unfold sim_peek. rewrite E1, E2, E3. cbn.
  do 2 f_equal. apply u8_small. unfold byte_of. rewrite (land_ones_low _ 0xFF 8) by done.
  apply Z.mod_pos_bound. lia.
Qed.

Lemma poke_cpu_byte k b x : 0 ≤ k < w →
  poke (ptr P_CPU off) k b x =
    Some (tt, with_guest_cpu (λ c, set_field f (with_byte (get_field f c) k (u8 b)) c) x).
Proof.
  intros Hk. destruct (cpu_ptr k Hk) as (E1 & E2 & E3).
  unfold poke. change host_poke with sim_poke. unfold sim_poke. by rewrite E1, E2, E3.
Qed.

Lemma peek_field n k x : 0 ≤ k → k + Z.of_nat n ≤ w →
  peek_le n (ptr P_CPU off) k x = Some ((get_field f (guest_cpu x) / 256 ^ k) mod 256 ^ Z.of_nat n, x).
Proof.
  revert k. induction n as [|n IH]; intros k Hk Hn.
  { cbn [peek_le]. change (256 ^ Z.of_nat 0) with 1. by rewrite Z.mod_1_r. }
  cbn [peek_le]. rewrite (bind_Some _ _ _ _ _ (peek_cpu_byte k x ltac:(lia))).
  rewrite (bind_Some _ _ _ _ _ (IH (k + 1) ltac:(lia) ltac:(lia))). unfold mret, M_ret. do 2 f_equal.
  unfold byte_of. rewrite (land_ones_low _ 0xFF 8), Z.shiftr_div_pow2 by (done || lia).
  set (v := get_field f (guest_cpu x)).
  change (2 ^ 8) with 256. rewrite Z.pow_mul_r by lia. change (2 ^ 8) with 256.
  rewrite Nat2Z.inj_succ, <- Z.add_1_r, !Z.pow_add_r by lia. change (256 ^ 1) with 256.
  rewrite <- Z.div_div by (try lia; apply Z.pow_nonzero; lia).
  rewrite (Z.mul_comm _ 256), Z.rem_mul_r by (try lia; apply Z.pow_nonzero; lia). lia.
Qed.

Lemma poke_field n k v x : cpu_ok (guest_cpu x) → 0 ≤ k → k + Z.of_nat n ≤ w →
  poke_le n (ptr P_CPU off) k v x =
    Some (tt, match n with O => x | _ => with_guest_cpu (λ c, set_field f (put_le n k v (get_field f c)) c) x end).
Proof.
  intros Hc Hk Hn. revert k v x Hc Hk Hn. induction n as [|n IH]; intros k v x Hc Hk Hn; [done|].
  cbn [poke_le]. rewrite (bind_Some _ _ _ _ _ (poke_cpu_byte k (u8 v) x ltac:(lia))).
  destruct (layout_ok _ _ _ Hin) as (Hw & Hf & _ & _).
  set (y := with_guest_cpu _ x). rewrite IH by (try lia; cbn; by apply set_field_ok).
  destruct n as [|n]; [done|]. do 2 f_equal. unfold y, with_guest_cpu, set_sim_user, set_ctx_cpu, with_cpu. cbn.
  rewrite set_set_field, get_set_field; [done|exact Hc|done|].
  rewrite <- Hw. apply with_byte_range; [rewrite Hw; by apply get_field_range|lia].
Qed.
End bytes.

(** ** Two- and four-byte accesses *)

Lemma field_in_layout l k f i : field_in l k = Some (f, i) → ∃ w, (k - i, w, f) ∈ l ∧ 0 ≤ i < w.
Proof.
  induction l as [|[[off w] f'] l IH]; cbn [field_in]; [done|].
  destruct (_ && _) eqn:E.
  - intros [= -> <-]. exists w. apply andb_true_iff in E as [?%Z.leb_le ?%Z.ltb_lt].
    replace (k - (k - off)) with off by lia. split; [by left|lia].
  - intros (w' & Hin & Hi)%IH. exists w'. split; [by right|done].
Qed.

(** The first [n] bytes of the field at [off]. *)
Definition rd_field (n off : Z) (c : m68k_cpu) : option Z :=
  match field_at off with
  | Some (f, 0) => if n <=? width f then Some (get_field f c mod 256 ^ n) else None
  | _ => None
  end.
Definition wr_field (n off v : Z) (c : m68k_cpu) : option m68k_cpu :=
  match field_at off with
  | Some (f, 0) =>
      if n <=? width f then
        let x := get_field f c in Some (set_field f (x - x mod 256 ^ n + v mod 256 ^ n) c)
      else None
  | _ => None
  end.

Lemma rd_full n off f c : field_at off = Some (f, 0) → n = width f → field_ok f → cpu_ok c →
  rd_field n off c = Some (get_field f c).
Proof.
  intros E -> Hf Hc. unfold rd_field. rewrite E, Z.leb_refl. f_equal. apply Z.mod_small. by apply get_field_range.
Qed.
Lemma wr_full n off f v c : field_at off = Some (f, 0) → n = width f → field_ok f → cpu_ok c →
  wr_field n off v c = Some (set_field f v c).
Proof.
  intros E -> Hf Hc. unfold wr_field. rewrite E, Z.leb_refl. f_equal.
  rewrite (Z.mod_small (get_field f c)) by (by apply get_field_range).
  by rewrite Z.sub_diag, Z.add_0_l, set_field_mod.
Qed.

Lemma field_at_start off f : field_at off = Some (f, 0) → (off, width f, f) ∈ cpu_layout.
Proof.
  intros (w & Hin & Hw)%field_in_layout. rewrite Z.sub_0_r in Hin.
  by destruct (layout_ok _ _ _ Hin) as [<- _].
Qed.

Lemma translate_cpu (x : xt_sim sim_ctx) off : 0 ≤ off < sizeof_m68k_cpu →
  sim_translate x (HOST_CPU_BASE + off) = Some (ptr P_CPU off).
Proof.
  unfold sizeof_m68k_cpu, sim_translate, HOST_CPU_BASE. intros Ho.
  rewrite (proj2 (Z.leb_le 0x40000000 _)), (proj2 (Z.ltb_lt _ (0x40000000 + sizeof_m68k_cpu)))
    by (unfold sizeof_m68k_cpu; lia).
  cbn [andb]. do 2 f_equal. lia.
Qed.

Lemma sim_rd_field (x : xt_sim sim_ctx) n off v : rd_field (Z.of_nat n) off (guest_cpu x) = Some v →
  ∃ p, sim_translate x (HOST_CPU_BASE + off) = Some p ∧ peek_le n p 0 x = Some (v, x).
Proof.
  unfold rd_field. destruct (field_at off) as [[f [| |]]|] eqn:E; try done. apply field_at_start in E.
  destruct (Z.leb_spec (Z.of_nat n) (width f)); [|done]. intros [= <-].
  destruct (layout_ok _ _ _ E) as (_ & _ & H1 & H2). assert (0 < width f) by (by destruct f).
  exists (ptr P_CPU off). split; [apply translate_cpu; lia|].
  rewrite (peek_field off (width f) f E) by lia. by rewrite Z.pow_0_r, Z.div_1_r.
Qed.

Lemma sim_wr_field (x : xt_sim sim_ctx) n off v c : cpu_ok (guest_cpu x) → n = 2%nat ∨ n = 4%nat →
  wr_field (Z.of_nat n) off v (guest_cpu x) = Some c →
  ∃ p, sim_translate x (HOST_CPU_BASE + off) = Some p ∧
    poke_le n p 0 v x = Some (tt, with_guest_cpu (λ _, c) x).
Proof.
  intros Hok Hn. unfold wr_field. destruct (field_at off) as [[f [| |]]|] eqn:E; try done. apply field_at_start in E.
  destruct (Z.leb_spec (Z.of_nat n) (width f)); [|done]. intros [= <-].
  destruct (layout_ok _ _ _ E) as (_ & _ & H1 & H2). assert (0 < width f) by (by destruct f).
  exists (ptr P_CPU off). split; [apply translate_cpu; lia|].
  rewrite (poke_field off (width f) f E) by (done || lia).
  destruct Hn as [-> | ->]; do 2 f_equal; unfold with_guest_cpu, with_cpu; do 3 f_equal.
  - by rewrite put_le_2.
  - by rewrite put_le_4.
Qed.

(** ** The steps *)

Record jst := mk_jst { j_reg : Z → Z; j_cpu : m68k_cpu }.
Definition set_reg (r v : Z) (j : jst) : jst :=
  mk_jst (λ k, if k =? r then u32 v else j_reg j k) (j_cpu j).
Definition set_jcpu (c : m68k_cpu) (j : jst) : jst := mk_jst (j_reg j) c.

Section steps.
(** The literal at an offset in the block. *)
Context (lits : Z → Z).

Definition asem (pc : Z) (i : xt_instr) (j : jst) : option jst :=
  let R := j_reg j in
  match i with
  | And r s t => Some (set_reg r (R s .& R t) j)
  | Or r s t => Some (set_reg r (R s .| R t) j)
  | Xor r s t => Some (set_reg r (R s .^ R t) j)
  | Add r s t => Some (set_reg r (R s + R t) j)
  | Addx2 r s t => Some (set_reg r (2 * R s + R t) j)
  | Sub r s t => Some (set_reg r (R s - R t) j)
  | Addi t s imm => Some (set_reg t (R s + imm) j)
  | Movi t imm => Some (set_reg t imm j)
  | Slli r s sa => Some (set_reg r (R s * 2 ^ sa) j)
  | Srli r s sa => Some (set_reg r (R s / 2 ^ sa) j)
  | Srai r s sa => Some (set_reg r (i32 (R s) / 2 ^ sa) j)
  | Extui r t sh mask => Some (set_reg r ((R t / 2 ^ sh) mod 2 ^ (mask + 1)) j)
  | L32r t imm16 => Some (set_reg t (lits (u32 (4 * ((pc + 3) / 4) + 4 * i16 imm16))) j)
  | L32i t s off => if (s =? R_CPU) && (R s =? HOST_CPU_BASE) then v ← rd_field 4 off (j_cpu j); Some (set_reg t v j) else None
  | L16ui t s off => if (s =? R_CPU) && (R s =? HOST_CPU_BASE) then v ← rd_field 2 off (j_cpu j); Some (set_reg t v j) else None
  | S32i t s off => if (s =? R_CPU) && (R s =? HOST_CPU_BASE) then c ← wr_field 4 off (R t) (j_cpu j); Some (set_jcpu c j) else None
  | S16i t s off => if (s =? R_CPU) && (R s =? HOST_CPU_BASE) then c ← wr_field 2 off (R t) (j_cpu j); Some (set_jcpu c j) else None
  | _ => None
  end.

(** [skip] is true after a taken branch over the next instruction. *)
Fixpoint arun (pc : Z) (code : list xt_instr) (skip : bool) (j : jst) : option (bool * jst) :=
  match code with
  | [] => Some (skip, j)
  | i :: code =>
      if skip then arun (pc + 3) code false j
      else match i with
           | Bnez r rel => if rel =? 6 then arun (pc + 3) code (negb (j_reg j r =? 0)) j else None
           | _ => j ← asem pc i j; arun (pc + 3) code false j
           end
  end.

Lemma arun_app pc code1 code2 skip j :
  arun pc (code1 ++ code2) skip j =
    '(skip, j) ← arun pc code1 skip j; arun (pc + 3 * Z.of_nat (length code1)) code2 skip j.
Proof.
  revert pc skip j. induction code1 as [|i code1 IH]; intros pc skip j.
  { cbn. by rewrite Z.add_0_r. }
  cbn [app arun length]. replace (pc + 3 * Z.of_nat (S (length code1)))
    with (pc + 3 + 3 * Z.of_nat (length code1)) by lia.
  destruct skip; [apply IH|].
  destruct i; try (cbn [mbind option_bind]; destruct (asem _ _ _); [apply IH|done]).
  destruct (_ =? 6); [apply IH|done].
Qed.
End steps.

(** ** The simulator follows the steps *)

#[export] Instance dispatcher_host_bytes : SimHostBytes sim_ctx.
Proof.
  intros h p v. change host_peek with sim_peek. unfold sim_peek. destruct (match _ with Z0 => _ | _ => _ end); [|done].
  intros [= <-]. apply u8_range.
Qed.

(** The registers and the guest CPU of a simulation that runs. *)
Record shows (x : xt_sim sim_ctx) (j : jst) : Prop := {
  sh_running : running x;
  sh_regs : ∀ r, 0 ≤ r < 16 → ar x r = j_reg j r;
  sh_cpu : guest_cpu x = j_cpu j;
  sh_ok : cpu_ok (j_cpu j)
}.

(** All the rest but the counters. *)
Definition shell (x : xt_sim sim_ctx) : list Z * Z * sim_ctx :=
  (sim_code x, sim_code_size x, sim_user (with_guest_cpu (λ _, cpu_zero) x)).

Lemma wr_field_ok n off v c c' : cpu_ok c → wr_field n off v c = Some c' → cpu_ok c'.
Proof.
  intros Hc. unfold wr_field. destruct (field_at off) as [[f [| |]]|]; try done.
  destruct (_ <=? _); [|done]. intros [= <-]. by apply set_field_ok.
Qed.

Lemma ar_set_ar (x : xt_sim sim_ctx) r v k : length (sim_a x) = 16%nat → 0 ≤ r < 16 → 0 ≤ k < 16 →
  ar (set_ar r v x) k = if k =? r then u32 v else ar x k.
Proof.
  intros Hl Hr Hk. unfold ar, set_ar, set_sim_a. cbn [sim_a]. destruct (Z.eqb_spec k r) as [->|Hne].
  - by rewrite znth_zset_eq by lia.
  - by rewrite znth_zset_ne by lia.
Qed.

(** [y] is [x] after an instruction. *)
Definition after_instr (x y : xt_sim sim_ctx) (j : jst) : Prop :=
  (∀ r, 0 ≤ r < 16 → ar y r = j_reg j r) ∧ guest_cpu y = j_cpu j ∧ cpu_ok (j_cpu j) ∧ shell y = shell x.

Lemma after_set x j r v v' : shows x j → reg_ok r = true → u32 v = u32 v' →
  after_instr x (set_ar r v (set_next (sim_pc x) x)) (set_reg r v' j).
Proof.
  intros [Hrun Hr Hc Hok] Hrok Ev. apply andb_true_iff in Hrok as [?%Z.leb_le ?%Z.ltb_lt].
  split_and!; [|done|done|done]. intros k Hk. rewrite ar_set_ar by (try lia; apply (rn_len _ Hrun)).
  cbn [j_reg set_reg]. destruct (k =? r); [done|]. by apply Hr.
Qed.

Lemma after_load x j n t s off v : shows x j → reg_ok t = true → reg_ok s = true →
  within 0 1020 off = true → s = R_CPU → j_reg j s = HOST_CPU_BASE → rd_field (Z.of_nat n) off (j_cpu j) = Some v →
  ∃ y, sem_load t s off (λ p, peek_le n p 0) x = Some (tt, y) ∧ after_instr x y (set_reg t v j).
Proof.
  intros Hx Ht Hs Hoff -> Hb Hv. pose proof Hx as [Hrun Hr Hc Hok].
  apply within_spec in Hoff.
  unfold sem_load. rewrite (bind_Some (modify _) _ x tt (set_next (sim_pc x) x)) by done.
  rewrite sem_bind_id. set (x1 := set_next (sim_pc x) x).
  assert (ar x1 R_CPU = HOST_CPU_BASE) as ->. { rewrite <- Hb. by apply (Hr R_CPU). }
  rewrite <- Hc in Hv. destruct (sim_rd_field x1 n off v Hv) as (p & Ep & Epk).
  unfold load_into. rewrite (bind_Some (host_ptr _) _ x1 (Some p) x1).
  2: { unfold host_ptr, gets. do 2 f_equal. rewrite <- Ep. cbn. f_equal. unfold HOST_CPU_BASE. apply u32_small. lia. }
  rewrite (bind_Some (peek_le n p 0) _ x1 v x1) by done.
  eexists. split; [done|]. apply after_set; done.
Qed.

Lemma after_store x j n t s off c : shows x j → reg_ok t = true → n = 2%nat ∨ n = 4%nat →
  within 0 1020 off = true → s = R_CPU → j_reg j s = HOST_CPU_BASE →
  wr_field (Z.of_nat n) off (j_reg j t) (j_cpu j) = Some c →
  ∃ y, sem_store t s off (λ p v, poke_le n p 0 v) x = Some (tt, y) ∧ after_instr x y (set_jcpu c j).
Proof.
  intros Hx Ht Hn Hoff -> Hb Hv. pose proof Hx as [Hrun Hr Hc Hok].
  apply within_spec in Hoff. apply andb_true_iff in Ht as [?%Z.leb_le ?%Z.ltb_lt].
  unfold sem_store. rewrite (bind_Some (modify _) _ x tt (set_next (sim_pc x) x)) by done.
  rewrite sem_bind_id. set (x1 := set_next (sim_pc x) x).
  assert (ar x1 R_CPU = HOST_CPU_BASE) as ->. { rewrite <- Hb. by apply (Hr R_CPU). }
  rewrite <- Hc in Hv. replace (j_reg j t) with (ar x1 t) in Hv by (by apply (Hr t)).
  destruct (sim_wr_field x1 n off (ar x1 t) c) as (p & Ep & Epk); [change (cpu_ok (guest_cpu x)); by rewrite Hc|done|done|].
  unfold store_at. rewrite (bind_Some (host_ptr _) _ x1 (Some p) x1).
  2: { unfold host_ptr, gets. do 2 f_equal. rewrite <- Ep. cbn. f_equal. unfold HOST_CPU_BASE. apply u32_small. lia. }
  eexists. split; [done|]. split_and!; [by apply Hr|done| |done].
  refine (wr_field_ok _ _ _ _ _ _ Hv). change (cpu_ok (guest_cpu x)). by rewrite Hc.
Qed.

Lemma asem_sim lits x j i j' : shows x j → instr_ok i = true → (∀ o, sim_read_literal x o = lits o) →
  asem lits (sim_pc x) i j = Some j' → straight i = true ∧ ∃ y, sem i x = Some (tt, y) ∧ after_instr x y j'.
Proof.
  intros Hx Hi Hl E. pose proof Hx as [Hrun Hr Hc Hok].
  assert (∀ r, reg_ok r = true → ar x r = j_reg j r) as Hr'.
  { intros r [?%Z.leb_le ?%Z.ltb_lt]%andb_true_iff. by apply Hr. }
  destruct i; try done; cbn [instr_ok] in Hi; rewrite ?andb_true_iff in Hi; cbn [asem] in E;
    (split; [done|]); unfold sem; rewrite sem_bind_id.
  all: try (injection E as <-; eexists; split; [reflexivity|];
    apply after_set; [done|tauto|rewrite ?Hr' by tauto; done]).
  all: try (destruct (_ && _) eqn:Es in E; [|done]; apply andb_true_iff in Es as [->%Z.eqb_eq Eb%Z.eqb_eq]).
  all: try (destruct (rd_field _ _ _) as [v|] eqn:Ev in E; [|done]; injection E as <-;
    apply (after_load x j _ _ _ _ v); try done; try tauto).
  all: try (destruct (wr_field _ _ _ _) as [v|] eqn:Ev in E; [|done]; injection E as <-;
    apply (after_store x j _ _ _ _ v); try done; try tauto).
  all: try (unfold within in *; rewrite ?andb_true_iff, ?Z.leb_le in *; lia).
  injection E as <-. rewrite (bind_Some (modify _) _ x tt (set_next (sim_pc x) x)) by done. rewrite sem_bind_id.
  eexists. split; [reflexivity|]. apply after_set; [done|tauto|]. f_equal. apply Hl.
Qed.

Lemma shell_literal x y o : shell x = shell y → sim_read_literal x o = sim_read_literal y o.
Proof.
  intros E. unfold sim_read_literal.
  by rewrite (f_equal (λ z, ctx_code_size z.2) E : ctx_code_size (sim_user x) = ctx_code_size (sim_user y)),
    (f_equal (λ z, ctx_code z.2) E : ctx_code (sim_user x) = ctx_code (sim_user y)).
Qed.

(** One round of the simulator's loop. *)
Lemma run_round m x x1 : sim_st x = XT_SIM_RUN → step x = Some (tt, x1) →
  xt_sim_run (S m) x = xt_sim_run m (set_sim_count (sim_instr_count x1 + 1) x1).
Proof.
  intros Hst E. cbn [xt_sim_run].
  rewrite (bind_Some (gets _) _ x XT_SIM_RUN x) by (unfold gets; by rewrite Hst).
  rewrite decide_True by done. rewrite (bind_Some step _ x tt x1) by done.
  by rewrite (bind_Some (modify _) _ x1 tt (set_sim_count (sim_instr_count x1 + 1) x1)) by done.
Qed.

(** The simulator on code whose steps succeed: it gets to the end of the code
    (or one instruction beyond, when the last one skips) within one simulator
    step per instruction. *)
Lemma run_code lits code skip x j skip' j'  : let pc := sim_pc x - (if skip : bool then 3 else 0) in
  shows x j → (∀ o, sim_read_literal x o = lits o) → sim_code_size x < 0xFFFFFFE0 →
  forallb instr_ok code = true → 0 ≤ pc → pc + 3 * Z.of_nat (length code) ≤ sim_code_size x →
  (∀ n, (n < 3 * length code)%nat → code_at x (pc + Z.of_nat n) = code_bytes code !! n) →
  arun lits pc code skip j = Some (skip', j') →
  ∃ n y, (n ≤ length code)%nat ∧ (∀ m, xt_sim_run (n + m) x = xt_sim_run m y) ∧ shows y j' ∧ shell y = shell x ∧
    sim_pc y = pc + 3 * Z.of_nat (length code) + (if skip' : bool then 3 else 0).
Proof.
  revert x skip j. induction code as [|i code IH]; intros x skip j pc Hx Hl Hsz Hok Hpc Hfit Hat E.
  { injection E as -> ->. exists 0%nat, x. split_and!; try done. subst pc. cbn. lia. }
  cbn [forallb] in Hok. apply andb_true_iff in Hok as [Hi Hok]. cbn [arun length] in *.
  assert (∀ n, (n < 3 * length code)%nat → code_at x (pc + 3 + Z.of_nat n) = code_bytes code !! n) as Hat'.
  { intros n Hn. replace (pc + 3 + Z.of_nat n) with (pc + Z.of_nat (3 + n)) by lia.
    rewrite Hat by lia. rewrite code_bytes_cons, lookup_app_r by (cbn; lia).
    f_equal. cbn. lia. }
  destruct skip.
  { destruct (IH x false j) as (n & y & Hn & Hrun & Hy & Hsh & Hp); try done; try lia.
    - intros n Hn. replace (sim_pc x - 0) with (pc + 3) by (subst pc; lia). by apply Hat'.
    - replace (sim_pc x - 0) with (pc + 3) by (subst pc; lia). done.
    - exists n, y. split_and!; [lia|done..|]. rewrite Hp. subst pc. lia. }
  assert (pc = sim_pc x) as Epc by (subst pc; lia). clearbody pc. subst pc.
  pose proof Hx as [Hrun Hregs Hc Hcok].
  assert (at_pc x (i :: code)) as Hatpc by (split; cbn [length]; [lia|exact Hat]).
  pose proof (at_pc_step x i code Hrun Hi Hatpc) as Estep.
  set (fin := λ x1 : xt_sim sim_ctx, set_sim_count (sim_instr_count x1 + 1) x1).
  assert (∀ x1 sk j1, step x = Some (tt, x1) → shows (fin x1) j1 → shell x1 = shell x →
    sim_pc x1 = sim_pc x + 3 + (if sk : bool then 3 else 0) → arun lits (sim_pc x + 3) code sk j1 = Some (skip', j') →
    ∃ n y, (n ≤ S (length code))%nat ∧ (∀ m, xt_sim_run (n + m) x = xt_sim_run m y) ∧ shows y j' ∧ shell y = shell x ∧
      sim_pc y = sim_pc x + 3 * Z.of_nat (S (length code)) + (if skip' then 3 else 0)) as Hgo.
  { intros x1 sk j1 E1 Hx1 Hsh1 Hp1 Erest.
    assert (shell (fin x1) = shell x) as Hsh1' by done.
    destruct (IH (fin x1) sk j1) as (n & y & Hn & Hrunm & Hy & Hsh & Hp).
    - done.
    - intros o. by rewrite (shell_literal _ _ _ Hsh1').
    - change (sim_code_size (fin x1)) with (shell (fin x1)).1.2. by rewrite Hsh1'.
    - done.
    - change (sim_pc (fin x1)) with (sim_pc x1). lia.
    - change (sim_code_size (fin x1)) with (shell (fin x1)).1.2. rewrite Hsh1'. cbn.
      change (sim_pc (fin x1)) with (sim_pc x1). destruct sk; lia.
    - intros n Hn. change (sim_pc (fin x1)) with (sim_pc x1).
      replace (sim_pc x1 - (if sk : bool then 3 else 0)) with (sim_pc x + 3) by (destruct sk; lia).
      rewrite <- Hat' by lia. unfold code_at. change (sim_code (fin x1)) with (shell (fin x1)).1.1.
      by rewrite Hsh1'.
    - change (sim_pc (fin x1)) with (sim_pc x1).
      replace (sim_pc x1 - (if sk : bool then 3 else 0)) with (sim_pc x + 3) by (destruct sk; lia). done.
    - exists (S n), y. split_and!; [lia| |done|by rewrite Hsh|].
      + intros m. cbn [Nat.add]. rewrite (run_round _ x x1 (rn_run _ Hrun) E1). apply Hrunm.
      + rewrite Hp. change (sim_pc (fin x1)) with (sim_pc x1). destruct sk, skip'; lia. }
  destruct (match i with Bnez _ _ => true | _ => false end) eqn:Eb.
  - destruct i; try done. destruct (Z.eqb_spec rel 6) as [->|]; [|done].
    cbn [instr_ok] in Hi. rewrite andb_true_iff in Hi. destruct Hi as [Hi _].
    apply andb_true_iff in Hi as [?%Z.leb_le ?%Z.ltb_lt].
    unfold sem in Estep. rewrite sem_bind_id in Estep. rewrite (Hregs s) in Estep by lia.
    pose proof (rn_pc _ Hrun) as Hpcr.
    apply (Hgo _ (negb (j_reg j s =? 0)) j Estep); [|done| |done].
    + split; [|done..]. destruct Hrun. split; try done. cbn.
      destruct (j_reg j s =? 0); cbn; rewrite u32_small by lia; lia.
    + destruct (j_reg j s =? 0); cbn; rewrite u32_small by lia; lia.
  - assert (asem lits (sim_pc x) i j ≫= arun lits (sim_pc x + 3) code false = Some (skip', j')) as E' by
      (destruct i; done). clear E.
    destruct (asem lits (sim_pc x) i j) as [j1|] eqn:E1; [|done]. cbn in E'.
    destruct (asem_sim lits x j i j1 Hx Hi Hl E1) as (Hst & y & Es & Ha1 & Ha2 & Ha3 & Ha4).
    rewrite Es in Estep.
    destruct (running_next x y) as (Hy & Hp & _); [done|lia|by apply (sem_follows i)|].
    apply (Hgo y false j1); [done| |done|lia|done].
    split; [by destruct Hy|done..].
Qed.
