(* ===== verification/JitOps.v ===== *)
(** * What the emitted code of one operation does

    The relation between the state of a translation, the state of the code it
    has emitted so far and the guest CPU as the interpreter would have it:
    cached registers, deferred program counter and cycles, the status register
    in a14.  For each of the code generator's building blocks and register
    operations, the code emitted takes related states to related states. *)

From Stdlib Require Import ZArith Lia.
From stdpp Require Import base tactics list numbers.
From S2P Require Import Prelude Cpu Flags XtEmit HostSim Codegen JitSem.

(** ** The guest's registers *)

Definition greg (c : m68k_cpu) (gi : Z) : Z := if gi <? 8 then dreg c gi else areg c (gi - 8).
Definition set_greg (gi v : Z) (c : m68k_cpu) : m68k_cpu :=
  if gi <? 8 then set_dreg gi v c else set_areg (gi - 8) v c.
Definition is_greg (gi : Z) : Prop := 0 ≤ gi < 16.

(** What register operations leave alone; the fields that only one of the two
    engines keeps are not compared. *)
Definition cpu_rest (c : m68k_cpu) : m68k_cpu :=
  mk_cpu [] [] 0 0 (cpu_usp c) (cpu_ssp c) 0 0 (cpu_stopped c) (cpu_halted c) (cpu_exit_code c)
    (cpu_pending_irq c) 0 (cpu_jit_arg1 c) (cpu_jit_arg2 c) None 0.

Lemma greg_range c gi : cpu_ok c → word32 (greg c gi).
Proof. intros. unfold greg. case_match; [by apply dreg_range|by apply areg_range]. Qed.

Lemma greg_set_greg c gi gk v : cpu_ok c → is_greg gi → is_greg gk →
  greg (set_greg gi v c) gk = if gk =? gi then u32 v else greg c gk.
Proof.
  unfold is_greg. intros [Hd Ha _ _] Hi Hk. unfold greg, set_greg, set_dreg, set_areg, set_cpu_d, set_cpu_a, dreg, areg.
  destruct (Z.ltb_spec gi 8), (Z.ltb_spec gk 8), (Z.eqb_spec gk gi); cbn [cpu_d cpu_a]; subst; try lia; try done.
  - by rewrite znth_zset_eq by lia.
  - by rewrite znth_zset_ne by lia.
  - by rewrite znth_zset_eq by lia.
  - by rewrite znth_zset_ne by lia.
Qed.

Lemma set_greg_ok gi v c : cpu_ok c → cpu_ok (set_greg gi v c).
Proof. intros. unfold set_greg. case_match; [by apply set_dreg_ok|by apply set_areg_ok]. Qed.

Lemma set_greg_rest gi v c : cpu_rest (set_greg gi v c) = cpu_rest c.
Proof. unfold set_greg. by case_match. Qed.

(** Their words in the struct. *)
Lemma field_at_G gi : is_greg gi → field_at (OFF_G gi) = Some (if gi <? 8 then FD gi else FA (gi - 8), 0).
Proof.
  assert (forallb (λ gi, bool_decide (field_at (OFF_G gi) = Some (if gi <? 8 then FD gi else FA (gi - 8), 0)))
    (upto 16) = true) as Hall by by vm_compute.
  intros Hi. rewrite forallb_forall in Hall. specialize (Hall gi). apply bool_decide_eq_true in Hall; [done|].
  apply list_elem_of_In, list_elem_of_fmap. exists (Z.to_nat gi). unfold is_greg in Hi. split; [lia|].
  apply elem_of_seq. lia.
Qed.

Lemma rd_greg gi c : cpu_ok c → is_greg gi → rd_field 4 (OFF_G gi) c = Some (greg c gi).
Proof.
  intros Hc Hi. rewrite (rd_full _ _ _ _ (field_at_G gi Hi)); try done; unfold greg, is_greg in *;
    destruct (Z.ltb_spec gi 8); cbn; done || lia.
Qed.
Lemma wr_greg gi v c : cpu_ok c → is_greg gi → wr_field 4 (OFF_G gi) v c = Some (set_greg gi v c).
Proof.
  intros Hc Hi. rewrite (wr_full _ _ _ v _ (field_at_G gi Hi)); try done; unfold set_greg, is_greg in *;
    destruct (Z.ltb_spec gi 8); cbn; done || lia.
Qed.

Lemma rd_pc c : cpu_ok c → rd_field 4 OFF_PC c = Some (cpu_pc c).
Proof. by apply (rd_full _ _ FPc). Qed.
Lemma wr_pc v c : cpu_ok c → wr_field 4 OFF_PC v c = Some (set_cpu_pc v c).
Proof. by apply (wr_full _ _ FPc). Qed.
Lemma rd_sr c : cpu_ok c → rd_field 2 OFF_SR c = Some (cpu_sr c).
Proof. by apply (rd_full _ _ FSr). Qed.
Lemma wr_sr v c : cpu_ok c → wr_field 2 OFF_SR v c = Some (set_cpu_sr v c).
Proof. by apply (wr_full _ _ FSr). Qed.
Lemma wr_ret_pc v c : cpu_ok c → wr_field 4 OFF_JITRETPC v c = Some (set_cpu_jit_ret_pc v c).
Proof. by apply (wr_full _ _ FJitRetPc). Qed.
(** Only the low half of the cycle counter. *)
Lemma rd_cycles c : rd_field 4 OFF_CYCLES c = Some (u32 (cpu_cycles c)).
Proof. done. Qed.
Definition set_cycles_low (v : Z) (c : m68k_cpu) : m68k_cpu :=
  set_cpu_cycles (cpu_cycles c - cpu_cycles c mod 0x100000000 + u32 v) c.
Lemma wr_cycles v c : wr_field 4 OFF_CYCLES v c = Some (set_cycles_low v c).
Proof. done. Qed.

(** ** The status register *)

(** The value with another CCR. *)
Definition with_ccr (sr ccr : Z) : Z := 0x100 * (sr / 0x100) + ccr.
Definition bit31 (v : Z) : bool := Z.testbit v 31.
Definition logic_ccr (v sr : Z) : Z :=
  16 * ((sr / 16) mod 2) + 8 * b2z (bit31 v) + 4 * b2z (v =? 0).
(** The carry and overflow of [d + s = r] or [d - s = r] on words. *)
Definition carry (is_sub : bool) (s d : Z) : bool := if is_sub then d <? s else 0x100000000 <=? d + s.
Definition overflow (is_sub : bool) (s d r : Z) : bool :=
  xorb (bit31 s) (bit31 (if is_sub then d else r)) && xorb (bit31 d) (bit31 r).
Definition addsub_ccr (is_sub keep_x : bool) (s d r sr : Z) : Z :=
  16 * (if keep_x then (sr / 16) mod 2 else b2z (carry is_sub s d)) + 8 * b2z (bit31 r) + 4 * b2z (r =? 0) +
  2 * b2z (overflow is_sub s d r) + b2z (carry is_sub s d).

Definition sr_clean (sr : Z) : Prop := 0 ≤ sr < 0x10000 ∧ sr mod 0x100 < 0x20.

#[local] Ltac Zify.zify_post_hook ::= Z.to_euclidean_division_equations.

Lemma with_ccr_clean sr ccr : sr_clean sr → 0 ≤ ccr < 0x20 → sr_clean (with_ccr sr ccr).
Proof. unfold sr_clean, with_ccr. lia. Qed.
Lemma b2z_range b : 0 ≤ b2z b < 2.
Proof. destruct b; cbn; lia. Qed.
Lemma logic_ccr_range v sr : 0 ≤ logic_ccr v sr < 0x20.
Proof. unfold logic_ccr. pose proof (b2z_range (bit31 v)). pose proof (b2z_range (v =? 0)). lia. Qed.
Lemma addsub_ccr_range is_sub keep_x s d r sr : 0 ≤ addsub_ccr is_sub keep_x s d r sr < 0x20.
Proof.
  unfold addsub_ccr. pose proof (b2z_range (bit31 r)). pose proof (b2z_range (r =? 0)).
  pose proof (b2z_range (overflow is_sub s d r)). pose proof (b2z_range (carry is_sub s d)). destruct keep_x; lia.
Qed.

(** *** The interpreter's flags *)

Lemma bit31_ge v : word32 v → bit31 v = (0x80000000 <=? v).
Proof.
  unfold word32. intros Hv. unfold bit31. apply eq_true_iff_eq. rewrite Z.testbit_true, Z.leb_le by lia.
  change (2 ^ 31) with 0x80000000. lia.
Qed.
Lemma nz_msb v : nz (v .& 0x80000000) = bit31 v.
Proof. by apply (nz_land_pow2 v 31). Qed.
Lemma and_ff00 sr : 0 ≤ sr < 0x10000 → sr .& 0xFF00 = 0x100 * (sr / 0x100).
Proof.
  intros Hs. change 0xFF00 with (0xFF ≪ (8 * 1)). rewrite (land_byte sr 1) by lia. change (2 ^ (8 * 1)) with 0x100. lia.
Qed.

Lemma lor_low h a : 0 ≤ a < 0x100 → (0x100 * h) .| a = 0x100 * h + a.
Proof.
  intros Ha. apply lor_disjoint. rewrite Z.mul_comm. change 0x100 with (2 ^ 8). rewrite <- Z.shiftl_mul_pow2 by lia.
  zbits i. destruct (Z.lt_ge_cases i 8); [by rewrite Z.testbit_neg_r by lia|].
  by rewrite (testbit_high 8 a i), andb_false_r.
Qed.

Lemma set_ccr_sr v c : 0 ≤ cpu_sr c < 0x10000 → cpu_sr (m68k_set_ccr v c) = with_ccr (cpu_sr c) (v .& 0x1F).
Proof.
  intros Hs. unfold m68k_set_ccr, set_cpu_sr, with_ccr. cbn [cpu_sr].
  pose proof (land_range_r v 0x1F 0x20 ltac:(lia)).
  rewrite and_ff00, lor_low by (done || lia). rewrite !u16_small by (rewrite ?u16_small; lia). done.
Qed.

(** The X flag of the CCR. *)
Lemma get_ccr_x c : m68k_get_ccr c .& CCR_X = 16 * ((cpu_sr c / 16) mod 2).
Proof.
  unfold m68k_get_ccr, CCR_X. rewrite u8_small by (pose proof (land_range_r (cpu_sr c) 0x1F 0x20); lia).
  rewrite <- Z.land_assoc. change (0x1F .& 0x10) with (1 ≪ 4).
  replace (cpu_sr c .& (1 ≪ 4)) with (((cpu_sr c ≫ 4) .& 1) ≪ 4).
  - rewrite Z.shiftl_mul_pow2, (land_ones_low _ 1 1), Z.shiftr_div_pow2 by lia. change (2 ^ 4) with 16.
    change (2 ^ 1) with 2. lia.
  - zbits i. destruct (Z.lt_ge_cases i 4); [rewrite !(Z.testbit_neg_r _ (i - 4)) by lia; by rewrite ?andb_false_r|].
    autorewrite with zbits. by replace (i - 4 + 4) with i by lia.
Qed.

Lemma land_word v : word32 v → v .& 0xFFFFFFFF = v.
Proof. apply land_ones32. Qed.

Lemma interp_logic v c : 0 ≤ cpu_sr c < 0x10000 → word32 v →
  cpu_sr (set_flags_logic 4 v c) = with_ccr (cpu_sr c) (logic_ccr v (cpu_sr c)).
Proof.
  intros Hs Hv. unfold set_flags_logic. rewrite set_ccr_sr by done. f_equal. rewrite get_ccr_x.
  change (size_mask 4) with 0xFFFFFFFF. change (size_msb 4) with 0x80000000. rewrite land_word, nz_msb by done.
  unfold logic_ccr, or_if. assert ((cpu_sr c / 16) mod 2 = 0 ∨ (cpu_sr c / 16) mod 2 = 1) as [-> | ->] by lia;
    by destruct (v =? 0), (bit31 v).
Qed.

Lemma interp_overflow_add s d r : nz ((s .^ r) .& (d .^ r) .& 0x80000000) = overflow false s d r.
Proof. rewrite nz_msb. unfold overflow, bit31. by rewrite Z.land_spec, !Z.lxor_spec. Qed.
Lemma interp_overflow_sub s d r : nz ((s .^ d) .& (d .^ r) .& 0x80000000) = overflow true s d r.
Proof. rewrite nz_msb. unfold overflow, bit31. by rewrite Z.land_spec, !Z.lxor_spec. Qed.

Lemma interp_add s d c : 0 ≤ cpu_sr c < 0x10000 → word32 s → word32 d →
  cpu_sr (set_flags_add 4 s d (u32 (d + s)) c) =
    with_ccr (cpu_sr c) (addsub_ccr false false s d (u32 (d + s)) (cpu_sr c)).
Proof.
  intros Hs Hw1 Hw2. unfold set_flags_add. rewrite set_ccr_sr by done. f_equal.
  change (size_mask 4) with 0xFFFFFFFF. change (size_msb 4) with 0x80000000.
  rewrite (land_word s), (land_word d), (land_word (u32 _)) by (done || apply u32_range).
  rewrite interp_overflow_add, nz_msb. unfold addsub_ccr, carry, word32 in *.
  rewrite u64_small by lia. replace (0xFFFFFFFF <? s + d) with (0x100000000 <=? d + s).
  2: { destruct (Z.leb_spec 0x100000000 (d + s)), (Z.ltb_spec 0xFFFFFFFF (s + d)); done || lia. }
  by destruct (_ <=? _), (bit31 _), (_ =? _), (overflow _ _ _ _).
Qed.

Lemma interp_sub s d c : 0 ≤ cpu_sr c < 0x10000 → word32 s → word32 d →
  cpu_sr (set_flags_sub 4 s d (u32 (d - s)) c) =
    with_ccr (cpu_sr c) (addsub_ccr true false s d (u32 (d - s)) (cpu_sr c)).
Proof.
  intros Hs Hw1 Hw2. unfold set_flags_sub. rewrite set_ccr_sr by done. f_equal.
  change (size_mask 4) with 0xFFFFFFFF. change (size_msb 4) with 0x80000000.
  rewrite (land_word s), (land_word d), (land_word (u32 _)) by (done || apply u32_range).
  rewrite interp_overflow_sub, nz_msb. unfold addsub_ccr, carry.
  by destruct (d <? s), (bit31 _), (_ =? _), (overflow _ _ _ _).
Qed.

Lemma interp_cmp s d c : 0 ≤ cpu_sr c < 0x10000 → word32 s → word32 d →
  cpu_sr (set_flags_cmp 4 s d (u32 (d - s)) c) =
    with_ccr (cpu_sr c) (addsub_ccr true true s d (u32 (d - s)) (cpu_sr c)).
Proof.
  intros Hs Hw1 Hw2. unfold set_flags_cmp. rewrite set_ccr_sr by done. f_equal. rewrite get_ccr_x.
  change (size_mask 4) with 0xFFFFFFFF. change (size_msb 4) with 0x80000000.
  rewrite (land_word s), (land_word d), (land_word (u32 _)) by (done || apply u32_range).
  rewrite interp_overflow_sub, nz_msb. unfold addsub_ccr, carry.
  assert ((cpu_sr c / 16) mod 2 = 0 ∨ (cpu_sr c / 16) mod 2 = 1) as [-> | ->] by lia;
    by destruct (d <? s), (bit31 _), (_ =? _), (overflow _ _ _ _).
Qed.

(** *** The compiled code's flags *)

Lemma bit31_u32 v : bit31 (u32 v) = bit31 v.
Proof. unfold bit31, u32. change 0x100000000 with (2 ^ 32). by apply Z.mod_pow2_bits_low. Qed.
Lemma bit31_land x y : bit31 (x .& y) = bit31 x && bit31 y.
Proof. apply Z.land_spec. Qed.
Lemma bit31_lor x y : bit31 (x .| y) = bit31 x || bit31 y.
Proof. apply Z.lor_spec. Qed.
Lemma bit31_lxor x y : bit31 (x .^ y) = xorb (bit31 x) (bit31 y).
Proof. apply Z.lxor_spec. Qed.
Ltac bit31 := repeat first [rewrite bit31_u32|rewrite bit31_land|rewrite bit31_lor|rewrite bit31_lxor].

(** [extui] from bit 31: one bit, whatever the width asked for. *)
Lemma ext31 v k : 0 < k → u32 ((u32 v / 2 ^ 31) mod 2 ^ k) = b2z (bit31 v).
Proof.
  intros Hk. rewrite <- bit31_u32, bit31_ge by apply u32_range. pose proof (u32_range v).
  change (2 ^ 31) with 0x80000000. assert (2 ≤ 2 ^ k) by (change 2 with (2 ^ 1) at 1; apply Z.pow_le_mono_r; lia).
  destruct (Z.leb_spec 0x80000000 (u32 v)).
  - replace (u32 v / 0x80000000) with 1 by lia. rewrite Z.mod_small by lia. done.
  - replace (u32 v / 0x80000000) with 0 by lia. rewrite Z.mod_small by lia. done.
Qed.

Lemma lor_low2 h a b : 0 ≤ a < 0x100 → 0 ≤ b < 0x100 → (0x100 * h + a) .| b = 0x100 * h + (a .| b).
Proof.
  intros Ha Hb. rewrite <- (lor_low h a) by done. rewrite <- Z.lor_assoc. apply lor_low. by apply (lor_range 8).
Qed.

Lemma keep_x sr : sr_clean sr → u32 (sr .& u32 (-16)) = 0x100 * (sr / 0x100) + 16 * ((sr / 16) mod 2).
Proof.
  intros [Hs Hc]. change (u32 (-16)) with (not32 (2 ^ 4 - 1)). rewrite land_not_low by lia.
  change (2 ^ 4) with 16. rewrite u32_small by lia. lia.
Qed.
Lemma drop_ccr sr : sr_clean sr → u32 (sr .& u32 (-32)) = 0x100 * (sr / 0x100) + 0.
Proof.
  intros [Hs Hc]. change (u32 (-32)) with (not32 (2 ^ 5 - 1)). rewrite land_not_low by lia.
  change (2 ^ 5) with 32. rewrite u32_small by lia. lia.
Qed.
Lemma u32_packed sr a : sr_clean sr → 0 ≤ a < 0x100 → u32 (0x100 * (sr / 0x100) + a) = 0x100 * (sr / 0x100) + a.
Proof. intros [Hs _] Ha. apply u32_small. lia. Qed.

Lemma lxor_range w x y : 0 ≤ w → 0 ≤ x < 2 ^ w → 0 ≤ y < 2 ^ w → 0 ≤ x .^ y < 2 ^ w.
Proof.
  intros Hw Hx Hy. assert (0 < 2 ^ w) by lia.
  enough (x .^ y = (x .^ y) mod 2 ^ w) as -> by (by apply Z.mod_pos_bound).
  apply Z.bits_inj'. intros i Hi. destruct (Z.lt_ge_cases i w).
  - by rewrite Z.mod_pow2_bits_low.
  - by rewrite Z.mod_pow2_bits_high, Z.lxor_spec, !(testbit_high w) by lia.
Qed.


(** *** Carries *)

Lemma carry_add_bits s d : word32 s → word32 d →
  (bit31 s && bit31 d) || ((bit31 s || bit31 d) && xorb (bit31 (u32 (d + s))) true) = carry false s d.
Proof.
  intros Hs Hd. unfold carry. rewrite !bit31_ge by (done || apply u32_range). unfold word32, u32 in *.
  destruct (Z.leb_spec 0x80000000 s), (Z.leb_spec 0x80000000 d), (Z.leb_spec 0x100000000 (d + s)),
    (Z.leb_spec 0x80000000 ((d + s) mod 0x100000000)); cbn; done || lia.
Qed.
Lemma carry_sub_bits s d : word32 s → word32 d →
  (xorb (bit31 d) true && bit31 s) || ((xorb (bit31 d) true || bit31 s) && bit31 (u32 (d - s))) = carry true s d.
Proof.
  intros Hs Hd. unfold carry. rewrite !bit31_ge by (done || apply u32_range). unfold word32, u32 in *.
  destruct (Z.leb_spec 0x80000000 s), (Z.leb_spec 0x80000000 d), (Z.ltb_spec d s),
    (Z.leb_spec 0x80000000 ((d - s) mod 0x100000000)); cbn; done || lia.
Qed.

(** ** The relation *)

Record rc_ok (rc : regcache) : Prop := {
  rco_active : 0 ≤ rc_active rc ≤ 4;
  rco_dirty : 0 ≤ rc_dirty rc < 0x10000;
  rco_slot : ∀ gi, is_greg gi → cache_lookup rc gi = -1 ∨
    ∃ i, 0 ≤ i < rc_active rc ∧ cache_lookup rc gi = R_CACHE0 + i ∧ znth (rc_guest rc) i = gi;
  rco_guest : ∀ i, 0 ≤ i < rc_active rc →
    is_greg (znth (rc_guest rc) i) ∧ cache_lookup rc (znth (rc_guest rc) i) = R_CACHE0 + i
}.

(** The registers an operation computes with. *)
Definition scratch (r : Z) : Prop := 8 ≤ r < 14.
Definition cached (rc : regcache) (gi : Z) : bool := 0 <=? cache_lookup rc gi.

(** ** Registers *)

Lemma set_reg_word r v j : (∀ k, word32 (j_reg j k)) → ∀ k, word32 (j_reg (set_reg r v j) k).
Proof. intros Hw k. cbn [set_reg j_reg]. destruct (k =? r); [apply u32_range|done]. Qed.
Lemma set_reg_ne r v j k : k ≠ r → j_reg (set_reg r v j) k = j_reg j k.
Proof. intros. cbn [set_reg j_reg]. by rewrite (proj2 (Z.eqb_neq k r)). Qed.
Lemma set_reg_eq r v j : j_reg (set_reg r v j) r = u32 v.
Proof. cbn [set_reg j_reg]. by rewrite Z.eqb_refl. Qed.
(** The values [j_reg] reads after [set_reg]s of other registers. *)
Ltac regs := repeat (rewrite set_reg_eq || rewrite set_reg_ne by (done || lia)).
(** The premise of an encoder call's rule. *)
Ltac instr_ok := cbn [instr_ok]; unfold reg_ok, within, R_SR, R_CPU, R_ARG, scratch in *; lia.

Section related.
(** The high half of the cycle counter, which compiled code does not touch,
    and whether the prologue loads the status register into a14. *)
Context (hi : Z) (sl : bool).

(** A guest register [gi] of [c]: in its slot, and in the struct unless the
    slot is dirty. *)
Definition reg_at (rc : regcache) (j : jst) (c : m68k_cpu) (gi : Z) : Prop :=
  if cached rc gi then
    j_reg j (cache_lookup rc gi) = greg c gi ∧
    (Z.testbit (rc_dirty rc) (cache_lookup rc gi - R_CACHE0) = false → greg (j_cpu j) gi = greg c gi)
  else greg (j_cpu j) gi = greg c gi.

Record related (rc : regcache) (pc_acc cyc_acc : Z) (sr_dirty : bool) (j : jst) (c : m68k_cpu) : Prop := {
  re_rc : rc_ok rc;
  re_base : j_reg j R_CPU = HOST_CPU_BASE;
  re_ret : j_reg j 0 = 0;
  re_words : ∀ r, word32 (j_reg j r);
  re_regs : ∀ gi, is_greg gi → reg_at rc j c gi;
  re_sr : sl = true → j_reg j R_SR = cpu_sr c;
  re_sr_mem : sr_dirty = false → cpu_sr (j_cpu j) = cpu_sr c;
  re_sr_dirty : sr_dirty = true → sl = true;
  re_clean : sr_clean (cpu_sr c);
  re_pc : cpu_pc c = u32 (cpu_pc (j_cpu j) + pc_acc);
  re_cyc : u32 (cpu_cycles c) = u32 (cpu_cycles (j_cpu j) + cyc_acc);
  re_hi : cpu_cycles (j_cpu j) / 0x100000000 = hi;
  re_rest : cpu_rest c = cpu_rest (j_cpu j);
  re_jok : cpu_ok (j_cpu j);
  re_cok : cpu_ok c
}.

(** *** Changes of the state that keep the relation *)

Lemma related_regs rc p y d j j' c : related rc p y d j c → j_cpu j' = j_cpu j →
  (∀ r, ¬ scratch r → j_reg j' r = j_reg j r) → (∀ r, word32 (j_reg j' r)) → related rc p y d j' c.
Proof.
  intros [] Ec Er Hw.
  assert (∀ gi, is_greg gi → cached rc gi = true → ¬ scratch (cache_lookup rc gi)) as Hns.
  { intros gi Hgi Hc. unfold cached in Hc. apply Z.leb_le in Hc.
    destruct (rco_slot _ re_rc0 gi Hgi) as [E|(i & Hi & E & _)]; [lia|].
    pose proof (rco_active _ re_rc0). unfold scratch, R_CACHE0 in *. lia. }
  split; rewrite ?Ec; try done; try (by rewrite Er by (unfold scratch, R_CPU, R_SR; lia)).
  intros gi Hgi. specialize (re_regs0 gi Hgi). unfold reg_at in *. rewrite Ec.
  destruct (cached rc gi) eqn:E; [|done]. by rewrite Er by auto.
Qed.



(** The slot of a cached register. *)
Lemma cached_slot rc gi : rc_ok rc → is_greg gi → cached rc gi = true →
  ∃ i, 0 ≤ i < rc_active rc ∧ i < 4 ∧ cache_lookup rc gi = R_CACHE0 + i ∧ znth (rc_guest rc) i = gi.
Proof.
  intros Hrc Hgi Hc. unfold cached in Hc. apply Z.leb_le in Hc.
  destruct (rco_slot _ Hrc gi Hgi) as [E|(i & Hi & E & Eg)]; [lia|].
  pose proof (rco_active _ Hrc). exists i. split_and!; done || lia.
Qed.
Lemma slot_reg rc gi : rc_ok rc → is_greg gi → cached rc gi = true → 4 ≤ cache_lookup rc gi < 8.
Proof. intros ? ? ?. destruct (cached_slot rc gi) as (i & ? & ? & -> & _); try done. unfold R_CACHE0. lia. Qed.
Lemma slot_inj rc gi gk : rc_ok rc → is_greg gi → is_greg gk → cached rc gi = true → cached rc gk = true →
  cache_lookup rc gi = cache_lookup rc gk → gi = gk.
Proof.
  intros ? ? ? ? ?. destruct (cached_slot rc gi) as (i & ? & ? & -> & Ei); try done.
  destruct (cached_slot rc gk) as (k & ? & ? & -> & Ek); try done. intros E. unfold R_CACHE0 in E.
  assert (i = k) as -> by lia. congruence.
Qed.

Lemma mark_dirty_spec rc gi : rc_ok rc → is_greg gi → cached rc gi = true →
  mark_dirty_from (slots rc) gi rc = set_rc_dirty (rc_dirty rc .| (1 ≪ (cache_lookup rc gi - R_CACHE0))) rc.
Proof.
  intros Hrc Hgi Hc. destruct (cached_slot rc gi Hrc Hgi Hc) as (i & Hi & _ & Ec & Eg).
  rewrite Ec. replace (R_CACHE0 + i - R_CACHE0) with i by lia. unfold slots.
  assert (∀ l, (∀ k, k ∈ l → 0 ≤ k < rc_active rc) → i ∈ l →
    mark_dirty_from l gi rc = set_rc_dirty (rc_dirty rc .| (1 ≪ i)) rc) as Hgen.
  { induction l as [|k l IH]; intros Hl Hin; [by apply elem_of_nil in Hin|]. cbn [mark_dirty_from].
    destruct (Z.eqb_spec (znth (rc_guest rc) k) gi) as [E|Hne].
    - destruct (rco_guest _ Hrc k) as [_ Ek]; [apply Hl; by left|]. rewrite E, Ec in Ek.
      by replace k with i by lia.
    - apply elem_of_cons in Hin as [<-|Hin]; [congruence|]. apply IH; [|done]. intros m Hm. apply Hl. by right. }
  apply Hgen.
  - intros k. unfold upto. rewrite list_elem_of_fmap. intros (m & -> & Hm). apply elem_of_seq in Hm. lia.
  - unfold upto. rewrite list_elem_of_fmap. exists (Z.to_nat i). split; [lia|]. apply elem_of_seq. lia.
Qed.

Lemma dirty_or rc i : 0 ≤ rc_dirty rc < 0x10000 → 0 ≤ i < 4 →
  0 ≤ u16 (rc_dirty rc .| (1 ≪ i)) < 0x10000 ∧
  ∀ k, Z.testbit (u16 (rc_dirty rc .| (1 ≪ i))) k = Z.testbit (rc_dirty rc) k || bool_decide (k = i).
Proof.
  intros Hd Hi. split; [apply u16_range|]. intros k. rewrite u16_small.
  2: { apply (lor_range 16); [lia|done|]. rewrite Z.shiftl_mul_pow2, Z.mul_1_l by lia.
       assert (2 ^ i ≤ 2 ^ 4) by (apply Z.pow_le_mono_r; lia). pose proof (Z.pow_pos_nonneg 2 i). lia. }
  rewrite Z.lor_spec. f_equal. rewrite Z.shiftl_1_l. destruct (decide (k = i)) as [->|].
  - rewrite bool_decide_eq_true_2 by done. apply Z.pow2_bits_true. lia.
  - rewrite bool_decide_eq_false_2 by done. apply Z.pow2_bits_false. lia.
Qed.

Lemma rc_ok_dirty rc v : rc_ok rc → 0 ≤ u16 v < 0x10000 → rc_ok (set_rc_dirty v rc).
Proof. intros [] Hv. by split. Qed.

Lemma related_write_cached rc p y d j c gi v : related rc p y d j c → is_greg gi → cached rc gi = true →
  related (set_rc_dirty (rc_dirty rc .| (1 ≪ (cache_lookup rc gi - R_CACHE0))) rc) p y d
    (set_reg (cache_lookup rc gi) v j) (set_greg gi v c).
Proof.
  intros [] Hgi Hc. pose proof (slot_reg rc gi re_rc0 Hgi Hc) as Hs.
  destruct (dirty_or rc (cache_lookup rc gi - R_CACHE0) (rco_dirty _ re_rc0)) as [Hd1 Hd2];
    [unfold R_CACHE0; lia|].
  split; try done.
  - by apply rc_ok_dirty.
  - rewrite set_reg_ne by (unfold R_CPU; lia). done.
  - by rewrite set_reg_ne by lia.
  - by apply set_reg_word.
  - intros gk Hgk. specialize (re_regs0 gk Hgk). unfold reg_at in *.
    change (cached (set_rc_dirty _ rc) gk) with (cached rc gk).
    change (cache_lookup (set_rc_dirty _ rc) gk) with (cache_lookup rc gk).
    rewrite greg_set_greg by done. destruct (Z.eqb_spec gk gi) as [->|Hne].
    + rewrite Hc, set_reg_eq. split; [done|]. intros Hdirty. cbn [rc_dirty set_rc_dirty] in Hdirty.
      rewrite Hd2, bool_decide_eq_true_2, orb_true_r in Hdirty by done. done.
    + destruct (cached rc gk) eqn:Ek; [|done]. destruct re_regs0 as [Er Em]. rewrite set_reg_ne.
      2: { intros E. apply Hne. by apply (slot_inj rc). }
      split; [done|]. cbn [rc_dirty set_rc_dirty]. rewrite Hd2. intros [Hd _]%orb_false_iff. by apply Em.
  - rewrite set_reg_ne by (unfold R_SR; lia). unfold set_greg. by case_match.
  - unfold set_greg. by case_match.
  - unfold set_greg. by case_match.
  - unfold set_greg. by case_match.
  - unfold set_greg. by case_match.
  - by rewrite set_greg_rest.
  - by apply set_greg_ok.
Qed.

Lemma related_write_mem rc p y d j c gi v : related rc p y d j c → is_greg gi → cached rc gi = false →
  related rc p y d (set_jcpu (set_greg gi v (j_cpu j)) j) (set_greg gi v c).
Proof.
  intros [] Hgi Hc. split; try done; cbn [set_jcpu j_cpu j_reg].
  - intros gk Hgk. specialize (re_regs0 gk Hgk). unfold reg_at in *. cbn [set_jcpu j_cpu j_reg].
    rewrite !greg_set_greg by done. destruct (Z.eqb_spec gk gi) as [->|Hne]; [by rewrite Hc|done].
  - unfold set_greg. by case_match.
  - unfold set_greg. by repeat case_match.
  - unfold set_greg. by case_match.
  - unfold set_greg. by repeat case_match.
  - unfold set_greg. by repeat case_match.
  - unfold set_greg. by repeat case_match.
  - by rewrite !set_greg_rest.
  - by apply set_greg_ok.
  - by apply set_greg_ok.
Qed.

Lemma related_sr rc p y d j j' c sr : sl = true → related rc p y d j c → sr_clean sr → j_cpu j' = j_cpu j →
  (∀ r, ¬ scratch r → r ≠ R_SR → j_reg j' r = j_reg j r) → j_reg j' R_SR = sr → (∀ r, word32 (j_reg j' r)) →
  related rc p y true j' (set_cpu_sr sr c).
Proof.
  intros Hsl [] Hsr Ec Er Esr Hw.
  assert (cpu_sr (set_cpu_sr sr c) = sr) as Es by (cbn; apply u16_small; apply Hsr).
  split; rewrite ?Ec, ?Es; try done; try (by rewrite Er by (unfold scratch, R_CPU, R_SR; lia)); [|by apply set_sr_ok].
  intros gi Hgi. specialize (re_regs0 gi Hgi). unfold reg_at in *. rewrite Ec.
  change (greg (set_cpu_sr sr c) gi) with (greg c gi).
  destruct (cached rc gi) eqn:E; [|done]. pose proof (slot_reg rc gi re_rc0 Hgi E).
  by rewrite Er by (unfold scratch, R_SR; lia).
Qed.
End related.

(** The state after an encoder call. *)
Definition emitted (i : xt_instr) (g : gen) : gen := set_g_code (g_code g ++ [i]) g.

Lemma reg_ok_lt r : 0 ≤ r < 16 → reg_ok r = true.
Proof. intros. unfold reg_ok. rewrite andb_true_iff, Z.leb_le, Z.ltb_lt. done. Qed.
Lemma reg_ok_scratch r : scratch r → reg_ok r = true.
Proof. unfold scratch. intros. apply reg_ok_lt. lia. Qed.

(** *** Straight-line pieces

    [j'] is [j] but for some registers; [g'] is [g] but for the code. *)
Record only (l : list Z) (j j' : jst) : Prop := {
  on_cpu : j_cpu j' = j_cpu j;
  on_words : ∀ k, word32 (j_reg j' k);
  on_reg : ∀ k, k ∉ l → j_reg j' k = j_reg j k
}.
Lemma only_refl l j : (∀ k, word32 (j_reg j k)) → only l j j.
Proof. by split. Qed.
Lemma only_set l j j' r v : only l j j' → r ∈ l → only l j (set_reg r v j').
Proof.
  intros [Ec Hw Er] Hr. split; [done|by apply set_reg_word|]. intros k Hk. rewrite set_reg_ne by (intros ->; done).
  by apply Er.
Qed.
Lemma only_trans l l' j j1 j2 : only l j j1 → only l' j1 j2 → only (l ++ l') j j2.
Proof.
  intros [Ec1 Hw1 Er1] [Ec2 Hw2 Er2]. split; [congruence|done|]. intros k Hk.
  rewrite elem_of_app in Hk. rewrite Er2, Er1 by tauto. done.
Qed.
Lemma only_weaken l l' j j' : only l j j' → (∀ k, k ∈ l → k ∈ l') → only l' j j'.
Proof. intros [Ec Hw Er] H. split; [done|done|]. intros k Hk. apply Er. auto. Qed.

Definition extends (g g' : gen) : Prop := ∃ code, g' = set_g_code code g.
Lemma extends_refl g : extends g g.
Proof. exists (g_code g). by destruct g. Qed.
Lemma extends_emitted i g g' : extends g g' → extends g (emitted i g').
Proof. intros [code ->]. by eexists. Qed.
Lemma extends_trans g g1 g2 : extends g g1 → extends g1 g2 → extends g g2.
Proof. intros [c ->] [c' ->]. by exists c'. Qed.
Lemma extends_rc g g' : extends g g' → g_rc g' = g_rc g.
Proof. by intros [code ->]. Qed.

Section rel.
(** The literals, the entry point, and the high half of the cycle counter. *)
Context (lits : Z → Z) (entry hi : Z) (sl : bool).
#[local] Abbreviation related := (related hi sl).

(** The literal of the block, no sign-extension remembered, no call made. *)
Definition plain_gen (g : gen) : Prop :=
  g_sext_valid g = false ∧ g_block_emitted_callx0 g = false ∧
  g_pc_lit_entry_off g = entry ∧ (g_pc_lit_valid g = true →
    0 ≤ g_pc_lit_off g < entry ∧ g_pc_lit_off g mod 4 = 0 ∧ lits (g_pc_lit_off g) = g_pc_lit_val g).

Definition rel (g : gen) (j : jst) (c : m68k_cpu) : Prop :=
  related (g_rc g) (g_pc_acc g) (g_cyc_acc g) (g_sr_dirty g) j c ∧ plain_gen g.

(** ** Emitting and running *)

(** [m] emits, from [g], code that takes [j] to a state [Q] holds of. *)
Definition runs {A} (m : G A) (g : gen) (j : jst) (Q : A → gen → jst → Prop) : Prop :=
  ∃ a g' code j', m g = Some (a, g') ∧ g_code g' = g_code g ++ code ∧ forallb instr_ok code = true ∧
    arun lits (entry + e_len g) code false j = Some (false, j') ∧ Q a g' j'.

Lemma runs_ret {A} (a : A) g j (Q : A → gen → jst → Prop) : Q a g j → runs (mret a) g j Q.
Proof. intros HQ. exists a, g, [], j. by rewrite app_nil_r. Qed.

Lemma runs_bind {A B} (m : G A) (k : A → G B) g j Q :
  runs m g j (λ a g' j', runs (k a) g' j' Q) → runs (m ≫= k) g j Q.
Proof.
  intros (a & g1 & c1 & j1 & E1 & C1 & O1 & R1 & b & g2 & c2 & j2 & E2 & C2 & O2 & R2 & HQ).
  exists b, g2, (c1 ++ c2), j2. split; [by rewrite (bind_Some _ _ _ _ _ E1)|].
  split; [by rewrite C2, C1, app_assoc|]. split; [by rewrite forallb_app, O1, O2|]. split; [|done].
  rewrite arun_app, R1. cbn. rewrite <- R2. f_equal. unfold e_len. rewrite C1, length_app. lia.
Qed.

Lemma runs_mono {A} (m : G A) g j (Q Q' : A → gen → jst → Prop) :
  (∀ a g' j', Q a g' j' → Q' a g' j') → runs m g j Q → runs m g j Q'.
Proof. intros H (a & g' & code & j' & ? & ? & ? & ? & ?). exists a, g', code, j'. split_and!; auto. Qed.

Lemma runs_gets {A} (f : gen → A) g j (Q : A → gen → jst → Prop) : Q (f g) g j → runs (gets f) g j Q.
Proof. intros HQ. exists (f g), g, [], j. by rewrite app_nil_r. Qed.

Lemma runs_set f g j (Q : unit → gen → jst → Prop) : g_code (f g) = g_code g → Q tt (f g) j → runs (set f) g j Q.
Proof. intros Hf HQ. exists tt, (f g), [], j. by rewrite app_nil_r. Qed.

Lemma runs_when (b : bool) (m : G unit) g j (Q : unit → gen → jst → Prop) :
  (if b then runs m g j Q else Q tt g j) → runs (when b m) g j Q.
Proof. destruct b; [done|]. apply runs_ret. Qed.

Lemma runs_emit_at i j' g j (Q : unit → gen → jst → Prop) : instr_ok i = true →
  asem lits (entry + e_len g) i j = Some j' → Q tt (emitted i g) j' → runs (emit i) g j Q.
Proof.
  intros Hi E HQ. exists tt, (emitted i g), [i], j'. unfold emit. rewrite Hi. split_and!; try done.
  - cbn. by rewrite Hi.
  - cbn [arun]. destruct i; try discriminate; rewrite E; done.
Qed.
Lemma runs_emit i j' g j (Q : unit → gen → jst → Prop) : instr_ok i = true →
  (∀ pc, asem lits pc i j = Some j') → Q tt (emitted i g) j' → runs (emit i) g j Q.
Proof. intros Hi E. by apply runs_emit_at. Qed.

(** A branch over one instruction. *)
Lemma runs_skip r i j1 (k : G unit) g j Q : reg_ok r = true → instr_ok i = true →
  (∀ pc, asem lits pc i j = Some j1) →
  runs k (emitted i (emitted (Bnez r 6) g)) (if j_reg j r =? 0 then j1 else j) Q →
  runs (emit (Bnez r 6) ;; emit i ;; k) g j Q.
Proof.
  intros Hr Hi E (a & g2 & c2 & j2 & E2 & C2 & O2 & R2 & HQ).
  assert (instr_ok (Bnez r 6) = true) as Hb by (cbn [instr_ok]; by rewrite Hr).
  exists a, g2, (Bnez r 6 :: i :: c2), j2. split_and!; [| | | |done].
  - unfold mbind, M_bind, emit. by rewrite Hb, Hi.
  - rewrite C2. cbn [emitted set_g_code g_code]. by rewrite <- !app_assoc.
  - cbn [forallb]. by rewrite Hb, Hi, O2.
  - rewrite <- R2. cbn [arun Z.eqb Pos.eqb].
    replace (entry + e_len (emitted i (emitted (Bnez r 6) g))) with (entry + e_len g + 3 + 3).
    2: { unfold e_len, emitted, set_g_code. cbn [g_code]. rewrite !length_app. cbn [length]. lia. }
    destruct (j_reg j r =? 0); [|done]. cbn [negb]. specialize (E (entry + e_len g + 3)).
    destruct i; try discriminate; rewrite E; done.
Qed.

Lemma rel_set_reg g r v j c : rel g j c → scratch r → rel g (set_reg r v j) c.
Proof.
  intros [Hr Hp] Hs. split; [|done]. refine (related_regs _ _ _ _ _ _ j _ _ Hr _ _ _); [done| |].
  - intros k Hk. apply set_reg_ne. intros ->. done.
  - apply set_reg_word, (re_words _ _ _ _ _ _ _ _ Hr).
Qed.

(** *** Reading and writing guest registers *)

Lemma asem_l32i pc t off v j : j_reg j R_CPU = HOST_CPU_BASE → rd_field 4 off (j_cpu j) = Some v →
  asem lits pc (L32i t R_CPU off) j = Some (set_reg t v j).
Proof. intros E Ev. cbn [asem]. rewrite E, Ev. done. Qed.
Lemma asem_s32i pc t off c j : j_reg j R_CPU = HOST_CPU_BASE → wr_field 4 off (j_reg j t) (j_cpu j) = Some c →
  asem lits pc (S32i t R_CPU off) j = Some (set_jcpu c j).
Proof. intros E Ev. cbn [asem]. rewrite E, Ev. done. Qed.

Lemma off_G_ok gi r : is_greg gi → reg_ok r = true →
  instr_ok (L32i r R_CPU (OFF_G gi)) = true ∧ instr_ok (S32i r R_CPU (OFF_G gi)) = true.
Proof.
  assert (forallb (λ gi, within 0 1020 (OFF_G gi) && (OFF_G gi .& 3 =? 0)) (upto 16) = true) as Hall
    by by vm_compute.
  intros Hi Hr. rewrite forallb_forall in Hall. specialize (Hall gi).
  rewrite andb_true_iff in Hall. cbn [instr_ok]. rewrite Hr. cbn [andb reg_ok].
  rewrite !andb_true_iff. enough (within 0 1020 (OFF_G gi) = true ∧ (OFF_G gi .& 3 =? 0) = true) by tauto.
  apply Hall, list_elem_of_In, list_elem_of_fmap. exists (Z.to_nat gi). unfold is_greg in Hi. split; [lia|].
  apply elem_of_seq. lia.
Qed.
Lemma rel_base g j c : rel g j c → j_reg j R_CPU = HOST_CPU_BASE.
Proof. intros [[] _]. done. Qed.
Lemma rel_rc g j c : rel g j c → rc_ok (g_rc g).
Proof. intros [[] _]. done. Qed.
Lemma rel_cok g j c : rel g j c → cpu_ok c.
Proof. intros [[] _]. done. Qed.
Lemma rel_words g j c r : rel g j c → word32 (j_reg j r).
Proof. intros [[] _]. done. Qed.
Lemma rel_clean g j c : rel g j c → sr_clean (cpu_sr c).
Proof. intros [[] _]. done. Qed.

Lemma rel_cached g j c gi : rel g j c → is_greg gi → cached (g_rc g) gi = true →
  j_reg j (cache_lookup (g_rc g) gi) = greg c gi.
Proof. intros [[] _] Hgi Hc. specialize (re_regs0 gi Hgi). unfold reg_at in re_regs0. rewrite Hc in re_regs0. apply re_regs0. Qed.
Lemma rel_uncached g j c gi : rel g j c → is_greg gi → cached (g_rc g) gi = false →
  greg (j_cpu j) gi = greg c gi.
Proof. intros [[] _] Hgi Hc. specialize (re_regs0 gi Hgi). unfold reg_at in re_regs0. by rewrite Hc in re_regs0. Qed.

(** A load of an uncached register. *)
Lemma runs_load gi dst g j c (Q : unit → gen → jst → Prop) : rel g j c → is_greg gi →
  cached (g_rc g) gi = false → scratch dst →
  Q tt (emitted (L32i dst R_CPU (OFF_G gi)) g) (set_reg dst (greg c gi) j) →
  runs (emit (L32i dst R_CPU (OFF_G gi))) g j Q.
Proof.
  intros Hrel Hgi Hc Hs HQ. refine (runs_emit _ _ _ _ _ _ _ HQ).
  - by apply off_G_ok, reg_ok_scratch.
  - intros pc. apply asem_l32i; [by apply rel_base in Hrel|].
    rewrite rd_greg by (done || by destruct Hrel as [[] _]). f_equal. by apply (rel_uncached g j c).
Qed.

Lemma runs_read_g gi dst g j c (Q : unit → gen → jst → Prop) : rel g j c → is_greg gi → scratch dst →
  (∀ g', g_rc g' = g_rc g → rel g' (set_reg dst (greg c gi) j) c → Q tt g' (set_reg dst (greg c gi) j)) →
  runs (emit_read_g gi dst) g j Q.
Proof.
  intros Hrel Hgi Hs HQ. unfold emit_read_g. apply runs_bind, runs_gets.
  change (0 <=? cache_lookup (g_rc g) gi) with (cached (g_rc g) gi). destruct (cached (g_rc g) gi) eqn:Ec.
  - pose proof (slot_reg _ gi (rel_rc _ _ _ Hrel) Hgi Ec) as Hsl. apply runs_when.
    rewrite (proj2 (Z.eqb_neq _ _)) by (unfold scratch in Hs; lia). cbn [negb].
    refine (runs_emit _ (set_reg dst (greg c gi) j) _ _ _ _ _ _).
    + cbn [instr_ok]. by rewrite !(reg_ok_lt (cache_lookup _ _)), reg_ok_scratch by (done || lia).
    + intros pc. cbn [asem]. rewrite Z.lor_diag. by rewrite (rel_cached g j c).
    + apply HQ; [done|]. by apply (rel_set_reg g).
  - apply (runs_load gi dst g j c); try done. apply HQ; [done|]. by apply (rel_set_reg g).
Qed.

Lemma runs_read_g_in gi dst g j c (Q : Z → gen → jst → Prop) : rel g j c → is_greg gi → scratch dst →
  (∀ g' j' r, g_rc g' = g_rc g → rel g' j' c → j_reg j' r = greg c gi →
     (r = dst ∨ 4 ≤ r < 8 ∧ r = cache_lookup (g_rc g) gi) →
     (∀ k, k ≠ dst → j_reg j' k = j_reg j k) → Q r g' j') →
  runs (emit_read_g_in gi dst) g j Q.
Proof.
  intros Hrel Hgi Hs HQ. unfold emit_read_g_in. apply runs_bind, runs_gets.
  change (0 <=? cache_lookup (g_rc g) gi) with (cached (g_rc g) gi). destruct (cached (g_rc g) gi) eqn:Ec.
  - pose proof (slot_reg _ gi (rel_rc _ _ _ Hrel) Hgi Ec) as Hsl. apply runs_ret.
    apply HQ; try done; [by apply (rel_cached g j c)|by right].
  - apply runs_bind. apply (runs_load gi dst g j c); try done. apply runs_ret. apply HQ; try done.
    + by apply (rel_set_reg g).
    + rewrite set_reg_eq. apply u32_small. by apply greg_range, (rel_cok _ _ _ Hrel).
    + by left.
    + intros k Hk. by apply set_reg_ne.
Qed.

(** [mark_dirty] after the slot of [gi] got its new value. *)
Lemma runs_mark_dirty gi v g j c (Q : unit → gen → jst → Prop) : rel g j c → is_greg gi →
  cached (g_rc g) gi = true →
  (∀ g', rel g' (set_reg (cache_lookup (g_rc g) gi) v j) (set_greg gi v c) →
     (∀ gk, cache_lookup (g_rc g') gk = cache_lookup (g_rc g) gk) →
     Q tt g' (set_reg (cache_lookup (g_rc g) gi) v j)) →
  runs (mark_dirty gi) g (set_reg (cache_lookup (g_rc g) gi) v j) Q.
Proof.
  intros Hrel Hgi Hc HQ. unfold mark_dirty. apply runs_set; [done|].
  rewrite mark_dirty_spec by (done || by apply rel_rc in Hrel). apply HQ; [|done].
  destruct Hrel as [Hr Hp]. split; [|done]. by apply related_write_cached.
Qed.

Lemma runs_store gi src g j c (Q : unit → gen → jst → Prop) : rel g j c → is_greg gi →
  cached (g_rc g) gi = false → scratch src →
  (∀ g' j', rel g' j' (set_greg gi (j_reg j src) c) → g_rc g' = g_rc g →
     (∀ k, j_reg j' k = j_reg j k) → Q tt g' j') →
  runs (emit (S32i src R_CPU (OFF_G gi))) g j Q.
Proof.
  intros Hrel Hgi Hc Hs HQ.
  refine (runs_emit _ (set_jcpu (set_greg gi (j_reg j src) (j_cpu j)) j) _ _ _ _ _ _).
  - by apply off_G_ok, reg_ok_scratch.
  - intros pc. apply asem_s32i; [by apply rel_base in Hrel|].
    apply wr_greg; [by destruct Hrel as [[] _]|done].
  - apply HQ; try done. destruct Hrel as [Hr Hp]. split; [|done]. by apply related_write_mem.
Qed.

Lemma runs_write_g gi src g j c (Q : unit → gen → jst → Prop) : rel g j c → is_greg gi → scratch src →
  (∀ g' j', rel g' j' (set_greg gi (j_reg j src) c) →
     (∀ gk, cache_lookup (g_rc g') gk = cache_lookup (g_rc g) gk) →
     (∀ k, scratch k → j_reg j' k = j_reg j k) → Q tt g' j') →
  runs (emit_write_g gi src) g j Q.
Proof.
  intros Hrel Hgi Hs HQ. unfold emit_write_g. apply runs_bind, runs_gets.
  change (0 <=? cache_lookup (g_rc g) gi) with (cached (g_rc g) gi). destruct (cached (g_rc g) gi) eqn:Ec.
  - pose proof (slot_reg _ gi (rel_rc _ _ _ Hrel) Hgi Ec) as Hsl.
    apply runs_bind, runs_when. rewrite (proj2 (Z.eqb_neq _ _)) by (unfold scratch in Hs; lia). cbn [negb].
    refine (runs_emit _ (set_reg (cache_lookup (g_rc g) gi) (j_reg j src) j) _ _ _ _ _ _).
    + cbn [instr_ok]. by rewrite !(reg_ok_lt (cache_lookup _ _)), reg_ok_scratch by (done || lia).
    + intros pc. cbn [asem]. by rewrite Z.lor_diag.
    + apply (runs_mark_dirty gi _ (emitted _ g) _ c); [done..|]. intros g' Hg' Hl. apply HQ; [done..|].
      intros k Hk. apply set_reg_ne. unfold scratch in Hk. cbn. lia.
  - apply (runs_store gi src g j c); try done. intros g' j' Hg' Erc Ek. apply HQ; try done. intros gk. by rewrite Erc.
Qed.

Lemma extends_rel g g' j c : extends g g' → rel g j c → rel g' j c.
Proof. by intros [code ->]. Qed.
Lemma rel_only l g j j' c : rel g j c → only l j j' → Forall scratch l → rel g j' c.
Proof.
  intros [Hr Hp] [Ec Hw Er] Hl. split; [|done]. refine (related_regs _ _ _ _ _ _ j _ _ Hr Ec _ Hw).
  intros r Hr'. apply Er. intros Hin. apply Hr'. rewrite Forall_forall in Hl. apply Hl. by apply list_elem_of_In.
Qed.

End rel.

Arguments rel_base {lits entry hi sl}.
Arguments rel_rc {lits entry hi sl}.
Arguments rel_cok {lits entry hi sl}.
Arguments rel_words {lits entry hi sl}.
Arguments rel_clean {lits entry hi sl}.
Arguments rel_cached {lits entry hi sl}.
Arguments rel_uncached {lits entry hi sl}.
Arguments rel_set_reg {lits entry hi sl}.
Arguments rel_only {lits entry hi sl}.
Arguments extends_rel {lits entry hi sl}.
Arguments runs_read_g {lits entry hi sl}.
Arguments runs_read_g_in {lits entry hi sl}.
Arguments runs_write_g {lits entry hi sl}.
Arguments runs_store {lits entry hi sl}.
Arguments runs_load {lits entry hi sl}.
Arguments runs_mark_dirty {lits entry hi sl}.
Arguments runs_bind {lits entry}.
Arguments runs_ret {lits entry}.
Arguments runs_gets {lits entry}.
Arguments runs_set {lits entry}.
Arguments runs_when {lits entry}.
Arguments runs_emit {lits entry}.
Arguments runs_emit_at {lits entry}.
Arguments runs_skip {lits entry}.
Arguments runs_mono {lits entry}.
Arguments asem_l32i {lits}.
Arguments asem_s32i {lits}.

(** One encoder call. *)
Ltac emit1 := try apply runs_bind; eapply runs_emit; [instr_ok|intros ?; cbn [asem]; reflexivity|]; regs.
Ltac ext_gen := repeat apply extends_emitted; apply extends_refl.
Ltac only_regs := repeat (apply only_set; [|rewrite !elem_of_cons; tauto]); apply only_refl.
