(* ===== verification/JitFlags.v ===== *)
(** * The flags compiled code computes

    The emitted sequences for the condition codes leave the status register
    the interpreter's [set_flags_*] give. *)

From Stdlib Require Import ZArith Lia.
From stdpp Require Import base tactics list numbers.
From S2P Require Import Prelude Cpu Flags XtEmit HostSim Codegen JitSem JitOps.

#[local] Ltac Zify.zify_post_hook ::= Z.to_euclidean_division_equations.

Section flags.
Context (lits : Z → Z) (entry hi : Z) (sl : bool) (Hsl : sl = true).
#[local] Abbreviation rel := (rel lits entry hi sl).
#[local] Abbreviation runs := (runs lits entry).

Lemma u32_word v : word32 v → u32 v = v.
Proof. apply u32_small. Qed.
Lemma u32_land a b : word32 a → u32 (a .& b) = a .& b.
Proof. intros H. apply u32_small. split; [apply Z.land_nonneg; left; apply H|]. destruct H. rewrite Z.land_comm.
  pose proof (land_range_r b a 0x100000000). lia. Qed.

Lemma runs_carry (is_sub : bool) s d r g j (Q : unit → gen → jst → Prop) : (∀ k, word32 (j_reg j k)) → 4 ≤ s < 11 → 4 ≤ d < 11 → 4 ≤ r < 11 →
  j_reg j r = u32 (if is_sub then j_reg j d - j_reg j s else j_reg j d + j_reg j s) →
  (∀ g' j', extends g g' → only [11; 12; 13] j j' →
     j_reg j' 11 = b2z (carry is_sub (j_reg j s) (j_reg j d)) → Q tt g' j') →
  runs (emit_carry is_sub s d r) g j Q.
Proof.
  intros Hw Hs Hd Hr Er HQ. unfold emit_carry. apply runs_bind. destruct is_sub.
  - do 4 emit1. unfold xt_mov. do 4 emit1. apply HQ; [ext_gen|by only_regs|]. regs. rewrite ext31 by done. f_equal. bit31.
    rewrite <- carry_sub_bits, Er by done. bit31. by rewrite orb_diag.
  - do 7 emit1. apply HQ; [ext_gen|by only_regs|]. regs. rewrite ext31 by done. f_equal. bit31.
    rewrite <- carry_add_bits, Er by done. by bit31.
Qed.

Lemma runs_overflow (is_sub : bool) s d r g j (Q : unit → gen → jst → Prop) : (∀ k, word32 (j_reg j k)) → 4 ≤ s < 11 → 4 ≤ d < 11 → 4 ≤ r < 11 →
  (∀ g' j', extends g g' → only [12; 13] j j' →
     j_reg j' 12 = b2z (overflow is_sub (j_reg j s) (j_reg j d) (j_reg j r)) → Q tt g' j') →
  runs (emit_overflow is_sub s d r) g j Q.
Proof.
  intros Hw Hs Hd Hr HQ. unfold emit_overflow. destruct is_sub;
    (do 4 emit1; apply HQ; [ext_gen|by only_regs|]; regs; rewrite ext31 by done; f_equal; by bit31).
Qed.

(** *** Flags *)

Lemma ext31' v k : word32 v → 0 < k → u32 ((v / 2 ^ 31) mod 2 ^ k) = b2z (bit31 v).
Proof. intros Hv Hk. rewrite <- (ext31 v k) by done. by rewrite (u32_word v). Qed.

Lemma rel_flags g g' j j' c sr : rel g j c → extends g g' → sr_clean sr → only [8; 9; 10; 11; 12; 13; 14] j j' →
  j_reg j' R_SR = sr → rel (set_g_sr_dirty true g') j' (set_cpu_sr sr c).
Proof.
  intros [Hr Hp] [code ->] Hsr [Ec Hw Er] Esr. split; [|done].
  refine (related_sr _ _ _ _ _ _ j j' c sr Hsl Hr Hsr Ec _ Esr Hw). intros r Hr1 Hr2. apply Er.
  rewrite !elem_of_cons, elem_of_nil. unfold scratch, R_SR in *. lia.
Qed.
Lemma rel_drop_sext g j c : rel g j c → rel (set_g_sext_valid false g) j c.
Proof. intros [Hr (_ & Hp)]. split; [done|]. by split. Qed.

(** The packing of the flags, done by cases on them. *)
Lemma pack_flags (is_sub keep_x : bool) sr S D R (x : bool) : sr_clean sr → x = negb keep_x →
  u32 (u32 (sr .& u32 (if keep_x then -16 else -32)) .|
       (let p := u32 (u32 (b2z (carry is_sub S D) .| u32 (b2z (overflow is_sub S D R) * 2 ^ 1)) .|
                          u32 (b2z (bit31 R) * 2 ^ 3)) in
            let p := if x then u32 (p .| u32 (b2z (carry is_sub S D) * 2 ^ 4)) else p in
            if R =? 0 then u32 (p .| u32 4) else p)) =
  with_ccr sr (addsub_ccr is_sub keep_x S D R sr).
Proof.
  intros Hsr ->. unfold with_ccr, addsub_ccr.
  assert ((sr / 16) mod 2 = 0 ∨ (sr / 16) mod 2 = 1) as Hx by lia.
  destruct keep_x; cbn [negb]; [rewrite keep_x by done|rewrite drop_ccr by done].
  all: destruct Hx as [Hx|Hx]; rewrite ?Hx; clear Hx;
    destruct (carry is_sub S D), (overflow is_sub S D R), (bit31 R), (R =? 0); cbn [b2z];
    match goal with |- u32 (_ .| ?y) = _ => let v := eval vm_compute in y in change y with v end;
    rewrite lor_low2 by done;
    match goal with |- u32 (_ + ?y) = _ => let v := eval vm_compute in y in change y with v end;
    by rewrite u32_packed.
Qed.

Lemma runs_addsub_flags (is_sub keep_x : bool) s d r m g j c (Q : unit → gen → jst → Prop) :
  rel g j c → 4 ≤ s < 11 → 4 ≤ d < 11 → 4 ≤ r < 11 → r ≠ 8 → r ≠ 9 →
  j_reg j r = u32 (if is_sub then j_reg j d - j_reg j s else j_reg j d + j_reg j s) →
  (∀ g' j', rel g' j' (set_cpu_sr (with_ccr (cpu_sr c)
       (addsub_ccr is_sub keep_x (j_reg j s) (j_reg j d) (j_reg j r) (cpu_sr c))) c) →
     g_rc g' = g_rc g → Q tt g' j') →
  runs (emit_addsub_flags_long_masked is_sub keep_x s d r m) g j Q.
Proof.
  intros Hrel Hs Hd Hr Hr8 Hr9 Er HQ. unfold emit_addsub_flags_long_masked.
  pose proof (λ k, rel_words g j c k Hrel) as Hw.
  apply runs_bind, (runs_carry _ _ _ _ _ _ _ Hw Hs Hd Hr Er). intros g1 j1 Hg1 Hj1 E11.
  apply runs_bind, runs_overflow; [apply Hj1|done..|]. intros g2 j2 Hg2 Hj2 E12.
  rewrite !(on_reg _ _ _ Hj1) in E12 by (rewrite !elem_of_cons, elem_of_nil; lia).
  rewrite <- (on_reg _ _ _ Hj2) in E11 by (rewrite !elem_of_cons, elem_of_nil; lia).
  assert (j_reg j2 r = j_reg j r) as E2.
  { rewrite (on_reg _ _ _ Hj2), (on_reg _ _ _ Hj1) by (rewrite !elem_of_cons, elem_of_nil; lia). done. }
  assert (j_reg j2 14 = cpu_sr c) as E14.
  { rewrite (on_reg _ _ _ Hj2), (on_reg _ _ _ Hj1) by (rewrite !elem_of_cons, elem_of_nil; lia).
    destruct Hrel as [[] _]. auto. }
  pose proof (only_trans _ _ _ _ _ Hj1 Hj2) as Hj.
  pose proof (extends_trans _ _ _ Hg1 Hg2) as Hg. clear Hj1 Hj2 Hg1 Hg2.
  assert (only [8; 9; 10; 11; 12; 13; 14] j j2) as Hj'.
  { apply (only_weaken _ _ _ _ Hj). intros k. cbn [app]. rewrite !elem_of_cons, !elem_of_nil. tauto. }
  do 5 emit1. rewrite E2, E11, E12, ext31' by (done || apply Hw). apply runs_bind, runs_when.
  pose proof (pack_flags is_sub keep_x (cpu_sr c) (j_reg j s) (j_reg j d) (j_reg j r) (negb keep_x)
    (rel_clean _ _ _ Hrel) eq_refl) as Hp.
  pose proof (with_ccr_clean _ _ (rel_clean _ _ _ Hrel)
    (addsub_ccr_range is_sub keep_x (j_reg j s) (j_reg j d) (j_reg j r) (cpu_sr c))) as Hcl.
  destruct keep_x; cbn [negb] in *; [|do 2 emit1]; emit1;
    (eapply runs_skip; [unfold reg_ok; lia|instr_ok|intros ?; cbn [asem]; reflexivity|]);
    regs; rewrite E2; destruct (Z.eqb_spec (j_reg j r) 0);
    do 3 emit1; unfold sr_dirtied; (apply runs_set; [done|]);
    (apply HQ; [|by rewrite <- (extends_rc _ _ Hg)]);
    (eapply (rel_flags g _ j); [done|apply extends_trans with g2; [done|ext_gen]|done
      |repeat (apply only_set; [|rewrite !elem_of_cons; tauto]); done|unfold R_SR; regs; rewrite E14, ?E11; exact Hp]).
Qed.

(** N and Z packed for a logic operation. *)
Lemma pack_logic sr v : sr_clean sr →
  (let p := u32 (u32 (sr .& u32 (-16)) .| u32 (b2z (bit31 v) * 2 ^ 3)) in if v =? 0 then u32 (p .| u32 4) else p) =
  with_ccr sr (logic_ccr v sr).
Proof.
  intros Hsr. unfold with_ccr, logic_ccr. rewrite keep_x by done.
  assert ((sr / 16) mod 2 = 0 ∨ (sr / 16) mod 2 = 1) as [-> | ->] by lia; destruct (bit31 v), (v =? 0); cbn [b2z];
    rewrite lor_low2, u32_packed by done; rewrite ?lor_low2, ?u32_packed by done; done.
Qed.

Definition logic_done (v : Z) (c : m68k_cpu) : m68k_cpu :=
  set_cpu_sr (with_ccr (cpu_sr c) (logic_ccr v (cpu_sr c))) c.
Definition addsub_done (is_sub keep_x : bool) (s d r : Z) (c : m68k_cpu) : m68k_cpu :=
  set_cpu_sr (with_ccr (cpu_sr c) (addsub_ccr is_sub keep_x s d r (cpu_sr c))) c.

Lemma rel_sr g j c : rel g j c → j_reg j 14 = cpu_sr c.
Proof. intros [[] _]. auto. Qed.

Lemma runs_logic_flags v g j c (Q : unit → gen → jst → Prop) : rel g j c → 4 ≤ v < 10 →
  (∀ g' j', rel g' j' (logic_done (j_reg j v) c) → g_rc g' = g_rc g → Q tt g' j') →
  runs (emit_logic_flags v) g j Q.
Proof.
  intros Hrel Hv HQ. unfold emit_logic_flags.
  pose proof (λ k, rel_words g j c k Hrel) as Hw. pose proof (rel_sr _ _ _ Hrel) as E14.
  rewrite (proj2 (Z.eqb_neq v 10)), (proj2 (Z.eqb_neq v 11)) by lia. cbn [orb].
  apply runs_bind, runs_when. unfold R_SR.
  pose proof (pack_logic (cpu_sr c) (j_reg j v) (rel_clean _ _ _ Hrel)) as Hp.
  pose proof (with_ccr_clean _ _ (rel_clean _ _ _ Hrel) (logic_ccr_range (j_reg j v) (cpu_sr c))) as Hcl.
  do 6 emit1. (eapply runs_skip; [unfold reg_ok; lia|instr_ok|intros ?; cbn [asem]; reflexivity|]). regs.
  destruct (Z.eqb_spec (j_reg j v) 0) as [E0|E0]; cbn zeta iota in Hp;
    unfold sr_dirtied; (apply runs_bind, runs_set; [done|]); unfold sext_memo_invalidate; (apply runs_set; [done|]);
    (apply HQ; [apply rel_drop_sext|done]);
    (eapply (rel_flags g _ j); [done|ext_gen|done|only_regs; done|unfold R_SR; regs; rewrite E14, ext31' by (done || apply Hw); exact Hp]).
Qed.

Lemma ccr_bits v : word32 v →
  ((if nz (v .& 0x80000000) then 8 else 0) .| (if v =? 0 then 4 else 0)) = 8 * b2z (bit31 v) + 4 * b2z (v =? 0).
Proof. intros Hv. rewrite nz_msb. by destruct (bit31 v), (v =? 0). Qed.

Lemma runs_logic_flags_const v g j c (Q : unit → gen → jst → Prop) : rel g j c → word32 v →
  (∀ g' j', rel g' j' (logic_done v c) → g_rc g' = g_rc g → Q tt g' j') →
  runs (emit_logic_flags_const v) g j Q.
Proof.
  intros Hrel Hv HQ. unfold emit_logic_flags_const.
  pose proof (λ k, rel_words g j c k Hrel) as Hw. pose proof (rel_sr _ _ _ Hrel) as E14. unfold R_SR.
  pose proof (pack_logic (cpu_sr c) v (rel_clean _ _ _ Hrel)) as Hp.
  pose proof (with_ccr_clean _ _ (rel_clean _ _ _ Hrel) (logic_ccr_range v (cpu_sr c))) as Hcl.
  rewrite ccr_bits by done. do 2 emit1. apply runs_bind, runs_when. rewrite E14.
  pose proof (keep_x _ (rel_clean _ _ _ Hrel)) as Hk.
  assert (∀ n z, 0 ≤ n < 0x10 → z = 16 * ((cpu_sr c / 16) mod 2) + n →
    u32 (u32 (cpu_sr c .& u32 (-16)) .| n) = with_ccr (cpu_sr c) z) as Hn.
  { intros n z Hn ->. pose proof (rel_clean _ _ _ Hrel). unfold with_ccr. rewrite Hk, lor_low2 by (done || lia).
    rewrite u32_packed by (done || apply (lor_range 8); lia). f_equal.
    rewrite (Z.mul_comm 16). change 16 with (2 ^ 4) at 1. rewrite <- (Z.shiftl_mul_pow2 _ 4) by lia.
    rewrite lor_shiftl_add by lia. lia. }
  unfold logic_done.
  destruct (bit31 v) eqn:Eb, (v =? 0) eqn:Ez; cbn [b2z nz Z.eqb negb Z.mul Z.add Pos.mul Pos.add] in *; try do 2 emit1;
    unfold sr_dirtied; (apply runs_bind, runs_set; [done|]); unfold sext_memo_invalidate; (apply runs_set; [done|]);
    (apply HQ; [apply rel_drop_sext|done]);
    (eapply (rel_flags g _ j); [done|ext_gen|done|only_regs; done|unfold R_SR; regs; rewrite ?E14]);
    first [apply Hn; [unfold u32; lia|unfold logic_ccr; rewrite Eb, Ez; cbn [b2z]; unfold u32; lia]
          |rewrite Hk; unfold with_ccr, logic_ccr; rewrite Eb, Ez; cbn [b2z]; lia].
Qed.
End flags.

Arguments rel_flags {lits entry hi sl}.
Arguments rel_drop_sext {lits entry hi sl}.
Arguments rel_sr {lits entry hi sl}.
Arguments runs_addsub_flags {lits entry hi sl}.
Arguments runs_logic_flags {lits entry hi sl}.
Arguments runs_logic_flags_const {lits entry hi sl}.
