(* ===== verification/JitArms.v ===== *)
(** * The arms of the register operations do what the interpreter does

    For each operation between registers: a step on the register file, that
    the emitted code makes in the sense of JitOps.v, and that [m68k_step]
    makes too. *)

From Stdlib Require Import ZArith Lia.
From stdpp Require Import base tactics list numbers.
From S2P Require Import Prelude Cpu Flags XtEmit HostSim Codegen Compile JitSem JitOps JitFlags.

#[local] Ltac Zify.zify_post_hook ::= Z.to_euclidean_division_equations.

(** ** Registers and logic *)

Lemma set_greg_u32 gi v c : set_greg gi (u32 v) c = set_greg gi v c.
Proof. unfold set_greg, set_dreg, set_areg. by rewrite u32_idemp. Qed.
Lemma set_greg_word gi v c : cpu_ok c → is_greg gi → word32 v → greg (set_greg gi v c) gi = v.
Proof. intros. rewrite greg_set_greg by done. rewrite Z.eqb_refl. by apply u32_small. Qed.
Lemma G_D_greg n : is_greg (G_D n).
Proof. unfold G_D, is_greg. pose proof (land_range_r n 7 8). lia. Qed.
Lemma G_A_greg n : is_greg (G_A n).
Proof. unfold G_A, is_greg. pose proof (land_range_r n 7 8). lia. Qed.
Lemma g_reg_greg b n : is_greg (g_reg b n).
Proof. destruct b; [apply G_A_greg|apply G_D_greg]. Qed.
Lemma scratch_8 : scratch 8.
Proof. unfold scratch. lia. Qed.
Lemma scratch_9 : scratch 9.
Proof. unfold scratch. lia. Qed.
Lemma scratch_10 : scratch 10.
Proof. unfold scratch. lia. Qed.
Lemma land7 n : 0 ≤ n < 8 → n .& 7 = n.
Proof. intros. rewrite (land_ones_low n 7 3) by done. by apply Z.mod_small. Qed.
Lemma G_A_small n : 0 ≤ n < 8 → G_A n = 8 + n.
Proof. intros. unfold G_A. by rewrite land7. Qed.
Lemma G_D_small n : 0 ≤ n < 8 → G_D n = n.
Proof. apply land7. Qed.
Lemma OFF_A_G n : 0 ≤ n < 8 → OFF_A n = OFF_G (G_A n).
Proof. intros. unfold OFF_G. rewrite G_A_small, (proj2 (Z.ltb_ge _ _)) by lia. f_equal. lia. Qed.
#[local] Hint Resolve G_D_greg G_A_greg g_reg_greg : core.
#[local] Hint Resolve scratch_8 scratch_9 scratch_10 : core.

(** AND, OR and EOR: [kind] as in [emit_logic_op]. *)
Definition logic_r (kind a b : Z) : Z := if kind =? 0 then a .| b else if kind =? 1 then a .& b else a .^ b.
Lemma logic_r_word kind a b : word32 a → word32 b → word32 (logic_r kind a b).
Proof.
  intros Ha Hb. unfold logic_r, word32 in *. change 0x100000000 with (2 ^ 32) in *.
  destruct (_ =? 0); [by apply lor_range|]. destruct (_ =? 1); [|by apply lxor_range].
  rewrite Z.land_comm. by apply land_range_r.
Qed.
Lemma logic_r_comm kind a b : logic_r kind a b = logic_r kind b a.
Proof.
  unfold logic_r. destruct (_ =? 0); [apply Z.lor_comm|]. destruct (_ =? 1); [apply Z.land_comm|apply Z.lxor_comm].
Qed.

Section rel.
Context (lits : Z → Z) (entry hi : Z) (sl : bool).
#[local] Abbreviation rel := (rel lits entry hi sl).
#[local] Abbreviation runs := (runs lits entry).

(** ** Building blocks of the arms *)


(** Equal registers. *)
Definition same (j j' : jst) : Prop := j_cpu j' = j_cpu j ∧ ∀ k, j_reg j' k = j_reg j k.
Lemma same_refl j : same j j.
Proof. done. Qed.
#[local] Hint Resolve same_refl : core.

Lemma rel_same g j j' c : rel g j c → same j j' → rel g j' c.
Proof.
  intros [Hr Hp] [Ec Er]. split; [|done]. eapply related_regs; [exact Hr|exact Ec|done|].
  intros k. rewrite Er. by eapply re_words.
Qed.
Lemma rel_emitted i g j c : rel g j c → rel (emitted i g) j c.
Proof. apply extends_rel. eexists. reflexivity. Qed.

Lemma dst_reg_ok gi scr g j c : rel g j c → is_greg gi → scratch scr → reg_ok (dst_reg (g_rc g) gi scr) = true.
Proof.
  intros Hrel Hgi Hs. unfold dst_reg. change (0 <=? cache_lookup (g_rc g) gi) with (cached (g_rc g) gi).
  destruct (cached (g_rc g) gi) eqn:E; [|by apply reg_ok_scratch].
  apply reg_ok_lt. pose proof (slot_reg _ _ (rel_rc _ _ _ Hrel) Hgi E). lia.
Qed.

(** The write-back of a value computed in [dst_reg]. *)
Lemma runs_write_back gi scr d v g j j1 c (Q : unit → gen → jst → Prop) : rel g j c → is_greg gi → scratch scr →
  d = scr ∨ d = dst_reg (g_rc g) gi scr → same (set_reg (dst_reg (g_rc g) gi scr) v j) j1 →
  (∀ g' j', rel g' j' (set_greg gi v c) → (∀ gk, cache_lookup (g_rc g') gk = cache_lookup (g_rc g) gk) →
     j_reg j' (dst_reg (g_rc g) gi scr) = u32 v →
     (∀ k, k ≠ dst_reg (g_rc g) gi scr → j_reg j' k = j_reg j k) → Q tt g' j') →
  runs (write_back gi d) g j1 Q.
Proof.
  intros Hrel Hgi Hs Hd Hj1 HQ. unfold write_back. apply runs_bind, runs_gets.
  unfold dst_reg in *. change (0 <=? cache_lookup (g_rc g) gi) with (cached (g_rc g) gi) in *.
  destruct (cached (g_rc g) gi) eqn:Ec.
  - unfold mark_dirty. apply runs_set; [done|]. rewrite mark_dirty_spec by (done || by eapply rel_rc).
    apply HQ; [|done|by rewrite (proj2 Hj1), set_reg_eq|intros; by rewrite (proj2 Hj1), set_reg_ne].
    eapply rel_same; [|exact Hj1]. destruct Hrel as [Hr Hp]. split; [|done]. by apply related_write_cached.
  - assert (d = scr) as -> by tauto. assert (rel g j1 c) as H1 by (eapply rel_same; [by apply rel_set_reg|done]).
    apply (runs_store (hi:=hi) (sl:=sl) gi scr g j1 c); try done.
    intros g' j' Hg' Erc Ek. rewrite (proj2 Hj1), set_reg_eq in Hg'.
    apply HQ; [by rewrite set_greg_u32 in Hg'|intros gk; by rewrite Erc|by rewrite Ek, (proj2 Hj1), set_reg_eq|].
    intros k Hk. by rewrite Ek, (proj2 Hj1), set_reg_ne.
Qed.

(** A guest register read into the register another is computed in. *)
Lemma runs_read_dst gs gi scr g j c (Q : unit → gen → jst → Prop) : rel g j c → is_greg gs → is_greg gi → scratch scr →
  (∀ g1 j1, rel g1 j c → g_rc g1 = g_rc g → same (set_reg (dst_reg (g_rc g) gi scr) (greg c gs) j) j1 → Q tt g1 j1) →
  runs (emit_read_g gs (dst_reg (g_rc g) gi scr)) g j Q.
Proof.
  intros Hrel Hgs Hgi Hscr HQ. pose proof (greg_range c gs (rel_cok _ _ _ Hrel)) as Hw.
  unfold emit_read_g. apply runs_bind, runs_gets.
  change (0 <=? cache_lookup (g_rc g) gs) with (cached (g_rc g) gs).
  pose proof (dst_reg_ok gi scr g j c Hrel Hgi Hscr) as Hd.
  destruct (cached (g_rc g) gs) eqn:Ec.
  - pose proof (slot_reg _ gs (rel_rc _ _ _ Hrel) Hgs Ec) as Hsl.
    pose proof (rel_cached _ _ _ gs Hrel Hgs Ec) as Ev. apply runs_when.
    destruct (Z.eqb_spec (cache_lookup (g_rc g) gs) (dst_reg (g_rc g) gi scr)) as [E|Hne]; cbn [negb].
    + apply HQ; [done..|]. split; [done|]. intros k. cbn [set_reg j_reg]. destruct (Z.eqb_spec k (dst_reg (g_rc g) gi scr)) as [->|]; [|done].
      by rewrite <- E, Ev, u32_word.
    + eapply runs_emit; [cbn [instr_ok]; by rewrite Hd, reg_ok_lt by lia
                        |intros pc; cbn [asem]; rewrite Z.lor_diag, Ev; reflexivity|].
      apply HQ; [by apply rel_emitted|done..].
  - apply (runs_emit _ (set_reg (dst_reg (g_rc g) gi scr) (greg c gs) j)); [by apply off_G_ok| |].
    + intros pc. apply asem_l32i; [by eapply rel_base|].
      rewrite rd_greg by (done || by destruct Hrel as [[] _]). f_equal. by eapply rel_uncached.
    + apply HQ; [by apply rel_emitted|done..].
Qed.

(** ** The arms

    What an arm does to the register file when the code it emits runs. *)
Definition does (m : G unit) (f : m68k_cpu → m68k_cpu) : Prop :=
  ∀ g j c, rel g j c → runs m g j (λ _ g' j', rel g' j' (f c)).

Lemma runs_eq {A} (m m' : G A) g j Q : m g = m' g → runs m g j Q → runs m' g j Q.
Proof. intros E (a & g' & code & j' & Em & H). exists a, g', code, j'. by rewrite <- E. Qed.

Definition advanced (dpc dcyc : Z) (c : m68k_cpu) : m68k_cpu :=
  set_cpu_cycles (cpu_cycles c + dcyc) (set_cpu_pc (cpu_pc c + dpc) c).

Lemma rel_advance dpc dcyc g j c : rel g j c →
  rel (set_g_cyc_acc (g_cyc_acc g + dcyc) (set_g_pc_acc (g_pc_acc g + dpc) g)) j (advanced dpc dcyc c).
Proof.
  intros [[] Hp]. split; [|done]. split; try done.
  - cbn. by rewrite re_pc, u32_add_l, Z.add_assoc.
  - cbn. unfold u32, u64 in *. lia.
  - by apply set_cycles_ok, set_pc_ok.
Qed.

Lemma runs_advance dpc dcyc g j c : rel g j c →
  runs (emit_advance dpc dcyc) g j (λ _ g' j', rel g' j' (advanced dpc dcyc c)).
Proof. intros Hrel. apply runs_set; [done|]. by apply rel_advance. Qed.

Lemma does_nop : does (emit_advance 2 4) (advanced 2 4).
Proof. intros g j c Hrel. by apply runs_advance. Qed.


Lemma does_moveq w : sl = true → does (emit_moveq w false)
  (λ c, let v := u32 (i8 (w .& 0xFF)) in
        advanced 2 4 (logic_done v (set_greg (G_D ((w ≫ 9) .& 7)) v c))).
Proof.
  intros Hsl g j c Hrel. unfold emit_moveq. pose proof (G_D_greg ((w ≫ 9) .& 7)) as Hg. set (gi := G_D _) in *. set (imm := i8 _). apply runs_bind, runs_gets.
  assert (-128 ≤ imm < 128) as Hi by (unfold imm, i8, u8; case_match; lia).
  apply runs_bind. eapply runs_emit; [|intros; reflexivity|].
  { cbn [instr_ok]. rewrite (dst_reg_ok gi 8 g j c) by (done || auto). unfold within. lia. }
  apply runs_bind. eapply (runs_write_back gi 8 8 imm (emitted _ g) j _ c); [by apply rel_emitted|by eauto..|].
  intros g1 j1 H1 _ _ _. apply runs_bind, runs_when.
  rewrite <- set_greg_u32 in H1.
  eapply (runs_logic_flags_const Hsl); [exact H1|apply u32_range|]. intros g2 j2 H2 _. by apply runs_advance.
Qed.

Lemma dst_reg_range gi scr g j c : rel g j c → is_greg gi →
  dst_reg (g_rc g) gi scr = scr ∨ 4 ≤ dst_reg (g_rc g) gi scr < 8.
Proof.
  intros Hrel Hgi. unfold dst_reg. change (0 <=? cache_lookup (g_rc g) gi) with (cached (g_rc g) gi).
  destruct (cached (g_rc g) gi) eqn:E; [right|by left]. eapply slot_reg; [by eapply rel_rc|done..].
Qed.
Lemma rel_range g j c gi : rel g j c → word32 (greg c gi).
Proof. intros Hrel. apply greg_range. by eapply rel_cok. Qed.

Lemma does_move_to_dn gs dn : sl = true → is_greg gs → does (emit_move_l_to_dn gs dn false)
  (λ c, advanced 2 8 (logic_done (greg c gs) (set_greg (G_D dn) (greg c gs) c))).
Proof.
  intros Hsl Hgs g j c Hrel. unfold emit_move_l_to_dn. apply runs_bind, runs_gets. pose proof (G_D_greg dn) as Hg.
  apply runs_bind. apply (runs_read_dst gs (G_D dn) 8 g j c); try done. intros g1 j1 H1 E1 Hs.
  rewrite <- E1 in *. apply runs_bind. pose proof (dst_reg_range (G_D dn) 8 g1 j c H1 Hg) as Hd.
  apply (runs_write_back (G_D dn) 8 _ (greg c gs) g1 j j1 c); [done|auto..|].
  intros g2 j2 H2 _ E2 _. apply runs_bind, runs_when.
  rewrite u32_word in E2 by by eapply rel_range.
  eapply (runs_logic_flags Hsl); [exact H2|lia|]. intros g3 j3 H3 _. rewrite E2 in H3. by apply runs_advance.
Qed.

(** The two forms of the write-back the emitters write out. *)
Lemma runs_wb_cached gi g j1 Q : cached (g_rc g) gi = true → runs (write_back gi 8) g j1 Q → runs (mark_dirty gi) g j1 Q.
Proof.
  intros Ec. apply runs_eq. unfold write_back, mbind, M_bind, gets.
  change (0 <=? cache_lookup (g_rc g) gi) with (cached (g_rc g) gi). by rewrite Ec.
Qed.
Lemma runs_wb_store gi d g j1 Q : cached (g_rc g) gi = false → runs (write_back gi d) g j1 Q →
  runs (emit (S32i d R_CPU (OFF_G gi))) g j1 Q.
Proof.
  intros Ec. apply runs_eq. unfold write_back, mbind, M_bind, gets.
  change (0 <=? cache_lookup (g_rc g) gi) with (cached (g_rc g) gi). by rewrite Ec.
Qed.


Lemma does_movea is_an src an : 0 ≤ an < 8 → does (emit_movea_l_reg an src is_an)
  (λ c, advanced 2 8 (set_greg (G_A an) (greg c (g_reg is_an src)) c)).
Proof.
  intros Han g j c Hrel. unfold emit_movea_l_reg. pose proof (G_A_greg an) as Hg. set (gs := g_reg is_an src).
  assert (is_greg gs) as Hgs by apply g_reg_greg. apply runs_bind, runs_gets, runs_bind.
  change (0 <=? cache_lookup (g_rc g) (G_A an)) with (cached (g_rc g) (G_A an)).
  pose proof (runs_read_dst gs (G_A an) 8 g j c) as Hread. unfold dst_reg in Hread.
  change (0 <=? cache_lookup (g_rc g) (G_A an)) with (cached (g_rc g) (G_A an)) in Hread.
  destruct (cached (g_rc g) (G_A an)) eqn:Ec; apply runs_bind; apply Hread; auto; intros g1 j1 H1 E1 Hs.
  - apply runs_wb_cached; [by rewrite E1|]. apply (runs_write_back (G_A an) 8 8 (greg c gs) g1 j j1 c); auto.
    + unfold dst_reg. change (0 <=? cache_lookup (g_rc g1) (G_A an)) with (cached (g_rc g1) (G_A an)).
      by rewrite E1, Ec.
    + intros. by apply runs_advance.
  - rewrite OFF_A_G by done. apply runs_wb_store; [by rewrite E1|].
    apply (runs_write_back (G_A an) 8 8 (greg c gs) g1 j j1 c); auto.
    + unfold dst_reg. change (0 <=? cache_lookup (g_rc g1) (G_A an)) with (cached (g_rc g1) (G_A an)).
      by rewrite E1, Ec.
    + intros. by apply runs_advance.
Qed.

(** *** Addition and subtraction *)

Lemma same_u32 r v v' j : v = u32 v' → same (set_reg r v j) (set_reg r v' j).
Proof. intros ->. split; [done|]. intros k. cbn [set_reg j_reg]. by rewrite u32_idemp. Qed.

Definition addsub_r (is_sub : bool) (s d : Z) : Z := u32 (if is_sub then d - s else d + s).
(** [greg gi] gets [d - s] or [d + s], with all flags. *)
Definition addsub_set (is_sub : bool) (gi s d : Z) (c : m68k_cpu) : m68k_cpu :=
  let r := addsub_r is_sub s d in addsub_done is_sub false s d r (set_greg gi r c).
Definition addsub_op (is_sub : bool) (gi s : Z) (c : m68k_cpu) : m68k_cpu := addsub_set is_sub gi s (greg c gi) c.

(** The value in a register that the code computed from [s] in a8 and [d] in a9. *)
Lemma runs_addsub_tail is_sub gi s d g j c : sl = true → rel g j c → is_greg gi → word32 s →
  j_reg j 8 = s → j_reg j 9 = d →
  runs ((if is_sub then emit (Sub 10 9 8) else emit (Add 10 8 9)) ;;
    emit_write_g gi 10 ;; when true (emit_addsub_flags_long is_sub false) ;; emit_advance 2 8) g j
    (λ _ g' j', rel g' j' (advanced 2 8 (addsub_set is_sub gi s d c))).
Proof.
  intros Hsl Hrel Hgi Hs E8 E9. set (r := addsub_r is_sub s d).
  assert (∀ g1 j1, rel g1 j1 c → same (set_reg 10 r j) j1 → runs (emit_write_g gi 10 ;;
    when true (emit_addsub_flags_long is_sub false) ;; emit_advance 2 8) g1 j1
    (λ _ g' j', rel g' j' (advanced 2 8 (addsub_set is_sub gi s d c)))) as Htail.
  { intros g1 j1 H1 [_ Hj1]. apply runs_bind. apply (runs_write_g (hi:=hi) (sl:=sl) gi 10 g1 j1 c); auto.
    assert (j_reg j1 10 = r) as E10 by (rewrite Hj1, set_reg_eq; apply u32_idemp).
    rewrite E10. intros g2 j2 H2 _ Hk. apply runs_bind, runs_when.
    unfold emit_addsub_flags_long, emit_addsub_flags_long_ex.
    assert (j_reg j2 8 = s ∧ j_reg j2 9 = d ∧ j_reg j2 10 = r) as (F8 & F9 & F10).
    { rewrite !Hk by (unfold scratch; lia). rewrite E10, !Hj1, !set_reg_ne by lia. done. }
    eapply (runs_addsub_flags Hsl); [exact H2|lia..| |].
    - rewrite F8, F9, F10. by destruct is_sub.
    - rewrite F8, F9, F10. intros g3 j3 H3 _. by apply runs_advance. }
  apply runs_bind. destruct is_sub; (eapply runs_emit; [done|intros; reflexivity|]).
  - apply Htail; [by apply rel_emitted, rel_set_reg|]. apply same_u32. by rewrite E8, E9.
  - apply Htail; [by apply rel_emitted, rel_set_reg|]. apply same_u32. by rewrite E8, E9, Z.add_comm.
Qed.

(** Two reads of guest registers into a8 and a9. *)
Lemma runs_read2 gs gd g j c (Q : unit → gen → jst → Prop) (k : G unit) : rel g j c → is_greg gs → is_greg gd →
  (∀ g' j', rel g' j' c → g_rc g' = g_rc g → j_reg j' 8 = greg c gs → j_reg j' 9 = greg c gd → runs k g' j' Q) →
  runs (emit_read_g gs 8 ;; emit_read_g gd 9 ;; k) g j Q.
Proof.
  intros Hrel Hs Hd HQ. apply runs_bind. apply (runs_read_g (hi:=hi) (sl:=sl) gs 8 g j c); auto. intros g1 E1 H1.
  apply runs_bind. apply (runs_read_g (hi:=hi) (sl:=sl) gd 9 g1 _ c); auto. intros g2 E2 H2.
  pose proof (rel_range _ _ _ gs Hrel). pose proof (rel_range _ _ _ gd Hrel).
  apply HQ; [done|congruence| |]; regs; by rewrite u32_word.
Qed.

Lemma does_addsub is_sub is_an src dn : sl = true → 0 ≤ src < 8 → 0 ≤ dn < 8 → does (emit_addsub_l_dd is_sub dn src is_an false)
  (λ c, advanced 2 8 (addsub_op is_sub (G_D dn) (greg c (g_reg is_an src)) c)).
Proof.
  intros Hsl Hsrc Hdn g j c Hrel. unfold emit_addsub_l_dd. set (gs := g_reg is_an src).
  assert (is_greg gs) as Hgs by apply g_reg_greg. pose proof (G_D_greg dn) as Hg.
  apply runs_bind, runs_gets.
  change (0 <=? cache_lookup (g_rc g) gs) with (cached (g_rc g) gs).
  change (0 <=? cache_lookup (g_rc g) (G_D dn)) with (cached (g_rc g) (G_D dn)).
  destruct (cached (g_rc g) gs && cached (g_rc g) (G_D dn) && (is_an || negb (dn =? src))) eqn:E.
  2: { eapply runs_read2; [exact Hrel|auto..|]. intros g1 j1 H1 _ E8 E9. apply (runs_addsub_tail _ _ _ _ _ _ _ Hsl); auto. by eapply rel_range. }
  rewrite !andb_true_iff in E. destruct E as [[Es Ed] Ene].
  assert (gs ≠ G_D dn) as Hne.
  { subst gs. unfold g_reg. rewrite (G_D_small dn) by done. destruct is_an; cbn [orb] in Ene.
    - unfold G_A. pose proof (land_range_r src 7 8 ltac:(lia)). lia.
    - rewrite G_D_small by done. clear -Ene. destruct (Z.eqb_spec dn src); [done|congruence]. }
  set (ss := cache_lookup (g_rc g) gs). set (sd := cache_lookup (g_rc g) (G_D dn)).
  pose proof (slot_reg _ _ (rel_rc _ _ _ Hrel) Hgs Es) as Hss. pose proof (slot_reg _ _ (rel_rc _ _ _ Hrel) Hg Ed) as Hsd.
  assert (ss ≠ sd) as Hns.
  { intros Eq. apply Hne. eapply (slot_inj (g_rc g)); try done. by eapply rel_rc. }
  fold ss sd in Hss, Hsd. pose proof (rel_cached _ _ _ gs Hrel Hgs Es) as Vs. pose proof (rel_cached _ _ _ _ Hrel Hg Ed) as Vd.
  fold ss in Vs. fold sd in Vd.
  set (s := greg c gs) in *. set (d := greg c (G_D dn)) in *. set (r := addsub_r is_sub s d).
  apply runs_bind, runs_when. unfold xt_mov.
  eapply runs_emit; [instr_ok|intros; cbn [asem]; rewrite Z.lor_diag; reflexivity|].
  rewrite Vd. set (j1 := set_reg 9 d j).
  assert (rel (emitted (Or 9 sd sd) g) j1 c) as H1 by (apply rel_emitted, rel_set_reg; auto).
  set (v := if is_sub then d - s else d + s). apply runs_bind. unfold emit_addsub.
  eapply (runs_emit _ (set_reg sd v j1));
    [destruct is_sub; instr_ok| |].
  { assert (j_reg j1 sd = d ∧ j_reg j1 ss = s) as [F1 F2] by (unfold j1; by rewrite !set_reg_ne by lia).
    intros; destruct is_sub; cbn [asem]; by rewrite F1, F2. }
  apply runs_bind. match goal with |- JitOps.runs _ _ _ ?g1 _ _ => apply (runs_mark_dirty (hi:=hi) (sl:=sl) (G_D dn) v g1 j1 c) end; [by apply rel_emitted|done..|].
  intros g2 H2 _. cbn [emitted g_rc set_g_code] in H2. fold sd in H2. rewrite <- set_greg_u32 in H2.
  change (cache_lookup (g_rc (emitted _ _)) (G_D dn)) with sd.
  apply runs_bind, runs_when. unfold emit_addsub_flags_long_ex.
  assert (j_reg (set_reg sd v j1) ss = s ∧ j_reg (set_reg sd v j1) 9 = d ∧ j_reg (set_reg sd v j1) sd = r) as (F1 & F2 & F3).
  { unfold j1. rewrite set_reg_eq, !set_reg_ne, set_reg_eq by lia. split; [done|]. split; [|by destruct is_sub].
    apply u32_word. by eapply rel_range. }
  eapply (runs_addsub_flags Hsl); [exact H2|lia..| |].
  - rewrite F1, F2, F3. by destruct is_sub.
  - rewrite F1, F2, F3. intros g3 j3 H3 _. apply runs_advance. by destruct is_sub.
Qed.

(** An instruction on the slot of [gi], then [mark_dirty]. *)
Lemma runs_update i gi v g j c (Q : unit → gen → jst → Prop) : rel g j c → is_greg gi → cached (g_rc g) gi = true →
  instr_ok i = true → (∀ pc, asem lits pc i j = Some (set_reg (cache_lookup (g_rc g) gi) v j)) →
  (∀ g', rel g' (set_reg (cache_lookup (g_rc g) gi) v j) (set_greg gi v c) →
     Q tt g' (set_reg (cache_lookup (g_rc g) gi) v j)) →
  runs (emit i ;; mark_dirty gi) g j Q.
Proof.
  intros Hrel Hgi Hc Hi Ei HQ. apply runs_bind. eapply runs_emit; [done|exact Ei|].
  apply (runs_mark_dirty (hi:=hi) (sl:=sl) gi v (emitted i g) j c); [by apply rel_emitted|done..|]. intros g' H' _. by apply HQ.
Qed.

(** ADDQ and SUBQ on a data register. *)
Lemma does_addq is_sub dn imm : sl = true → 1 ≤ imm ≤ 8 → does (emit_addq_l_dd dn imm is_sub false)
  (λ c, advanced 2 8 (addsub_op is_sub (G_D dn) imm c)).
Proof.
  intros Hsl Hi g j c Hrel. unfold emit_addq_l_dd.
  apply runs_bind. eapply runs_emit; [instr_ok|intros; reflexivity|].
  assert (rel (emitted (Movi 8 imm) g) (set_reg 8 imm j) c) as H1 by (apply rel_emitted, rel_set_reg; auto).
  apply runs_bind. apply (runs_read_g (hi:=hi) (sl:=sl) (G_D dn) 9 _ _ c); [done|auto..|]. intros g2 _ H2.
  pose proof (rel_range _ _ _ (G_D dn) Hrel).
  assert (word32 imm) by (unfold word32; lia).
  apply (runs_addsub_tail _ _ _ _ _ _ _ Hsl); [done|auto|done|regs; by rewrite u32_word..].
Qed.

(** ADDQ and SUBQ on an address register. *)
Definition addq_an_op (an delta : Z) (c : m68k_cpu) : m68k_cpu :=
  set_greg (G_A an) (greg c (G_A an) + delta) c.

Lemma does_addq_an an delta : 0 ≤ an < 8 → -8 ≤ delta ≤ 8 → does (emit_addq_an an delta)
  (λ c, advanced 2 8 (addq_an_op an delta c)).
Proof.
  intros Han Hd g j c Hrel. unfold emit_addq_an. pose proof (G_A_greg an) as Hg.
  apply runs_bind, runs_gets, runs_bind.
  change (0 <=? cache_lookup (g_rc g) (G_A an)) with (cached (g_rc g) (G_A an)).
  destruct (cached (g_rc g) (G_A an)) eqn:Ec.
  - pose proof (slot_reg _ _ (rel_rc _ _ _ Hrel) Hg Ec). pose proof (rel_cached _ _ _ _ Hrel Hg Ec) as Ev.
    apply (runs_update _ _ (greg c (G_A an) + delta) g j c); [done..|instr_ok|intros; cbn [asem]; by rewrite Ev|].
    intros g' H'. by apply runs_advance.
  - rewrite OFF_A_G by done. apply runs_bind. apply (runs_load (hi:=hi) (sl:=sl) (G_A an) 8 g j c); auto.
    emit1. pose proof (rel_range _ _ _ (G_A an) Hrel). rewrite u32_word by done.
    match goal with |- JitOps.runs _ _ _ ?g1 ?j1 _ => apply (runs_store (hi:=hi) (sl:=sl) (G_A an) 8 g1 j1 c) end; auto.
    + by do 2 apply rel_emitted; do 2 (apply rel_set_reg; [|auto]).
    + regs. rewrite set_greg_u32. intros g' j' H' _ _. by apply runs_advance.
Qed.

(** ADDA.L and SUBA.L of a register. *)
Definition adda_op (is_sub : bool) (an s : Z) (c : m68k_cpu) : m68k_cpu :=
  set_greg (G_A an) (addsub_r is_sub s (greg c (G_A an))) c.

Definition arm_does (a : arm) (f : m68k_cpu → m68k_cpu) : Prop :=
  ∃ m, a = inline m ∧ does m f.

Lemma does_adda_l w : arm_does (arm_adda_l w)
  (λ c, advanced 2 12 (adda_op (f_top w =? 9) (f_rr w) (greg c (g_reg (f_mode w =? 1) (f_reg w))) c)).
Proof.
  eexists. split; [reflexivity|]. intros g j c Hrel. set (is_sub := f_top w =? 9). set (gs := g_reg _ _). set (an := f_rr w).
  assert (is_greg gs) as Hgs by apply g_reg_greg. pose proof (G_A_greg an) as Hg.
  assert (0 ≤ an < 8) as Han by (apply land_range_r; lia).
  apply runs_bind, runs_gets, runs_bind.
  change (0 <=? cache_lookup (g_rc g) (G_A an)) with (cached (g_rc g) (G_A an)).
  unfold adda_op. set (s := greg c gs). set (d := greg c (G_A an)).
  destruct (cached (g_rc g) (G_A an)) eqn:Ec.
  - apply runs_bind. apply (runs_read_g_in (hi:=hi) (sl:=sl) gs 8 g j c); auto. intros g1 j1 r E1 H1 Er Hr Hk.
    pose proof (slot_reg _ _ (rel_rc _ _ _ Hrel) Hg Ec). rewrite <- E1 in *.
    pose proof (rel_cached _ _ _ _ H1 Hg Ec) as Ev.
    unfold emit_addsub. apply (runs_update _ _ (addsub_r is_sub s d) g1 j1 c); [done..| | |].
    + destruct is_sub; instr_ok.
    + intros pc. destruct is_sub; cbn [asem]; rewrite Ev, Er; fold s d; f_equal;
        unfold set_reg; f_equal; unfold addsub_r; by rewrite u32_idemp.
    + intros g' H'. by apply runs_advance.
  - apply runs_read2 with c; [exact Hrel|auto..|]. intros g1 j1 H1 E1 E8 E9. rewrite OFF_A_G by done.
    apply runs_bind. unfold emit_addsub.
    apply (runs_emit _ (set_reg 10 (if is_sub then d - s else d + s) j1)).
    + by destruct is_sub.
    + intros pc. destruct is_sub; cbn [asem]; by rewrite E8, E9.
    + match goal with |- JitOps.runs _ _ _ ?g2 ?j2 _ => apply (runs_store (hi:=hi) (sl:=sl) (G_A an) 10 g2 j2 c) end; auto.
      * by apply rel_emitted, rel_set_reg.
      * cbn [emitted g_rc set_g_code]. by rewrite E1.
      * regs. intros g' j' H' _ _. by apply runs_advance.
Qed.

(** CMP.L *)
Definition cmp_op (s d : Z) (c : m68k_cpu) : m68k_cpu := addsub_done true true s d (addsub_r true s d) c.

Lemma does_cmp_l dn dm m : sl = true → does (emit_cmp_l_dd dn dm m)
  (λ c, advanced 2 8 (cmp_op (greg c (G_D dm)) (greg c (G_D dn)) c)).
Proof.
  intros Hsl g j c Hrel. unfold emit_cmp_l_dd. pose proof (G_D_greg dm) as Hm. pose proof (G_D_greg dn) as Hn.
  apply runs_bind. apply (runs_read_g_in (hi:=hi) (sl:=sl) (G_D dm) 8 g j c); auto. intros g1 j1 r1 E1 H1 Er1 Hr1 _.
  apply runs_bind. apply (runs_read_g_in (hi:=hi) (sl:=sl) (G_D dn) 9 g1 j1 c); auto. intros g2 j2 r2 E2 H2 Er2 Hr2 Hk.
  rewrite <- (Hk r1) in Er1 by lia.
  apply runs_bind. eapply runs_emit; [instr_ok|intros; reflexivity|].
  set (j3 := set_reg 10 _ j2).
  assert (j_reg j3 r1 = greg c (G_D dm) ∧ j_reg j3 r2 = greg c (G_D dn) ∧
    j_reg j3 10 = addsub_r true (greg c (G_D dm)) (greg c (G_D dn))) as (F1 & F2 & F3).
  { unfold j3. rewrite set_reg_eq, !set_reg_ne by lia. by rewrite Er1, Er2. }
  assert (rel (emitted (Sub 10 r2 r1) g2) j3 c) as H3 by (by apply rel_emitted, rel_set_reg).
  apply runs_bind. eapply (runs_addsub_flags Hsl); [exact H3|lia..| |].
  - by rewrite F1, F2, F3.
  - rewrite F1, F2, F3. intros g4 j4 H4 _. by apply runs_advance.
Qed.

(** AND, OR and EOR *)
Definition logic_op (kind gi v : Z) (c : m68k_cpu) : m68k_cpu :=
  let r := logic_r kind v (greg c gi) in logic_done r (set_greg gi r c).



Lemma does_logic_l ra rb dst kind : sl = true → does (emit_logic_l_dd_kind ra rb dst kind false)
  (λ c, let r := logic_r kind (greg c (G_D ra)) (greg c (G_D rb)) in
        advanced 2 8 (logic_done r (set_greg (G_D dst) r c))).
Proof.
  intros Hsl g j c Hrel. unfold emit_logic_l_dd_kind. set (ga := G_D ra). set (gb := G_D rb).
  assert (is_greg ga ∧ is_greg gb ∧ is_greg (G_D dst)) as (Ha & Hb & Hd) by (unfold ga, gb; auto).
  set (r := logic_r kind (greg c ga) (greg c gb)).
  assert (word32 r) as Hr by (apply logic_r_word; by eapply rel_range).
  apply runs_read2 with c; [exact Hrel|done..|]. intros g1 j1 H1 _ E8 E9.
  apply runs_bind. unfold emit_logic_op. apply (runs_emit _ (set_reg 8 r j1)).
  - by destruct (kind =? 0), (kind =? 1).
  - intros pc. unfold r, logic_r. rewrite <- E8, <- E9. by destruct (kind =? 0), (kind =? 1).
  - apply runs_bind. match goal with |- JitOps.runs _ _ _ ?g2 ?j2 _ => apply (runs_write_g (hi:=hi) (sl:=sl) (G_D dst) 8 g2 j2 c) end;
      [by apply rel_emitted, rel_set_reg|done|auto|].
    rewrite set_reg_eq, u32_word by done. intros g2 j2 H2 _ Hk. apply runs_bind, runs_when.
    eapply (runs_logic_flags Hsl); [exact H2|lia|]. rewrite Hk, set_reg_eq, u32_word by auto.
    intros g3 j3 H3 _. by apply runs_advance.
Qed.

(** NEG.L *)
Lemma does_neg_l w : sl = true → arm_does (arm_neg_l w)
  (λ c, let gi := G_D (f_reg w) in advanced 2 8 (addsub_set true gi (greg c gi) 0 c)).
Proof.
  intros Hsl. eexists. split; [reflexivity|]. intros g j c Hrel. pose proof (G_D_greg (f_reg w)) as Hg. set (gi := G_D _) in *.
  apply runs_bind. apply (runs_read_g (hi:=hi) (sl:=sl) gi 8 g j c); auto. intros g1 E1 H1. emit1.
  apply (runs_addsub_tail true gi (greg c gi) 0 _ _ c Hsl); [|done|by eapply rel_range|by regs; rewrite u32_word by (by eapply rel_range)|by regs].
  by apply rel_emitted, rel_set_reg.
Qed.
End rel.
