(* ===== verification/JitTail.v ===== *)
(** * Constants, branches and the end of a block

    What the emitted code does that loads a constant, adds the deferred cycles
    and program counter to the CPU, decides a condition and branches, and
    writes the cached registers back. *)

From Stdlib Require Import ZArith Lia.
From stdpp Require Import base tactics list numbers.
From S2P Require Import Prelude Cpu Flags XtEmit HostSim Codegen Compile JitSize JitSem JitOps JitFlags JitArms.

#[local] Ltac Zify.zify_post_hook ::= Z.to_euclidean_division_equations.

Section tail.
Context (lits : Z → Z) (entry hi : Z) (sl : bool).
#[local] Abbreviation rel := (rel lits entry hi sl).
#[local] Abbreviation runs := (runs lits entry).

(** ** Constants *)

Lemma shift_in x b : 0 ≤ b < 256 → u32 (u32 (x * 2 ^ 8) .| u32 b) = u32 (256 * x + b).
Proof.
  intros Hb. change (2 ^ 8) with 256. replace (u32 (x * 256)) with (0x100 * (x mod 0x1000000)) by (unfold u32; lia).
  rewrite (u32_small b) by lia. rewrite lor_low by done. unfold u32. lia.
Qed.

Lemma imm_byte v n : 0 ≤ n → (v ≫ n) .& 0xFF = (v / 2 ^ n) mod 256 ∧ 0 ≤ (v / 2 ^ n) mod 256 < 256.
Proof.
  intros Hn. rewrite (land_ones_low _ 0xFF 8), Z.shiftr_div_pow2 by (done || lia). split; [done|]. by apply Z.mod_pos_bound.
Qed.

Lemma runs_load_imm32 dst tmp v g j (Q : unit → gen → jst → Prop) : word32 v → scratch dst → scratch tmp → dst ≠ tmp →
  (∀ k, word32 (j_reg j k)) →
  (∀ g' j', extends g g' → only [dst; tmp] j j' → j_reg j' dst = v → Q tt g' j') →
  runs (emit_load_imm32 dst tmp v) g j Q.
Proof.
  intros Hv Hd Ht Hne Hw HQ. unfold emit_load_imm32.
  destruct (imm_byte v 24) as [-> B3]; [done|]. cbn [for_each].
  destruct (imm_byte v 16) as [-> B2]; [done|]. destruct (imm_byte v 8) as [-> B1]; [done|].
  destruct (imm_byte v 0) as [-> B0]; [done|].
  do 10 (try apply runs_bind; emit1). apply runs_ret. apply HQ; [ext_gen|by only_regs|]. regs.
  rewrite !shift_in by done. unfold word32 in Hv. change (2 ^ 8) with 256 in *.
  change (2 ^ 24) with 0x1000000 in *. change (2 ^ 16) with 0x10000 in *. change (2 ^ 0) with 1 in *.
  unfold u32. lia.
Qed.

Lemma runs_load_imm dst tmp v g j (Q : unit → gen → jst → Prop) : word32 v → scratch dst → scratch tmp → dst ≠ tmp →
  (∀ k, word32 (j_reg j k)) →
  (∀ g' j', extends g g' → only [dst; tmp] j j' → j_reg j' dst = v → Q tt g' j') →
  runs (emit_load_imm dst tmp v) g j Q.
Proof.
  intros Hv Hd Ht Hne Hw HQ. unfold emit_load_imm. cbv zeta. destruct (_ && _) eqn:E.
  - apply andb_true_iff in E as [E1%Z.leb_le E2%Z.leb_le].
    eapply runs_emit; [instr_ok|intros ?; cbn [asem]; reflexivity|]. apply HQ; [ext_gen|by only_regs|]. regs.
    unfold i32, u32, word32 in *. case_match; lia.
  - by apply runs_load_imm32.
Qed.

Lemma runs_add_const dst t1 t2 n g j (Q : unit → gen → jst → Prop) : scratch dst → scratch t1 → scratch t2 →
  dst ≠ t1 → t1 ≠ t2 → dst ≠ t2 → (∀ k, word32 (j_reg j k)) →
  (∀ g' j', extends g g' → only [dst; t1; t2] j j' → j_reg j' dst = u32 (j_reg j dst + n) → Q tt g' j') →
  runs (emit_add_const dst t1 t2 n) g j Q.
Proof.
  intros Hd H1 H2 Hn1 Hn2 Hn3 Hw HQ. unfold emit_add_const. destruct (_ && _) eqn:E.
  - apply andb_true_iff in E as [E1%Z.leb_le E2%Z.leb_le].
    eapply runs_emit; [instr_ok|intros ?; cbn [asem]; reflexivity|]. apply HQ; [ext_gen|by only_regs|by regs].
  - apply runs_bind. apply runs_load_imm; try done; [apply u32_range|]. intros g1 j1 Hg1 Hj1 E1.
    emit1. rewrite E1. apply HQ; [by apply extends_emitted| |].
    + apply only_set; [|rewrite elem_of_cons; tauto]. apply (only_weaken _ _ _ _ Hj1).
      intros k. rewrite !elem_of_cons. tauto.
    + regs. rewrite (on_reg _ _ _ Hj1) by (rewrite !elem_of_cons, elem_of_nil; intros [?|[?|?]]; congruence).
      unfold u32. lia.
Qed.

(** The block's literal. *)
Lemma runs_l32r dst off g j (Q : unit → gen → jst → Prop) : scratch dst ∨ dst = R_CPU → 0 ≤ off → off mod 4 = 0 →
  off < entry + e_len g < 0x20000 →
  (∀ i, Q tt (emitted i g) (set_reg dst (lits off) j)) →
  runs (emit_l32r_at dst off (entry + e_len g)) g j Q.
Proof.
  intros Hd Ho H4 Hpc HQ. unfold emit_l32r_at. set (pc := entry + e_len g) in *. cbv zeta.
  rewrite (u32_small (pc + 3)), land_not3 by lia.
  rewrite (land_ones_low _ 3 2) by done. change (2 ^ 2) with 4.
  set (al := pc + 3 - (pc + 3) mod 4). assert (off < al ∧ al < 0x20004 ∧ al mod 4 = 0) as (Ha & Hb & Hc) by (unfold al; lia).
  rewrite (u32_small (al - off)) by lia. rewrite (proj2 (Z.ltb_lt _ _)), (proj2 (Z.eqb_eq _ 0)) by lia. cbn [andb].
  rewrite Z.shiftr_div_pow2 by lia. change (2 ^ 2) with 4.
  apply (runs_emit_at _ (set_reg dst (lits off) j)); [| |apply HQ].
  - unfold R_CPU in *. instr_ok.
  - fold pc. cbn [asem]. do 3 f_equal. unfold i16, u16. assert (al = 4 * ((pc + 3) / 4)) by (unfold al; lia).
    assert (0 < (al - off) / 4 ≤ 0x8000) by lia. rewrite (Z.mod_small (0x10000 - _)) by lia.
    destruct (Z.ltb_spec (0x10000 - (al - off) / 4) 0x8000); unfold u32; lia.
Qed.

Lemma runs_pc_const dst tmp pc g j c (Q : unit → gen → jst → Prop) : rel g j c → word32 pc → scratch dst →
  scratch tmp → dst ≠ tmp → entry + e_len g < 0x20000 → 0 ≤ entry →
  (∀ g' j', extends g g' → only [dst; tmp] j j' → j_reg j' dst = pc → Q tt g' j') →
  runs (emit_pc_const dst tmp pc) g j Q.
Proof.
  intros [Hr (Hp1 & Hp2 & Hp3 & Hp4)] Hpc Hd Ht Hne Hlen Hent HQ. unfold emit_pc_const.
  do 5 (apply runs_bind, runs_gets). rewrite Hp3. pose proof (λ k, re_words _ _ _ _ _ _ _ _ Hr k) as Hw.
  destruct (_ && _) eqn:E; [|by apply runs_load_imm32].
  apply andb_true_iff in E as [Ev Ep%Z.eqb_eq]. destruct (Hp4 Ev) as (Ho & H4 & El).
  assert (0 ≤ e_len g) by (unfold e_len; lia).
  apply runs_l32r; [by left|lia|done|lia|]. intros i. rewrite El, <- Ep. apply HQ; [ext_gen|by only_regs|].
  regs. by apply u32_small.
Qed.

(** ** The program counter and the cycles *)

Lemma runs_bump off n v c' g j (Q : unit → gen → jst → Prop) : off = OFF_PC ∨ off = OFF_CYCLES →
  j_reg j R_CPU = HOST_CPU_BASE → (∀ k, word32 (j_reg j k)) →
  rd_field 4 off (j_cpu j) = Some v → word32 v → wr_field 4 off (u32 (v + n)) (j_cpu j) = Some c' →
  (∀ g' j', extends g g' → j_cpu j' = c' → (∀ k, word32 (j_reg j' k)) →
     (∀ k, k ∉ [8; 9; 10] → j_reg j' k = j_reg j k) → Q tt g' j') →
  runs (emit_bump off n) g j Q.
Proof.
  intros Hoff Hb Hw Hrd Hv Hwr HQ. unfold emit_bump.
  assert (∀ r, reg_ok r = true → instr_ok (L32i r R_CPU off) = true ∧ instr_ok (S32i r R_CPU off) = true) as Hok.
  { intros r Hr. cbn [instr_ok]. rewrite Hr. by destruct Hoff as [-> | ->]. }
  apply runs_bind. eapply runs_emit; [by apply Hok|intros ?; by apply asem_l32i|].
  apply runs_bind. apply runs_add_const; try (unfold scratch; lia); [by apply set_reg_word|].
  intros g1 j1 Hg1 Hj1 E1. rewrite set_reg_eq, (u32_small v) in E1 by done.
  assert (j_reg j1 R_CPU = HOST_CPU_BASE) as Hb1.
  { rewrite (on_reg _ _ _ Hj1) by (rewrite !elem_of_cons, elem_of_nil; unfold R_CPU; lia). by rewrite set_reg_ne. }
  eapply runs_emit; [by apply Hok|intros ?; apply asem_s32i; [done|]; rewrite E1, (on_cpu _ _ _ Hj1); exact Hwr|].
  apply HQ; [|done|intros k; apply Hj1|].
  - apply extends_emitted. apply (extends_trans _ _ _ (extends_emitted _ _ _ (extends_refl _)) Hg1).
  - intros k Hk. cbn [set_jcpu j_reg]. rewrite (on_reg _ _ _ Hj1) by done. rewrite set_reg_ne; [done|].
    intros ->. apply Hk. rewrite elem_of_cons. by left.
Qed.

Definition rebased (j : jst) (c : m68k_cpu) : m68k_cpu :=
  set_cpu_cycles (cpu_cycles (j_cpu j)) (set_cpu_pc (cpu_pc (j_cpu j)) c).
(** Nothing deferred. *)
Definition settled (g : gen) : Prop := g_pc_acc g = 0 ∧ g_cyc_acc g = 0.

Lemma rel_rebase g j c : rel g j c →
  rel (set_g_cyc_acc 0 (set_g_pc_acc 0 g)) j (rebased j c) ∧
  u32 (cpu_cycles c) = u32 (cpu_cycles (j_cpu j) + g_cyc_acc g) ∧
  cpu_pc c = u32 (cpu_pc (j_cpu j) + g_pc_acc g).
Proof.
  intros [[] Hp]. split; [|done]. destruct re_jok as [? ? ? ? ? ?]. split; [|done].
  split; try done; try (cbn; by apply set_cycles_ok, set_pc_ok).
  - cbn. by rewrite Z.add_0_r.
  - cbn. rewrite Z.add_0_r. unfold u32, u64 in *. lia.
Qed.

Lemma runs_absorb g j c (Q : Z → gen → jst → Prop) : rel g j c →
  (∀ g', settled g' → rel g' j (rebased j c) → g_code g' = g_code g → Q (g_cyc_acc g) g' j) →
  runs absorb_cycles g j Q.
Proof.
  intros Hrel HQ. unfold absorb_cycles. apply runs_bind, runs_gets, runs_bind, runs_set; [done|].
  apply runs_bind, runs_set; [done|]. apply runs_ret. apply HQ; [done| |done]. by apply rel_rebase.
Qed.

(** *** Conditions *)

Lemma ccr_bit c k : 0 ≤ k < 5 → nz (m68k_get_ccr c .& 2 ^ k) = Z.testbit (cpu_sr c) k.
Proof.
  intros Hk. unfold m68k_get_ccr. rewrite nz_land_pow2 by lia.
  rewrite u8_small by (pose proof (land_range_r (cpu_sr c) 0x1F 0x20); lia).
  rewrite Z.land_spec. change 0x1F with (Z.ones 5). rewrite Z.ones_spec_low by lia. by rewrite andb_true_r.
Qed.
Lemma ext_bit sr k : 0 ≤ k → u32 ((sr / 2 ^ k) mod 2 ^ (0 + 1)) = b2z (Z.testbit sr k).
Proof.
  intros Hk. change (2 ^ (0 + 1)) with 2. pose proof (Z.testbit_spec' sr k Hk) as E. rewrite <- E.
  by destruct (Z.testbit sr k).
Qed.

#[local] Ltac cond_case HQ' E14 :=
  repeat (apply runs_bind, runs_when;
    match goal with |- context [bool_decide ?P] => let b := eval vm_compute in (bool_decide P) in change (bool_decide P) with b end;
    cbv iota; try emit1);
  unfold xt_mov; repeat emit1; apply HQ'; [ext_gen|by only_regs|]; unfold R_SR; regs; rewrite ?E14, ?ext_bit by done;
  repeat match goal with |- context [Z.testbit ?a ?k] => destruct (Z.testbit a k) end; done.

Lemma runs_cond cc g j c (Q : unit → gen → jst → Prop) : sl = true → rel g j c → 2 ≤ cc < 16 → settled g →
  (∀ g' j', rel g' j' c → settled g' → only [8; 9; 10; 11; 12; 13] j j' →
     j_reg j' 8 = b2z (cond_true c cc) → Q tt g' j') →
  runs (emit_cond cc) g j Q.
Proof.
  intros Hsl Hrel Hcc Hs HQ. unfold emit_cond, sext_memo_invalidate. apply runs_bind, runs_set; [done|].
  set (g0 := set_g_sext_valid false g). assert (rel g0 j c) as H0 by (by apply rel_drop_sext).
  assert (∀ g' j', extends g0 g' → only [8; 9; 10; 11; 12; 13] j j' → j_reg j' 8 = b2z (cond_true c cc) → Q tt g' j') as HQ'.
  { intros g' j' Hg Hj E. apply HQ; try done.
    - eapply rel_only; [eapply extends_rel; [exact Hg|exact H0]|exact Hj|].
      repeat (constructor; [unfold scratch; lia|]). constructor.
    - destruct Hg as [code ->]. done. }
  clear HQ. pose proof (λ k, rel_words _ _ _ k Hrel) as Hw. pose proof (rel_sr Hsl _ _ _ Hrel) as E14.
  assert (cond_true c cc = let C := Z.testbit (cpu_sr c) 0 in let V := Z.testbit (cpu_sr c) 1 in
    let Zf := Z.testbit (cpu_sr c) 2 in let N := Z.testbit (cpu_sr c) 3 in
    match cc with 2 => negb C && negb Zf | 3 => C || Zf | 4 => negb C | 5 => C | 6 => negb Zf | 7 => Zf
    | 8 => negb V | 9 => V | 10 => negb N | 11 => N | 12 => Bool.eqb N V | 13 => negb (Bool.eqb N V)
    | 14 => negb Zf && Bool.eqb N V | _ => Zf || negb (Bool.eqb N V) end) as Ec.
  { rewrite <- !ccr_bit by done. assert (cc ∈ [2; 3; 4; 5; 6; 7; 8; 9; 10; 11; 12; 13; 14; 15]) as Hin by
      (rewrite !elem_of_cons; lia). repeat (apply elem_of_cons in Hin as [->|Hin]; [done|]). by apply elem_of_nil in Hin. }
  rewrite Ec in HQ'. clear Ec.
  assert (cc ∈ [2; 3; 4; 5; 6; 7; 8; 9; 10; 11; 12; 13; 14; 15]) as Hin by (rewrite !elem_of_cons; lia).
  repeat (apply elem_of_cons in Hin as [->|Hin]; [cond_case HQ' E14|]). by apply elem_of_nil in Hin.
Qed.

(** *** Writing the program counter and the cycles *)

Lemma rel_set_pc g j c v : rel g j c → g_pc_acc g = 0 →
  rel g (set_jcpu (set_cpu_pc v (j_cpu j)) j) (set_cpu_pc v c).
Proof.
  intros [[] Hp] H0. split; [|done]. split; try done; try (by apply set_pc_ok).
  - cbn. rewrite H0, Z.add_0_r. by rewrite u32_idemp.
Qed.

Lemma rel_set_cycles g j c v n : rel g j c → g_cyc_acc g = 0 → u32 n = u32 v →
  rel g (set_jcpu (set_cycles_low v (j_cpu j)) j) (set_cpu_cycles n c).
Proof.
  intros [[] Hp] H0 Hn. split; [|done]. destruct re_jok as [Hd Ha Hpc Hsr] eqn:Ejok.
  pose proof (get_field_range FCycles _ re_jok I) as Hcy. cbn [get_field width] in Hcy.
  change (256 ^ 8) with 0x10000000000000000 in Hcy.
  split; try done; try (by apply set_cycles_ok).
  - cbn. rewrite H0, Z.add_0_r. unfold u32, u64 in *. lia.
  - cbn. rewrite <- re_hi. unfold u64, u32. lia.
Qed.

Lemma select_mask a b (t : bool) : word32 a → word32 b →
  a .^ u32 (u32 (a .^ b) .& u32 (0 - b2z t)) = if t then b else a.
Proof.
  intros Ha Hb. assert (word32 (a .^ b)) by (by apply (lxor_range 32)).
  rewrite (u32_small (a .^ b)) by done. destruct t.
  - change (u32 (0 - b2z true)) with 0xFFFFFFFF. rewrite land_word, (u32_small (a .^ b)) by done.
    by rewrite <- Z.lxor_assoc, Z.lxor_nilpotent, Z.lxor_0_l.
  - change (u32 (0 - b2z false)) with 0. rewrite Z.land_0_r. change (u32 0) with 0. apply Z.lxor_0_r.
Qed.

Lemma e_len_emitted i g : e_len (emitted i g) = e_len g + 3.
Proof. unfold e_len, emitted, set_g_code. cbn [g_code]. rewrite length_app. cbn [length]. lia. Qed.

Lemma extends_settled g g' : extends g g' → settled g → settled g'.
Proof. by intros [code ->]. Qed.

Definition branched (b : bool) (taken ft cyc : Z) (c : m68k_cpu) : m68k_cpu :=
  set_cpu_cycles (cpu_cycles c + cyc + 2 * b2z b) (set_cpu_pc (if b then taken else ft) c).

(** The target of the branch, in a12. *)
Lemma runs_target ft disp g j (Q : unit → gen → jst → Prop) : word32 ft → (∀ k, word32 (j_reg j k)) → j_reg j 10 = ft →
  (∀ g' j', extends g g' → only [11; 12] j j' → j_reg j' 12 = u32 (ft + disp) → Q tt g' j') →
  runs (if (-128 <=? disp) && (disp <=? 127) then emit (Addi 12 10 disp) else emit_load_imm32 12 11 (u32 (ft + disp))) g j Q.
Proof.
  intros Hft Hw E HQ. destruct (_ && _) eqn:Ed.
  - apply andb_true_iff in Ed as [E1%Z.leb_le E2%Z.leb_le].
    eapply runs_emit; [instr_ok|intros ?; cbn [asem]; reflexivity|]. apply HQ; [ext_gen|by only_regs|regs; by rewrite E].
  - apply runs_load_imm32; try (unfold scratch; lia); [apply u32_range|done|]. intros g1 j1 Hg Hj Ej. apply HQ; [done| |done].
    apply (only_weaken _ _ _ _ Hj). intros k. rewrite !elem_of_cons. tauto.
Qed.

Lemma runs_tail ft disp base (b : bool) g j c (Q : unit → gen → jst → Prop) : rel g j c → settled g → word32 ft →
  j_reg j 8 = b2z b → 0 ≤ entry → entry + e_len g < 0x1F000 →
  (∀ g' j', rel g' j' (branched b (u32 (ft + disp)) ft base c) → settled g' → Q tt g' j') →
  runs (emit_bcc_branchless_tail ft disp base) g j Q.
Proof.
  intros Hrel Hs Hft E8 Hent Hlen HQ. unfold emit_bcc_branchless_tail.
  pose proof (λ k, rel_words _ _ _ k Hrel) as Hw.
  do 2 emit1. set (g1 := emitted _ (emitted _ g)). set (j1 := set_reg 9 _ _).
  assert (extends g g1) as X1 by (unfold g1; ext_gen).
  assert (only [8; 9; 10; 11; 12; 13] j j1) as O1 by (unfold j1; by only_regs).
  assert (Forall scratch [8; 9; 10; 11; 12; 13]) as Hscr by (repeat (constructor; [unfold scratch; lia|]); constructor).
  assert (rel g1 j1 c) as H1 by (eapply rel_only; [eapply extends_rel; [exact X1|exact Hrel]|exact O1|done]).
  apply runs_bind, (runs_pc_const 10 11 ft g1 j1 c); try done; [by unfold scratch; lia..| |].
  { unfold g1. rewrite !e_len_emitted. lia. }
  intros g2 j2 X2 O2 E2. apply runs_bind, runs_target; [done|apply O2|done|]. intros g3 j3 X3 O3 E3.
  assert (∀ k, k ∉ [10; 11; 12] → j_reg j3 k = j_reg j1 k) as K3.
  { intros k Hk. rewrite !elem_of_cons in Hk. rewrite (on_reg _ _ _ O3), (on_reg _ _ _ O2) by (rewrite !elem_of_cons; tauto). done. }
  assert (j_reg j3 10 = ft) as E10.
  { rewrite (on_reg _ _ _ O3) by (rewrite !elem_of_cons, elem_of_nil; lia). done. }
  assert (j_reg j3 9 = u32 (0 - b2z b)) as E9.
  { rewrite K3 by (rewrite !elem_of_cons, elem_of_nil; lia). unfold j1. regs. by rewrite E8. }
  assert (rel g3 j3 c) as H3.
  { eapply (rel_only (lits:=lits) [10; 11; 11; 12] g3 j1); [|exact (only_trans _ _ _ _ _ O2 O3)|
      repeat (constructor; [unfold scratch; lia|]); constructor].
    eapply extends_rel; [exact X3|]. eapply extends_rel; [exact X2|done]. }
  do 3 emit1. rewrite E10, E3, E9. rewrite select_mask by (done || apply u32_range).
  set (v := if b then u32 (ft + disp) else ft). assert (word32 v) as Hv by (unfold v; destruct b; [apply u32_range|done]).
  set (j4 := set_reg 10 v _). set (g4 := emitted _ (emitted _ (emitted _ g3))).
  assert (rel g4 j4 c) as H4.
  { unfold g4, j4. do 3 apply rel_emitted. do 3 (apply rel_set_reg; [|unfold scratch; lia]). done. }
  assert (settled g4) as S4.
  { unfold g4. eapply extends_settled; [|exact Hs]. do 3 apply extends_emitted.
    by apply (extends_trans _ _ _ (extends_trans _ _ _ X1 X2)). }
  assert (j_reg j4 10 = v) as V4 by (unfold j4; rewrite set_reg_eq; by apply u32_small).
  assert (j_reg j4 8 = b2z b) as B4.
  { unfold j4. regs. rewrite K3 by (rewrite !elem_of_cons, elem_of_nil; lia). unfold j1. by regs. }
  clearbody j4 g4. clear dependent g3. clear dependent g1.
  apply runs_bind. eapply runs_emit; [done|intros ?; apply asem_s32i; [by eapply rel_base|]; by apply wr_pc; destruct H4 as [[] _]|].
  rewrite V4. pose proof (rel_set_pc g4 j4 c v H4 (proj1 S4)) as H5. apply (rel_emitted _ _ _ _ (S32i 10 R_CPU OFF_PC)) in H5.
  apply runs_bind. eapply runs_emit; [done|intros ?; apply asem_l32i; [by eapply (rel_base _ _ _ H5)|]; apply rd_cycles|].
  apply rel_set_reg with (r := 11) (v := u32 (cpu_cycles (j_cpu j4))) in H5; [|unfold scratch; lia].
  set (j5 := set_jcpu _ j4) in *. set (j6 := set_reg 11 _ j5) in *. apply (rel_emitted _ _ _ _ (L32i 11 R_CPU OFF_CYCLES)) in H5.
  set (g6 := emitted _ (emitted _ g4)) in *.
  apply runs_bind. apply runs_add_const; try (unfold scratch; lia); [intros k; by apply (rel_words _ _ _ k H5)|].
  intros g7 j7 X7 O7 E7.
  assert (rel g7 j7 (set_cpu_pc v c)) as H7.
  { eapply (rel_only (lits:=lits) [11; 10; 12] g7 j6); [by eapply extends_rel|done|]. repeat (constructor; [unfold scratch; lia|]). constructor. }
  assert (j_reg j7 8 = b2z b) as B7.
  { rewrite (on_reg _ _ _ O7) by (rewrite !elem_of_cons, elem_of_nil; lia). unfold j6. by regs. }
  emit1. set (j8 := set_reg 11 _ j7). assert (rel (emitted (Addx2 11 8 11) g7) j8 (set_cpu_pc v c)) as H8 by
    (apply rel_emitted, rel_set_reg; [done|unfold scratch; lia]).
  eapply runs_emit; [done|intros ?; apply asem_s32i; [by eapply rel_base|]; apply wr_cycles|].
  assert (settled (emitted (Addx2 11 8 11) g7)) as S8.
  { eapply extends_settled; [|exact S4]. apply extends_emitted. eapply extends_trans; [|exact X7]. unfold g6. ext_gen. }
  apply HQ; [|done]. apply rel_emitted. unfold branched.
  apply rel_set_cycles; [done|apply S8|]. unfold j8. rewrite set_reg_eq, B7, E7. unfold j6. rewrite set_reg_eq.
  destruct H4 as [[] _]. rewrite (proj2 S4), Z.add_0_r in re_cyc. rewrite u32_idemp. clear -re_cyc.
  destruct b; cbn [b2z]; unfold u32 in *; lia.
Qed.
End tail.
