(* ===== verification/JitBranch.v ===== *)
(** * Short branches in compiled code *)

From Stdlib Require Import ZArith Lia.
From stdpp Require Import base tactics list numbers.
From S2P Require Import Prelude Cpu Flags XtEmit HostSim Codegen Compile JitSize JitSem JitOps JitFlags JitArms JitTail.

#[local] Ltac Zify.zify_post_hook ::= Z.to_euclidean_division_equations.

Section tail.
Context (lits : Z → Z) (entry hi : Z) (sl : bool).
#[local] Abbreviation rel := (rel lits entry hi sl).
#[local] Abbreviation runs := (runs lits entry).

Lemma rel_cycles g j c n : rel g j c → u32 n = u32 (cpu_cycles c) → rel g j (set_cpu_cycles n c).
Proof.
  intros [[] Hp] Hn. split; [|done]. split; try done; try (by apply set_cycles_ok).
  cbn. rewrite <- re_cyc, <- Hn. unfold u32, u64. lia.
Qed.

Lemma runs_jump taken total g j c (Q : unit → gen → jst → Prop) : rel g j c → settled g → word32 taken → 0 ≤ entry →
  entry + e_len g < 0x1F000 →
  (∀ g' j', rel g' j' (set_cpu_cycles (cpu_cycles c + total) (set_cpu_pc taken c)) → settled g' → Q tt g' j') →
  runs (emit_jump_const taken total) g j Q.
Proof.
  intros Hrel Hs Ht Hent Hlen HQ. unfold emit_jump_const.
  apply runs_bind, (runs_pc_const lits entry hi sl 8 9 taken g j c); try done; [by unfold scratch; lia..|lia|].
  intros g1 j1 X1 O1 E1.
  assert (rel g1 j1 c) as H1.
  { eapply (rel_only (lits:=lits) [8; 9] g1 j); [by eapply extends_rel|done|].
    repeat (constructor; [unfold scratch; lia|]). constructor. }
  assert (settled g1) as S1 by (by eapply extends_settled).
  apply runs_bind. eapply runs_emit; [done|intros ?; apply asem_s32i; [by eapply rel_base|]; by apply wr_pc; destruct H1 as [[] _]|].
  rewrite E1. pose proof (rel_set_pc lits entry hi sl _ _ _ taken H1 (proj1 S1)) as H2. apply (rel_emitted lits entry hi sl (S32i 8 R_CPU OFF_PC)) in H2.
  set (j2 := set_jcpu _ j1) in *. set (g2 := emitted _ g1) in *.
  assert (settled g2) as S2 by done.
  eapply (runs_bump lits entry); [by right|by eapply (rel_base _ _ _ H2)|intros k; by apply (rel_words _ _ _ k H2)|
    apply rd_cycles|apply u32_range|apply wr_cycles|].
  intros g3 j3 X3 C3 W3 K3. apply HQ; [|by eapply extends_settled].
  eapply extends_rel; [exact X3|].
  pose proof (rel_set_cycles lits entry hi sl _ _ _ (u32 (u32 (cpu_cycles (j_cpu j2)) + total)) (cpu_cycles c + total) H2 (proj2 S2)) as H4.
  assert (rel g2 (set_jcpu (set_cycles_low (u32 (u32 (cpu_cycles (j_cpu j2)) + total)) (j_cpu j2)) j2)
    (set_cpu_cycles (cpu_cycles c + total) (set_cpu_pc taken c))) as H5.
  { apply H4. destruct H1 as [[] _]. rewrite (proj2 S1), Z.add_0_r in re_cyc. rewrite u32_idemp. clear -re_cyc.
    change (cpu_cycles (j_cpu j2)) with (cpu_cycles (j_cpu j1)). unfold u32 in *. lia. }
  destruct H5 as [H5 Hp]. split; [|done].
  refine (related_regs _ _ _ _ _ _ _ _ _ H5 _ _ W3); [by rewrite C3|].
  intros r Hr. apply K3. rewrite !elem_of_cons, elem_of_nil. unfold scratch in Hr. lia.
Qed.

Lemma runs_grows {A} (m : G A) n g j Q : ggrows m n → active g ≤ 4 → runs m g j Q →
  runs m g j (λ a g' j', Q a g' j' ∧ e_len g' ≤ e_len g + 3 * Z.of_nat n).
Proof.
  intros Hm Ha (a & g' & code & j' & E & Ec & Hok & Hrun & HQ). exists a, g', code, j'. split_and!; try done.
  destruct (Hm g a g' Ha E) as (_ & l & El & Hl). unfold e_len. rewrite El, length_app. lia.
Qed.

Lemma rel_active g j c : rel g j c → active g ≤ 4.
Proof. intros [[[] ] _]. unfold active. lia. Qed.

(** Bcc and BRA with a displacement byte. *)
Definition branch_op (op_pc w : Z) (c : m68k_cpu) : m68k_cpu :=
  branched (cond_true c (f_cc w)) (u32 (op_pc + 2 + u32 (i8 (w .& 0xFF)))) (u32 (op_pc + 2)) 12 c.

Lemma runs_branch op_pc w g j c : (f_cc w ≠ 0 → sl = true) → rel g j c → f_cc w ≠ 1 → 0 ≤ entry → entry + e_len g < 0x1E000 →
  runs (emit_branch op_pc w) g j (λ _ g' j', rel g' j' (branch_op op_pc w c) ∧ settled g').
Proof.
  intros Hsl Hrel Hcc Hent Hlen. unfold emit_branch. change ((w ≫ 8) .& 0xF) with (f_cc w). set (cc := f_cc w) in *.
  assert (0 ≤ cc < 16) as Hr by (apply land_range_r; lia). set (disp := i8 _). cbv zeta.
  destruct (rel_rebase _ _ _ _ _ _ _ Hrel) as (_ & Hcyc & _).
  apply runs_bind, (runs_absorb lits entry hi sl g j c); [done|]. intros g1 S1 H1 Eg.
  assert (e_len g1 = e_len g) as El by (unfold e_len; by rewrite Eg).
  unfold branch_op. fold cc disp. destruct (Z.eqb_spec cc 0) as [->|Hne].
  - apply (runs_jump _ _ g1 j (rebased j c)); try done; [apply u32_range|lia|]. intros g2 j2 H2 S2. split; [|done].
    eapply (rel_cycles _ _ _ (cpu_cycles c + 12 + 2 * b2z true)) in H2; [exact H2|].
    cbn. unfold u32, u64 in *. lia.
  - apply runs_bind. eapply runs_mono; [|apply (runs_grows _ 8 g1 j (λ _ g2 j2, rel g2 j2 (rebased j c) ∧ settled g2 ∧
      j_reg j2 8 = b2z (cond_true c cc))); [apply ggrows_cond|by eapply rel_active|
      apply (runs_cond lits entry hi sl cc g1 j (rebased j c)); [by apply Hsl|done|lia|done|done]]].
    cbn beta. intros _ g2 j2 [(H2 & S2 & E2) L2].
    apply (runs_tail lits entry hi sl _ _ _ (cond_true c cc) g2 j2 (rebased j c)); try done; [apply u32_range|lia|].
    intros g3 j3 H3 S3. split; [|done].
    eapply (rel_cycles _ _ _ (cpu_cycles c + 12 + 2 * b2z (cond_true c cc))) in H3.
    2: { cbn. unfold u32, u64 in *. lia. }
    revert H3. unfold branched. replace (u32 (u32 (op_pc + 2) + disp)) with (u32 (op_pc + 2 + u32 disp)); [done|].
    unfold u32. lia.
Qed.
End tail.
