(* ===== verification/JitFrame.v ===== *)
(** * The prologue and the epilogue of a block

    The registers that [assign_registers] chooses, their load in the prologue,
    and the epilogue's write-back of all that the block kept in registers. *)

From Stdlib Require Import ZArith Lia.
From stdpp Require Import base tactics list numbers.
From S2P Require Import Prelude Cpu Flags XtEmit HostSim Codegen Compile JitSize JitSem JitOps JitFlags JitArms JitTail.
From S2P Require Import JitBranch.

#[local] Ltac Zify.zify_post_hook ::= Z.to_euclidean_division_equations.

(** ** The chosen registers *)

Record slots_ok (slot : Z) (rc : regcache) : Prop := {
  so_xt : length (rc_xt rc) = 16%nat;
  so_guest : length (rc_guest rc) = 4%nat;
  so_active : rc_active rc = slot;
  so_dirty : rc_dirty rc = 0;
  so_slot : ∀ gi, is_greg gi → cache_lookup rc gi = -1 ∨
    ∃ i, 0 ≤ i < slot ∧ cache_lookup rc gi = R_CACHE0 + i ∧ znth (rc_guest rc) i = gi;
  so_back : ∀ i, 0 ≤ i < slot →
    is_greg (znth (rc_guest rc) i) ∧ cache_lookup rc (znth (rc_guest rc) i) = R_CACHE0 + i
}.

Lemma best_free use xt best n : best_register use xt = (best, n) → 0 ≤ best → is_greg best ∧ znth xt best < 0.
Proof.
  unfold best_register. intros E.
  enough (∀ l p, (∀ g, g ∈ l → is_greg g) → (0 ≤ fst p → is_greg (fst p) ∧ znth xt (fst p) < 0) →
    let q := fold_left (λ b g, if 0 <=? znth xt g then b else if snd b <? znth use g then (g, znth use g) else b) l p in
    0 ≤ fst q → is_greg (fst q) ∧ znth xt (fst q) < 0) as Hf.
  { specialize (Hf (upto 16) (-1, 0)). rewrite E in Hf. apply Hf; [|cbn; lia].
    intros g. unfold upto. rewrite list_elem_of_fmap. intros (k & -> & Hk). apply elem_of_seq in Hk. unfold is_greg. lia. }
  clear E. induction l as [|g l IH]; intros p Hl Hp; [exact Hp|]. cbn [fold_left]. apply IH; [intros; apply Hl; by right|].
  destruct (Z.leb_spec 0 (znth xt g)); [done|]. destruct (_ <? _); [|done]. intros _. split; [apply Hl; by left|done].
Qed.

Lemma pick_slots_ok fuel slot use rc : slots_ok slot rc → 0 ≤ slot → slot + Z.of_nat fuel ≤ 4 →
  slots_ok (rc_active (pick_slots fuel slot use rc)) (pick_slots fuel slot use rc).
Proof.
  revert slot rc. induction fuel as [|fuel IH]; intros slot rc H Hs Hf; cbn [pick_slots]; pose proof H as [];
    [by rewrite so_active0|].
  destruct (best_register use (rc_xt rc)) as [best n] eqn:Eb.
  destruct ((best <? 0) || _) eqn:Ec; [by rewrite so_active0|]. apply orb_false_iff in Ec as [Hb%Z.ltb_ge _].
  destruct (best_free _ _ _ _ Eb Hb) as [Hg Hx]. unfold is_greg in Hg.
  apply IH; [|lia..]. unfold cache_xt_slot. split; cbn [rc_xt rc_guest rc_active rc_dirty].
  - by rewrite zset_length.
  - by rewrite zset_length.
  - by rewrite so_active0.
  - done.
  - intros gi Hgi. unfold cache_lookup. cbn [rc_xt]. unfold is_greg in Hgi. destruct (decide (gi = best)) as [->|Hne].
    + right. exists slot. rewrite !znth_zset_eq by lia. split; [lia|done].
    + rewrite znth_zset_ne by lia. destruct (so_slot0 gi Hgi) as [|(i & Hi & E1 & E2)]; [by left|right].
      exists i. split; [lia|]. split; [done|]. by rewrite znth_zset_ne by lia.
  - intros i Hi. destruct (decide (i = slot)) as [->|Hne].
    + rewrite znth_zset_eq by lia. split; [done|]. unfold cache_lookup. cbn [rc_xt]. by rewrite znth_zset_eq by lia.
    + rewrite znth_zset_ne by lia. destruct (so_back0 i) as [Hgi E]; [lia|]. split; [done|].
      unfold cache_lookup in *. cbn [rc_xt]. unfold is_greg in Hgi. rewrite znth_zset_ne; [done|lia..|].
      intros ->. unfold R_CACHE0 in E. lia.
Qed.

Lemma assign_ok ws : slots_ok (rc_active (assign_registers ws)) (assign_registers ws).
Proof.
  apply pick_slots_ok; [|lia..]. split; try done.
  - intros gi Hgi. left. unfold cache_lookup, znth. cbn [rc_xt]. unfold is_greg in Hgi.
    by rewrite nth_lookup, lookup_replicate_2 by lia.
  - intros i Hi. lia.
Qed.
Lemma slots_rc_ok rc : slots_ok (rc_active rc) rc → 0 ≤ rc_active rc ≤ 4 → rc_ok rc.
Proof. intros [] Ha. split; try done. rewrite so_dirty0. lia. Qed.

(** ** Loading the slots *)

Section frame.
Context (lits : Z → Z) (entry hi : Z) (sl : bool).
#[local] Abbreviation rel := (rel lits entry hi sl).
#[local] Abbreviation runs := (runs lits entry).

Lemma slots_elem rc i : i ∈ slots rc → 0 ≤ i < rc_active rc.
Proof. unfold slots, upto. rewrite list_elem_of_fmap. intros (k & -> & Hk). apply elem_of_seq in Hk. lia. Qed.
Lemma elem_slots rc i : 0 ≤ i < rc_active rc → i ∈ slots rc.
Proof.
  unfold slots, upto. rewrite list_elem_of_fmap. intros Hi. exists (Z.to_nat i). split; [lia|]. apply elem_of_seq. lia.
Qed.

Lemma runs_load_list rc l g j (Q : unit → gen → jst → Prop) : rc_ok rc → (∀ i, i ∈ l → 0 ≤ i < rc_active rc) →
  j_reg j R_CPU = HOST_CPU_BASE → cpu_ok (j_cpu j) → (∀ k, word32 (j_reg j k)) →
  (∀ g' j', extends g g' → only (cache_xt_slot <$> l) j j' →
     (∀ i, i ∈ l → j_reg j' (cache_xt_slot i) = greg (j_cpu j) (znth (rc_guest rc) i)) → Q tt g' j') →
  runs (for_each l (λ slot, emit (L32i (cache_xt_slot slot) R_CPU (OFF_G (znth (rc_guest rc) slot))))) g j Q.
Proof.
  intros Hrc. revert g j Q. induction l as [|i l IH]; intros g j Q Hl Hb Hc Hw HQ; cbn [for_each].
  { apply runs_ret. apply HQ; [ext_gen|by apply only_refl|]. intros i Hi. by apply elem_of_nil in Hi. }
  destruct (Hl i) as [Hi0 Hi1]; [by left|]. pose proof (rco_active _ Hrc).
  destruct (rco_guest _ Hrc i) as [Hg _]; [lia|]. set (gi := znth (rc_guest rc) i) in *.
  assert (4 ≤ cache_xt_slot i < 8) as Hs by (unfold cache_xt_slot, R_CACHE0; lia).
  apply runs_bind. eapply runs_emit; [apply off_G_ok; first [done|apply reg_ok_lt; lia]|
    intros ?; apply asem_l32i; [done|]; by apply rd_greg|].
  set (j1 := set_reg _ _ j). assert (word32 (greg (j_cpu j) gi)) by (by apply greg_range).
  assert (only (cache_xt_slot <$> (i :: l)) j j1) as O1.
  { unfold j1. apply only_set; [by apply only_refl|]. by left. }
  apply IH; [intros; apply Hl; by right|unfold j1; rewrite set_reg_ne by (unfold R_CPU; lia); done|done|apply O1|].
  intros g2 j2 X2 O2 E2. apply HQ.
  - eapply extends_trans; [|exact X2]. ext_gen.
  - apply (only_weaken _ _ _ _ (only_trans _ _ _ _ _ O1 O2)). intros k. cbn [fmap list_fmap].
    rewrite elem_of_app, !elem_of_cons. tauto.
  - intros k Hk. destruct (decide (k ∈ l)) as [Hin|Hnin]; [by rewrite E2|].
    assert (k = i) as -> by (apply elem_of_cons in Hk; tauto).
    rewrite (on_reg _ _ _ O2); [unfold j1; rewrite set_reg_eq; by apply u32_small|].
    rewrite list_elem_of_fmap. intros (m & E & Hm). apply Hnin. unfold cache_xt_slot, R_CACHE0 in E.
    by replace i with m by lia.
Qed.

(** ** The prologue *)

Lemma asem_l16ui pc t off v j : j_reg j R_CPU = HOST_CPU_BASE → rd_field 2 off (j_cpu j) = Some v →
  asem lits pc (L16ui t R_CPU off) j = Some (set_reg t v j).
Proof. intros E Ev. cbn [asem]. rewrite E, Ev. done. Qed.
Lemma asem_s16i pc t off c j : j_reg j R_CPU = HOST_CPU_BASE → wr_field 2 off (j_reg j t) (j_cpu j) = Some c →
  asem lits pc (S16i t R_CPU off) j = Some (set_jcpu c j).
Proof. intros E Ev. cbn [asem]. rewrite E, Ev. done. Qed.

(** What the machine and the block's literals are when the block is entered. *)
Record entered (pc_lit : option Z) (j : jst) : Prop := {
  en_entry : entry = lit_bytes;
  en_base : lits (lit_off ADDR_CPU_BASE) = HOST_CPU_BASE;
  en_pc : ∀ v, pc_lit = Some v → lits (lit_off LITERAL_BCC_PC) = v;
  en_ret : j_reg j 0 = 0;
  en_words : ∀ k, word32 (j_reg j k);
  en_cpu : cpu_ok (j_cpu j);
  en_clean : sr_clean (cpu_sr (j_cpu j));
  en_hi : hi = cpu_cycles (j_cpu j) / 0x100000000
}.

(** After the base and the return address are set, [sr] in a14 when wanted. *)
Lemma runs_sr_load g j (Q : unit → gen → jst → Prop) : g_sr_dirty g = false → j_reg j R_CPU = HOST_CPU_BASE →
  cpu_ok (j_cpu j) → (∀ k, word32 (j_reg j k)) →
  (∀ g' j', extends g g' → only [R_SR] j j' → (sl = true → j_reg j' R_SR = cpu_sr (j_cpu j)) → Q tt g' j') →
  runs (when sl emit_sr_reload) g j Q.
Proof.
  intros Hd Hb Hc Hw HQ. apply runs_when. destruct sl.
  - unfold emit_sr_reload. apply runs_bind. eapply runs_emit; [done|intros ?; apply asem_l16ui; [done|]; by apply rd_sr|].
    apply runs_set; [done|]. apply HQ.
    + exists (g_code g ++ [L16ui R_SR R_CPU OFF_SR]). unfold set_g_sr_dirty, emitted, set_g_code. cbn. rewrite <- Hd.
      by destruct g.
    + apply only_set; [by apply only_refl|by left].
    + intros _. rewrite set_reg_eq. apply u32_small. destruct Hc. lia.
  - apply HQ; [ext_gen|by apply only_refl|done].
Qed.

Lemma runs_prologue rc pc_lit j : slots_ok (rc_active rc) rc → 0 ≤ rc_active rc ≤ 4 → entered pc_lit j →
  runs (prologue entry sl) (gen_init rc pc_lit) j (λ _ g' j', rel g' j' (j_cpu j)).
Proof.
  intros Hso Ha []. pose proof (slots_rc_ok _ Hso Ha) as Hrc. unfold prologue. apply runs_bind, runs_gets, runs_bind.
  apply runs_l32r; [by right|by vm_compute; done|done|by rewrite en_entry0; vm_compute|]. intros i0.
  set (g1 := emitted i0 _). set (j1 := set_reg R_CPU _ j).
  assert (j_reg j1 R_CPU = HOST_CPU_BASE) as Hb1 by (unfold j1; by rewrite set_reg_eq, en_base0).
  apply runs_bind. eapply runs_emit; [done|intros ?; apply asem_s32i; [done|]; by apply wr_ret_pc|].
  set (j2 := set_jcpu _ j1). set (g2 := emitted _ g1).
  assert (∀ k, k ≠ R_CPU → j_reg j2 k = j_reg j k) as K2 by (intros; unfold j2, j1; cbn [set_jcpu j_reg]; by rewrite set_reg_ne).
  assert (∀ k, word32 (j_reg j2 k)) as W2 by (intros k; unfold j2, j1; cbn [set_jcpu]; by apply set_reg_word).
  assert (cpu_ok (j_cpu j2)) as C2 by (destruct en_cpu0; split; try done; apply u32_range).
  apply runs_bind, runs_gets, runs_bind. apply runs_sr_load; [done|done|done|done|].
  intros g3 j3 X3 O3 E3. apply runs_bind. unfold load_slots. apply runs_bind, runs_gets.
  assert (g_rc g3 = rc) as Erc by by rewrite (extends_rc _ _ X3). rewrite Erc.
  apply runs_load_list; [done|apply slots_elem| |by rewrite (on_cpu _ _ _ O3)|apply O3|].
  { rewrite (on_reg _ _ _ O3); [done|]. rewrite elem_of_cons, elem_of_nil. unfold R_CPU, R_SR. lia. }
  intros g4 j4 X4 O4 E4. apply runs_bind, runs_gets. apply runs_ret.
  pose proof (extends_trans _ _ _ X3 X4) as [code Ec].
  pose proof (only_trans _ _ _ _ _ O3 O4) as O.
  assert (∀ k, k ≠ R_SR → (k < 4 ∨ 8 ≤ k) → j_reg j4 k = j_reg j2 k) as K4.
  { intros k H1 H2. rewrite (on_reg _ _ _ O); [done|]. rewrite elem_of_app, list_elem_of_fmap, elem_of_cons, elem_of_nil.
    intros [[?|[]]|(m & -> & Hm)]; [done|]. apply slots_elem in Hm. unfold cache_xt_slot, R_CACHE0 in *. lia. }
  assert (j_cpu j4 = j_cpu j2) as Ecpu by (by rewrite (on_cpu _ _ _ O)).
  split.
  - rewrite Ec. cbn [g_rc set_g_code g_pc_acc g_cyc_acc g_sr_dirty].
    change (g_rc g2) with rc. change (g_pc_acc g2) with 0. change (g_cyc_acc g2) with 0. change (g_sr_dirty g2) with false.
    split; try done; rewrite ?Ecpu.
    + rewrite K4 by (unfold R_CPU, R_SR; lia). done.
    + rewrite K4 by (unfold R_SR; lia). rewrite K2 by (unfold R_CPU; lia). done.
    + apply O.
    + intros gi Hgi. unfold reg_at. change (greg (j_cpu j4) gi) with (greg (j_cpu j4) gi). rewrite Ecpu.
      change (greg (j_cpu j2) gi) with (greg (j_cpu j) gi).
      destruct (cached rc gi) eqn:E; [|done]. destruct (cached_slot rc gi Hrc Hgi E) as (i & Hi & _ & El & Eg).
      rewrite El. split; [|done]. change (R_CACHE0 + i) with (cache_xt_slot i). rewrite E4 by (by apply elem_slots).
      rewrite Eg. by rewrite (on_cpu _ _ _ O3).
    + intros Hsl. rewrite (on_reg _ _ _ O4); [by apply E3|]. rewrite list_elem_of_fmap. intros (m & E & Hm).
      apply slots_elem in Hm. unfold cache_xt_slot, R_CACHE0, R_SR in *. lia.
    + done.
    + change (cpu_pc (j_cpu j2)) with (cpu_pc (j_cpu j)). rewrite Z.add_0_r, u32_small; [done|]. apply en_cpu0.
    + change (cpu_cycles (j_cpu j2)) with (cpu_cycles (j_cpu j)). by rewrite Z.add_0_r.
    + by rewrite en_hi0.
    + done.
    + done.
  - rewrite Ec. split_and!; try done. cbn [set_g_code g_pc_lit_valid g_pc_lit_off g_pc_lit_val].
    change (g_pc_lit_valid g2) with (match pc_lit with Some _ => true | None => false end).
    change (g_pc_lit_off g2) with (lit_off LITERAL_BCC_PC).
    change (g_pc_lit_val g2) with (match pc_lit with Some v => v | None => 0 end).
    destruct pc_lit as [v|]; [|done]. intros _. rewrite en_entry0. split; [done|]. split; [done|]. by apply en_pc0.
Qed.

(** ** The epilogue *)

Lemma runs_advance_flush g j c (Q : unit → gen → jst → Prop) : rel g j c →
  (∀ g' j', rel g' j' c → settled g' → Q tt g' j') → runs emit_advance_flush g j Q.
Proof.
  intros Hrel HQ. unfold emit_advance_flush. apply runs_bind, runs_gets, runs_bind, runs_when.
  assert (∀ g1 j1, rel g1 j1 c → g_pc_acc g1 = 0 → runs (cyc_acc ← gets g_cyc_acc;
    when (nz cyc_acc) (emit_bump OFF_CYCLES cyc_acc ;; set (set_g_cyc_acc 0))) g1 j1 Q) as Hcyc.
  { intros g1 j1 H1 P1. apply runs_bind, runs_gets, runs_when. destruct (nz (g_cyc_acc g1)) eqn:E.
    2: { apply negb_false_iff, Z.eqb_eq in E. by apply HQ. }
    apply runs_bind. eapply runs_bump; [by right|by eapply rel_base|intros k; by apply (rel_words _ _ _ k H1)|
      apply rd_cycles|apply u32_range|apply wr_cycles|]. intros g2 j2 [code ->] C2 W2 K2.
    apply runs_set; [done|]. apply HQ; [|done]. destruct H1 as [H1 Hp]. split; [|done].
    assert (related hi sl (g_rc g1) (g_pc_acc g1) 0 (g_sr_dirty g1)
      (set_jcpu (set_cycles_low (u32 (u32 (cpu_cycles (j_cpu j1)) + g_cyc_acc g1)) (j_cpu j1)) j1) c) as H2.
    { pose proof H1 as []. pose proof (get_field_range FCycles _ re_jok I) as Hcy. cbn [get_field width] in Hcy.
      change (256 ^ 8) with 0x10000000000000000 in Hcy. split; try done; try (by apply set_cycles_ok).
      - cbn. rewrite Z.add_0_r, re_cyc. unfold u32, u64 in *. lia.
      - cbn. rewrite <- re_hi. unfold u64, u32. lia. }
    eapply related_regs; [exact H2|by rewrite C2| |done].
    intros r Hr. apply K2. rewrite !elem_of_cons, elem_of_nil. unfold scratch in Hr. lia. }
  destruct (nz (g_pc_acc g)) eqn:E.
  2: { apply negb_false_iff, Z.eqb_eq in E. by apply Hcyc. }
  apply runs_bind.
  eapply runs_bump; [by left|by eapply rel_base|intros k; by apply (rel_words _ _ _ k Hrel)|
    apply rd_pc; by destruct Hrel as [[] _]|destruct Hrel as [[] _]; apply re_jok|apply wr_pc; by destruct Hrel as [[] _]|].
  intros g2 j2 [code ->] C2 W2 K2. apply runs_set; [done|]. apply Hcyc; [|done].
  destruct Hrel as [H1 Hp]. split; [|done].
  assert (related hi sl (g_rc g) 0 (g_cyc_acc g) (g_sr_dirty g)
    (set_jcpu (set_cpu_pc (u32 (cpu_pc (j_cpu j) + g_pc_acc g)) (j_cpu j)) j) c) as H2.
  { pose proof H1 as []. split; try done; try (by apply set_pc_ok).
    cbn. by rewrite Z.add_0_r, !u32_idemp. }
  eapply related_regs; [exact H2|by rewrite C2| |done].
  intros r Hr. apply K2. rewrite !elem_of_cons, elem_of_nil. unfold scratch in Hr. lia.
Qed.

(** A slot written back: the struct gets the value it had in the relation. *)
Lemma related_spill rc p y d j c gi : related hi sl rc p y d j c → is_greg gi →
  related hi sl rc p y d (set_jcpu (set_greg gi (greg c gi) (j_cpu j)) j) c.
Proof.
  intros [] Hgi. pose proof (greg_range c gi re_cok) as Hw.
  split; try done; cbn [j_cpu set_jcpu]; try (unfold set_greg; by case_match).
  - intros gk Hgk. specialize (re_regs gk Hgk). unfold reg_at in *. cbn [set_jcpu j_cpu j_reg].
    rewrite greg_set_greg by done. destruct (Z.eqb_spec gk gi) as [->|]; [|done].
    rewrite u32_small by done. destruct (cached rc gi); [split; [apply re_regs|]|]; done.
  - by apply set_greg_ok.
Qed.

Definition in_struct (j : jst) (c : m68k_cpu) (gi : Z) : Prop := greg (j_cpu j) gi = greg c gi.

Lemma runs_spill_list rc dirty l g j c (Q : unit → gen → jst → Prop) : g_rc g = rc → rc_dirty rc = dirty →
  rel g j c → (∀ i, i ∈ l → 0 ≤ i < rc_active rc) →
  (∀ g' j', extends g g' → rel g' j' c → (∀ gi, is_greg gi → in_struct j c gi → in_struct j' c gi) →
     (∀ i, i ∈ l → in_struct j' c (znth (rc_guest rc) i)) → Q tt g' j') →
  runs (for_each l (λ i, when (nz (dirty .& (1 ≪ i)))
    (emit (S32i (cache_xt_slot i) R_CPU (OFF_G (znth (rc_guest rc) i)))))) g j Q.
Proof.
  intros Erc Ed. revert g j Q Erc. induction l as [|i l IH]; intros g j Q Erc Hrel Hl HQ; cbn [for_each].
  { apply runs_ret. apply HQ; [ext_gen|done|done|]. intros i Hi. by apply elem_of_nil in Hi. }
  destruct (Hl i) as [Hi0 Hi1]; [by left|]. pose proof (rel_rc _ _ _ Hrel) as Hrc. rewrite Erc in Hrc.
  pose proof (rco_active _ Hrc). destruct (rco_guest _ Hrc i) as [Hg Elk]; [lia|]. set (gi := znth (rc_guest rc) i) in *.
  assert (cached rc gi = true) as Hc by (unfold cached; rewrite Elk; unfold R_CACHE0; lia).
  pose proof (re_regs _ _ _ _ _ _ _ _ (proj1 Hrel) gi Hg) as Hat. unfold reg_at in Hat. rewrite Erc, Hc, Elk in Hat.
  destruct Hat as [Hval Hclean]. replace (R_CACHE0 + i - R_CACHE0) with i in Hclean by lia.
  assert (∀ g1 j1, extends g g1 → rel g1 j1 c → (∀ gk, is_greg gk → in_struct j c gk → in_struct j1 c gk) →
    in_struct j1 c gi → runs (for_each l (λ i, when (nz (dirty .& (1 ≪ i)))
      (emit (S32i (cache_xt_slot i) R_CPU (OFF_G (znth (rc_guest rc) i)))))) g1 j1 Q) as Hgo.
  { intros g1 j1 X1 H1 K1 V1. apply IH; [by rewrite (extends_rc _ _ X1)|done|intros; apply Hl; by right|].
    intros g2 j2 X2 H2 K2 V2. apply HQ; [by eapply extends_trans|done|auto|].
    intros k [->|Hk]%elem_of_cons; [by apply K2|by apply V2]. }
  apply runs_bind, runs_when. destruct (nz (dirty .& (1 ≪ i))) eqn:Enz.
  - eapply runs_emit; [apply off_G_ok; first [done|apply reg_ok_lt; unfold cache_xt_slot, R_CACHE0; lia]|
      intros ?; apply asem_s32i; [by eapply rel_base|]; apply wr_greg; [by destruct Hrel as [[] _]|done]|].
    unfold cache_xt_slot. rewrite Hval.
    apply Hgo; [ext_gen|apply rel_emitted; destruct Hrel as [Hr Hp]; split; [by apply related_spill|done]| |].
    + intros gk Hgk E. unfold in_struct. cbn [set_jcpu j_cpu]. rewrite greg_set_greg by (done || by destruct Hrel as [[] _]).
      destruct (Z.eqb_spec gk gi) as [->|]; [|done]. apply u32_small. eapply greg_range, rel_cok; exact Hrel.
    + unfold in_struct. cbn [set_jcpu j_cpu]. rewrite greg_set_greg by (done || by destruct Hrel as [[] _]).
      rewrite Z.eqb_refl. apply u32_small. eapply greg_range, rel_cok; exact Hrel.
  - apply Hgo; [ext_gen|done|done|]. apply Hclean. rewrite Ed. rewrite Z.shiftl_1_l, nz_land_pow2 in Enz by lia. done.
Qed.

Lemma runs_cache_flush g j c (Q : unit → gen → jst → Prop) : rel g j c → settled g →
  (∀ g' j', rel g' j' c → settled g' → g_sr_dirty g' = g_sr_dirty g → (∀ gi, is_greg gi → in_struct j' c gi) → Q tt g' j') →
  runs emit_cache_flush g j Q.
Proof.
  intros Hrel Hs HQ. unfold emit_cache_flush. apply runs_bind, runs_gets, runs_bind.
  apply (runs_spill_list (g_rc g) (rc_dirty (g_rc g)) _ g j c); [done|done|done|apply slots_elem|].
  intros g1 j1 [code ->] H1 _ V1. apply runs_set; [done|].
  assert (∀ gi, is_greg gi → in_struct j1 c gi) as Hall.
  { intros gi Hgi. pose proof (re_regs _ _ _ _ _ _ _ _ (proj1 H1) gi Hgi) as Hat. unfold reg_at in Hat.
    cbn [g_rc set_g_code] in Hat. destruct (cached (g_rc g) gi) eqn:E; [|done].
    destruct (cached_slot _ gi (rel_rc _ _ _ Hrel) Hgi E) as (i & Hi & _ & _ & <-). apply V1. by apply elem_slots. }
  apply HQ; [|done|done|done]. destruct H1 as [[] Hp]. split; [|done]. cbn [g_rc set_g_rc set_g_code] in *.
  split; try done; cbn [g_rc set_g_rc set_g_code].
  - destruct re_rc. by split.
  - intros gi Hgi. specialize (re_regs gi Hgi). unfold reg_at in *. change (cached (set_rc_dirty 0 (g_rc g)) gi) with (cached (g_rc g) gi).
    destruct (cached (g_rc g) gi); [|done]. split; [apply re_regs|]. intros _. by apply Hall.
Qed.

Lemma runs_sr_flush g j c (Q : unit → gen → jst → Prop) : rel g j c → settled g →
  (∀ g' j', rel g' j' c → settled g' → g_sr_dirty g' = false → (∀ gi, in_struct j c gi → in_struct j' c gi) → Q tt g' j') →
  runs emit_sr_flush g j Q.
Proof.
  intros Hrel Hs HQ. unfold emit_sr_flush. apply runs_bind, runs_gets, runs_when.
  destruct (g_sr_dirty g) eqn:Ed; [|by apply HQ].
  pose proof Hrel as [[] Hp]. pose proof (re_sr_dirty Ed) as Hsl.
  apply runs_bind. eapply runs_emit; [done|intros ?; apply asem_s16i; [done|]; by apply wr_sr|].
  apply runs_set; [done|]. rewrite (re_sr Hsl).
  apply HQ; [|done|done|done]. split; [|done]. split; try done; try (by apply set_sr_ok).
  intros _. cbn. apply u16_small. apply (ok_sr _ re_cok).
Qed.

(** The machine as the interpreter would have it, but for the fields only one
    of the two keeps. *)
Definition same_guest (c c' : m68k_cpu) : Prop :=
  cpu_d c' = cpu_d c ∧ cpu_a c' = cpu_a c ∧ cpu_pc c' = cpu_pc c ∧ cpu_sr c' = cpu_sr c ∧
  u32 (cpu_cycles c') = u32 (cpu_cycles c) ∧ cpu_rest c' = cpu_rest c.

Lemma greg_lists c c' : cpu_ok c → cpu_ok c' → (∀ gi, is_greg gi → greg c' gi = greg c gi) →
  cpu_d c' = cpu_d c ∧ cpu_a c' = cpu_a c.
Proof.
  intros [] [] H. assert (∀ l l' : list Z, length l = 8%nat → length l' = 8%nat →
    (∀ i, 0 ≤ i < 8 → znth l i = znth l' i) → l = l') as Hl.
  { intros l l' E E' Hz. apply (list_eq_same_length _ _ 8%nat); [done|done|]. intros i x y Hi Hx Hy.
    specialize (Hz (Z.of_nat i) ltac:(lia)). unfold znth in Hz. rewrite Nat2Z.id, !nth_lookup, Hx, Hy in Hz. done. }
  split; apply Hl; try done; intros i Hi.
  - specialize (H i). unfold greg, is_greg, dreg in H. rewrite (proj2 (Z.ltb_lt i 8)) in H by lia. apply H. lia.
  - specialize (H (i + 8)). unfold greg, is_greg, areg in H. rewrite (proj2 (Z.ltb_ge _ 8)) in H by lia.
    replace (i + 8 - 8) with i in H by lia. apply H. lia.
Qed.

Lemma runs_epilogue_flush g j c : rel g j c →
  runs epilogue_flush g j (λ _ g' j', same_guest c (j_cpu j') ∧ cpu_cycles (j_cpu j') / 0x100000000 = hi ∧
    j_reg j' 0 = 0 ∧ cpu_ok (j_cpu j') ∧ g_block_emitted_callx0 g' = false).
Proof.
  intros Hrel. unfold epilogue_flush. apply runs_bind, (runs_advance_flush g j c _ Hrel). intros g1 j1 H1 S1.
  apply runs_bind, (runs_cache_flush g1 j1 c _ H1 S1). intros g2 j2 H2 S2 _ V2.
  apply (runs_sr_flush g2 j2 c _ H2 S2). intros g3 j3 H3 [P3 Y3] D3 V3.
  destruct H3 as [[] (_ & Hcall & _)]. rewrite P3, Z.add_0_r, u32_small in re_pc by apply re_jok.
  rewrite Y3, Z.add_0_r in re_cyc. split; [|done].
  destruct (greg_lists c (j_cpu j3) re_cok re_jok) as [Ed Ea].
  { intros gi Hgi. by apply V3, V2. }
  split_and!; auto.
Qed.
End frame.
