(* ===== verification/JitSpec.v ===== *)
(** * Operations between registers

    The operations whose compiled code is proved, their effect on the CPU, and
    the arm that the compiler selects for each, whose code has that effect. *)

From Stdlib Require Import ZArith Lia.
From stdpp Require Import base tactics list numbers.
From S2P Require Import Prelude Cpu Flags Ea Step Decode Block XtEmit HostSim Codegen Compile JitSize JitSem JitOps JitFlags.
From S2P Require Import JitArms.

#[local] Ltac Zify.zify_post_hook ::= Z.to_euclidean_division_equations.

(** ** The operations *)

(** Whose arms are covered: MOVEQ, NOP, ADD.L, SUB.L, ADDQ.L and SUBQ.L, ADDQ
    and SUBQ to An, MOVE.L, MOVEA.L, ADDA.L and SUBA.L, NEG.L, CMP.L, AND.L, OR.L
    and EOR.L between registers. *)
Definition plain_op (w : Z) : bool :=
  is_moveq w || is_nop w || is_add_l w || is_addq_l w || is_addq_an w || is_move_l_dd w || is_move_l_an_dn w ||
  is_movea_l w || is_adda_l w || is_neg_l w || is_cmp_l w || is_sub_l w || is_and_l w || is_or_l w || is_eor_l w.

(** The register of the operand. *)
Definition src_reg (w : Z) : Z := g_reg (f_mode w =? 1) (f_reg w).
Definition op_body (w : Z) (c : m68k_cpu) : m68k_cpu :=
  let dn := G_D (f_rr w) in
  if is_moveq w then let v := u32 (i8 (w .& 0xFF)) in logic_done v (set_greg dn v c)
  else if is_nop w then c
  else if is_add_l w then addsub_op false dn (greg c (src_reg w)) c
  else if is_addq_l w then addsub_op (f_bit8 w) (G_D (f_reg w)) (quick_data w) c
  else if is_addq_an w then addq_an_op (f_reg w) (if f_bit8 w then - quick_data w else quick_data w) c
  else if is_move_l_dd w || is_move_l_an_dn w then
    let v := greg c (src_reg w) in logic_done v (set_greg dn v c)
  else if is_movea_l w then set_greg (G_A (f_rr w)) (greg c (src_reg w)) c
  else if is_adda_l w then adda_op (f_top w =? 9) (f_rr w) (greg c (src_reg w)) c
  else if is_neg_l w then let gi := G_D (f_reg w) in addsub_set true gi (greg c gi) 0 c
  else if is_cmp_l w then cmp_op (greg c (src_reg w)) (greg c dn) c
  else if is_sub_l w then addsub_op true dn (greg c (src_reg w)) c
  else
    let r := logic_r (if is_and_l w then 1 else if is_or_l w then 0 else 2) (greg c dn) (greg c (G_D (f_reg w))) in
    logic_done r (set_greg (if is_eor_l w then G_D (f_reg w) else dn) r c).
Definition op_cycles (w : Z) : Z := if is_moveq w || is_nop w then 4 else if is_adda_l w then 12 else 8.
Definition op_effect (w : Z) (c : m68k_cpu) : m68k_cpu := advanced 2 (op_cycles w) (op_body w c).

(** Facts about opcodes, by trying them all. *)
Definition opcode (w : Z) : Prop := 0 ≤ w < 0x10000.
Lemma all_opcodes (p : Z → bool) : all_bits 16 p 0 = true → ∀ w, opcode w → p w = true.
Proof.
  intros H w Hw. apply all_bits_spec with (i := w) in H; [|exact Hw]. by rewrite Z.mul_0_l, Z.add_0_l in H.
Qed.

(** Exactly one of the guards holds: its number. *)
Definition plain_index (w : Z) : Z :=
  if is_moveq w then 0
  else if is_nop w then 1
  else if is_add_l w then 2
  else if is_addq_l w then 3
  else if is_addq_an w then 4
  else if is_move_l_dd w then 5
  else if is_move_l_an_dn w then 6
  else if is_movea_l w then 7
  else if is_adda_l w then 8
  else if is_neg_l w then 9
  else if is_cmp_l w then 10
  else if is_sub_l w then 11
  else if is_and_l w then 12
  else if is_or_l w then 13
  else if is_eor_l w then 14
  else -1.
Definition guards (w : Z) : list bool :=
  [is_moveq w; is_nop w; is_add_l w; is_addq_l w; is_addq_an w; is_move_l_dd w; is_move_l_an_dn w; is_movea_l w; is_adda_l w; is_neg_l w; is_cmp_l w; is_sub_l w; is_and_l w; is_or_l w; is_eor_l w].
Definition guards_at (w k : Z) : Prop := guards w = (λ i, k =? i) <$> upto 15.
(** [l] holds at index [k] only, counting from [i]. *)
Fixpoint only_at (l : list bool) (k i : Z) : bool :=
  match l with [] => true | b :: l => Bool.eqb b (k =? i) && only_at l k (i + 1) end.
Lemma only_at_spec l k n : only_at l k (Z.of_nat n) = true → l = (λ i, k =? i) <$> (Z.of_nat <$> seq n (length l)).
Proof.
  revert n. induction l as [|b l IH]; intros n E; [done|]. cbn [only_at] in E. apply andb_true_iff in E as [Eb E].
  cbn. f_equal; [by apply eqb_prop|]. apply IH. by rewrite Nat2Z.inj_succ.
Qed.
Definition guards_ok (w : Z) : bool := let k := plain_index w in only_at (guards w) k 0.
Lemma plain_guards w : opcode w → plain_op w = true → ∃ k, 0 ≤ k < 15 ∧ guards_at w k.
Proof.
  intros Hw Hp. exists (plain_index w). split.
  - unfold plain_op, plain_index in *. repeat (case_match; [lia|]). by simplify_eq/=.
  - pose proof (all_opcodes guards_ok ltac:(vm_compute; reflexivity) w Hw) as H.
    by apply (only_at_spec _ _ 0) in H.
Qed.

(** The cases of a plain operation: in each, every guard is a constant. *)
Ltac plain_cases w Hw Hp :=
  let k := fresh "k" in let Hk := fresh "Hk" in let G := fresh "G" in let Hin := fresh "Hin" in
  destruct (plain_guards w Hw Hp) as (k & Hk & G); unfold guards_at, guards in G; cbn in G;
  assert (k ∈ upto 15) as Hin by (unfold upto; rewrite list_elem_of_fmap; exists (Z.to_nat k); rewrite elem_of_seq; lia);
  cbn in Hin; clear Hk;
  repeat (apply elem_of_cons in Hin as [->|Hin]; [cbn in G; injection G as ? ? ? ? ? ? ? ? ? ? ? ? ? ? ?|]);
  [..|by apply elem_of_nil in Hin].
(** The guards in the goal, and in a hypothesis. *)
Ltac guards_in E :=
  repeat match goal with
    | H : ?b = true |- _ => assert_fails (constr_eq H E); rewrite H in E
    | H : ?b = false |- _ => rewrite H in E
    end.
Ltac guards := repeat match goal with H : ?b = true |- _ => rewrite H | H : ?b = false |- _ => rewrite H end.

(** ** The compiler's arm *)

(** The other arms. *)
Definition other_op (w : Z) : bool :=
  is_add_l_imm w || is_addx_l w || is_move_l_imm w || is_move_w_an_dn w || is_adda_w w || is_adda_w_imm w ||
  is_addq_w w || is_lea_pc w || is_lea w || is_bcc_s w || is_bcc_w w || is_cmp_w w.
(** Whether the arm works on the status register. *)
Definition uses_sr (w : Z) : bool := negb (is_nop w || is_addq_an w || is_movea_l w || is_adda_l w).

Lemma plain_not_other w : opcode w → plain_op w = true → other_op w = false.
Proof.
  intros Hw. pose proof (all_opcodes (λ w, implb (plain_op w) (negb (other_op w)))
    ltac:(vm_compute; reflexivity) w Hw) as H. cbv beta in H. intros E. rewrite E in H. by destruct (other_op w).
Qed.
Lemma plain_needs_sr w : opcode w → plain_op w = true → uses_sr w = true → op_needs_sr w = true.
Proof.
  intros Hw. pose proof (all_opcodes (λ w, implb (plain_op w && uses_sr w) (op_needs_sr w))
    ltac:(vm_compute; reflexivity) w Hw) as H. cbv beta in H. intros E1 E2. by rewrite E1, E2 in H.
Qed.

(** No fused pair starts here. *)
Definition unfused (w : Z) (next : list (Z * Z)) : bool :=
  match next with
  | (nw, _) :: _ => negb (is_move_l_dd w && fusible_bcc nw) && negb (is_movea_l w && is_adda_w_to (f_rr w) nw)
  | [] => true
  end.

Lemma f_reg_range w : 0 ≤ f_reg w < 8.
Proof. apply land_range_r. lia. Qed.
Lemma f_rr_range w : 0 ≤ f_rr w < 8.
Proof. apply land_range_r. lia. Qed.
Lemma quick_range w : 1 ≤ quick_data w ≤ 8.
Proof. unfold quick_data. pose proof (f_rr_range w). destruct (Z.eqb_spec (f_rr w) 0); lia. Qed.

Section arms.
Context (lits : Z → Z) (entry hi : Z) (sl : bool).
#[local] Abbreviation does := (does lits entry hi sl).
#[local] Abbreviation arm_does := (arm_does lits entry hi sl).

Lemma does_ext m f f' : (∀ c, f c = f' c) → does m f → does m f'.
Proof. intros Hf Hm g j c Hrel. rewrite <- Hf. by apply Hm. Qed.
Lemma inline_does m f f' : (∀ c, f c = f' c) → does m f → arm_does (inline m) f'.
Proof. intros Hf Hm. exists m. split; [done|]. by eapply does_ext. Qed.

Lemma select_plain w pc next : opcode w → plain_op w = true → unfused w next = true → (uses_sr w = true → sl = true) →
  ∃ a, select_arm w pc next = Some a ∧ arm_does a (op_effect w).
Proof.
  intros Hw Hp Hu Hsl. pose proof (plain_not_other w Hw Hp) as Ho. unfold other_op in Ho.
  rewrite !orb_false_iff in Ho. destruct Ho as [[[[[[[[[[[O1 O2] O3] O4] O5] O6] O7] O8] O9] O10] O11] O12].
  unfold op_effect, op_body, op_cycles, uses_sr in *.
  plain_cases w Hw Hp; guards; guards_in Hsl; cbn [orb negb andb] in *; unfold select_arm; guards.
  all: unfold arm_nop; try (eexists; split; [reflexivity|]).
  - eapply inline_does; [reflexivity|]. by apply does_moveq, Hsl.
  - eapply inline_does; [reflexivity|]. apply does_nop.
  - eapply inline_does; [reflexivity|]. apply does_addsub; [by apply Hsl|apply f_reg_range|apply f_rr_range].
  - eapply inline_does; [reflexivity|]. apply does_addq; [by apply Hsl|apply quick_range].
  - eapply inline_does; [reflexivity|]. apply does_addq_an; [apply f_reg_range|].
    pose proof (quick_range w). destruct (f_bit8 w); lia.
  - assert (f_mode w = 0) as Em by (match goal with H : is_move_l_dd w = true |- _ => unfold is_move_l_dd in H; lia end).
    assert (arm_move_l_dd w next = inline (emit_move_l_dd (f_rr w) (f_reg w) flags_dead)) as ->.
    { unfold arm_move_l_dd. destruct next as [|[nw npc] next]; [done|]. cbn [unfused] in Hu. guards.
      apply andb_true_iff in Hu as [Hu _]. guards_in Hu. by destruct (fusible_bcc nw). }
    eapply inline_does; [|apply does_move_to_dn; [by apply Hsl|apply G_D_greg]].
    intros c. unfold src_reg. by rewrite Em.
  - assert (f_mode w = 1) as Em by (match goal with H : is_move_l_an_dn w = true |- _ => unfold is_move_l_an_dn in H; lia end).
    eapply inline_does; [|apply does_move_to_dn; [by apply Hsl|apply G_A_greg]].
    intros c. unfold src_reg. by rewrite Em.
  - assert (arm_movea_l w next = inline (emit_movea_l_reg (f_rr w) (f_reg w) (f_mode w =? 1))) as ->.
    { unfold arm_movea_l. destruct next as [|[nw npc] next]; [done|]. cbn [unfused] in Hu. 
      apply andb_true_iff in Hu as [_ Hu]. guards_in Hu. by destruct (is_adda_w_to _ nw). }
    eapply inline_does; [reflexivity|]. apply does_movea, f_rr_range.
  - apply does_adda_l.
  - by apply does_neg_l, Hsl.
  - assert (f_mode w = 0) as Em by (match goal with H : is_cmp_l w = true |- _ => unfold is_cmp_l in H; lia end).
    eapply inline_does; [|by apply does_cmp_l, Hsl]. intros c. unfold src_reg. by rewrite Em.
  - eapply inline_does; [reflexivity|]. apply does_addsub; [by apply Hsl|apply f_reg_range|apply f_rr_range].
  - eapply inline_does; [reflexivity|]. by apply does_logic_l, Hsl.
  - eapply inline_does; [reflexivity|]. by apply does_logic_l, Hsl.
  - eapply inline_does; [|by apply does_logic_l, Hsl]. intros c. reflexivity.
Qed.
End arms.
