(* ===== verification/JitStep.v ===== *)
(** * Operations between registers, by the interpreter

    [m68k_step] on the operations of JitSpec.v and on a short branch has the
    effect that their compiled code has. *)

From Stdlib Require Import ZArith Lia.
From stdpp Require Import base tactics list numbers.
From S2P Require Import Prelude Cpu Flags Ea Step Decode Block XtEmit HostSim Codegen Compile JitSem JitOps JitFlags.
From S2P Require Import JitArms JitTail JitBranch JitSpec.

#[local] Ltac Zify.zify_post_hook ::= Z.to_euclidean_division_equations.

(** ** The interpreter's step *)

Section interpreter.
Context {B : Type} `{Bus B}.

(** [m] changes the CPU only. *)
Definition acts (m : M (st B) unit) (f : m68k_cpu → m68k_cpu) (s : st B) : Prop := m s = Some (tt, with_cpu f s).

Definition more_cycles (n : Z) (c : m68k_cpu) : m68k_cpu := set_cpu_cycles (cpu_cycles c + n) c.

Lemma dreg_greg c n : 0 ≤ n < 8 → dreg c n = greg c (G_D n).
Proof. intros Hn. unfold greg. rewrite G_D_small, (proj2 (Z.ltb_lt _ _)) by lia. done. Qed.
Lemma set_dreg_greg v c n : 0 ≤ n < 8 → set_dreg n v c = set_greg (G_D n) v c.
Proof. intros Hn. unfold set_greg. rewrite G_D_small, (proj2 (Z.ltb_lt _ _)) by lia. done. Qed.
Lemma areg_greg c n : 0 ≤ n < 8 → areg c n = greg c (G_A n).
Proof. intros Hn. unfold greg. rewrite G_A_small, (proj2 (Z.ltb_ge _ _)) by lia. f_equal. lia. Qed.
Lemma set_areg_greg v c n : 0 ≤ n < 8 → set_areg n v c = set_greg (G_A n) v c.
Proof. intros Hn. unfold set_greg. rewrite G_A_small, (proj2 (Z.ltb_ge _ _)) by lia. f_equal. lia. Qed.

Lemma greg_word c gi : cpu_ok c → greg c gi .& 0xFFFFFFFF = greg c gi.
Proof. intros. by apply land_word, greg_range. Qed.

(** Reads of a long register operand. *)
Lemma read_dreg n s : cpu_ok (cpu s) → 0 ≤ n < 8 →
  ea_read (mk_ea EA_DREG n 0 0) 4 s = Some (greg (cpu s) (G_D n), s).
Proof. intros Hc Hn. unfold ea_read. cbn. unfold getc, gets. by rewrite dreg_greg, greg_word. Qed.
Lemma read_areg n s : cpu_ok (cpu s) → 0 ≤ n < 8 →
  ea_read (mk_ea EA_AREG n 0 0) 4 s = Some (greg (cpu s) (G_A n), s).
Proof. intros Hc Hn. unfold ea_read. cbn. unfold getc, gets. by rewrite areg_greg, greg_word. Qed.

Lemma merge_long n r c : cpu_ok c → 0 ≤ n < 8 → merge_dreg n 4 r c = set_greg (G_D n) r c.
Proof.
  intros Hc Hn. unfold merge_dreg. change (size_mask 4) with 0xFFFFFFFF. change (not32 0xFFFFFFFF) with 0.
  rewrite Z.land_0_r, Z.lor_0_l, set_dreg_greg by done. rewrite <- (set_greg_u32 _ r). f_equal.
  rewrite (land_ones_low r _ 32) by done. done.
Qed.
Lemma write_dreg n v s : cpu_ok (cpu s) → 0 ≤ n < 8 → acts (ea_write (mk_ea EA_DREG n 0 0) 4 v) (set_greg (G_D n) v) s.
Proof.
  intros Hc Hn. unfold acts, ea_write. cbn. unfold upd, modify. do 2 f_equal. unfold with_cpu. f_equal.
  by apply (merge_long n v (cpu s)).
Qed.

(** An operand in a register. *)
Definition src_ea (w : Z) : ea_t := mk_ea (if f_mode w =? 1 then EA_AREG else EA_DREG) (f_reg w) 0 0.
Lemma decode_src w sz : f_mode w ≤ 1 → ea_decode (f_mode w) (f_reg w) sz = mret (src_ea w).
Proof.
  intros Hm. assert (0 ≤ f_mode w < 8) by (apply land_range_r; lia). unfold src_ea.
  assert (f_mode w = 0 ∨ f_mode w = 1) as [-> | ->] by lia; done.
Qed.
Lemma read_src w s : cpu_ok (cpu s) → f_mode w ≤ 1 → ea_read (src_ea w) 4 s = Some (greg (cpu s) (src_reg w), s).
Proof.
  intros Hc Hm. unfold src_ea, src_reg, g_reg. pose proof (f_reg_range w).
  destruct (f_mode w =? 1); [by apply read_areg|by apply read_dreg].
Qed.

(** The flags, as whole states. *)
Lemma set_ccr_eq v c x : cpu_sr (m68k_set_ccr v c) = x → m68k_set_ccr v c = set_cpu_sr x c.
Proof.
  intros <-. unfold m68k_set_ccr, set_cpu_sr. cbn [cpu_sr cpu_d cpu_a cpu_pc cpu_usp cpu_ssp cpu_cycles cpu_instrs
    cpu_stopped cpu_halted cpu_exit_code cpu_pending_irq cpu_jit_ret_pc cpu_jit_arg1 cpu_jit_arg2 cpu_current_block
    cpu_chain_budget]. f_equal. symmetry. apply u16_small. unfold u16. lia.
Qed.
Lemma logic_eq v c : cpu_ok c → word32 v → set_flags_logic 4 v c = logic_done v c.
Proof. intros [] Hv. apply set_ccr_eq. by apply interp_logic. Qed.
Lemma add_eq s d c : cpu_ok c → word32 s → word32 d →
  set_flags_add 4 s d (u32 (d + s)) c = addsub_done false false s d (addsub_r false s d) c.
Proof. intros [] ? ?. apply set_ccr_eq. by apply interp_add. Qed.
Lemma sub_eq s d c : cpu_ok c → word32 s → word32 d →
  set_flags_sub 4 s d (u32 (d - s)) c = addsub_done true false s d (addsub_r true s d) c.
Proof. intros [] ? ?. apply set_ccr_eq. by apply interp_sub. Qed.
Lemma cmp_eq s d c : cpu_ok c → word32 s → word32 d →
  set_flags_cmp 4 s d (u32 (d - s)) c = addsub_done true true s d (addsub_r true s d) c.
Proof. intros [] ? ?. apply set_ccr_eq. by apply interp_cmp. Qed.

(** Composition of steps on the CPU. *)
Lemma acts_bind m k f g s : acts m f s → acts k g (with_cpu f s) → acts (m ;; k) (λ c, g (f c)) s.
Proof. intros E1 E2. unfold acts. by rewrite (bind_Some _ _ _ _ _ E1). Qed.
Lemma acts_read {A} (m : M (st B) A) k f s a : m s = Some (a, s) → acts (k a) f s → acts (m ≫= k) f s.
Proof. intros E1 E2. unfold acts. by rewrite (bind_Some _ _ _ _ _ E1). Qed.
Lemma acts_upd f s : acts (upd f) f s.
Proof. done. Qed.
Lemma acts_cycles n s : acts (add_cycles n) (more_cycles n) s.
Proof. done. Qed.
Lemma acts_ext m f g s : f (cpu s) = g (cpu s) → acts m f s → acts m g s.
Proof. unfold acts, with_cpu. by intros <-. Qed.
Lemma acts_ret s : acts (mret tt) (λ c, c) s.
Proof. unfold acts. by destruct s. Qed.

Lemma exec_add w s (is_add : bool) : cpu_ok (cpu s) → f_szf w = 2 → f_bit8 w = false → f_mode w ≤ 1 →
  acts (op_add is_add w) (λ c, more_cycles 4 (addsub_op (negb is_add) (G_D (f_rr w)) (greg c (src_reg w)) c)) s.
Proof.
  intros Hc Hz H8 Hm. unfold op_add. change ((w ≫ 9) .& 7) with (f_rr w). change ((w ≫ 6) .& 3) with (f_szf w).
  change (nz ((w ≫ 8) .& 1)) with (f_bit8 w). change ((w ≫ 3) .& 7) with (f_mode w). change (w .& 7) with (f_reg w).
  rewrite Hz, H8, decode_src by done. change (size_of_field 2) with 4. change (size_mask 4) with 0xFFFFFFFF.
  rewrite bind_ret_l. pose proof (f_rr_range w) as Hr.
  set (sv := greg (cpu s) (src_reg w)). set (dv := greg (cpu s) (G_D (f_rr w))).
  pose proof (greg_range (cpu s) (src_reg w) Hc) as Hs. pose proof (greg_range (cpu s) (G_D (f_rr w)) Hc) as Hd.
  eapply acts_ext; [|eapply acts_bind; [|apply acts_cycles]].
  2: { eapply acts_read; [by apply read_src|]. eapply acts_read.
       { unfold getc, gets. rewrite dreg_greg, greg_word by done. reflexivity. }
       eapply acts_bind; apply acts_upd. }
  cbv beta zeta. fold sv dv. unfold addsub_op, addsub_set. fold dv.
  rewrite merge_long by done. f_equal.
  destruct is_add; cbn [negb]; [rewrite add_eq|rewrite sub_eq]; try done; by apply set_greg_ok.
Qed.

(** *** The other operations *)

Lemma decode_dreg n sz : ea_decode 0 n sz = mret (mk_ea EA_DREG n 0 0).
Proof. done. Qed.
Lemma decode_areg n sz : ea_decode 1 n sz = mret (mk_ea EA_AREG n 0 0).
Proof. done. Qed.
Lemma sext_long v : sext v 4 = v.
Proof. done. Qed.

Lemma more_cycles_0 c : cpu_ok c → more_cycles 0 c = c.
Proof.
  intros []. unfold more_cycles, set_cpu_cycles. rewrite Z.add_0_r, u64_small by done. by destruct c.
Qed.

Lemma exec_moveq w s : cpu_ok (cpu s) →
  acts (step_7 w) (λ c, let v := u32 (i8 (w .& 0xFF)) in logic_done v (set_greg (G_D (f_rr w)) v c)) s.
Proof.
  intros Hc. unfold step_7. change ((w ≫ 9) .& 7) with (f_rr w). cbv zeta.
  eapply acts_ext; [|eapply acts_bind; apply acts_upd]. cbv beta. rewrite set_dreg_greg by apply f_rr_range.
  apply logic_eq; [by apply set_greg_ok|apply u32_range].
Qed.

Lemma exec_move w s : cpu_ok (cpu s) → f_mode w ≤ 1 → f_op6 w = 0 →
  acts (step_move 2 w) (λ c, let v := greg c (src_reg w) in more_cycles 4 (logic_done v (set_greg (G_D (f_rr w)) v c))) s.
Proof.
  intros Hc Hm H6. unfold step_move. change ((w ≫ 9) .& 7) with (f_rr w). change ((w ≫ 6) .& 7) with (f_op6 w).
  change ((w ≫ 3) .& 7) with (f_mode w). change (w .& 7) with (f_reg w). change (if 2 =? 1 then 1 else if 2 =? 3 then 2 else 4) with 4.
  rewrite H6, decode_src by done. rewrite bind_ret_l. pose proof (greg_range (cpu s) (src_reg w) Hc).
  eapply acts_ext; [|eapply acts_read; [by apply read_src|]; cbn [Z.eqb]; rewrite decode_dreg, bind_ret_l;
    eapply acts_bind; [apply write_dreg; [done|apply f_rr_range]|eapply acts_bind; [apply acts_upd|apply acts_cycles]]].
  cbv beta zeta. f_equal. apply logic_eq; [by apply set_greg_ok|done].
Qed.

Lemma exec_movea w s : cpu_ok (cpu s) → f_mode w ≤ 1 → f_op6 w = 1 →
  acts (step_move 2 w) (λ c, more_cycles 4 (set_greg (G_A (f_rr w)) (greg c (src_reg w)) c)) s.
Proof.
  intros Hc Hm H6. unfold step_move. change ((w ≫ 9) .& 7) with (f_rr w). change ((w ≫ 6) .& 7) with (f_op6 w).
  change ((w ≫ 3) .& 7) with (f_mode w). change (w .& 7) with (f_reg w). change (if 2 =? 1 then 1 else if 2 =? 3 then 2 else 4) with 4.
  rewrite H6, decode_src by done. rewrite bind_ret_l.
  eapply acts_ext; [|eapply acts_read; [by apply read_src|]; cbn [Z.eqb Pos.eqb]; eapply acts_bind; [apply acts_upd|apply acts_cycles]].
  cbv beta. f_equal. rewrite sext_long. apply set_areg_greg, f_rr_range.
Qed.

Lemma exec_addq w s : cpu_ok (cpu s) → f_szf w = 2 → f_mode w = 0 →
  acts (op_addq w) (λ c, more_cycles 4 (addsub_op (f_bit8 w) (G_D (f_reg w)) (quick_data w) c)) s.
Proof.
  intros Hc Hz Hm. unfold op_addq. change ((w ≫ 9) .& 7) with (f_rr w). change ((w ≫ 6) .& 3) with (f_szf w).
  change (nz ((w ≫ 8) .& 1)) with (f_bit8 w). change ((w ≫ 3) .& 7) with (f_mode w). change (w .& 7) with (f_reg w).
  rewrite Hz, Hm. cbv zeta. change (size_of_field 2) with 4. fold (quick_data w).
  rewrite decode_dreg, bind_ret_l. cbn [ea_k].
  pose proof (f_reg_range w). pose proof (quick_range w). pose proof (greg_range (cpu s) (G_D (f_reg w)) Hc).
  assert (word32 (quick_data w)) by (unfold word32; lia).
  eapply acts_ext; [|eapply acts_read; [by apply read_dreg|]; eapply acts_bind; [by apply write_dreg|
    eapply acts_bind; [apply acts_upd|apply acts_cycles]]].
  cbv beta. f_equal. unfold addsub_op, addsub_set. destruct (f_bit8 w); [rewrite sub_eq|rewrite add_eq]; try done; by apply set_greg_ok.
Qed.

Lemma exec_addq_an w s : cpu_ok (cpu s) → f_mode w = 1 →
  acts (op_addq w) (λ c, more_cycles 4 (addq_an_op (f_reg w) (if f_bit8 w then - quick_data w else quick_data w) c)) s.
Proof.
  intros Hc Hm. unfold op_addq. change ((w ≫ 9) .& 7) with (f_rr w).
  change (nz ((w ≫ 8) .& 1)) with (f_bit8 w). change ((w ≫ 3) .& 7) with (f_mode w). change (w .& 7) with (f_reg w).
  rewrite Hm. cbv zeta. fold (quick_data w). set (sz := size_of_field _).
  rewrite decode_areg, bind_ret_l. cbn [ea_k].
  eapply acts_ext; [|eapply acts_bind; [apply acts_upd|apply acts_cycles]]. cbv beta. f_equal. unfold addq_an_op.
  rewrite set_areg_greg, areg_greg by apply f_reg_range. destruct (f_bit8 w); [|done].
  rewrite <- set_greg_u32, <- (set_greg_u32 _ (_ + - _)). f_equal. unfold u32. lia.
Qed.

Ltac fields w := change ((w ≫ 9) .& 7) with (f_rr w); change ((w ≫ 6) .& 3) with (f_szf w);
  change (nz ((w ≫ 8) .& 1)) with (f_bit8 w); change ((w ≫ 3) .& 7) with (f_mode w); change (w .& 7) with (f_reg w);
  change ((w ≫ 8) .& 0xF) with (f_cc w).

Lemma exec_adda w s (is_add : bool) : cpu_ok (cpu s) → nz (w .& 0x100) = true → f_mode w ≤ 1 →
  acts (op_adda is_add w) (λ c, more_cycles 8 (adda_op (negb is_add) (f_rr w) (greg c (src_reg w)) c)) s.
Proof.
  intros Hc H8 Hm. unfold op_adda. fields w. rewrite H8, decode_src, bind_ret_l by done.
  eapply acts_ext; [|eapply acts_read; [by apply read_src|]; eapply acts_bind; [apply acts_upd|apply acts_cycles]].
  cbv beta. f_equal. rewrite sext_long. unfold adda_op, addsub_r. rewrite set_areg_greg, areg_greg, set_greg_u32 by apply f_rr_range.
  destruct is_add; cbn [negb]; [done|].
  rewrite <- set_greg_u32, <- (set_greg_u32 _ (_ - _)). f_equal. unfold u32. lia.
Qed.

Lemma exec_neg w s : cpu_ok (cpu s) → f_cc w = 4 → f_szf w = 2 → f_mode w = 0 →
  acts (op_unary w) (λ c, let gi := G_D (f_reg w) in more_cycles 4 (addsub_set true gi (greg c gi) 0 c)) s.
Proof.
  intros Hc H4 Hz Hm. unfold op_unary. fields w. rewrite H4, Hz, Hm. change (size_of_field 2) with 4.
  rewrite decode_dreg, bind_ret_l. cbn [Z.eqb Pos.eqb]. pose proof (f_reg_range w).
  pose proof (greg_range (cpu s) (G_D (f_reg w)) Hc).
  eapply acts_ext; [|eapply acts_read; [by apply read_dreg|]; eapply acts_bind; [eapply acts_bind; [by apply write_dreg|apply acts_upd]
    |apply acts_cycles]].
  cbv beta zeta. f_equal. unfold addsub_set. rewrite sub_eq; try done. by apply set_greg_ok.
Qed.

Lemma exec_cmp w s : cpu_ok (cpu s) → f_szf w = 2 → f_mode w ≤ 1 →
  acts (op_cmp w) (λ c, more_cycles 4 (cmp_op (greg c (src_reg w)) (greg c (G_D (f_rr w))) c)) s.
Proof.
  intros Hc Hz Hm. unfold op_cmp. fields w. rewrite Hz, decode_src, bind_ret_l by done. change (size_of_field 2) with 4.
  change (size_mask 4) with 0xFFFFFFFF. pose proof (f_rr_range w).
  pose proof (greg_range (cpu s) (src_reg w) Hc). pose proof (greg_range (cpu s) (G_D (f_rr w)) Hc).
  eapply acts_ext; [|eapply acts_read; [by apply read_src|]; eapply acts_read;
    [unfold getc, gets; rewrite dreg_greg, greg_word by done; reflexivity|];
    eapply acts_bind; [apply acts_upd|apply acts_cycles]].
  cbv beta. f_equal. by apply cmp_eq.
Qed.

Lemma exec_logic w s (f : Z → Z → Z) kind : cpu_ok (cpu s) → f_szf w = 2 → f_bit8 w = false → f_mode w = 0 →
  (∀ a b, f a b = logic_r kind a b) →
  acts (op_logic f w) (λ c, let r := logic_r kind (greg c (G_D (f_rr w))) (greg c (G_D (f_reg w))) in
    more_cycles 4 (logic_done r (set_greg (G_D (f_rr w)) r c))) s.
Proof.
  intros Hc Hz H8 Hm Hf. unfold op_logic. fields w. rewrite Hz, H8, Hm, decode_dreg, bind_ret_l.
  change (size_of_field 2) with 4. change (size_mask 4) with 0xFFFFFFFF. pose proof (f_rr_range w). pose proof (f_reg_range w).
  pose proof (greg_range (cpu s) (G_D (f_reg w)) Hc). pose proof (greg_range (cpu s) (G_D (f_rr w)) Hc).
  eapply acts_ext; [|eapply acts_bind; [eapply acts_read; [by apply read_dreg|]; eapply acts_read;
    [unfold getc, gets; rewrite dreg_greg, greg_word by done; reflexivity|];
    eapply acts_bind; apply acts_upd|apply acts_cycles]].
  cbv beta zeta. f_equal. rewrite Hf, merge_long by done. apply logic_eq; [by apply set_greg_ok|by apply logic_r_word].
Qed.

Lemma exec_eor w s : cpu_ok (cpu s) → f_szf w = 2 → f_mode w = 0 →
  acts (op_eor w) (λ c, let r := logic_r 2 (greg c (G_D (f_rr w))) (greg c (G_D (f_reg w))) in
    more_cycles 4 (logic_done r (set_greg (G_D (f_reg w)) r c))) s.
Proof.
  intros Hc Hz Hm. unfold op_eor. fields w. rewrite Hz, Hm, decode_dreg, bind_ret_l.
  change (size_of_field 2) with 4. change (size_mask 4) with 0xFFFFFFFF. pose proof (f_rr_range w). pose proof (f_reg_range w).
  pose proof (greg_range (cpu s) (G_D (f_reg w)) Hc). pose proof (greg_range (cpu s) (G_D (f_rr w)) Hc).
  eapply acts_ext; [|eapply acts_read; [by apply read_dreg|]; eapply acts_read;
    [unfold getc, gets; rewrite dreg_greg, greg_word by done; reflexivity|];
    eapply acts_bind; [by apply write_dreg|eapply acts_bind; [apply acts_upd|apply acts_cycles]]].
  cbv beta zeta. f_equal. rewrite (Z.lxor_comm (greg _ _)). apply logic_eq; [by apply set_greg_ok|by apply (logic_r_word 2)].
Qed.

Lemma bit8_eq w : opcode w → nz (w .& 0x100) = f_bit8 w.
Proof.
  intros Hw. pose proof (all_opcodes (λ w, Bool.eqb (nz (w .& 0x100)) (f_bit8 w)) ltac:(vm_compute; reflexivity) w Hw) as H0.
  by apply eqb_prop in H0.
Qed.

(** The fields that a guard asks for. *)
Ltac opcode_fields g := unfold g in *;
  repeat match goal with
    | H : (_ && _) = true |- _ => apply andb_true_iff in H as [? ?]
    | H : negb _ = true |- _ => apply negb_true_iff in H
    end; split_and?; assumption || lia.

Lemma low_cases w : opcode w → f_bit8 w = false → (w .& 0x01F0 =? 0x0100) = false ∧ (w .& 0x0130 =? 0x0100) = false.
Proof.
  intros Hw H8. pose proof (all_opcodes (λ w, f_bit8 w || negb (w .& 0x01F0 =? 0x0100) && negb (w .& 0x0130 =? 0x0100))
    ltac:(vm_compute; reflexivity) w Hw) as H0. cbv beta in H0. rewrite H8 in H0.
  by destruct (w .& 0x01F0 =? 0x0100), (w .& 0x0130 =? 0x0100).
Qed.
Lemma neg_opcodes w : opcode w → is_neg_l w = true → w ∈ (λ r, 0x4480 + r) <$> upto 8.
Proof.
  intros Hw Hn. pose proof (all_opcodes (λ w, implb (is_neg_l w) (existsb (λ r, w =? 0x4480 + r) (upto 8)))
    ltac:(vm_compute; reflexivity) w Hw) as H0. cbv beta in H0. rewrite Hn in H0. cbn [implb] in H0.
  apply existsb_exists in H0 as (r & Hr & E%Z.eqb_eq). apply list_elem_of_fmap. exists r. split; [done|].
  by apply list_elem_of_In.
Qed.
Lemma step_4_neg pc w : opcode w → is_neg_l w = true → step_4 pc w = op_unary w.
Proof.
  intros Hw Hn. pose proof (neg_opcodes w Hw Hn) as Hin. cbn in Hin.
  repeat (apply elem_of_cons in Hin as [->|Hin]; [reflexivity|]). by apply elem_of_nil in Hin.
Qed.

(** The opcode goes to the group of its first digit. *)
Lemma exec_plain pc w s : opcode w → plain_op w = true → cpu_ok (cpu s) →
  acts (execute pc w) (λ c, more_cycles (op_cycles w - 4) (op_body w c)) s.
Proof.
  intros Hw Hp Hc. pose proof (bit8_eq w Hw) as H8. pose proof (low_cases w Hw) as Hlow.
  pose proof (step_4_neg pc w Hw) as Hneg.
  unfold op_body, op_cycles. unfold execute. change ((w ≫ 12) .& 0xF) with (f_top w).
  plain_cases w Hw Hp; guards; cbn [orb negb].
  - assert (f_top w = 7) as -> by (opcode_fields is_moveq).
    eapply acts_ext; [|by apply exec_moveq]. symmetry. apply more_cycles_0.
    by apply set_sr_ok, set_greg_ok.
  - assert (w = 0x4E71) as -> by (opcode_fields is_nop).
    eapply acts_ext; [|apply acts_ret]. symmetry. by apply more_cycles_0.
  - assert (f_top w = 13 ∧ f_szf w = 2 ∧ f_bit8 w = false ∧ f_mode w ≤ 1) as (-> & Hz & Hb & Hm) by (opcode_fields is_add_l).
    unfold step_9D. fields w. rewrite Hz, Hb. by apply (exec_add w s true).
  - assert (f_top w = 5 ∧ f_szf w = 2 ∧ f_mode w = 0) as (-> & Hz & Hm) by (opcode_fields is_addq_l).
    unfold step_5. fields w. rewrite Hz. by apply exec_addq.
  - assert (f_top w = 5 ∧ (f_szf w =? 3) = false ∧ f_mode w = 1) as (-> & Hz & Hm) by (opcode_fields is_addq_an).
    unfold step_5. fields w. rewrite Hz. by apply exec_addq_an.
  - assert (f_top w = 2 ∧ f_mode w = 0 ∧ f_op6 w = 0) as (-> & Hm & E6) by (opcode_fields is_move_l_dd).
    apply exec_move; [done|lia|done].
  - assert (f_top w = 2 ∧ f_mode w = 1 ∧ f_op6 w = 0) as (-> & Hm & E6) by (opcode_fields is_move_l_an_dn).
    apply exec_move; [done|lia|done].
  - assert (f_top w = 2 ∧ f_mode w ≤ 1 ∧ f_op6 w = 1) as (-> & Hm & E6) by (opcode_fields is_movea_l).
    by apply exec_movea.
  - assert (f_szf w = 3 ∧ f_bit8 w = true ∧ f_mode w ≤ 1 ∧ (f_top w = 13 ∨ f_top w = 9)) as (Hz & Hb & Hm & Ht) by (opcode_fields is_adda_l).
    rewrite Hb in H8. destruct Ht as [-> | ->]; unfold step_9D; fields w; rewrite Hz;
      [by apply (exec_adda w s true)|by apply (exec_adda w s false)].
  - assert (f_top w = 4 ∧ f_cc w = 4 ∧ f_szf w = 2 ∧ f_mode w = 0) as (-> & E4 & Hz & Hm) by (opcode_fields is_neg_l).
    rewrite Hneg by done. by apply exec_neg.
  - assert (f_top w = 11 ∧ f_szf w = 2 ∧ f_bit8 w = false ∧ f_mode w = 0) as (-> & Hz & Hb & Hm) by (opcode_fields is_cmp_l).
    unfold step_B. fields w. rewrite Hz, Hb. apply exec_cmp; [done|done|lia].
  - assert (f_top w = 9 ∧ f_szf w = 2 ∧ f_bit8 w = false ∧ f_mode w ≤ 1) as (-> & Hz & Hb & Hm) by (opcode_fields is_sub_l).
    unfold step_9D. fields w. rewrite Hz, Hb. by apply (exec_add w s false).
  - assert (f_top w = 12 ∧ f_szf w = 2 ∧ f_bit8 w = false ∧ f_mode w = 0) as (-> & Hz & Hb & Hm) by (opcode_fields is_and_l).
    destruct (Hlow Hb) as [L1 L2]. unfold step_C. fields w. rewrite Hz, L1, L2. cbn [Z.eqb Pos.eqb andb].
    by apply (exec_logic w s Z.land 1).
  - assert (f_top w = 8 ∧ f_szf w = 2 ∧ f_bit8 w = false ∧ f_mode w = 0) as (-> & Hz & Hb & Hm) by (opcode_fields is_or_l).
    destruct (Hlow Hb) as [L1 L2]. unfold step_8. fields w. rewrite Hz, L1. cbn [Z.eqb Pos.eqb andb].
    by apply (exec_logic w s Z.lor 0).
  - assert (f_top w = 11 ∧ f_szf w = 2 ∧ f_bit8 w = true ∧ f_mode w = 0) as (-> & Hz & Hb & Hm) by (opcode_fields is_eor_l).
    unfold step_B. fields w. rewrite Hz, Hb, Hm. cbn [Z.eqb Pos.eqb]. by apply exec_eor.
Qed.

(** *** A branch *)

Lemma exec_branch pc w s : is_bcc_s w = true → cpu_pc (cpu s) = u32 (pc + 2) →
  acts (execute pc w) (λ c, let t := cond_true c (f_cc w) in
    more_cycles (8 + 2 * b2z t) (set_cpu_pc (if t then u32 (pc + 2 + u32 (i8 (w .& 0xFF))) else u32 (pc + 2)) c)) s.
Proof.
  intros Hb Hpc. unfold execute. change ((w ≫ 12) .& 0xF) with (f_top w).
  assert (f_top w = 6 ∧ (f_cc w =? 1) = false ∧ (w .& 0xFF =? 0) = false ∧ (w .& 0xFF =? 0xFF) = false) as (-> & E1 & E2 & E3)
    by (opcode_fields is_bcc_s).
  unfold step_6. fields w. rewrite E1, E2, E3. unfold acts, getc, gets, mbind, M_bind, mret, M_ret. rewrite Hpc.
  replace (u32 (u32 (pc + 2) + u32 (i8 (w .& 0xFF)))) with (u32 (pc + 2 + u32 (i8 (w .& 0xFF)))) by (unfold u32; lia).
  assert ((f_cc w =? 0) || cond_true (cpu s) (f_cc w) = cond_true (cpu s) (f_cc w)) as ->.
  { destruct (Z.eqb_spec (f_cc w) 0) as [->|]; done. }
  cbv zeta. destruct (cond_true (cpu s) (f_cc w)) eqn:Ec;
    unfold add_cycles, upd, modify; do 2 f_equal; unfold with_cpu; f_equal; cbn [cpu]; rewrite Ec; [reflexivity|].
  unfold more_cycles. cbn [b2z].
    rewrite <- Hpc. unfold set_cpu_cycles, set_cpu_pc.
    cbn [cpu_sr cpu_d cpu_a cpu_pc cpu_usp cpu_ssp cpu_cycles cpu_instrs
    cpu_stopped cpu_halted cpu_exit_code cpu_pending_irq cpu_jit_ret_pc cpu_jit_arg1 cpu_jit_arg2 cpu_current_block
    cpu_chain_budget]. f_equal. rewrite Hpc. by rewrite u32_idemp.
Qed.

(** *** The instruction counter and the others around an operation *)

Definition framed (i p n : Z) (c : m68k_cpu) : m68k_cpu := set_cpu_cycles n (set_cpu_pc p (set_cpu_instrs i c)).
Lemma set_greg_framed gi v i p n c : set_greg gi v (framed i p n c) = framed i p n (set_greg gi v c).
Proof. unfold set_greg. by case_match. Qed.
Lemma op_body_framed w i p n c : op_body w (framed i p n c) = framed i p n (op_body w c).
Proof.
  unfold op_body, addsub_op, addsub_set, addq_an_op, adda_op, cmp_op, logic_done, addsub_done. cbv zeta.
  repeat case_match; rewrite ?set_greg_framed; reflexivity.
Qed.
Lemma op_body_pc w c : cpu_pc (op_body w c) = cpu_pc c ∧ cpu_cycles (op_body w c) = cpu_cycles c ∧ cpu_instrs (op_body w c) = cpu_instrs c.
Proof.
  unfold op_body, addsub_op, addsub_set, addq_an_op, adda_op, cmp_op, logic_done, addsub_done, set_greg. cbv zeta.
  by repeat case_match.
Qed.

(** The CPU after fetching an opcode word. *)
Definition fetched (c : m68k_cpu) : m68k_cpu :=
  framed (cpu_instrs c + 1) (cpu_pc c + 2) (cpu_cycles c + 4) c.
Definition counted_step (f : m68k_cpu → m68k_cpu) (c : m68k_cpu) : m68k_cpu :=
  set_cpu_instrs (cpu_instrs c + 1) (f c).

Lemma plain_fetched w c : more_cycles (op_cycles w - 4) (op_body w (fetched c)) = counted_step (op_effect w) c.
Proof.
  unfold fetched. rewrite op_body_framed. unfold counted_step, op_effect, advanced.
  destruct (op_body_pc w c) as (Ep & Ec & Ei).
  unfold more_cycles, framed. unfold set_cpu_cycles, set_cpu_pc, set_cpu_instrs. rewrite Ep, Ec.
  cbn [cpu_sr cpu_d cpu_a cpu_pc cpu_usp cpu_ssp cpu_cycles cpu_instrs
    cpu_stopped cpu_halted cpu_exit_code cpu_pending_irq cpu_jit_ret_pc cpu_jit_arg1 cpu_jit_arg2 cpu_current_block
    cpu_chain_budget]. f_equal. unfold u64. lia.
Qed.

Lemma branch_fetched w c : 
  (let c1 := fetched c in let t := cond_true c1 (f_cc w) in
   more_cycles (8 + 2 * b2z t) (set_cpu_pc (if t then u32 (cpu_pc c + 2 + u32 (i8 (w .& 0xFF))) else u32 (cpu_pc c + 2)) c1)) =
  counted_step (branch_op (cpu_pc c) w) c.
Proof.
  unfold counted_step, branch_op, branched, fetched, more_cycles, framed.
  change (cond_true (set_cpu_cycles _ _) (f_cc w)) with (cond_true c (f_cc w)). cbv zeta.
  unfold set_cpu_cycles, set_cpu_pc, set_cpu_instrs.
  cbn [cpu_sr cpu_d cpu_a cpu_pc cpu_usp cpu_ssp cpu_cycles cpu_instrs
    cpu_stopped cpu_halted cpu_exit_code cpu_pending_irq cpu_jit_ret_pc cpu_jit_arg1 cpu_jit_arg2 cpu_current_block
    cpu_chain_budget]. f_equal. unfold u64. lia.
Qed.
End interpreter.
