(* ===== verification/JitBlock.v ===== *)
(** * A compiled block does what the interpreter does

    Blocks of register operations, with or without a short branch at the end:
    the compiler translates them, and the translation, run by the simulator
    from [enter_block] on, leaves the machine as [m68k_step] on the same
    operations does. *)

From Stdlib Require Import ZArith Lia.
From stdpp Require Import base tactics list numbers.
From S2P Require Import Prelude Cpu Flags Ea Step Decode Block MacState Sony MacMem XtEmit XtSim XtExec HostSim Codegen Compile.
From S2P Require Import JitRun JitSize JitSem JitOps JitFlags JitArms JitTail JitBranch JitFrame JitSpec JitStep.

#[local] Ltac Zify.zify_post_hook ::= Z.to_euclidean_division_equations.

(** ** The code in memory *)

(** [w] is the word at [a], in RAM or ROM. *)
Definition word_at (m : mac_mem) (a w : Z) : Prop :=
  ∃ p hi lo, mem_ptr m (mem_addr a) = Some p ∧ deref m p 0 = Some hi ∧ deref m p 1 = Some lo ∧
    u16 (u16 (hi ≪ 8) .| lo) = w.
(** [ws] from [pc] on. *)
Fixpoint code_words (m : mac_mem) (pc : Z) (ws : list Z) : Prop :=
  match ws with [] => True | w :: ws => word_at m pc w ∧ code_words m (u32 (pc + 2)) ws end.
(** The words with their addresses, and the address after them. *)
Fixpoint ops_at (pc : Z) (ws : list Z) : list (Z * Z) :=
  match ws with [] => [] | w :: ws => (w, pc) :: ops_at (u32 (pc + 2)) ws end.
Fixpoint pc_after (pc : Z) (ws : list Z) : Z :=
  match ws with [] => pc | _ :: ws => pc_after (u32 (pc + 2)) ws end.

(** Another count of the reads. *)
Definition recount (k : Z) : mac → mac := with_bus (set_mem_reads k).

Lemma word_recount m k a w : word_at m a w → word_at (set_mem_reads k m) a w.
Proof. intros (p & hi & lo & H). exists p, hi, lo. by destruct p. Qed.
Lemma code_recount m k pc ws : code_words m pc ws → code_words (set_mem_reads k m) pc ws.
Proof. revert pc. induction ws as [|w ws IH]; intros pc; [done|]. intros [? ?]. split; [by apply word_recount|auto]. Qed.

Lemma read16_word a w (s : mac) : word_at (bus s) a w → mac_read16 a s = Some (w, recount (mem_reads (bus s) + 2) s).
Proof.
  intros (p & hi & lo & Ep & Eh & El & <-). unfold mac_read16. unfold getm, updm, gets, modify, mbind, M_bind.
  rewrite Ep. unfold load. assert (∀ k v, deref (bus s) p k = Some v → deref (bus (with_bus
    (λ m, set_mem_reads (mem_reads m + 2) m) s)) p k = Some v) as Hd by (intros k v E; by destruct p).
  rewrite (Hd _ _ Eh), (Hd _ _ El). done.
Qed.

(** ** Discovery *)

Lemma decode_plain w : opcode w → plain_op w = true → dec_length (decode_op w) = 2 ∧ dec_ends_block (decode_op w) = false.
Proof.
  intros Hw. pose proof (all_opcodes (λ w, implb (plain_op w) ((dec_length (decode_op w) =? 2) && negb (dec_ends_block (decode_op w))))
    ltac:(vm_compute; reflexivity) w Hw) as H. cbv beta in H. intros E. rewrite E in H. cbn [implb] in H.
  apply andb_true_iff in H as [->%Z.eqb_eq ->%negb_true_iff]. done.
Qed.
Lemma decode_branch w : opcode w → is_bcc_s w = true → dec_length (decode_op w) = 2 ∧ dec_ends_block (decode_op w) = true.
Proof.
  intros Hw. pose proof (all_opcodes (λ w, implb (is_bcc_s w) ((dec_length (decode_op w) =? 2) && dec_ends_block (decode_op w)))
    ltac:(vm_compute; reflexivity) w Hw) as H. cbv beta in H. intros E. rewrite E in H. cbn [implb] in H.
  apply andb_true_iff in H as [->%Z.eqb_eq ->]. done.
Qed.

(** A block: register operations, and a branch unless they fill the block. *)
Record block_of (cap : nat) (ws : list Z) (last : option Z) : Prop := {
  bk_ops : Forall (λ w, opcode w ∧ plain_op w = true) ws;
  bk_last : match last with
            | Some w => opcode w ∧ is_bcc_s w = true ∧ (length ws < cap)%nat
            | None => length ws = cap
            end
}.
Definition block_words (ws : list Z) (last : option Z) : list Z := ws ++ option_list last.

Lemma decode_word pc w (s : mac) : word_at (bus s) pc w →
  m68k_decode_at pc s = Some (decode_op w, recount (mem_reads (bus s) + 2) s).
Proof. intros Hw. unfold m68k_decode_at. by rewrite (bind_Some _ _ _ _ _ (read16_word pc w s Hw)). Qed.

Lemma opcode_dec w : dec_opcode (decode_op w) = w.
Proof. unfold decode_op. by case_match. Qed.

Lemma discover_block cap pc ws last (s : mac) : block_of cap ws last → (1 ≤ cap)%nat →
  code_words (bus s) pc (block_words ws last) →
  ∃ k, discover cap pc s = Some ((ops_at pc (block_words ws last), pc_after pc (block_words ws last)), recount k s).
Proof.
  revert cap pc s. induction ws as [|w ws IH]; intros cap pc s [Ho Hl] Hcap Hc.
  - destruct last as [w|]; [|cbn in Hl; lia]. destruct cap as [|cap]; [lia|]. destruct Hl as (Hw & Hb & _).
    destruct Hc as [Hc _]. cbn [discover]. rewrite (bind_Some _ _ _ _ _ (decode_word pc w s Hc)).
    destruct (decode_branch w Hw Hb) as [-> ->]. rewrite opcode_dec. by eexists.
  - destruct cap as [|cap]; [lia|]. destruct Hc as [Hc Hcs]. apply Forall_cons_1 in Ho as [[Hw Hp] Ho].
    cbn [discover]. rewrite (bind_Some _ _ _ _ _ (decode_word pc w s Hc)).
    destruct (decode_plain w Hw Hp) as [-> ->]. rewrite opcode_dec.
    assert (∃ k, discover cap (u32 (pc + 2)) (recount (mem_reads (bus s) + 2) s) =
      Some ((ops_at (u32 (pc + 2)) (block_words ws last), pc_after (u32 (pc + 2)) (block_words ws last)), recount k s)) as [k E].
    { destruct ws as [|w' ws], last as [wl|]; cbn [length] in Hl.
      - apply (IH cap (u32 (pc + 2)) (recount _ s)) ; [split; [done|destruct Hl as (? & ? & ?); split_and!; [done|done|cbn in *; lia]]|destruct Hl as (_ & _ & ?); lia|by apply code_recount].
      - injection Hl as <-. eexists. reflexivity.
      - apply (IH cap (u32 (pc + 2)) (recount _ s)) ; [split; [done|destruct Hl as (? & ? & ?); split_and!; [done|done|cbn in *; lia]]|destruct Hl as (_ & _ & ?); lia|by apply code_recount].
      - apply (IH cap (u32 (pc + 2)) (recount _ s)) ; [split; [done|cbn; lia]|lia|by apply code_recount]. }
    rewrite (bind_Some _ _ _ _ _ E). by exists k.
Qed.

(** ** The body *)

Definition is_branch (w : Z) : Prop := opcode w ∧ is_bcc_s w = true.
(** The MOVE.L and the branch after it are not translated as one. *)
Definition unfused_tail (ws : list Z) (br : option Z) : Prop :=
  ∀ w b, list.last ws = Some w → br = Some b → is_move_l_dd w && fusible_bcc b = false.
Fixpoint block_effect (ws : list Z) (br : option Z) (c : m68k_cpu) : m68k_cpu :=
  match ws with
  | [] => match br with Some w => branch_op (cpu_pc c) w c | None => c end
  | w :: ws => block_effect ws br (op_effect w c)
  end.

Lemma plain_follows w am : opcode w → plain_op w = true → fusible_bcc w = false ∧ is_adda_w_to am w = false.
Proof.
  intros Hw Hp. pose proof (all_opcodes (λ w, implb (plain_op w) (negb (f_top w =? 6) &&
    negb ((f_top w =? 0xD) && (f_op6 w =? 3) && (f_mode w <=? 1)))) ltac:(vm_compute; reflexivity) w Hw) as H.
  cbv beta in H. rewrite Hp in H. cbn [implb] in H. apply andb_true_iff in H as [H1%negb_true_iff H2%negb_true_iff].
  unfold fusible_bcc, is_adda_w_to. rewrite H1. split; [done|]. by rewrite H2.
Qed.
Lemma branch_follows b am : is_bcc_s b = true → is_adda_w_to am b = false.
Proof.
  unfold is_bcc_s, is_adda_w_to. rewrite !andb_true_iff. intros [[[->%Z.eqb_eq _] _] _]. done.
Qed.

Lemma select_branch b pc next : is_bcc_s b = true → select_arm b pc next = Some (inline (emit_branch pc b)).
Proof.
  intros Hb. assert (f_top b = 6) as Ht by (unfold is_bcc_s in Hb; rewrite !andb_true_iff in Hb; lia).
  assert (is_nop b = false) as Hn.
  { unfold is_nop. destruct (Z.eqb_spec b 0x4E71) as [->|]; [|done]. by vm_compute in Ht. }
  unfold select_arm. rewrite Hn, Hb. unfold is_moveq, is_add_l, is_add_l_imm, is_addx_l, is_addq_l, is_addq_an,
    is_move_l_imm, is_move_l_dd, is_move_w_an_dn, is_move_l_an_dn, is_movea_l, is_adda_w, is_adda_l, is_adda_w_imm,
    is_addq_w, is_lea_pc, is_lea. rewrite Ht. reflexivity.
Qed.

Lemma unfused_head w ws br pc : Forall (λ w, opcode w ∧ plain_op w = true) ws →
  match br with Some b => is_branch b | None => True end → unfused_tail (w :: ws) br →
  unfused w (ops_at pc (block_words ws br)) = true.
Proof.
  intros Ho Hb Hu. destruct ws as [|w' ws].
  - destruct br as [b|]; [|done]. cbn. rewrite (Hu w b) by done. destruct Hb as [_ Hb].
    by rewrite (branch_follows b _ Hb), andb_false_r.
  - apply Forall_cons_1 in Ho as [[Hw' Hp'] _]. cbn. destruct (plain_follows w' (f_rr w) Hw' Hp') as [-> ->].
    by rewrite !andb_false_r.
Qed.

Section body.
Context (lits : Z → Z) (entry hi : Z) (sl : bool).
#[local] Abbreviation rel := (rel lits entry hi sl).
#[local] Abbreviation runs := (runs lits entry).

(** [runs] for the steps that know of the machine, which they leave alone. *)
Definition kruns {A} (m : K A) (g : gen) (x : mac) (j : jst) (Q : A → gen → jst → Prop) : Prop :=
  ∃ a g' code j', m (g, x) = Some (a, (g', x)) ∧ g_code g' = g_code g ++ code ∧ forallb instr_ok code = true ∧
    arun lits (entry + e_len g) code false j = Some (false, j') ∧ Q a g' j'.

Lemma kruns_ret {A} (a : A) g x j (Q : A → gen → jst → Prop) : Q a g j → kruns (mret a) g x j Q.
Proof. intros HQ. exists a, g, [], j. by rewrite app_nil_r. Qed.
Lemma kruns_mono {A} (m : K A) g x j (Q Q' : A → gen → jst → Prop) :
  (∀ a g' j', Q a g' j' → Q' a g' j') → kruns m g x j Q → kruns m g x j Q'.
Proof. intros H (a & g' & code & j' & ? & ? & ? & ? & ?). exists a, g', code, j'. split_and!; auto. Qed.
Lemma kruns_gen {A} (m : G A) g x j (Q : A → gen → jst → Prop) : runs m g j Q → kruns (gen_do m) g x j Q.
Proof. intros (a & g' & code & j' & E & H). exists a, g', code, j'. unfold gen_do. cbn. by rewrite E. Qed.
Lemma kruns_bind {A C} (m : K A) (k : A → K C) g x j Q :
  kruns m g x j (λ a g' j', kruns (k a) g' x j' Q) → kruns (m ≫= k) g x j Q.
Proof.
  intros (a & g1 & c1 & j1 & E1 & C1 & O1 & R1 & b & g2 & c2 & j2 & E2 & C2 & O2 & R2 & HQ).
  exists b, g2, (c1 ++ c2), j2. split; [by rewrite (bind_Some _ _ _ _ _ E1)|].
  split; [by rewrite C2, C1, app_assoc|]. split; [by rewrite forallb_app, O1, O2|]. split; [|done].
  rewrite arun_app, R1. cbn. rewrite <- R2. f_equal. unfold e_len. rewrite C1, length_app. lia.
Qed.

(** One operation; its code is no longer than it may be. *)
Lemma kruns_arm a f next g x j c Q : arm_does lits entry hi sl a f → arm_fits next a → rel g j c →
  (∀ g' j', rel g' j' (f c) → e_len g' ≤ e_len g + 216 → Q 0%nat g' j') → kruns a g x j Q.
Proof.
  intros (m & -> & Hm) Hfit Hrel HQ. destruct (Hm g j c Hrel) as ([] & g1 & code & j1 & E & Ec & Hok & Hrun & H1).
  exists 0%nat, g1, code, j1.
  assert (inline m (g, x) = Some (0%nat, (g1, x))) as Ea by (unfold inline, gen_do, mbind, M_bind; cbn; by rewrite E).
  split_and!; try done. apply HQ; [done|].
  destruct (Hfit (g, x) 0%nat (g1, x)) as (_ & _ & l & El & Hl); [by eapply rel_active|done|].
  unfold e_len. unfold kcode in El. cbn [fst] in El. rewrite El, length_app. unfold OP_INSTRS in Hl. lia.
Qed.

Lemma body_runs ws br fuel pc g x j c : Forall (λ w, opcode w ∧ plain_op w = true) ws →
  match br with Some b => is_branch b | None => True end → unfused_tail ws br →
  (length (block_words ws br) ≤ fuel)%nat → rel g j c → cpu_pc c = pc →
  (∀ w, w ∈ ws → uses_sr w = true → sl = true) → (∀ b, br = Some b → f_cc b ≠ 0 → sl = true) →
  0 ≤ entry → entry + e_len g + 216 * Z.of_nat (length ws) < 0x1E000 →
  kruns (body fuel (ops_at pc (block_words ws br))) g x j (λ _ g' j', rel g' j' (block_effect ws br c)).
Proof.
  intros Ho Hb Hu. revert fuel pc g j c. induction ws as [|w ws IH]; intros fuel pc g j c Hf Hrel Hpc Hs1 Hs2 He Hlen.
  - destruct br as [b|]; cbn [block_words app option_list ops_at] in *; [|by destruct fuel; apply kruns_ret].
    destruct fuel as [|fuel]; [cbn in Hf; lia|]. cbn [body block_effect].
    apply kruns_bind, kruns_gen, runs_set; [done|]. set (g0 := set_g_helper_touched_mask _ g).
    assert (rel g0 j c) as H0 by done.
    destruct Hb as [Hb1 Hb2]. assert (select_arm b pc [] = Some (inline (emit_branch pc b))) as ->.
    { by apply select_branch. }
    apply kruns_bind. unfold inline. apply kruns_bind, kruns_gen. eapply runs_mono; [|apply (runs_branch lits entry hi sl pc b g0 j c); try done].
    + intros [] g1 j1 [H1 _]. apply kruns_ret, kruns_bind. destruct fuel; apply kruns_ret, kruns_ret; by rewrite Hpc.
    + by apply Hs2.
    + unfold is_bcc_s in Hb2. intros E. rewrite E in Hb2. by rewrite andb_false_r in Hb2.
    + change (e_len g0) with (e_len g). cbn in Hlen. lia.
  - cbn [block_words app ops_at]. change (ws ++ option_list br) with (block_words ws br).
    destruct fuel as [|fuel]; [cbn in Hf; lia|]. cbn [body block_effect].
    apply kruns_bind, kruns_gen, runs_set; [done|]. set (g0 := set_g_helper_touched_mask _ g).
    assert (rel g0 j c) as H0 by done. apply Forall_cons_1 in Ho as [[Hw Hp] Ho].
    set (next := ops_at (u32 (pc + 2)) (block_words ws br)).
    destruct (select_plain lits entry hi sl w pc next Hw Hp) as (a & Ea & Hdoes); [by apply unfused_head|intros; apply (Hs1 w); [by left|done]|].
    rewrite Ea. apply kruns_bind. eapply (kruns_arm a _ next); [exact Hdoes|by eapply select_fits|exact H0|].
    intros g1 j1 H1 L1. apply kruns_bind. cbn [drop].
    eapply kruns_mono; [|apply (IH Ho) with (c := op_effect w c); try done].
    + intros k g2 j2 H2. apply kruns_ret. exact H2.
    + intros w' b' Hl Eb. apply (Hu w' b'); [|done]. destruct ws; [done|exact Hl].
    + cbn in Hf. unfold block_words. lia.
    + unfold op_effect, advanced. cbn. destruct (op_body_pc w c) as (-> & _). by rewrite Hpc.
    + intros w' Hin. apply Hs1. by right.
    + change (e_len g0) with (e_len g) in L1. cbn [length] in Hlen. lia.
Qed.
End body.

(** ** The interpreter on the block *)

Lemma op_body_ok w c : cpu_ok c → cpu_ok (op_body w c).
Proof.
  intros Hc. unfold op_body, addsub_op, addsub_set, addq_an_op, adda_op, cmp_op, logic_done, addsub_done. cbv zeta.
  repeat case_match; auto using set_sr_ok, set_greg_ok.
Qed.
Lemma op_effect_ok w c : cpu_ok c → cpu_ok (op_effect w c).
Proof. intros. by apply set_cycles_ok, set_pc_ok, op_body_ok. Qed.
Lemma op_effect_instrs w i c : op_effect w (set_cpu_instrs i c) = set_cpu_instrs i (op_effect w c).
Proof.
  assert (op_body w (set_cpu_instrs i c) = set_cpu_instrs i (op_body w c)) as E.
  { unfold op_body, addsub_op, addsub_set, addq_an_op, adda_op, cmp_op, logic_done, addsub_done. cbv zeta.
    assert (∀ gi v c, set_greg gi v (set_cpu_instrs i c) = set_cpu_instrs i (set_greg gi v c)) as Hg
      by (intros; unfold set_greg; by case_match).
    repeat case_match; rewrite ?Hg; reflexivity. }
  unfold op_effect. by rewrite E.
Qed.
Lemma op_effect_halted w c : cpu_halted (op_effect w c) = cpu_halted c.
Proof.
  unfold op_effect, op_body, addsub_op, addsub_set, addq_an_op, adda_op, cmp_op, logic_done, addsub_done, set_greg.
  cbv zeta. by repeat case_match.
Qed.
Lemma op_effect_pc w c : cpu_pc (op_effect w c) = u32 (cpu_pc c + 2).
Proof. unfold op_effect, advanced. cbn. by destruct (op_body_pc w c) as (-> & _). Qed.

(** A step up to [execute]. *)
Lemma step_fetch w (s : mac) : cpu_halted (cpu s) = 0 → word_at (bus s) (cpu_pc (cpu s)) w →
  m68k_step s = execute (cpu_pc (cpu s)) w (with_cpu fetched (recount (mem_reads (bus s) + 2) s)).
Proof.
  intros Hh Hw. unfold m68k_step, getc, gets. rewrite (bind_Some _ _ _ (cpu_halted (cpu s)) s) by done.
  rewrite Hh. cbn [nz Z.eqb negb].
  set (s1 := with_cpu (λ c, set_cpu_instrs (cpu_instrs c + 1) c) s).
  rewrite (bind_Some (upd _) _ s tt s1) by done. rewrite (bind_Some _ _ _ (cpu_pc (cpu s)) s1) by done.
  set (s2 := recount (mem_reads (bus s) + 2) s1).
  assert (fetch16 s1 = Some (w, with_cpu (λ c, set_cpu_pc (cpu_pc c + 2) c) s2)) as Ef.
  { unfold fetch16. rewrite (bind_Some (getc cpu_pc) _ _ (cpu_pc (cpu s)) s1) by done.
    rewrite (bind_Some _ _ _ w s2) by (by apply read16_word). by rewrite (bind_Some (upd _) _ s2 tt (with_cpu (λ c, set_cpu_pc (cpu_pc c + 2) c) s2)) by done. }
  rewrite (bind_Some _ _ _ _ _ Ef). by rewrite (bind_Some (add_cycles 4) _ _ tt _) by done.
Qed.

Lemma branch_op_instrs pc w i c : branch_op pc w (set_cpu_instrs i c) = set_cpu_instrs i (branch_op pc w c).
Proof. done. Qed.
Lemma set_instrs_twice i j c : set_cpu_instrs i (set_cpu_instrs j c) = set_cpu_instrs i c.
Proof. done. Qed.
Lemma block_effect_instrs ws br i c : block_effect ws br (set_cpu_instrs i c) = set_cpu_instrs i (block_effect ws br c).
Proof.
  revert c. induction ws as [|w ws IH]; intros c; cbn [block_effect].
  - destruct br; [|done]. by rewrite <- branch_op_instrs.
  - by rewrite op_effect_instrs, IH.
Qed.
Lemma counted_again n i c c' : set_cpu_instrs (cpu_instrs (set_cpu_instrs i c') + n) c = set_cpu_instrs (i + n) c.
Proof. unfold set_cpu_instrs. cbn [cpu_instrs]. f_equal. unfold u64. lia. Qed.
Lemma recount_twice k k' (f : m68k_cpu → m68k_cpu) (s : mac) : recount k (with_cpu f (recount k' s)) = recount k (with_cpu f s).
Proof. done. Qed.
Lemma instrs_self c : cpu_ok c → set_cpu_instrs (cpu_instrs c + 0) c = c.
Proof. intros []. unfold set_cpu_instrs. rewrite Z.add_0_r, u64_small by lia. by destruct c. Qed.

(** The same machine with another CPU, up to the count of reads. *)
Definition same_machine (s s' : mac) : Prop := recount 0 (with_cpu (λ _, cpu s') s) = recount 0 s'.

(** One step of the interpreter on a covered operation. *)
Lemma step_op w (s : mac) (f : m68k_cpu → m68k_cpu) : cpu_halted (cpu s) = 0 → word_at (bus s) (cpu_pc (cpu s)) w →
  (∀ s' : mac, cpu s' = fetched (cpu s) → ∃ f', acts (execute (cpu_pc (cpu s)) w) f' s' ∧ f' (fetched (cpu s)) = counted_step f (cpu s)) →
  m68k_step s = Some (tt, recount (mem_reads (bus s) + 2) (with_cpu (counted_step f) s)).
Proof.
  intros Hh Hw Hex. rewrite (step_fetch w s Hh Hw).
  destruct (Hex (with_cpu fetched (recount (mem_reads (bus s) + 2) s)) eq_refl) as (f' & E & Ef). rewrite E.
  do 2 f_equal. unfold with_cpu, recount, with_bus. cbn [cpu]. by rewrite Ef.
Qed.
Lemma step_plain w (s : mac) : opcode w → plain_op w = true → cpu_ok (cpu s) → cpu_halted (cpu s) = 0 →
  word_at (bus s) (cpu_pc (cpu s)) w →
  m68k_step s = Some (tt, recount (mem_reads (bus s) + 2) (with_cpu (counted_step (op_effect w)) s)).
Proof.
  intros Hw Hp Hc Hh Hat. apply (step_op w); [done|done|]. intros s' Es.
  exists (λ c, more_cycles (op_cycles w - 4) (op_body w c)). split; [|apply plain_fetched].
  apply exec_plain; [done|done|]. rewrite Es. by apply set_cycles_ok, set_pc_ok, set_instrs_ok.
Qed.
Lemma step_branch w (s : mac) : is_bcc_s w = true → cpu_halted (cpu s) = 0 → word_at (bus s) (cpu_pc (cpu s)) w →
  m68k_step s = Some (tt, recount (mem_reads (bus s) + 2) (with_cpu (counted_step (branch_op (cpu_pc (cpu s)) w)) s)).
Proof.
  intros Hb Hh Hat. apply (step_op w); [done|done|]. intros s' Es.
  eexists. split; [apply (exec_branch (cpu_pc (cpu s)) w); [done|by rewrite Es]|apply branch_fetched].
Qed.

(** The interpreter on all of them. *)
Lemma block_steps ws br (s : mac) : Forall (λ w, opcode w ∧ plain_op w = true) ws →
  match br with Some b => is_branch b | None => True end →
  cpu_ok (cpu s) → cpu_halted (cpu s) = 0 → code_words (bus s) (cpu_pc (cpu s)) (block_words ws br) →
  ∃ s', steps (length (block_words ws br)) s = Some (tt, s') ∧ same_machine s s' ∧
    cpu s' = set_cpu_instrs (cpu_instrs (cpu s) + Z.of_nat (length (block_words ws br))) (block_effect ws br (cpu s)).
Proof.
  intros Ho Hb. revert s. induction ws as [|w ws IH]; intros s Hc Hh Hcode.
  - destruct br as [b|].
    + change (block_words [] (Some b)) with [b] in *. cbn [length steps block_effect]. destruct Hcode as [Hat _], Hb as [_ Hb].
      rewrite (bind_Some _ _ _ _ _ (step_branch b s Hb Hh Hat)). by eexists.
    + exists s. split; [done|]. split; [by destruct s|]. symmetry. by apply instrs_self.
  - apply Forall_cons_1 in Ho as [[Hw Hp] Ho].
    change (block_words (w :: ws) br) with (w :: block_words ws br) in *. destruct Hcode as [Hat Hcode].
    cbn [length steps block_effect]. rewrite (bind_Some _ _ _ _ _ (step_plain w s Hw Hp Hc Hh Hat)).
    set (s1 := recount _ _).
    destruct (IH Ho s1) as (s' & E & Es & Ec).
    + by apply set_instrs_ok, op_effect_ok.
    + change (cpu_halted (op_effect w (cpu s)) = 0). by rewrite op_effect_halted.
    + change (cpu_pc (cpu s1)) with (cpu_pc (op_effect w (cpu s))). rewrite op_effect_pc. by apply code_recount.
    + exists s'. split; [exact E|]. split; [exact Es|]. rewrite Ec. subst s1.
      change (cpu (recount _ (with_cpu (counted_step (op_effect w)) s))) with (set_cpu_instrs (cpu_instrs (cpu s) + 1) (op_effect w (cpu s))).
      rewrite block_effect_instrs, set_instrs_twice, counted_again. f_equal.
      cbn [length]. lia.
Qed.
