(* ===== verification/JitEnter.v ===== *)
(** * Entering a compiled block

    The code of a whole block of the operations of JitSpec.v, from the
    prologue to the return, the buffer it is put in, and [enter_block] on it. *)

From Stdlib Require Import ZArith Lia.
From stdpp Require Import base tactics list numbers.
From S2P Require Import Prelude Cpu Step Block MacState MacMem XtEmit XtSim XtExec HostSim Codegen Compile.
From S2P Require Import Flat JitRun JitSize JitSem JitOps JitFlags JitArms JitTail JitBranch JitFrame JitSpec JitStep JitBlock.

#[local] Ltac Zify.zify_post_hook ::= Z.to_euclidean_division_equations.

(** ** The code of the block *)

Section code.
Context (lits : Z → Z) (hi : Z).
#[local] Abbreviation entry := lit_bytes.

(** [block_code] without the return. *)
Definition flushed_code (entry_off : Z) (sr_load : bool) (ops : list (Z * Z)) : K (Z * Z * Z) :=
  offs ← gen_do (prologue entry_off sr_load);
  inline_ops ← body (length ops) ops;
  gen_do epilogue_flush ;;
  mret (offs, inline_ops).

Lemma block_code_return entry_off sr_load ops g x r g' x' :
  flushed_code entry_off sr_load ops (g, x) = Some (r, (g', x')) → g_block_emitted_callx0 g' = false →
  block_code entry_off sr_load ops (g, x) = Some (r, (set_g_code (g_code g' ++ [Jx 0]) g', x')).
Proof.
  unfold flushed_code, block_code. intros E Hc.
  apply bind_inv in E as (offs & s1 & E1 & E). rewrite (bind_Some _ _ _ _ _ E1).
  apply bind_inv in E as (n & s2 & E2 & E). rewrite (bind_Some _ _ _ _ _ E2).
  apply bind_inv in E as ([] & [g3 x3] & E3 & [= <- <- <-]).
  rewrite (bind_Some _ _ _ tt (set_g_code (g_code g3 ++ [Jx 0]) g3, x3)); [done|].
  unfold gen_do in *. destruct s2 as [g2 x2]. cbn [fst snd] in *.
  destruct (epilogue_flush g2) as [[[] g4]|] eqn:E4; [|done]. injection E3 as -> <-.
  unfold epilogue. rewrite (bind_Some _ _ _ _ _ E4).
  rewrite (bind_Some (gets g_block_emitted_callx0) _ g3 false g3) by (unfold gets; by rewrite Hc). done.
Qed.

(** The operations that need the status register. *)
Lemma needs_sr_plain ws br w : Forall (λ w, opcode w ∧ plain_op w = true) ws → w ∈ ws → uses_sr w = true →
  block_needs_sr_load (block_words ws br) = true.
Proof.
  intros Ho Hin Hu. apply existsb_exists. exists w. split.
  - apply list_elem_of_In, elem_of_app. by left.
  - rewrite Forall_forall in Ho. destruct (Ho w (proj1 (list_elem_of_In _ _) Hin)). by apply plain_needs_sr.
Qed.
Lemma needs_sr_branch ws b : is_branch b → f_cc b ≠ 0 → block_needs_sr_load (block_words ws (Some b)) = true.
Proof.
  intros [_ Hb] Hc. apply existsb_exists. exists b. split.
  - apply list_elem_of_In, elem_of_app. right. by left.
  - unfold op_needs_sr. apply orb_true_iff. right. unfold is_bcc_s in Hb. rewrite !andb_true_iff in Hb.
    destruct Hb as [[[-> H1] _] _]. apply negb_true_iff, Z.eqb_neq in H1. change ((b ≫ 8) .& 0xF) with (f_cc b).
    assert (0 ≤ f_cc b < 16) by (apply land_range_r; lia). apply Z.leb_le. lia.
Qed.

Lemma ops_words pc ws : fst <$> ops_at pc ws = ws.
Proof. revert pc. induction ws as [|w ws IH]; intros pc; [done|]. cbn. f_equal. apply IH. Qed.
Lemma ops_length pc ws : length (ops_at pc ws) = length ws.
Proof. revert pc. induction ws as [|w ws IH]; intros pc; [done|]. cbn. f_equal. apply IH. Qed.

Lemma block_code_runs ws br x j lit : let words := block_words ws br in let sl := block_needs_sr_load words in
  Forall (λ w, opcode w ∧ plain_op w = true) ws → match br with Some b => is_branch b | None => True end →
  unfused_tail ws br → (length words ≤ 64)%nat → entered lits lit_bytes hi lit j →
  ∃ r g code j', block_code lit_bytes sl (ops_at (cpu_pc (j_cpu j)) words) (gen_init (assign_registers words) lit, x) = Some (r, (g, x)) ∧
    g_code g = code ++ [Jx 0] ∧ forallb instr_ok code = true ∧ arun lits lit_bytes code false j = Some (false, j') ∧
    same_guest (block_effect ws br (j_cpu j)) (j_cpu j') ∧ cpu_cycles (j_cpu j') / 0x100000000 = hi ∧
    j_reg j' 0 = 0 ∧ cpu_ok (j_cpu j').
Proof.
  intros words sl Ho Hb Hu Hlen Hen. set (ops := ops_at _ words). set (g0 := gen_init _ lit).
  assert (kruns lits lit_bytes (flushed_code lit_bytes sl ops) g0 x j (λ _ g' j',
    (same_guest (block_effect ws br (j_cpu j)) (j_cpu j') ∧ cpu_cycles (j_cpu j') / 0x100000000 = hi ∧
      j_reg j' 0 = 0 ∧ cpu_ok (j_cpu j')) ∧ g_block_emitted_callx0 g' = false)) as H.
  { unfold flushed_code. apply kruns_bind, kruns_gen. eapply runs_mono; [|apply (runs_grows lits lit_bytes); [apply ggrows_prologue| |
      apply (runs_prologue lits lit_bytes hi sl); [apply assign_ok|apply assign_active|exact Hen]]]; [|apply assign_active].
    intros offs g1 j1 [H1 L1]. change (e_len g0) with 0 in L1. apply kruns_bind.
    eapply kruns_mono; [|apply (body_runs lits lit_bytes hi sl ws br (length ops) (cpu_pc (j_cpu j)) g1 x j1 (j_cpu j)); try done].
    - intros n g2 j2 H2. apply kruns_bind, kruns_gen. eapply runs_mono; [|apply (runs_epilogue_flush lits lit_bytes hi sl); exact H2].
      intros [] g3 j3 (? & ? & ? & ? & ?). by apply kruns_ret.
    - unfold ops. by rewrite ops_length.
    - intros w Hin. by apply needs_sr_plain.
    - intros b -> . by apply needs_sr_branch.
    - change lit_bytes with 172. unfold words, block_words in Hlen. rewrite length_app in Hlen. lia. }
  destruct H as (r & g' & code & j' & E & Ec & Hok & Hrun & HQ & Hcall).
  exists r, (set_g_code (g_code g' ++ [Jx 0]) g'), code, j'. split; [by apply block_code_return|].
  split; [cbn; by rewrite Ec|]. done.
Qed.
End code.

(** ** The buffer *)

Definition word_in (code : list Z) (a : Z) : Z :=
  znth code a .| (znth code (a + 1) ≪ 8) .| (znth code (a + 2) ≪ 16) .| (znth code (a + 3) ≪ 24).

Lemma word_in_first w rest : word_in (bytes32 w ++ rest) 0 = u32 w.
Proof.
  unfold word_in. change (znth (bytes32 w ++ rest) 0) with (u8 w). change (znth (bytes32 w ++ rest) (0 + 1)) with (u8 (w ≫ 8)).
  change (znth (bytes32 w ++ rest) (0 + 2)) with (u8 (w ≫ 16)). change (znth (bytes32 w ++ rest) (0 + 3)) with (u8 (w ≫ 24)).
  rewrite (Z.lor_comm _ (_ ≪ 24)), (Z.lor_comm _ (_ ≪ 16)), (Z.lor_comm (u8 w)), !Z.lor_assoc, join32 by apply u8_range.
  rewrite !Z.shiftr_div_pow2 by lia. unfold u8, u32. change (2 ^ 8) with 256. change (2 ^ 16) with 65536. change (2 ^ 24) with 16777216. lia.
Qed.
Lemma znth_skip w rest a : 0 ≤ a → znth (bytes32 w ++ rest) (4 + a) = znth rest a.
Proof.
  intros Ha. unfold znth.
  replace (Z.to_nat (4 + a)) with (4 + Z.to_nat a)%nat by lia. done.
Qed.
Lemma word_in_later w rest a : 0 ≤ a → word_in (bytes32 w ++ rest) (4 + a) = word_in rest a.
Proof. intros Ha. unfold word_in. rewrite <- !Z.add_assoc, !znth_skip by lia. done. Qed.
Lemma word_in_pool ws rest i w : ws !! i = Some w → word_in ((ws ≫= bytes32) ++ rest) (4 * Z.of_nat i) = u32 w.
Proof.
  revert i. induction ws as [|w' ws IH]; intros [|i] E; [done..| |].
  - injection E as ->. change ((w :: ws) ≫= bytes32) with (bytes32 w ++ (ws ≫= bytes32)). rewrite <- app_assoc.
    apply word_in_first.
  - change ((w' :: ws) ≫= bytes32) with (bytes32 w' ++ (ws ≫= bytes32)). rewrite <- app_assoc.
    replace (4 * Z.of_nat (S i)) with (4 + 4 * Z.of_nat i) by lia. rewrite word_in_later by lia. by apply IH.
Qed.

Lemma pool_length m lit : length (literal_pool m lit) = Z.to_nat lit_bytes.
Proof. reflexivity. Qed.

(** The two literals that the block's code loads. *)
Lemma pool_base m lit rest : word_in (literal_pool m lit ++ rest) (lit_off ADDR_CPU_BASE) = HOST_CPU_BASE.
Proof. by apply (word_in_pool (literal_words m lit) rest 0 HOST_CPU_BASE). Qed.
Lemma pool_pc m v rest : word32 v → word_in (literal_pool m (Some v) ++ rest) (lit_off LITERAL_BCC_PC) = v.
Proof. intros. unfold literal_pool. rewrite <- (u32_small v) at 2 by done. by apply (word_in_pool (literal_words m (Some v)) rest 4 v). Qed.

Lemma padded_length bs : Z.of_nat (length bs) < 0xFFFFFF00 →
  align_up_4 (lit_bytes + Z.of_nat (length bs)) = lit_bytes + Z.of_nat (length (padded bs)).
Proof.
  intros Hb. unfold padded. rewrite length_app, length_replicate. unfold padding. change lit_bytes with 172.
  destruct (align_up_4_spec (172 + Z.of_nat (length bs))) as [H1 H2]; [lia|].
  rewrite (land_ones_low _ 3 2) in H1 by done. change (2 ^ 2) with 4 in H1. lia.
Qed.

(** ** Compiling a block of them *)

Lemma compile_make pc s r s' : compiled pc s r s' → compile_code pc s = Some (r, s').
Proof.
  intros [ops pc_end s1 lit s2 ch bo n g e Ed El Ec cap Ee ->]. unfold compile_code.
  rewrite (bind_Some (getm id) _ s (bus s) s) by done. rewrite (bind_Some _ _ _ _ _ Ed).
  destruct (List.last ops (0, 0)) as [op op_pc] eqn:Elast. cbn [fst snd] in *. rewrite (bind_Some _ _ _ _ _ El).
  rewrite (bind_Some (gets id) _ s2 s2 s2) by done. rewrite Ec. rewrite (bind_Some (modify _) _ s2 tt s') by done.
  fold cap. rewrite Ee. destruct (em_overflow e); done.
Qed.

Lemma pc_literal_plain op op_pc (s : mac) : opcode op → plain_op op = true → pc_literal op op_pc s = Some (None, s).
Proof.
  intros Ho Hp. pose proof (all_opcodes (λ w, implb (plain_op w) (negb (f_top w =? 6) &&
    negb ((f_top w =? 5) && (f_szf w =? 3) && (f_mode w =? 1)) && negb (w =? 0x4EF9) && negb (w =? 0x4EBA)))
    ltac:(vm_compute; reflexivity) op Ho) as H. cbv beta in H. rewrite Hp in H. cbn [implb] in H.
  rewrite !andb_true_iff, !negb_true_iff in H. destruct H as [[[H1 H2] H3] H4].
  unfold pc_literal. by rewrite H1, H2, H3, H4.
Qed.
Lemma pc_literal_branch op op_pc (s : mac) : is_branch op → ∃ v, word32 v ∧ pc_literal op op_pc s = Some (Some v, s).
Proof.
  intros [Ho Hp]. pose proof (all_opcodes (λ w, implb (is_bcc_s w) ((f_top w =? 6) && negb (i8 (w .& 0xFF) =? 0) && negb (i8 (w .& 0xFF) =? -1)))
    ltac:(vm_compute; reflexivity) op Ho) as H. cbv beta in H. rewrite Hp in H. cbn [implb] in H.
  rewrite !andb_true_iff in H. destruct H as [[H1 H2] H3].
  unfold pc_literal. rewrite H1, H2, H3. eexists. split; [|reflexivity]. case_match; apply u32_range.
Qed.

(** A block at [pc], where the machine is. *)
Record covered (pc : Z) (ws : list Z) (br : option Z) (s : mac) : Prop := {
  cv_block : block_of (if tight_irq (bus s) pc then 1%nat else Z.to_nat M68K_MAX_OPS_PER_BLOCK) ws br;
  cv_unfused : unfused_tail ws br;
  cv_code : code_words (bus s) pc (block_words ws br);
  cv_pc : cpu_pc (cpu s) = pc;
  cv_ok : cpu_ok (cpu s);
  cv_clean : sr_clean (cpu_sr (cpu s));
  cv_halted : cpu_halted (cpu s) = 0
}.

Lemma covered_branch pc ws br s : covered pc ws br s → match br with Some b => is_branch b | None => True end.
Proof. intros [[_ Hl] _ _ _ _ _ _]. destruct br; [|done]. by destruct Hl as (? & ? & _). Qed.
Lemma covered_length pc ws br s : covered pc ws br s → (1 ≤ length (block_words ws br) ≤ 64)%nat.
Proof.
  intros [[_ Hl] _ _ _ _ _ _]. unfold block_words. rewrite length_app. change (Z.to_nat M68K_MAX_OPS_PER_BLOCK) with 64%nat in Hl.
  destruct br; cbn; [destruct Hl as (_ & _ & Hl)|]; destruct (tight_irq _ _); lia.
Qed.

Lemma last_op pc words : words ≠ [] → ∃ p, List.last (ops_at pc words) (0, 0) = (List.last words 0, p).
Proof.
  revert pc. induction words as [|w words IH]; intros pc H; [done|]. destruct words as [|w' words]; [by eexists|].
  destruct (IH (u32 (pc + 2))) as [p E]; [done|]. exists p. exact E.
Qed.

Lemma pc_literal_block pc ws br (s s' : mac) : covered pc ws br s →
  let last := List.last (ops_at pc (block_words ws br)) (0, 0) in
  ∃ lit, (∀ v, lit = Some v → word32 v) ∧ pc_literal last.1 last.2 s' = Some (lit, s').
Proof.
  intros Hc. pose proof (covered_length _ _ _ _ Hc) as Hlen. pose proof (covered_branch _ _ _ _ Hc) as Hb.
  destruct (last_op pc (block_words ws br)) as [p ->]; [by intros E; rewrite E in Hlen; cbn in Hlen; lia|]. cbn [fst snd].
  unfold block_words in *. destruct br as [b|].
  - cbn [option_list] in *. change (option_list (Some b)) with [b]. rewrite List.last_last.
    destruct (pc_literal_branch b p s' Hb) as (v & Hv & E). exists (Some v). split; [by intros ? [= <-]|done].
  - change (option_list None) with (@nil Z) in *. rewrite app_nil_r in *. exists None. split; [done|].
    pose proof (bk_ops _ _ _ (cv_block _ _ _ _ Hc)) as Ho. destruct ws as [|w ws _] using List.rev_ind; [cbn in Hlen; lia|].
    rewrite List.last_last. apply Forall_app in Ho as [_ [[] _]%Forall_cons_1]. by apply pc_literal_plain.
Qed.

Lemma take_pool m lit (bs buf : list Z) n : n = lit_bytes + Z.of_nat (length (padded bs)) →
  take (Z.to_nat n) (literal_pool m lit ++ padded bs ++ buf) = literal_pool m lit ++ padded bs.
Proof.
  intros ->. rewrite app_assoc. rewrite take_app_le by (rewrite length_app, pool_length; change lit_bytes with 172; lia).
  apply firstn_all2. rewrite length_app, pool_length. change lit_bytes with 172. lia.
Qed.

#[local] Opaque discover pc_literal block_code emit_all xt_flush_pending literal_pool.

Lemma compile_covered pc ws br s : covered pc ws br s → let words := block_words ws br in let sl := block_needs_sr_load words in
  ∃ lit r g k b, (∀ v, lit = Some v → word32 v) ∧
    block_code lit_bytes sl (ops_at pc words) (gen_init (assign_registers words) lit, recount k s) = Some (r, (g, recount k s)) ∧
    let bytes := padded (code_bytes (g_code g)) in
    compile_code pc s = Some (Some (literal_pool (bus s) lit ++ bytes, b), recount k s) ∧
    b_entry_off b = lit_bytes ∧ b_code_size b = lit_bytes + Z.of_nat (length bytes) ∧ (length (g_code g) ≤ 5000)%nat.
Proof.
  intros Hc words sl. pose proof (covered_length _ _ _ _ Hc) as Hlen. fold words in Hlen.
  pose proof Hc as [Hblk Hu Hcode Hpc Hok Hcl Hh].
  destruct (discover_block _ pc ws br s Hblk) as [k Ed]; [by destruct (tight_irq _ _); apply Nat.leb_le|exact Hcode|]. fold words in Ed.
  destruct (pc_literal_block pc ws br s (recount k s) Hc) as (lit & Hlit & El). fold words in El.
  set (lits := λ o, match lit with Some v => if o =? 16 then v else HOST_CPU_BASE | None => HOST_CPU_BASE end).
  destruct (block_code_runs lits (cpu_cycles (cpu s) / 0x100000000) ws br (recount k s) (mk_jst (λ _, 0) (cpu s)) lit)
    as (r & g & _ & _ & Ec & _); [apply Hblk|by eapply covered_branch|done|apply Hlen| |].
  { split; try done; [by unfold lits; destruct lit|intros v ->; done]. }
  fold words sl in Ec. cbn [j_cpu] in Ec. rewrite Hpc in Ec.
  exists lit, r, g, k. destruct r as [[ch bo] n].
  assert (length (g_code g) ≤ 40 + OP_INSTRS * length (ops_at pc words))%nat as Hg.
  { pose proof Ec as Ec'. apply block_code_grows in Ec' as (_ & l & El' & Hl); [|apply assign_active].
    change (g_code g) with (kcode (g, recount k s)). by rewrite El'. }
  rewrite ops_length in Hg.
  destruct (span_emits (length words) (g_code g) Hlen Hg) as (e & rest & Ee & Eo & El' & Eb).
  assert (compiled pc s (Some (literal_pool (bus s) lit ++ padded (code_bytes (g_code g)),
    mk_block pc (pc_after pc words) (Z.of_nat (length (ops_at pc words))) 0 (align_up_4 (lit_bytes + em_len e)) lit_bytes bo ch sl n 0 None 0xFFFFFFFF None
      (cache_sig (assign_registers (fst <$> ops_at pc words))) (cpu_cycles (cpu (recount k s))) (List.last (ops_at pc words) (0, 0)).1
      (List.last (ops_at pc words) (0, 0)).2)) (recount k s)) as C.
  { eapply (Build_compiled pc s _ (recount k s) (ops_at pc words) (pc_after pc words) (recount k s) lit (recount k s) ch bo n g e Ed El).
    - rewrite ops_words. exact Ec.
    - rewrite ops_length. exact Ee.
    - rewrite ops_words, Eo, Eb. do 2 f_equal. rewrite take_pool; [done|]. rewrite El'. apply padded_length.
      rewrite code_bytes_length. unfold OP_INSTRS in Hg. lia. }
  eexists. split; [exact Hlit|]. split; [exact Ec|]. cbv zeta. split; [by apply compile_make|]. split; [done|].
  split; [|unfold OP_INSTRS in Hg; lia]. cbn. rewrite El'. apply padded_length. rewrite code_bytes_length. unfold OP_INSTRS in Hg. lia.
Qed.

(** ** Entering it *)

Definition entering (r : Z) (c : m68k_cpu) : m68k_cpu := set_cpu_chain_budget 1 (set_cpu_current_block (Some r) c).

Lemma op_effect_entering w r c : op_effect w (entering r c) = entering r (op_effect w c).
Proof.
  assert (op_body w (entering r c) = entering r (op_body w c)) as E.
  { unfold op_body, addsub_op, addsub_set, addq_an_op, adda_op, cmp_op, logic_done, addsub_done. cbv zeta.
    assert (∀ gi v c, set_greg gi v (entering r c) = entering r (set_greg gi v c)) as Hg
      by (intros; unfold set_greg; by case_match).
    repeat case_match; rewrite ?Hg; reflexivity. }
  unfold op_effect. by rewrite E.
Qed.
Lemma block_effect_entering ws br r c : block_effect ws br (entering r c) = entering r (block_effect ws br c).
Proof.
  revert c. induction ws as [|w ws IH]; intros c; cbn [block_effect]; [by destruct br|].
  by rewrite op_effect_entering, IH.
Qed.

Section entering.
Context (code : list Z) (size r : Z) (s : mac).

(** The simulation that [enter_block] starts at the block's entry. *)
Definition entry_sim : xt_sim sim_ctx :=
  let m := with_cpu (entering r) s in
  set_ar 1 HOST_STACK_TOP (set_ar 0 0 (set_sim_pc lit_bytes
    (xt_sim_init code size (mk_ctx m code size (replicate (Z.to_nat 0x800) 0))))).
Definition entry_jst : jst := mk_jst (λ k, if k =? 1 then HOST_STACK_TOP else 0) (entering r (cpu s)).

Lemma entering_ok c : cpu_ok c → cpu_ok (entering r c).
Proof. intros Hc. unfold entering. apply set_chain_budget_ok. destruct Hc. by split. Qed.

Lemma entry_shows : cpu_ok (cpu s) → shows entry_sim entry_jst.
Proof.
  intros Hc. split; [split|..]; try done.
  - change (sim_a entry_sim) with ([0; 0x50000800] ++ replicate 14 0). repeat (apply Forall_cons_2; [done|]). apply Forall_nil_2.
  - intros k Hk. unfold entry_sim, entry_jst. cbn [j_reg]. rewrite !ar_set_ar by (done || lia).
    destruct (k =? 1); [done|]. destruct (k =? 0); [done|]. unfold ar. cbn [sim_a set_sim_pc xt_sim_init].
    unfold znth. generalize (Z.to_nat k) as i. intros i. do 16 (destruct i as [|i]; [done|]). by destruct i.
  - by apply entering_ok.
Qed.

Lemma entry_literal a : 0 ≤ a → a + 4 ≤ size < 0x100000000 → sim_read_literal entry_sim a = word_in code a.
Proof.
  intros Ha Hs. unfold sim_read_literal. change (ctx_code_size (sim_user entry_sim)) with size.
  rewrite u32_small, (proj2 (Z.ltb_ge size (a + 4))) by lia. done.
Qed.
End entering.

Lemma code_at_entry m lit r s prog n : let code := literal_pool m lit ++ padded (code_bytes prog) in
  (n < 3 * length prog)%nat → code_at (entry_sim code (lit_bytes + Z.of_nat (length (padded (code_bytes prog)))) r s) (lit_bytes + Z.of_nat n) = code_bytes prog !! n.
Proof.
  intros code Hn. unfold code_at. change lit_bytes with 172. rewrite (proj2 (Z.ltb_ge (172 + _) 0)) by lia.
  change (sim_code (entry_sim code _ r s)) with code. unfold code.
  rewrite lookup_app_r by (rewrite pool_length; change lit_bytes with 172; lia). rewrite pool_length. change lit_bytes with 172.
  replace (Z.to_nat (172 + Z.of_nat n) - Z.to_nat 172)%nat with n by lia. unfold padded.
  apply lookup_app_l. by rewrite code_bytes_length.
Qed.

(** The return ends the run. *)
Lemma run_return (y : xt_sim sim_ctx) m : running y → ar y 0 = 0 → at_pc y [Jx 0] →
  ∃ z, xt_sim_run (S (S m)) y = Some (tt, z) ∧ sim_st z = XT_SIM_RETURNED ∧ sim_user z = sim_user y.
Proof.
  intros Hy H0 Hat. pose proof (at_pc_step y (Jx 0) [] Hy eq_refl Hat) as E.
  unfold sem in E. rewrite sem_bind_id, H0 in E. cbn [Z.eqb andb] in E.
  rewrite (run_round _ _ _ (rn_run _ Hy) E). eexists. split; [reflexivity|done].
Qed.

(** The simulator on the code of a block, from its entry to its return. *)
Lemma run_block mem lit r (s : mac) size prog code j' : prog = code ++ [Jx 0] →
  size = lit_bytes + Z.of_nat (length (padded (code_bytes prog))) →
  let bytes := literal_pool mem lit ++ padded (code_bytes prog) in
  let x := entry_sim bytes size r s in
  cpu_ok (cpu s) → (length prog ≤ 5000)%nat → forallb instr_ok code = true →
  arun (sim_read_literal x) lit_bytes code false (entry_jst r s) = Some (false, j') → j_reg j' 0 = 0 →
  ∃ z, xt_sim_run max_steps x = Some (tt, z) ∧ sim_st z = XT_SIM_RETURNED ∧
    ctx_cpu (sim_user z) = with_cpu (λ _, j_cpu j') s.
Proof.
  intros Eprog Esize bytes x Hc Hlen Hok Hrun H0.
  assert (length (code_bytes prog) = 3 * length prog)%nat as Hb by apply code_bytes_length.
  assert (length prog = S (length code)) as Hp by (rewrite Eprog, length_app; cbn; lia).
  assert (Z.of_nat (length (code_bytes prog)) ≤ Z.of_nat (length (padded (code_bytes prog))) ≤ 15004) as Hpad.
  { unfold padded. rewrite length_app, length_replicate. unfold padding. lia. }
  destruct (run_code (sim_read_literal x) code false x (entry_jst r s) false j') as (n & y & Hn & Hstep & Hy & Hsh & Hpc); try done.
  - by apply entry_shows.
  - change (sim_code_size x) with size. rewrite Esize. change lit_bytes with 172. lia.
  - change (sim_pc x) with lit_bytes. change (sim_code_size x) with size. lia.
  - intros n Hn. change (sim_pc x) with lit_bytes. rewrite Z.sub_0_r.
    unfold x, bytes. rewrite Esize, code_at_entry by lia. rewrite Eprog. unfold code_bytes. rewrite bind_app.
    apply lookup_app_l. pose proof (code_bytes_length code) as E. unfold code_bytes in E. by rewrite E.
  - change (sim_pc x) with lit_bytes in Hpc. rewrite Z.sub_0_r, Z.add_0_r in Hpc.
    assert (at_pc y [Jx 0]) as Hat.
    { assert (sim_code y = sim_code x) as Ecode by exact (f_equal (λ z, z.1.1) Hsh).
      assert (sim_code_size y = size) as Esz by exact (f_equal (λ z, z.1.2) Hsh).
      split; rewrite Hpc; [rewrite Esz; cbn [length]; lia|].
      intros k Hk. cbn [length] in Hk. unfold code_at. rewrite Ecode.
      pose proof (code_at_entry mem lit r s prog (3 * length code + k)) as E. cbv zeta in E. rewrite <- Esize in E. fold bytes in E.
      fold x in E. unfold code_at in E.
      replace (lit_bytes + 3 * Z.of_nat (length code) + Z.of_nat k) with (lit_bytes + Z.of_nat (3 * length code + k)) by lia.
      rewrite E by lia. rewrite Eprog. unfold code_bytes. rewrite bind_app.
      pose proof (code_bytes_length code) as E'. unfold code_bytes in E'. rewrite lookup_app_r by lia.
      f_equal. lia. }
    destruct (run_return y (max_steps - n - 2) (sh_running _ _ Hy)) as (z & E & Hz & Hu); [by rewrite (sh_regs _ _ Hy)|done|].
    exists z. split_and!; [|done|].
    + rewrite <- Hstep in E. rewrite <- E. f_equal. unfold max_steps. change (1 ≪ 22) with 4194304. lia.
    + rewrite Hu. assert (with_cpu (λ _, cpu_zero) (ctx_cpu (sim_user y)) = with_cpu (λ _, cpu_zero) s) as Es
        by exact (f_equal (λ z, ctx_cpu z.2) Hsh).
      rewrite <- (sh_cpu _ _ Hy). unfold guest_cpu. destruct (ctx_cpu (sim_user y)) as [c m l k], s as [c' m' l' k'].
      unfold with_cpu in Es. cbn in Es. injection Es as -> -> ->. done.
Qed.

Lemma same_guest_other c c' d : same_guest c d → cpu_d c' = cpu_d c → cpu_a c' = cpu_a c → cpu_pc c' = cpu_pc c →
  cpu_sr c' = cpu_sr c → cpu_cycles c' = cpu_cycles c → cpu_rest c' = cpu_rest c → same_guest c' d.
Proof. unfold same_guest. by intros H -> -> -> -> -> ->. Qed.

(** C1. The translation of a block of register operations is correct.  Let RAM
    or ROM hold, at the PC, up to 64 (in ROM: one) of MOVEQ, NOP, MOVE.L,
    MOVEA.L, ADD.L, SUB.L, ADDA.L, SUBA.L, ADDQ, SUBQ, NEG.L, CMP.L, AND.L, OR.L
    and EOR.L between registers, with a Bcc.S or BRA.S after them unless they fill
    the block, and no pair that the compiler fuses.  Then the block compiler
    succeeds; the bytes that it puts in the cache, entered at the block's
    entry, run to the return; and they leave the same data and address
    registers, PC, SR, cycle count (its low word; the high word stays) and
    other fields as [m68k_step] on each of the operations, and the rest of the
    machine, memory included, as it was. *)
Theorem compiled_block_correct pc ws br r (s : mac) : covered pc ws br s →
  ∃ code b s1 n s2 s3, compile_code pc s = Some (Some (code, b), s1) ∧
    enter_block code r b (b_entry_off b) s1 = Some (n, s2) ∧
    steps (length (block_words ws br)) s = Some (tt, s3) ∧
    same_guest (cpu s3) (cpu s2) ∧ same_machine s2 s3 ∧
    cpu_cycles (cpu s2) / 0x100000000 = cpu_cycles (cpu s) / 0x100000000.
Proof.
  intros Hcov. pose proof (covered_branch _ _ _ _ Hcov) as Hb. pose proof (covered_length _ _ _ _ Hcov) as Hlen.
  destruct (compile_covered _ _ _ _ Hcov) as (lit & cr & g & k & b & Hlit & Ec & E & Eoff & Esize & Hg).
  pose proof Hcov as [Hblk Hu Hcode Hpc Hok Hcl Hh].
  destruct (block_steps ws br s) as (s3 & E3 & Hm3 & Ec3); [apply Hblk|done|done|done|by rewrite Hpc|].
  set (words := block_words ws br) in *. set (sl := block_needs_sr_load words) in *. set (s1 := recount k s) in *.
  set (code := literal_pool (bus s) lit ++ padded (code_bytes (g_code g))) in *. set (size := b_code_size b) in *.
  assert (Z.of_nat (length (padded (code_bytes (g_code g)))) ≤ 15004) as Hpad.
  { unfold padded. rewrite length_app, length_replicate, code_bytes_length. unfold padding. lia. }
  change lit_bytes with 172 in Esize.
  set (x := entry_sim code size r s1). set (j := entry_jst r s1).
  assert (entered (sim_read_literal x) lit_bytes (cpu_cycles (cpu s) / 0x100000000) lit j) as Hen.
  { split; try done.
    - unfold x. change (lit_off ADDR_CPU_BASE) with 0. rewrite entry_literal by lia. apply pool_base.
    - intros v ->. unfold x. change (lit_off LITERAL_BCC_PC) with 16. rewrite entry_literal by lia. by apply pool_pc, Hlit.
    - intros i. cbn. by destruct (i =? 1).
    - by apply entering_ok. }
  destruct (block_code_runs (sim_read_literal x) (cpu_cycles (cpu s) / 0x100000000) ws br s1 j lit)
    as (cr' & g' & cs & j' & Ec' & Eg & Hoks & Hrun & Hsame & Hhi & H0 & _); [apply Hblk|done|done|apply Hlen|exact Hen|].
  fold words sl in Ec'. change (cpu_pc (j_cpu j)) with (cpu_pc (cpu s)) in Ec'. rewrite Hpc, Ec in Ec'. injection Ec' as <- <-.
  destruct (run_block (bus s) lit r s1 size (g_code g) cs j' Eg Esize) as (z & Ez & Hz & Hctx); [done..|].
  exists code, b, s1, (sim_instr_count z), (with_cpu (λ _, j_cpu j') s1), s3.
  split; [exact E|]. split.
  { unfold enter_block, preload. rewrite Z.eqb_refl, Eoff. fold size.
    change (set_ar 1 HOST_STACK_TOP _) with x. change (xt_sim_run max_steps x = Some (tt, z)) in Ez.
    rewrite Ez. rewrite decide_True by done. by rewrite Hctx. }
  split; [exact E3|]. split; [|split].
  - change (j_cpu j) with (entering r (cpu s)) in Hsame. rewrite block_effect_entering in Hsame.
    rewrite Ec3. eapply same_guest_other; [exact Hsame|done..].
  - unfold same_machine in *. rewrite <- Hm3. done.
  - exact Hhi.
Qed.

(** Whether the words are there. *)
Definition word_atb (m : mac_mem) (a w : Z) : bool :=
  match mem_ptr m (mem_addr a) with
  | Some p => match deref m p 0, deref m p 1 with Some hi, Some lo => u16 (u16 (hi ≪ 8) .| lo) =? w | _, _ => false end
  | None => false
  end.
Fixpoint code_wordsb (m : mac_mem) (pc : Z) (ws : list Z) : bool :=
  match ws with [] => true | w :: ws => word_atb m pc w && code_wordsb m (u32 (pc + 2)) ws end.
Lemma word_atb_spec m a w : word_atb m a w = true → word_at m a w.
Proof.
  unfold word_atb. destruct (mem_ptr _ _) as [p|] eqn:Ep; [|done]. destruct (deref m p 0) as [h|] eqn:Eh; [|done].
  destruct (deref m p 1) as [l|] eqn:El; [|done]. intros E%Z.eqb_eq. by exists p, h, l.
Qed.
Lemma code_wordsb_spec m pc ws : code_wordsb m pc ws = true → code_words m pc ws.
Proof.
  revert pc. induction ws as [|w ws IH]; intros pc; [done|]. cbn. rewrite andb_true_iff. intros [H1 H2].
  split; [by apply word_atb_spec|by apply IH].
Qed.

Lemma compiled_block_correct_witness :
  let ws := [0x7207; 0x2401; 0xD481; 0x5382; 0xB481; 0xB182; 0x2042; 0xD1C1] in
  ∃ code b s1 n s2 s3, compile_code 0x100 (program prog_plain) = Some (Some (code, b), s1) ∧
    enter_block code 1 b (b_entry_off b) s1 = Some (n, s2) ∧ steps 9 (program prog_plain) = Some (tt, s3) ∧
    same_guest (cpu s3) (cpu s2) ∧ same_machine s2 s3 ∧
    cpu_cycles (cpu s2) / 0x100000000 = cpu_cycles (cpu (program prog_plain)) / 0x100000000.
Proof.
  intros ws. apply (compiled_block_correct 0x100 ws (Some 0x66EE) 1 (program prog_plain)). split.
  - split; [|split; [done|split; [done|apply Nat.ltb_lt; vm_compute; reflexivity]]].
    repeat (apply Forall_cons_2; [split; [done|vm_compute; reflexivity]|]). apply Forall_nil_2.
  - intros w b [= <-] [= <-]. vm_compute; reflexivity.
  - apply code_wordsb_spec. vm_compute; reflexivity.
  - reflexivity.
  - apply cpu_okb_spec. vm_compute; reflexivity.
  - done.
  - reflexivity.
Defined.
